(* ===== verification/_CoqProject ===== *)
-Q . S2P
Prelude.v
ListFacts.v
PyStr.v
Sha256.v
Json.v
JsonFacts.v
JsonTermination.v
Rfc8785Reference.v
Contract.v
ContractFacts.v
WireFacts.v
Scan.v
ScanFacts.v
Replay.v
ReplayFacts.v
Expire.v
ExpireFacts.v
Wire.v
WireNested.v
CommitFacts.v
TransitionFacts.v
Ledger.v
LedgerFacts.v
LedgerOps.v
LedgerIssue.v
LedgerClaims.v
CasState.v
CasFacts.v
ExpireOps.v
RetryOps.v
ScanOps.v
ClaimOps.v
Reachability.v
Refinement.v
Availability.v
Scenario.v
CasTheorems.v
LedgerTheorems.v
WireTheorems.v
TaskState.v
Reconciliation.v
Stream.v
StreamFacts.v
ProtocolTheorems.v
Identity.v
IdentityFacts.v
Credentials.v
IdentityTheorems.v
Models.v
Dispatcher.v
PlanFacts.v
DispatchFacts.v
DispatchRuns.v
OrchestratorTheorems.v
ConfigSlots.v
ConfigFacts.v
ConfigReading.v
ConfigTheorems.v
Operations.v
JsonBytes.v
Envelope.v
BindingAuth.v
EnvelopeFacts.v
CalendarFacts.v
BindingFacts.v
SigningFacts.v
BindingTheorems.v
StreamControl.v
ControlEnvelope.v
ControlFacts.v
ControlTheorems.v
Response.v
ReplyTheorems.v
Transport.v
TransportFacts.v
WireEnvelopes.v
TransportTheorems.v
Agent.v
AgentFacts.v
AgentTheorems.v
