(* ===== verification/Prelude.v ===== *)
(** * A2AMesh: a verification library

    A2AMesh lets agents of several runtimes talk A2A over NATS.  What must be
    right for that, whatever the network does, are its contracts: modules
    that validate records, compute identities and make the next state, the signed
    binding of A2A operations to NATS messages, and the coroutines that schedule and
    run tasks.  This library models those modules and proves what they promise.
    Paths below are relative to [src/a2amesh/] of the repository.

    ** The modelled parts

    The expiry of artifact holds, [state_contracts/artifact_hold.py] (the whole
    file).  A reaper scans a hold that is due and is issued a candidate: a lease
    with a bearer token and a fence.  With the candidate it expires the hold,
    which writes a commit and two event records.  When the reply was lost, a
    replay claim issues a new candidate that may only ask for the stored result.
    All state is one snapshot that a compare-and-set store replaces, so every
    operation is a function from a snapshot and a request to a snapshot and a
    reply.
    - [Contract.v]: constants, field checks, the canonical JSON parser, the
      preimages of operation identities.
    - [Scan.v], [Expire.v], [Replay.v]: one Module per dataclass, with the record
      as [t] and its methods under their own names ([validate], [create],
      [to_wire_dict], [from_canonical_json], digests).
    - [Ledger.v]: [LedgerEntry] and [LedgerState], whose [validate] is a sequence
      of definitions, one for each loop of the method.
    - [CasState.v]: the snapshot [CASState] and the operations
      [apply_artifact_hold_expiry_scan], [apply_artifact_hold_expiry] and
      [apply_artifact_hold_expiry_replay_claim].

    The NATS binding, [bindings/nats_v1/].  A client signs a request envelope and
    publishes it; a server decodes it, asks who the caller is, verifies route,
    times, signature and freshness, dispatches the operation to the application,
    and replies with a response envelope.  A live stream is opened, acknowledged
    and closed by signed control commands and consists of frames that a cursor
    admits.
    - [Operations.v]: the registry of A2A operations and the dispatch of unary ones
      ([core/operations.py], [core/application.py]).
    - [JsonBytes.v], [Envelope.v]: JSON on bytes, timestamps, and the request
      envelope ([envelope.py]); [BindingAuth.v]: signing and the verifier
      ([auth.py]); [Response.v]: responses and the wire form of open responses
      ([response.py], [stream.py]).
    - [Transport.v]: [V1NatsClient.request] and [V1NatsServer._handle]
      ([transport.py]), which compose the files above.
    - [Stream.v]: frames, the cursor, the checks of an open response ([stream.py]);
      [StreamControl.v], [ControlEnvelope.v]: the control payloads with the digest of
      an open request, their signed envelope and its verifier
      ([stream_control.py], [stream_control_envelope.py]).

    Tasks and plans.
    - [Agent.v]: how a runtime claims, runs, joins and cancels tasks
      ([runtime/agent.py]); [Models.v]: the data models of [contracts/models.py].
    - [Dispatcher.v]: the orchestrator's dispatcher with tracker and aggregator
      ([orchestrator/dispatcher.py], [tracker.py], [aggregator.py]).
    Both are machines of coroutines that interleave at their [await]s: a state is
    what the objects are while all coroutines are suspended, and an event is one
    resumption together with what the awaited call returned.
    - [TaskState.v]: the lifecycle of a task ([protocol/state_machine.py]).

    Identity and configuration.  [Identity.v]: principals and the alias registry,
    the encodings around an NKey signature, authentication contexts with their
    verifier; [Credentials.v]: the credential store ([identity/]).
    [Reconciliation.v]: the identities of reconciliation operations
    ([state_contracts/reconciliation.py]).  [ConfigSlots.v]: the required slots of
    a signed configuration bundle ([config_slots.py]).

    ** How the model reads

    A function that may raise returns a [result]; [exn] lists the exceptions,
    with their message where the source gives one; a message that ends in a quoted
    value is cut before it.  A [str] is the list of its code
    points, [bytes] the list of its bytes, an [int] is a [Z]; the code bounds its
    integers by checks, and the model has the same checks.  A value decoded from
    JSON, or an argument whose type a function checks itself, is a [json].
    Frozen dataclasses are records; a method that returns a changed copy is a
    function; a list used as a ledger is a list, a dict in insertion order an
    association list, and one used as a table a [gmap].  The standard library is
    modelled where it is used:
    [PyStr.v] (strip, UTF-8, decimal, hex, base64), [Sha256.v] (FIPS 180-4, with
    test vectors), [Json.v] and [JsonBytes.v] ([json.loads] with its hooks,
    [json.dumps]), the calendar of [datetime] in [Envelope.v], and HMAC and base32
    beside their uses.

    Parameters are classes.  The serialiser [rfc8785] is [RFC8785], together with
    how deep the interpreter lets it and [json.loads] nest; [RFC8785Spec] is its
    documented behaviour, and sixteen levels at least.  [Rfc8785Reference.v]
    implements both and recomputes the repository's golden vectors in [Scenario.v].  The protobuf runtime is
    [A2AProtobuf] for messages and [StreamProtobuf] with the round trip
    [StreamProtobufSpec] for frames; the numbers of the task states are
    [TaskStates] with [TaskStatesSpec].  The JSON Schema validators are
    [RequestSchema], [ControlSchemas], [ControlEnvelopeSchema] and
    [ResponseSchemas]; [datetime.fromisoformat] is [IsoParser]; the signature
    packages [nkeys] and [nacl] are [NKeys].  What a deployment supplies is a
    class as well: the replay guard [RequestReplayGuard], of which
    [RefusingGuard] says only that it refuses a granted request again until the
    instant it was given (guards that forget it then, that keep it for the clock
    skew and that never forget it are instances in [BindingTheorems.v]),
    the connection [NatsRequestConnection], the application, the resolver of
    callers and [str(exc)] in [Deployment], the file system in [Paths].
    Theorems that need a parameter's behaviour name it, as [payload_reads] and
    [iso_reads] do, and their witnesses give a concrete instance.  Random bytes,
    clocks and fresh identifiers are arguments.

    The recursion limit.  [_parse_canonical_object] meets it on input that nests
    deeply: the decoder enters at most [loads_nesting] arrays and objects inside
    one another, the serialiser fails beyond [dumps_nesting], and the
    [RecursionError] escapes.  The readers of the NATS binding are modelled without
    the limit.

    Fuel is another thing, and its end is marked by [OutOfFuel], which is no
    exception of the program.  [json_loads] starts with fuel for two calls per
    character of its text;
    [JsonTermination.v] proves this is enough for every text.  The depth-first
    search of a plan starts with one more than the number of its steps, which
    [PlanFacts.v] proves to be enough.  SHA-256 and the
    decimal digits recurse on the length of their input.  The loop that draws a
    token different from the lease identifier consumes a given list of draws;
    [draw_distinct_terminates] says when it ends.  Nothing else needs fuel.

    ** The proofs

    Each file of records or operations has companions.  Artifact holds:
    [ContractFacts.v],
    [ScanFacts.v], [ReplayFacts.v], [ExpireFacts.v], [CommitFacts.v],
    [LedgerFacts.v] and [CasFacts.v] replace every [validate] by a predicate it
    is equivalent to ([ledger_valid], [cas_valid]).  [WireFacts.v], [Wire.v],
    [WireNested.v] prove the codecs.  [TransitionFacts.v], [LedgerOps.v],
    [LedgerIssue.v], [LedgerClaims.v], [ExpireOps.v], [RetryOps.v], [ScanOps.v]
    and [ClaimOps.v] determine each operation on well-formed snapshots: when it
    succeeds, what it returns, and that its final [validate] accepts the result.
    [Reachability.v] has the histories of a snapshot as a step relation,
    [Refinement.v] the abstract machine [LeaseSpec] and the abstraction,
    [Availability.v] what stays true in later snapshots.

    The binding: [EnvelopeFacts.v], [CalendarFacts.v] and [SigningFacts.v] on what an
    envelope keeps when it is written and signed, [BindingFacts.v] on the
    verifier and its guard, [ControlFacts.v] on control payloads and the digest,
    [StreamFacts.v] on the cursor and on a caller that offers it one frame after the
    other,
    [WireEnvelopes.v] on bytes that are read back,
    [TransportFacts.v] on the server and the client.  Tasks
    and plans: [AgentFacts.v] has the invariant of interleaved requests;
    [PlanFacts.v], [DispatchFacts.v] and [DispatchRuns.v] the search, the invariant and the
    progress of a run.  [IdentityFacts.v], [ConfigFacts.v] and [ConfigReading.v]
    serve identity and configuration.

    ** The theorems

    - [CasTheorems.v]: every operation refines [LeaseSpec]; a hold expires at most
      once; each operation is characterised exactly on its first call, on retries
      and for callers without authority; and the calls that must be possible are
      (a due hold can be scanned, a live candidate can expire it, a finished
      claim can be followed by another).
    - [LedgerTheorems.v]: the validations are equivalent to relational invariants;
      histories preserve them and only append; tokens and fences identify
      entries, leases of claims do not overlap, commits, consumed candidates and
      event records determine each other.
    - [TransportTheorems.v]: a client's call reaches its handler and returns what the
      handler returned, through both encodings; which messages reach a handler, and that
      none does twice until its claim expires; what is replied.
    - [BindingTheorems.v]: the verifier exactly, how long the guard refuses a replay
      and how long the verifier's own checks would accept it, signatures that verify, the round trip of envelopes and its
      loss of fractions of a second, the dispatch of unary operations.
    - [ControlTheorems.v], [ReplyTheorems.v]: the digest of an open request
      determines it, control commands cannot stand in for one another, payloads
      and responses are read back.
    - [AgentTheorems.v]: a task is run once and has one result; when a task is lost.
    - [OrchestratorTheorems.v]: the accepted plans; calls only after their
      dependencies; bounds on attempts and pauses; every run ends, with the
      outcome of each step.
    - [ProtocolTheorems.v]: the transition table is the lifecycle of a task, and
      what a history of accepted transitions looks like; reconciliation
      identities are injective and their domains apart; the cursor admits a
      stream in order, and all of it exactly when every frame arrives at least once
      after the one before it.  The loop that offers the frames and keeps the cursor
      when [accept] raises is the caller's, [deliver_all] of [StreamFacts.v]: the
      program has no such loop.
    - [IdentityTheorems.v]: aliases never chain and stay; the verifier of
      authentication contexts accepts exactly what it should and refuses a replay
      until the context expires, but not in the clock skew after that; which bearer
      tokens are accepted, for whom and until when.
    - [ConfigTheorems.v]: which bundles have required slots, and which they are.
    - [WireTheorems.v]: bearer tokens, injective preimages, a parser that always
      ends and fails closed but for two exceptions of the interpreter, and codecs
      that are exact inverses.
    A theorem that needs a hypothesis has a witness of the same name, for the
    artifact holds in the run of [Scenario.v].

    Some theorems show behaviour that looks unintended:
    [CasTheorems.burned_fence_blocks_scan] (a high-water above the last fence is
    valid and blocks scanning), [WireTheorems.long_integer_escapes] (an integer of
    more than 4300 digits escapes the parser as a plain [ValueError]),
    [WireTheorems.parse_fails_closed] (so does the [RecursionError] of deeply nested
    input), [IdentityTheorems.auth_replay_window] (a request is accepted a second
    time in the clock skew), [BindingTheorems.binding_replay_window] (the guard is not
    told of the clock skew in which the verifier still accepts a request),
    [BindingTheorems.envelope_roundtrip] (an accepted envelope that is refused when it
    is read), [TransportTheorems.server_replies] (a failed request without a
    reply), [AgentTheorems.task_lost_exactly] (a task that stays working for
    ever).

    ** Not modelled

    Hash collisions are possible in the model as they are in reality: theorems
    speak of digests or of what is hashed, never of inverting a digest.  The
    interpreter's limit on memory is left out, and its limit on recursion but for
    the canonical parser: the search of a plan recurses once for each step of a chain
    of dependencies, and raises [RecursionError] on chains of about a thousand, and
    so do the readers of the binding on input that nests as deep.  Left out is the
    compare-and-set store, whose atomic replacement is the step of a history.

    Of modelled files: starting and stopping a server and the bookkeeping of its
    asyncio tasks ([transport.py]; its messages are handled one after the other in
    the model); starting and closing a runtime, its agent card and its memory
    tools ([runtime/agent.py]); the hash of an OAuth issuer, which lower-cases
    Unicode text ([identity/]); pydantic's parsing ([contracts/models.py]).

    Left out altogether, being subprocess, file or network I/O around libraries:
    the executor of command lines and its adapters ([runtime/executor.py],
    [runtime/adapters/]), the planner and the runtime of the orchestrator, which
    prompt an agent and register a peer, the deprecated private RPC
    ([a2anats/]), the conversation memory, which is a key-value bucket of JetStream
    ([memory/]), tools and the MCP bridge, the command line and the
    configuration files that pydantic reads ([config.py]). *)
From Corelib Require Export ssreflect.
From stdpp Require Export base tactics gmap sets list sorting strings.
From Stdlib Require Export ZArith NArith Lia ZifyBool ZifyN ZifyNat.
#[global] Open Scope general_if_scope.
#[global] Set SsrOldRewriteGoalsOrder.

(** ** Exceptions and the result monad

    A Python call either returns a value or raises.  [exn] lists the exception
    classes the modelled code raises; the contract's own classes carry the
    message of the [raise] statement. *)
Inductive exn :=
| ArtifactHoldExpiryConflict (msg : string)
| ValueError (msg : string)
| RuntimeError (msg : string)
| BindingValidationError (msg : string)
| InvalidParamsError (msg : string)
| UnicodeError
| JSONDecodeError
| CanonicalizationError
| SerializeToJsonError
| ParseError
| TypeError
| RecursionError
| KeyError
| RequiredSlotError (msg : string)
| InvalidRequestError (msg : string)
| InvalidAgentResponseError (msg : string)
| JsonRpcError (code : Z) (msg : string)
| BindingTransportError (msg : string)
(** [BindingRemoteError(BindingError(type, message, retryable))] *)
| BindingRemoteError (type message : list N) (retryable : bool)
(** an error of the A2A package that has no constructor of its own here *)
| A2AError (type_name msg : string)
| TimeoutError
(** not an exception: a recursion of the model that ran out of fuel *)
| OutOfFuel.

#[global] Instance exn_eq_dec : EqDecision exn.
Proof. solve_decision. Defined.

Inductive result (A : Type) :=
| Ok (a : A)
| Err (e : exn).
Arguments Ok {A} a.
Arguments Err {A} e.

#[global] Instance result_ret : MRet result := @Ok.
#[global] Instance result_bind : MBind result := fun A B f m =>
  match m with Ok a => f a | Err e => Err e end.
#[global] Instance result_fmap : FMap result := fun A B f m =>
  match m with Ok a => Ok (f a) | Err e => Err e end.

Definition is_ok {A} (m : result A) : bool :=
  match m with Ok _ => true | Err _ => false end.

(** [if c: raise e] *)
Definition raise_if (c : bool) (e : exn) : result unit :=
  if c then Err e else Ok tt.

(** [x] when it is there, [raise e] when it is [None] *)
Definition or_raise {A} (o : option A) (e : exn) : result A :=
  match o with Some a => Ok a | None => Err e end.

(** [try: m except caught: raise e] *)
Definition except {A} (m : result A) (caught : exn -> bool) (e : exn) : result A :=
  match m with
  | Ok a => Ok a
  | Err e' => Err (if caught e' then e else e')
  end.

(** A [for] loop whose body updates loop-carried variables and may raise. *)
Fixpoint foldM {S A} (f : S -> A -> result S) (s : S) (l : list A) : result S :=
  match l with
  | [] => Ok s
  | a :: l => f s a ≫= fun s' => foldM f s' l
  end.

(** A [for] loop whose body only checks. *)
Fixpoint forM_ {A} (f : A -> result unit) (l : list A) : result unit :=
  match l with
  | [] => Ok tt
  | a :: l => f a ≫= fun _ => forM_ f l
  end.

(** A comprehension whose element expression may raise. *)
Fixpoint mapR {A B} (f : A -> result B) (l : list A) : result (list B) :=
  match l with
  | [] => Ok []
  | a :: l => f a ≫= fun b => mapR f l ≫= fun bs => Ok (b :: bs)
  end.

(** A filtering comprehension whose condition may raise. *)
Fixpoint filterR {A} (f : A -> result bool) (l : list A) : result (list A) :=
  match l with
  | [] => Ok []
  | a :: l => f a ≫= fun b : bool => filterR f l ≫= fun l' => Ok (if b then a :: l' else l')
  end.

(** [sorted(l, key=key)], stable: [a] comes from before [b] in the list. *)
Fixpoint insert_by {A} (key : A -> Z) (a : A) (l : list A) : list A :=
  match l with
  | [] => [a]
  | b :: l' => if (key a <=? key b)%Z then a :: l else b :: insert_by key a l'
  end.
Definition sorted_by {A} (key : A -> Z) (l : list A) : list A := foldr (insert_by key) [] l.

(** [max(l, key=key) if l else None]: the first of the greatest elements *)
Definition max_by {A} (key : A -> Z) (l : list A) : option A :=
  match l with
  | [] => None
  | a :: l => Some (fold_left (fun m b => if (key m <? key b)%Z then b else m) l a)
  end.

(** [l.index(a)], [None] standing for the [ValueError] *)
Fixpoint index_of {A} `{EqDecision A} (a : A) (l : list A) : option nat :=
  match l with
  | [] => None
  | b :: l => if bool_decide (b = a) then Some O else S <$> index_of a l
  end.

(** [l.count(a)] *)
Definition count {A} `{EqDecision A} (a : A) (l : list A) : nat :=
  length (List.filter (fun b => bool_decide (b = a)) l).

(** Dictionaries in insertion order, as association lists with distinct keys. *)
Section Dict.
Context {K V : Type} `{EqDecision K}.

Fixpoint dict_get (k : K) (d : list (K * V)) : option V :=
  match d with
  | [] => None
  | (k', v) :: d => if bool_decide (k = k') then Some v else dict_get k d
  end.

Definition dict_mem (k : K) (d : list (K * V)) : bool := bool_decide (k ∈ map fst d).
End Dict.

(** [d.setdefault(k, []).append(v)] *)
Fixpoint setdefault_append {K V} `{EqDecision K} (k : K) (v : V) (d : list (K * list V))
    : list (K * list V) :=
  match d with
  | [] => [(k, [v])]
  | (k', vs) :: d =>
    if bool_decide (k = k') then (k', vs ++ [v]) :: d else (k', vs) :: setdefault_append k v d
  end.

(** consecutive pairs: [zip(l, l[1:])] *)
Fixpoint adjacent {A} (l : list A) : list (A * A) :=
  match l with
  | a :: ((b :: _) as l') => (a, b) :: adjacent l'
  | _ => []
  end.

Declare Scope py_scope.
Delimit Scope py_scope with py.
Notation "a == b" := (bool_decide (a = b)) (at level 70, no associativity) : py_scope.
Notation "a != b" := (negb (bool_decide (a = b))) (at level 70, no associativity) : py_scope.
Notation "a <+> b" := (String.append a b) (at level 55, right associativity) : py_scope.

(** ** Inversion of successful runs *)
Lemma bind_ok {A B} (m : result A) (f : A -> result B) b :
  (m ≫= f) = Ok b <-> exists a, m = Ok a /\ f a = Ok b.
Proof.
  destruct m as [a | e]; cbn; split.
  - eauto.
  - by intros (a' & [= <-] & ?).
  - done.
  - by intros (? & ? & ?).
Qed.

Lemma bind_ok_unit {B} (m : result unit) (f : unit -> result B) b :
  (m ≫= f) = Ok b <-> m = Ok tt /\ f tt = Ok b.
Proof.
  rw bind_ok. split; [intros ([] & ? & ?); eauto | intros [? ?]; eauto].
Qed.

Lemma raise_if_ok c e u : raise_if c e = Ok u <-> c = false.
Proof. destruct c, u; cbn; naive_solver. Qed.

Lemma or_raise_ok {A} (o : option A) e a : or_raise o e = Ok a <-> o = Some a.
Proof. destruct o; cbn; naive_solver. Qed.

Lemma except_ok {A} (m : result A) caught e a : except m caught e = Ok a <-> m = Ok a.
Proof. destruct m; cbn; naive_solver. Qed.

Lemma neqb_false {A} (a b : A) `{Decision (a = b)} :
  negb (bool_decide (a = b)) = false <-> a = b.
Proof. case_bool_decide; cbn; naive_solver. Qed.

Lemma neqb_true {A} (a b : A) `{Decision (a = b)} :
  negb (bool_decide (a = b)) = true <-> a <> b.
Proof. case_bool_decide; cbn; naive_solver. Qed.

Lemma eqb_false_iff {P} `{Decision P} : bool_decide P = false <-> ~ P.
Proof. apply bool_decide_eq_false. Qed.

Lemma Ok_inj_iff {A} (a b : A) : Ok a = Ok b <-> a = b.
Proof. naive_solver. Qed.

Lemma Err_Ok_iff {A} (a : A) e : Err e = Ok a <-> False.
Proof. naive_solver. Qed.

Lemma forM_ok {A} (f : A -> result unit) l u :
  forM_ f l = Ok u <-> Forall (fun a => f a = Ok tt) l.
Proof.
  destruct u. induction l as [|a l IH]; cbn; [by rw Forall_nil|].
  by rw bind_ok_unit IH Forall_cons.
Qed.

Lemma mapR_ok {A B} (f : A -> result B) l bs :
  mapR f l = Ok bs <-> Forall2 (fun a b => f a = Ok b) l bs.
Proof.
  revert bs. induction l as [|a l IH]; intros bs; cbn.
  - rw Ok_inj_iff. split; [intros <-; constructor|]. by inversion 1.
  - rw bind_ok. setoid_rewrite bind_ok. setoid_rewrite IH. split.
    + intros (b & ? & bs' & ? & [= <-]). by constructor.
    + inversion 1; subst. naive_solver.
Qed.

Lemma foldM_app {S A} (f : S -> A -> result S) s l1 l2 :
  foldM f s (l1 ++ l2) = (foldM f s l1 ≫= fun s' => foldM f s' l2).
Proof.
  revert s. induction l1 as [|a l1 IH]; intros s; cbn; [done|].
  destruct (f s a); cbn; auto.
Qed.

(** Rule of the loop invariant: [I done s] relates the processed prefix to the
    loop-carried variables. *)
Lemma foldM_inv {S A} (I : list A -> S -> Prop) (f : S -> A -> result S) s0 l s :
  I [] s0 ->
  (forall pre a s1 s2, I pre s1 -> f s1 a = Ok s2 -> I (pre ++ [a]) s2) ->
  foldM f s0 l = Ok s -> I l s.
Proof.
  intros H0 Hstep.
  enough (forall pre s1, I pre s1 -> foldM f s1 l = Ok s -> I (pre ++ l) s) as H
    by (apply (H []); done).
  induction l as [|a l IH]; intros pre s1 Hpre; cbn.
  - intros [= <-]. by rw app_nil_r.
  - rw bind_ok. intros (s2 & Hf & Hl).
    rw (cons_middle a pre l) app_assoc. eapply IH; eauto.
Qed.

(** The converse direction: the loop runs to the end when every body does. *)
Lemma foldM_total {S A} (I : list A -> S -> Prop) (f : S -> A -> result S) s0 l :
  I [] s0 ->
  (forall pre a post s1, l = pre ++ a :: post -> I pre s1 ->
     exists s2, f s1 a = Ok s2 /\ I (pre ++ [a]) s2) ->
  exists s, foldM f s0 l = Ok s /\ I l s.
Proof.
  intros H0 Hstep.
  enough (forall pre post s1, l = pre ++ post -> I pre s1 ->
            exists s, foldM f s1 post = Ok s /\ I (pre ++ post) s) as H
    by (apply (H [] l); done).
  intros pre post. revert pre.
  induction post as [|a post IH]; intros pre s1 Hl HI; cbn.
  - rw app_nil_r. eauto.
  - destruct (Hstep pre a post s1 Hl HI) as (s2 & Hf & HI2).
    rw Hf. cbn. destruct (IH (pre ++ [a]) s2) as (s & Hs & HIs).
    + by rw -app_assoc.
    + done.
    + exists s. split; [done|]. by rw -app_assoc in HIs.
Qed.

Lemma forallb_iff {A} (f : A -> bool) l :
  forallb f l = true <-> Forall (fun x => f x = true) l.
Proof.
  induction l as [|a l IH]; cbn; [by rw Forall_nil|].
  by rw andb_true_iff IH Forall_cons.
Qed.

Lemma existsb_false_iff {A} (f : A -> bool) l :
  existsb f l = false <-> Forall (fun x => f x = false) l.
Proof.
  induction l as [|a l IH]; cbn; [by rw Forall_nil|].
  by rw orb_false_iff IH Forall_cons.
Qed.

Lemma mapM_option_app {A B} (f : A -> option B) l k :
  mapM f (l ++ k) = (x ← mapM f l; y ← mapM f k; Some (x ++ y)).
Proof.
  induction l as [|a l IH]; cbn.
  - by destruct (mapM f k).
  - destruct (f a); cbn; [|done]. rw IH.
    destruct (mapM f l); cbn; [|done]. by destruct (mapM f k).
Qed.

Create Rewrite HintDb ok_iff.
#[export] Hint Rewrite @bind_ok_unit raise_if_ok @or_raise_ok @neqb_false @Ok_inj_iff
  @Err_Ok_iff orb_false_iff negb_false_iff @bool_decide_eq_true @eqb_false_iff
  andb_true_iff negb_true_iff Z.ltb_ge Z.leb_gt Z.ltb_lt Z.leb_le : ok_iff.

(** [ok_inv H]: turns [H : body = Ok x] into the facts the checks established. *)
Ltac ok_split :=
  repeat match goal with
  | H : _ /\ _ |- _ => destruct H
  | H : exists _, _ |- _ => destruct H
  | H : Ok _ = Ok _ |- _ => injection H as H; try subst
  | H : Err _ = Ok _ |- _ => discriminate H
  | H : (_, _) = (_, _) |- _ => injection H as; try subst
  | u : unit |- _ => destruct u
  end.
Ltac ok_inv H := repeat (first [setoid_rewrite bind_ok_unit in H | setoid_rewrite bind_ok in H]);
  autorewrite with ok_iff in H; ok_split.

(** the same decomposition of a goal that states a successful run *)
Ltac ok_goal := repeat (first [setoid_rewrite bind_ok_unit | setoid_rewrite bind_ok]);
  autorewrite with ok_iff; repeat (rewrite_strat (topdown (hints ok_iff))).
