(* ===== verification/ListFacts.v ===== *)
(** * Facts about the list and dictionary operations of the prelude *)
From S2P Require Import Prelude.
Local Open Scope Z_scope.

(** ** Dictionaries *)
Section Dict.
Context {K V : Type} `{EqDecision K}.

Lemma dict_get_Some (k : K) (v : V) d : dict_get k d = Some v -> (k, v) ∈ d.
Proof.
  induction d as [|[k' v'] d IH]; cbn; [done|]. case_bool_decide as E.
  - intros [= ->]. subst. by left.
  - intros Hk. right. by apply IH.
Qed.

Lemma dict_get_None (k : K) (d : list (K * V)) : dict_get k d = None <-> k ∉ map fst d.
Proof.
  induction d as [|[k' v'] d IH]; cbn; [set_solver|].
  case_bool_decide as E; [subst; split; [done|set_solver]|]. rw IH. set_solver.
Qed.

Lemma dict_get_elem (k : K) (v : V) d : NoDup (map fst d) ->
  dict_get k d = Some v <-> (k, v) ∈ d.
Proof.
  intros Hnd. split; [apply dict_get_Some|].
  induction d as [|[k' v'] d IH]; cbn; [by intros ?%elem_of_nil|].
  apply NoDup_cons in Hnd as [Hk Hnd].
  intros [[= -> ->]|Hin]%elem_of_cons; [by rw bool_decide_eq_true_2|].
  rw bool_decide_eq_false_2; [by apply IH|]. intros ->. apply Hk.
  apply list_elem_of_fmap. by exists (k', v).
Qed.
End Dict.

Lemma NoDup_snoc {A} (l : list A) x : NoDup (l ++ [x]) <-> NoDup l /\ x ∉ l.
Proof.
  rw NoDup_app. split; [intros (? & Hx & _); split; [done|]|intros [? Hx]; split; [done|split]].
  - intros Hin. apply (Hx x Hin). by apply list_elem_of_singleton.
  - intros y Hy ->%list_elem_of_singleton. done.
  - apply NoDup_singleton.
Qed.

Lemma Forall_iff_elem {A} (P Q : A -> Prop) l : (forall a, a ∈ l -> P a <-> Q a) ->
  Forall P l <-> Forall Q l.
Proof. intros H. rw !Forall_forall. naive_solver. Qed.

(** A loop that checks each element, refuses a repeated key and appends. *)
Lemma index_by_ok {A K V} `{EqDecision K} (f : list (K * V) -> A -> result (list (K * V)))
    (P : A -> Prop) (key : A -> K) (val : A -> V) l d0 d :
  (forall d a d', f d a = Ok d' <-> P a /\ key a ∉ map fst d /\ d' = d ++ [(key a, val a)]) ->
  NoDup (map fst d0) ->
  foldM f d0 l = Ok d <->
  Forall P l /\ NoDup (map fst d0 ++ map key l) /\ d = d0 ++ map (fun a => (key a, val a)) l.
Proof.
  intros Hf. revert d0. induction l as [|a l IH]; intros d0 Hd0; cbn [foldM map].
  - rw Ok_inj_iff !app_nil_r Forall_nil. naive_solver.
  - rw bind_ok. setoid_rewrite Hf. rw Forall_cons. split.
    + intros (d1 & (Ha & Hk & ->) & Hl). apply IH in Hl as (Hl & Hnd & ->).
      * rw map_app -app_assoc in Hnd. by rw -app_assoc.
      * rw map_app. by apply NoDup_snoc.
    + intros ([Ha Hl] & Hnd & ->). rw (cons_middle (key a)) app_assoc in Hnd.
      pose proof Hnd as [Hs _]%NoDup_app. apply NoDup_snoc in Hs as [_ Hs].
      eexists. split; [done|]. apply IH; rw map_app; [by apply NoDup_snoc|].
      split; [done|]. split; [done|]. by rw -app_assoc.
Qed.

(** The items [l] indexed by key match the expected entries [ev] exactly when their
    images are a permutation of the expected ones. *)
Lemma indexed_perm {A B K X} `{EqDecision K} (f : A -> B) (kb : B -> K) (g : X -> B)
    (l : list A) (ev : list (K * X)) :
  (forall k x, (k, x) ∈ ev -> kb (g x) = k) -> NoDup (map fst ev) ->
  (NoDup (map (fun a => kb (f a)) l)
   /\ (forall k, k ∈ map (fun a => kb (f a)) l <-> k ∈ map fst ev)
   /\ Forall (fun kx => exists a, dict_get kx.1 (map (fun a => (kb (f a), a)) l) = Some a
        /\ f a = g kx.2) ev)
  <-> map f l ≡ₚ map (fun kx => g kx.2) ev.
Proof.
  intros Hk Hev.
  assert (map fst ev = map kb (map (fun kx => g kx.2) ev)) as Ek.
  { rw map_map. apply map_ext_in. intros [k x] Hin. cbn. symmetry. apply Hk.
    by apply list_elem_of_In. }
  assert (map fst (map (fun a => (kb (f a), a)) l) = map (fun a => kb (f a)) l) as Ed
    by by rw map_map.
  assert (map (fun a => kb (f a)) l = map kb (map f l)) as El by by rw map_map.
  split.
  - intros (Hl & Hiff & Hall). rw Forall_forall in Hall. apply NoDup_Permutation.
    + apply (NoDup_fmap_1 kb). change (NoDup (map kb (map f l))). by rw -El.
    + apply (NoDup_fmap_1 kb). change (NoDup (map kb (map (fun kx => g kx.2) ev))). by rw -Ek.
    + assert (forall a k x, a ∈ l -> (k, x) ∈ ev -> kb (f a) = k -> f a = g x) as Hm.
      { intros a k x Ha Hx E. destruct (Hall _ Hx) as (a' & Ha' & Hf). cbn in Ha', Hf.
        assert (dict_get k (map (fun a => (kb (f a), a)) l) = Some a) as Ea.
        { apply dict_get_elem; [by rw Ed|]. apply list_elem_of_fmap. exists a. by rw E. }
        rw Ea in Ha'. by injection Ha' as <-. }
      intros b. rw !list_elem_of_fmap. split.
      * intros (a & -> & Ha).
        assert (kb (f a) ∈ map fst ev) as ([k x] & E & Hx)%list_elem_of_fmap.
        { apply Hiff. apply list_elem_of_fmap. eauto. }
        exists (k, x). split; [by eapply Hm|done].
      * intros ([k x] & -> & Hx).
        assert (k ∈ map (fun a => kb (f a)) l) as (a & E & Ha)%list_elem_of_fmap.
        { apply Hiff. apply list_elem_of_fmap. by exists (k, x). }
        exists a. split; [|done]. symmetry. by eapply Hm.
  - intros Hp. assert (map (fun a => kb (f a)) l ≡ₚ map fst ev) as Hpk.
    { rw El Ek. by apply Permutation_map. }
    split; [by rw Hpk|]. split; [intros k; by rw Hpk|].
    apply Forall_forall. intros [k x] Hx. cbn.
    assert (g x ∈ map f l) as (a & E & Ha)%list_elem_of_fmap.
    { rw Hp. apply list_elem_of_fmap. by exists (k, x). }
    exists a. split; [|done]. apply dict_get_elem; [rw Ed; by rw Hpk|].
    apply list_elem_of_fmap. exists a. split; [|done]. f_equal. rw -E. symmetry. by apply Hk.
Qed.

(** ** [sorted(l, key=...)] *)
Section Sort.
Context {A : Type} (key : A -> Z).

Lemma insert_by_perm a l : insert_by key a l ≡ₚ a :: l.
Proof.
  induction l as [|b l IH]; cbn; [done|]. case_match; [done|]. rw IH. constructor.
Qed.

Lemma sorted_by_perm l : sorted_by key l ≡ₚ l.
Proof.
  unfold sorted_by. induction l as [|a l IH]; cbn; [done|]. by rw insert_by_perm IH.
Qed.

Definition key_sorted (l : list A) : Prop := StronglySorted (fun a b => key a <= key b) l.
Definition key_ascending (l : list A) : Prop := StronglySorted (fun a b => key a < key b) l.

Lemma insert_by_sorted a l : key_sorted l -> key_sorted (insert_by key a l).
Proof.
  unfold key_sorted. induction 1 as [|b l Hl IH Hb]; cbn; [by repeat constructor|].
  destruct (Z.leb_spec (key a) (key b)).
  - constructor; [by constructor|]. constructor; [done|].
    eapply Forall_impl; [exact Hb|]. cbn. lia.
  - constructor; [done|]. rw insert_by_perm. constructor; [lia|done].
Qed.

Lemma sorted_by_sorted l : key_sorted (sorted_by key l).
Proof.
  unfold sorted_by. induction l; cbn; [constructor|by apply insert_by_sorted].
Qed.

Lemma key_ascending_sorted l : key_ascending l -> key_sorted l.
Proof. induction 1 as [|a l Hl IH Ha]; constructor; [done|]. eapply Forall_impl; [exact Ha|]. cbn; lia. Qed.

Lemma sorted_by_id l : key_sorted l -> sorted_by key l = l.
Proof.
  unfold sorted_by. induction 1 as [|a l Hl IH Ha]; cbn; [done|]. rw IH. destruct Ha as [|b l Hb]; cbn; [done|].
  by rw (proj2 (Z.leb_le (key a) (key b)) Hb).
Qed.

(** with distinct keys the order is determined by the elements *)
Lemma ascending_unique l l' : key_ascending l -> key_ascending l' -> l ≡ₚ l' -> l = l'.
Proof.
  intros H. revert l'. induction H as [|a l Hl IH Ha]; intros l' Hl' Hp.
  { apply Permutation_nil in Hp. by subst. }
  destruct Hl' as [|b l' Hl' Hb]; [by apply Permutation_nil_r in Hp|].
  assert (a = b) as ->.
  { assert (a ∈ b :: l') as [|Ha']%elem_of_cons by (rw -Hp; by left); [done|].
    assert (b ∈ a :: l) as [|Hb']%elem_of_cons by (rw Hp; by left); [done|].
    rw Forall_forall in Ha. rw Forall_forall in Hb. specialize (Ha _ Hb'). specialize (Hb _ Ha').
    lia. }
  f_equal. apply IH; [done|]. by apply Permutation_cons_inv in Hp.
Qed.

Lemma sorted_ascending l : key_sorted l -> NoDup (map key l) -> key_ascending l.
Proof.
  induction 1 as [|a l Hl IH Ha]; cbn; [constructor|]. intros [Hn Hnd]%NoDup_cons.
  constructor; [by apply IH|]. rw Forall_forall in Ha. apply Forall_forall. intros b Hb.
  specialize (Ha _ Hb). assert (key a <> key b); [|lia]. intros E. apply Hn. rw E.
  apply list_elem_of_fmap. eauto.
Qed.

Lemma ascending_nodup l : key_ascending l -> NoDup (map key l).
Proof.
  induction 1 as [|a l Hl IH Ha]; cbn; constructor; [|done].
  intros (b & E & Hb)%list_elem_of_fmap. rw Forall_forall in Ha. specialize (Ha _ Hb). lia.
Qed.

Lemma ascending_sort_perm l l' : key_ascending l -> l ≡ₚ l' <-> key_ascending l /\ l = sorted_by key l'.
Proof.
  intros Hl. split.
  - intros Hp. split; [done|]. apply ascending_unique; [done| |by rw sorted_by_perm].
    apply sorted_ascending; [apply sorted_by_sorted|].
    assert (map key (sorted_by key l') ≡ₚ map key l) as -> by
      (apply Permutation_map; by rw sorted_by_perm).
    by apply ascending_nodup.
  - intros [_ ->]. by rw sorted_by_perm.
Qed.

(** ** [max(l, key=...)] *)
Lemma max_by_spec l m : max_by key l = Some m -> m ∈ l /\ Forall (fun a => key a <= key m) l.
Proof.
  destruct l as [|a l]; cbn; [done|]. intros [= <-].
  enough (forall x, let m := fold_left (fun m b => if key m <? key b then b else m) l x in
    m ∈ x :: l /\ Forall (fun a => key a <= key m) (x :: l)) as H by apply H.
  induction l as [|b l IH]; intros x; cbn [fold_left].
  - split; [by left|]. by repeat constructor.
  - destruct (Z.ltb_spec (key x) (key b)) as [Hlt|Hle].
    + destruct (IH b) as [Hin Hall]. split; [set_solver|]. constructor; [|done].
      apply Forall_cons in Hall as [? _]. lia.
    + destruct (IH x) as [Hin Hall]. apply Forall_cons in Hall as [? Hall].
      split; [set_solver|]. constructor; [done|]. constructor; [lia|done].
Qed.

Lemma max_by_None l : max_by key l = None <-> l = [].
Proof. by destruct l. Qed.

Lemma max_by_last l a : Forall (fun b => key b < key a) l -> max_by key (l ++ [a]) = Some a.
Proof.
  intros H. destruct (max_by key (l ++ [a])) as [m|] eqn:E.
  - apply max_by_spec in E as [Hin Hall]. apply Forall_app in Hall as [_ Hall].
    apply Forall_cons in Hall as [Hall _]. apply elem_of_app in Hin as [Hin|Hin].
    + rw Forall_forall in H. specialize (H _ Hin). cbn in *. lia.
    + by apply list_elem_of_singleton in Hin as ->.
  - apply max_by_None in E. by destruct l.
Qed.
End Sort.

Lemma NoDup_map_inj {A B} (f : A -> B) l a a' :
  NoDup (map f l) -> a ∈ l -> a' ∈ l -> f a = f a' -> a = a'.
Proof.
  induction l as [|b l IH]; cbn; [by intros _ ?%elem_of_nil|].
  intros [Hb Hn]%NoDup_cons. rw !elem_of_cons. intros [->|Ha] [->|Ha'] E; try done.
  - exfalso. apply Hb. apply list_elem_of_fmap. eauto.
  - exfalso. apply Hb. apply list_elem_of_fmap. eauto.
  - by apply IH.
Qed.

Lemma filter_unique {A} (f : A -> bool) l a : NoDup l -> a ∈ l -> f a = true ->
  (forall b, b ∈ l -> f b = true -> b = a) -> List.filter f l = [a].
Proof.
  intros Hn Ha Hf Hu. assert (NoDup (List.filter f l)) as Hnf.
  { eapply sublist_NoDup; [exact Hn|]. clear. induction l as [|b l IH]; cbn; [done|].
    case_match; by constructor. }
  assert (forall b, b ∈ List.filter f l <-> b = a) as Hiff.
  { intros b. rw !list_elem_of_In List.filter_In -!list_elem_of_In. naive_solver. }
  destruct (List.filter f l) as [|x [|y k]] eqn:E.
  - assert (a ∈ []) as Hin by by apply Hiff. by apply elem_of_nil in Hin.
  - f_equal. apply Hiff. by left.
  - apply NoDup_cons in Hnf as [Hx _]. exfalso. apply Hx.
    rw (proj1 (Hiff x)); [|by left]. rw (proj1 (Hiff y)); [by left|by right; left].
Qed.

Lemma filter_none {A} (f : A -> bool) l : (forall b, b ∈ l -> f b = false) -> List.filter f l = [].
Proof.
  intros H. destruct (List.filter f l) as [|x k] eqn:E; [done|].
  assert (x ∈ List.filter f l) as Hx by (rw E; by left).
  rw list_elem_of_In List.filter_In -list_elem_of_In in Hx. destruct Hx as [Hin Hf].
  rw H in Hf; done.
Qed.

(** ** Grouping *)
Section Group.
Context {K V : Type} `{EqDecision K} (key : V -> K).

(** the dictionary of [setdefault(key(v), []).append(v)] over a list *)
Definition group_by (l : list V) : list (K * list V) :=
  fold_left (fun d v => setdefault_append (key v) v d) l [].

Definition group (k : K) (l : list V) : list V := List.filter (fun v => bool_decide (key v = k)) l.

Lemma setdefault_keys k v (d : list (K * list V)) :
  map fst (setdefault_append k v d) = if bool_decide (k ∈ map fst d) then map fst d else map fst d ++ [k].
Proof.
  induction d as [|[k' vs] d IH]; cbn; [done|]. destruct (decide (k = k')) as [<-|E].
  - rw (bool_decide_eq_true_2 (k ∈ k :: map fst d)); [|by apply elem_of_cons; left].
    by rw (bool_decide_eq_true_2 (k = k)).
  - rw (bool_decide_eq_false_2 (k = k')); [|done]. cbn. rw IH. rw (bool_decide_ext (k ∈ k' :: map fst d) (k ∈ map fst d)).
    + by case_bool_decide.
    + rw elem_of_cons. naive_solver.
Qed.

Lemma setdefault_get k k' v (d : list (K * list V)) :
  default [] (dict_get k' (setdefault_append k v d))
  = default [] (dict_get k' d) ++ if bool_decide (k = k') then [v] else [].
Proof.
  induction d as [|[k2 vs] d IH]; cbn [setdefault_append dict_get].
  - rw (bool_decide_ext (k' = k) (k = k')); [|done]. by case_bool_decide.
  - destruct (decide (k = k2)) as [->|Hk].
    + rw (bool_decide_eq_true_2 (k2 = k2)); [|done]. cbn [dict_get].
      rw (bool_decide_ext (k' = k2) (k2 = k')); [|done]. case_bool_decide; [done|].
      by rw app_nil_r.
    + rw (bool_decide_eq_false_2 (k = k2)); [|done]. cbn [dict_get].
      destruct (decide (k' = k2)) as [->|Hk'].
      * rw (bool_decide_eq_true_2 (k2 = k2)); [|done]. rw bool_decide_eq_false_2; [|done]. cbn.
        by rw app_nil_r.
      * rw (bool_decide_eq_false_2 (k' = k2)); [|done]. apply IH.
Qed.

Lemma group_by_snoc l v : group_by (l ++ [v]) = setdefault_append (key v) v (group_by l).
Proof. unfold group_by. by rw fold_left_app. Qed.

Lemma group_snoc k l v :
  group k (l ++ [v]) = group k l ++ if bool_decide (key v = k) then [v] else [].
Proof. unfold group. by rw List.filter_app. Qed.

Lemma group_by_spec l : NoDup (map fst (group_by l))
  /\ (forall k, k ∈ map fst (group_by l) <-> k ∈ map key l)
  /\ (forall k, default [] (dict_get k (group_by l)) = group k l).
Proof.
  induction l as [|v l (Hn & Hk & Hg)] using rev_ind.
  { split; [constructor|]. split; [done|done]. }
  rw group_by_snoc setdefault_keys map_app. split; [|split].
  - case_bool_decide; [done|]. by apply NoDup_snoc.
  - intros k. rw elem_of_app -Hk list_elem_of_singleton. case_bool_decide as E.
    + naive_solver.
    + by rw elem_of_app list_elem_of_singleton.
  - intros k. by rw setdefault_get Hg group_snoc.
Qed.

Lemma group_by_elem l k vs : (k, vs) ∈ group_by l <-> k ∈ map key l /\ vs = group k l.
Proof.
  destruct (group_by_spec l) as (Hn & Hk & Hg). rw -dict_get_elem; [|done].
  rw -Hk. specialize (Hg k). split.
  - intros Hd. rw Hd in Hg. split; [|done]. apply dict_get_Some in Hd.
    apply list_elem_of_fmap. by exists (k, vs).
  - intros [([k' vs'] & -> & Hin)%list_elem_of_fmap ->]. cbn in *.
    apply dict_get_elem in Hin; [|done]. rw Hin in Hg. cbn in Hg. by rw Hin Hg.
Qed.
End Group.

(** ** Lookup by value *)
Section Index.
Context {A : Type} `{EqDecision A}.

Lemma index_of_Some (a : A) l i : index_of a l = Some i -> l !! i = Some a.
Proof.
  revert i. induction l as [|b l IH]; intros i; cbn; [done|]. case_bool_decide as E.
  - intros [= <-]. by subst.
  - intros (j & Hj & ->)%fmap_Some. cbn. by apply IH.
Qed.

Lemma index_of_elem (a : A) l : a ∈ l -> exists i, index_of a l = Some i.
Proof.
  induction l as [|b l IH]; [by intros ?%elem_of_nil|]. intros Hin. cbn.
  case_bool_decide as E; [by eexists|]. apply elem_of_cons in Hin as [->|Hin]; [done|].
  destruct (IH Hin) as [i ->]. by eexists.
Qed.

Lemma index_of_NoDup (a : A) l i : NoDup l -> l !! i = Some a -> index_of a l = Some i.
Proof.
  intros Hnd Hi. destruct (index_of_elem a l) as [j Hj]; [by eapply list_elem_of_lookup_2|].
  rw Hj. f_equal. apply index_of_Some in Hj. by eapply NoDup_lookup.
Qed.

Lemma count_elem (a : A) l : (count a l >= 1)%nat <-> a ∈ l.
Proof.
  unfold count. induction l as [|b l IH]; cbn; [split; [lia|by intros ?%elem_of_nil]|].
  case_bool_decide as E; cbn; rw elem_of_cons.
  - split; [by left|lia].
  - rw IH. split; [by right|by intros [->|?]].
Qed.
End Index.

Lemma filter_In {A} (f : A -> bool) l x : x ∈ List.filter f l <-> x ∈ l /\ f x = true.
Proof. rw !list_elem_of_In. apply List.filter_In. Qed.

Lemma filter_sublist {A} (f : A -> bool) l : List.filter f l `sublist_of` l.
Proof. induction l as [|a l IH]; cbn; [done|]. case_match; by constructor. Qed.
