(* ===== verification/PyStr.v ===== *)
(** * Python strings, bytes and the encodings the contracts use

    A Python [str] is the list of its code points and [bytes] the list of its
    byte values.  This file models the operations of the standard library the
    source calls on them: [str.strip], [str.encode]/[bytes.decode] for UTF-8
    and ASCII, [str(int)], [bytes.hex], [base64.urlsafe_b64encode/decode] and
    the lexicographic order on [bytes]. *)
From S2P Require Import Prelude.
Local Open Scope N_scope.

Abbreviation pystr := (list N).
Abbreviation pybytes := (list N).

(** A literal of the source, ASCII in every use. *)
Fixpoint u (s : string) : pystr :=
  match s with
  | EmptyString => []
  | String a s => Ascii.N_of_ascii a :: u s
  end.

#[global] Arguments u : simpl never.

(** ** [str.strip] *)
(** The code points [str.isspace] accepts. *)
Definition is_space (c : N) : bool :=
  (9 <=? c) && (c <=? 13) || (28 <=? c) && (c <=? 32) || (c =? 133) || (c =? 160)
  || (c =? 5760) || (8192 <=? c) && (c <=? 8202) || (c =? 8232) || (c =? 8233)
  || (c =? 8239) || (c =? 8287) || (c =? 12288).

Fixpoint lstrip (s : pystr) : pystr :=
  match s with
  | [] => []
  | c :: s' => if is_space c then lstrip s' else s
  end.
Definition strip (s : pystr) : pystr := rev (lstrip (rev (lstrip s))).

(** ** UTF-8 *)
(** A Unicode scalar value: a code point that is not a surrogate. *)
Definition is_scalar (c : N) : bool :=
  (c <? 0xD800) || (0xE000 <=? c) && (c <? 0x110000).

Definition utf8_char (c : N) : list N :=
  if c <? 0x80 then [c]
  else if c <? 0x800 then [0xC0 + c / 64; 0x80 + c mod 64]
  else if c <? 0x10000 then [0xE0 + c / 4096; 0x80 + (c / 64) mod 64; 0x80 + c mod 64]
  else [0xF0 + c / 262144; 0x80 + (c / 4096) mod 64; 0x80 + (c / 64) mod 64; 0x80 + c mod 64].

(** [s.encode("utf-8")]: [UnicodeEncodeError] on a surrogate. *)
Fixpoint encode_utf8 (s : pystr) : result pybytes :=
  match s with
  | [] => Ok []
  | c :: s =>
    if is_scalar c then b ← encode_utf8 s; Ok (utf8_char c ++ b) else Err UnicodeError
  end.

(** [s.encode("ascii")] *)
Definition encode_ascii (s : pystr) : result pybytes :=
  if forallb (fun c => c <? 128) s then Ok s else Err UnicodeError.

Definition is_cont (b : N) : bool := (0x80 <=? b) && (b <? 0xC0).

(** [b.decode("utf-8")], strict: overlong forms, surrogates and values above
    U+10FFFF are refused. *)
Fixpoint decode_utf8 (b : pybytes) : result pystr :=
  match b with
  | [] => Ok []
  | b0 :: r0 =>
    if b0 <? 0x80 then s ← decode_utf8 r0; Ok (b0 :: s)
    else if b0 <? 0xC2 then Err UnicodeError
    else match r0 with
    | [] => Err UnicodeError
    | b1 :: r1 =>
      if negb (is_cont b1) then Err UnicodeError
      else if b0 <? 0xE0 then
        s ← decode_utf8 r1; Ok ((b0 - 0xC0) * 64 + (b1 - 0x80) :: s)
      else match r1 with
      | [] => Err UnicodeError
      | b2 :: r2 =>
        if negb (is_cont b2) then Err UnicodeError
        else if b0 <? 0xF0 then
          let c := (b0 - 0xE0) * 4096 + (b1 - 0x80) * 64 + (b2 - 0x80) in
          if (0x800 <=? c) && is_scalar c then s ← decode_utf8 r2; Ok (c :: s)
          else Err UnicodeError
        else match r2 with
        | [] => Err UnicodeError
        | b3 :: r3 =>
          let c := (b0 - 0xF0) * 262144 + (b1 - 0x80) * 4096
                   + (b2 - 0x80) * 64 + (b3 - 0x80) in
          if is_cont b3 && (b0 <? 0xF5) && (0x10000 <=? c) && is_scalar c
          then s ← decode_utf8 r3; Ok (c :: s) else Err UnicodeError
        end
      end
    end
  end.

(** ** [str(n)] for a non-negative integer, and for any integer *)
Fixpoint decimal_go (fuel : nat) (n : N) (acc : pystr) : pystr :=
  match fuel with
  | O => acc
  | S fuel =>
    let acc := 48 + n mod 10 :: acc in
    if n <? 10 then acc else decimal_go fuel (n / 10) acc
  end.
(** One unit of fuel per binary digit is at least one per decimal digit. *)
Definition decimal (n : N) : pystr := decimal_go (S (N.size_nat n)) n [].

Definition py_str_int (z : Z) : pystr :=
  match z with
  | Zneg p => 45 :: decimal (Npos p)
  | _ => decimal (Z.to_N z)
  end.

(** ** Hexadecimal *)
Definition hex_digit (n : N) : N := if n <? 10 then 48 + n else 87 + n.
Definition hex (b : pybytes) : pystr :=
  flat_map (fun x => [hex_digit (x / 16); hex_digit (x mod 16)]) b.

Definition is_lower_hex (c : N) : bool :=
  (48 <=? c) && (c <=? 57) || (97 <=? c) && (c <=? 102).

(** ** base64url without padding *)
Definition b64_char (x : N) : N :=
  if x <? 26 then 65 + x
  else if x <? 52 then 71 + x
  else if x <? 62 then x - 4
  else if x =? 62 then 45 else 95.

Definition b64_value (c : N) : option N :=
  if (65 <=? c) && (c <=? 90) then Some (c - 65)
  else if (97 <=? c) && (c <=? 122) then Some (c - 71)
  else if (48 <=? c) && (c <=? 57) then Some (c + 4)
  else if c =? 45 then Some 62
  else if c =? 95 then Some 63
  else None.

Definition is_b64 (c : N) : bool :=
  match b64_value c with Some _ => true | None => false end.

(** [base64.urlsafe_b64encode(b).rstrip(b"=")] *)
Fixpoint b64_encode (b : pybytes) : pystr :=
  match b with
  | [] => []
  | [x] => [b64_char (x / 4); b64_char (x mod 4 * 16)]
  | [x; y] => [b64_char (x / 4); b64_char (x mod 4 * 16 + y / 16); b64_char (y mod 16 * 4)]
  | x :: y :: z :: b =>
    b64_char (x / 4) :: b64_char (x mod 4 * 16 + y / 16)
    :: b64_char (y mod 16 * 4 + z / 64) :: b64_char (z mod 64) :: b64_encode b
  end.

(** The bytes a group of six-bit values stands for; the low bits left over
    after the last whole byte are dropped, as [binascii.a2b_base64] does. *)
Fixpoint b64_join (v : list N) : pybytes :=
  match v with
  | [a; b] => [a * 4 + b / 16]
  | [a; b; c] => [a * 4 + b / 16; b mod 16 * 16 + c / 4]
  | a :: b :: c :: d :: v =>
    a * 4 + b / 16 :: b mod 16 * 16 + c / 4 :: c mod 4 * 64 + d :: b64_join v
  | _ => []
  end.

(** [base64.urlsafe_b64decode(s + "=")] for [s] over the base64url alphabet *)
Definition b64_decode (s : pystr) : option pybytes := b64_join <$> mapM b64_value s.

(** [secrets.token_urlsafe(32)] on the 32 bytes the operating system drew *)
Definition token_urlsafe (random : pybytes) : pystr := b64_encode random.

(** ** [bytes] comparison and joining *)
Fixpoint bytes_leb (a b : pybytes) : bool :=
  match a, b with
  | [], _ => true
  | _ :: _, [] => false
  | x :: a, y :: b => if x =? y then bytes_leb a b else x <? y
  end.

(** [sep.join(parts)] for the one-byte separator of the identity preimages *)
Fixpoint join_sep (sep : N) (parts : list pybytes) : pybytes :=
  match parts with
  | [] => []
  | [p] => p
  | p :: ps => p ++ sep :: join_sep sep ps
  end.

(** Comparison of 2-tuples of [bytes]: [(a, b) <= (c, d)] *)
Definition bytes2_leb (p q : pybytes * pybytes) : bool :=
  if bool_decide (p.1 = q.1) then bytes_leb p.2 q.2 else bytes_leb p.1 q.1.

Example strip_ex : strip (u "  a b ") = u "a b".
Proof. reflexivity. Qed.
Example decimal_ex : decimal 9007199254740991 = u "9007199254740991" /\ decimal 0 = u "0".
Proof. split; vm_compute; reflexivity. Qed.
Example b64_ex : b64_decode (u "Q0NDQ0M") = Some (u "CCCCC") /\ b64_encode (u "CCCCC") = u "Q0NDQ0M".
Proof. split; reflexivity. Qed.
Example utf8_ex : encode_utf8 [0x61; 0xE9; 0x20AC; 0x1F600] = Ok [0x61; 0xC3; 0xA9; 0xE2; 0x82; 0xAC; 0xF0; 0x9F; 0x98; 0x80].
Proof. reflexivity. Qed.

(** ** Lemmas *)
Ltac nb := repeat match goal with
  | H : context [ N.ltb ?a ?b ] |- _ => destruct (N.ltb_spec a b); cbn in H
  | H : context [ N.leb ?a ?b ] |- _ => destruct (N.leb_spec a b); cbn in H
  | H : context [ N.eqb ?a ?b ] |- _ => destruct (N.eqb_spec a b); cbn in H
  | |- context [ N.ltb ?a ?b ] => destruct (N.ltb_spec a b); cbn
  | |- context [ N.leb ?a ?b ] => destruct (N.leb_spec a b); cbn
  | |- context [ N.eqb ?a ?b ] => destruct (N.eqb_spec a b); cbn
  end.
(** arithmetic with division and remainder by constants *)
Ltac nlia := zify; Z.div_mod_to_equations; lia.

Section Utf8.
Lemma decode_utf8_char c b :
  is_scalar c = true -> decode_utf8 (utf8_char c ++ b) = (s ← decode_utf8 b; Ok (c :: s)).
Proof.
  unfold is_scalar, utf8_char. intros Hs.
  destruct (N.ltb_spec c 0x80) as [H1|H1].
  { cbn -[N.ltb N.mul]. by rw (proj2 (N.ltb_lt c 0x80) H1). }
  destruct (N.ltb_spec c 0x800) as [H2|H2].
  { assert ((0xC0 + c / 64 <? 0x80) = false) as E1 by nlia.
    assert ((0xC0 + c / 64 <? 0xC2) = false) as E2 by nlia.
    assert (is_cont (0x80 + c mod 64) = true) as E3 by (unfold is_cont; nlia).
    assert ((0xC0 + c / 64 <? 0xE0) = true) as E4 by nlia.
    assert ((0xC0 + c / 64 - 0xC0) * 64 + (0x80 + c mod 64 - 0x80) = c) as E5 by nlia.
    cbn -[N.ltb N.mul N.add N.sub N.div N.modulo is_cont].
    by rw E1 E2 E3 E4 E5. }
  destruct (N.ltb_spec c 0x10000) as [H3|H3].
  { assert ((0xE0 + c / 4096 <? 0x80) = false) as E1 by nlia.
    assert ((0xE0 + c / 4096 <? 0xC2) = false) as E2 by nlia.
    assert (is_cont (0x80 + (c / 64) mod 64) = true) as E3 by (unfold is_cont; nlia).
    assert (is_cont (0x80 + c mod 64) = true) as E4 by (unfold is_cont; nlia).
    assert ((0xE0 + c / 4096 <? 0xE0) = false) as E5 by nlia.
    assert ((0xE0 + c / 4096 <? 0xF0) = true) as E6 by nlia.
    assert ((0xE0 + c / 4096 - 0xE0) * 4096 + (0x80 + (c / 64) mod 64 - 0x80) * 64
            + (0x80 + c mod 64 - 0x80) = c) as E7 by nlia.
    cbn -[N.ltb N.leb N.mul N.add N.sub N.div N.modulo is_cont is_scalar].
    rw E1 E2 E3 E4 E5 E6 E7 /=.
    rw (proj2 (N.leb_le 0x800 c) H2). unfold is_scalar. by rw Hs. }
  assert ((0xF0 + c / 262144 <? 0x80) = false) as E1 by nlia.
  assert ((0xF0 + c / 262144 <? 0xC2) = false) as E2 by nlia.
  assert (is_cont (0x80 + (c / 4096) mod 64) = true) as E3 by (unfold is_cont; nlia).
  assert (is_cont (0x80 + (c / 64) mod 64) = true) as E4 by (unfold is_cont; nlia).
  assert (is_cont (0x80 + c mod 64) = true) as E8 by (unfold is_cont; nlia).
  assert ((0xF0 + c / 262144 <? 0xE0) = false) as E5 by nlia.
  assert ((0xF0 + c / 262144 <? 0xF0) = false) as E6 by nlia.
  assert ((0xF0 + c / 262144 <? 0xF5) = true) as E9 by nlia.
  assert ((0xF0 + c / 262144 - 0xF0) * 262144 + (0x80 + (c / 4096) mod 64 - 0x80) * 4096
          + (0x80 + (c / 64) mod 64 - 0x80) * 64 + (0x80 + c mod 64 - 0x80) = c) as E7 by nlia.
  cbn -[N.ltb N.leb N.mul N.add N.sub N.div N.modulo is_cont is_scalar].
  rw E1 E2 E3 E4 E5 E6 E7 E8 E9 /=.
  rw (proj2 (N.leb_le 0x10000 c) H3). unfold is_scalar. by rw Hs.
Qed.

Lemma decode_encode_utf8 s b : encode_utf8 s = Ok b -> decode_utf8 b = Ok s.
Proof.
  revert b. induction s as [|c s IH]; intros b; cbn; [by intros [= <-]|].
  destruct (is_scalar c) eqn:Hc; [|done].
  rw bind_ok. intros (b' & Hb & [= <-]).
  by rw (decode_utf8_char _ _ Hc) (IH _ Hb).
Qed.

Lemma encode_utf8_inj s1 s2 b : encode_utf8 s1 = Ok b -> encode_utf8 s2 = Ok b -> s1 = s2.
Proof. intros H1%decode_encode_utf8 H2%decode_encode_utf8. congruence. Qed.

Lemma encode_utf8_ok s : Forall (fun c => is_scalar c = true) s -> exists b, encode_utf8 s = Ok b.
Proof.
  induction 1 as [|c s Hc _ [b IH]]; cbn; [eauto|]. rw Hc IH /=. eauto.
Qed.

Lemma encode_utf8_ok_inv s b : encode_utf8 s = Ok b -> Forall (fun c => is_scalar c = true) s.
Proof.
  revert b. induction s as [|c s IH]; intros b; cbn; [constructor|].
  destruct (is_scalar c) eqn:Hc; [|done]. rw bind_ok. intros (b' & ? & ?).
  constructor; eauto.
Qed.

Lemma encode_utf8_app s1 s2 :
  encode_utf8 (s1 ++ s2) = (b1 ← encode_utf8 s1; b2 ← encode_utf8 s2; Ok (b1 ++ b2)).
Proof.
  induction s1 as [|c s1 IH]; cbn; [by destruct (encode_utf8 s2)|].
  destruct (is_scalar c); [|done]. rw IH.
  destruct (encode_utf8 s1); cbn; [|done].
  destruct (encode_utf8 s2); cbn; [|done]. by rw app_assoc.
Qed.

Lemma utf8_char_nonzero c : c <> 0 -> Forall (fun x => x <> 0) (utf8_char c).
Proof.
  intros Hc. unfold utf8_char.
  repeat case_match; repeat constructor; lia.
Qed.

Lemma encode_utf8_nonzero s b :
  Forall (fun c => c <> 0) s -> encode_utf8 s = Ok b -> Forall (fun x => x <> 0) b.
Proof.
  intros H. revert b. induction H as [|c s Hc _ IH]; intros b; cbn; [by intros [= <-]|].
  destruct (is_scalar c); [|done]. rw bind_ok. intros (b' & ? & [= <-]).
  apply Forall_app. split; eauto using utf8_char_nonzero.
Qed.

Lemma encode_utf8_ascii s : Forall (fun c => c < 128) s -> encode_utf8 s = Ok s.
Proof.
  induction 1 as [|c s Hc _ IH]; cbn; [done|].
  assert (is_scalar c = true) as -> by (unfold is_scalar; nlia).
  rw IH /=. unfold utf8_char. by rw (proj2 (N.ltb_lt c 0x80)).
Qed.

Lemma encode_ascii_ok s b : encode_ascii s = Ok b <-> Forall (fun c => c < 128) s /\ b = s.
Proof.
  unfold encode_ascii. destruct (forallb _ s) eqn:E.
  - apply forallb_iff in E. rw Ok_inj_iff. split; [|naive_solver].
    intros <-. split; [|done]. eapply Forall_impl; [exact E|]. cbn. lia.
  - split; [done|]. intros [H _]. exfalso.
    apply not_true_iff_false in E. apply E, forallb_iff.
    eapply Forall_impl; [exact H|]. cbn. lia.
Qed.
End Utf8.

Section Decimal.
Definition is_digit (c : N) : bool := (48 <=? c) && (c <=? 57).

(** the number a digit string denotes *)
Definition undecimal (s : pystr) : N := fold_left (fun v c => v * 10 + (c - 48)) s 0.

Lemma decimal_go_spec fuel n acc :
  n < 2 ^ N.of_nat fuel ->
  exists ds, decimal_go (S fuel) n acc = ds ++ acc /\ ds <> []
    /\ Forall (fun c => is_digit c = true) ds /\ undecimal ds = n
    /\ (n = 0 -> ds = [48]) /\ (n <> 0 -> hd 48 ds <> 48).
Proof.
  revert n acc. induction fuel as [|fuel IH]; intros n acc Hn.
  - assert (n = 0) as -> by (cbn in Hn; lia).
    exists [48]. cbn. repeat split; try done. by repeat constructor.
  - cbn [decimal_go]. destruct (N.ltb_spec n 10) as [H10|H10].
    + exists [48 + n mod 10]. rw (N.mod_small n 10 H10).
      repeat split; cbn; try done; try lia.
      * repeat constructor. unfold is_digit. lia.
      * by intros ->.
    + destruct (IH (n / 10) (48 + n mod 10 :: acc)) as (ds & E & Hne & Hd & Hv & H0 & Hh).
      { rw Nat2N.inj_succ N.pow_succ_r' in Hn. nlia. }
      exists (ds ++ [48 + n mod 10]). cbn [decimal_go] in E.
      rw E -app_assoc. split; [done|]. split; [by destruct ds|]. split.
      { apply Forall_app. split; [done|]. repeat constructor. unfold is_digit. nlia. }
      split.
      { unfold undecimal in *. rw fold_left_app Hv. cbn. nlia. }
      split; [intros ->; lia|]. intros _.
      assert (n / 10 <> 0) by nlia. destruct ds; naive_solver.
Qed.

Lemma pos_size_nat_bound p : N.pos p < 2 ^ N.of_nat (Pos.size_nat p).
Proof.
  induction p as [p IH|p IH|]; cbn [Pos.size_nat]; [| |done];
    rw Nat2N.inj_succ N.pow_succ_r'; lia.
Qed.

Lemma decimal_spec n :
  decimal n <> [] /\ Forall (fun c => is_digit c = true) (decimal n)
  /\ undecimal (decimal n) = n /\ (n = 0 -> decimal n = [48])
  /\ (n <> 0 -> hd 48 (decimal n) <> 48).
Proof.
  unfold decimal.
  destruct (decimal_go_spec (N.size_nat n) n []) as (ds & -> & H).
  { destruct n as [|p]; [done|]. apply pos_size_nat_bound. }
  by rw app_nil_r.
Qed.

Lemma decimal_inj m n : decimal m = decimal n -> m = n.
Proof.
  intros E. destruct (decimal_spec m) as (_ & _ & <- & _).
  destruct (decimal_spec n) as (_ & _ & <- & _). by rw E.
Qed.

Lemma decimal_ascii n : Forall (fun c => 48 <= c <= 57) (decimal n).
Proof.
  destruct (decimal_spec n) as (_ & H & _). eapply Forall_impl; [exact H|].
  unfold is_digit. cbn. lia.
Qed.
End Decimal.

Section Hex.
Lemma hex_length b : length (hex b) = (2 * length b)%nat.
Proof. unfold hex. induction b; cbn in *; lia. Qed.

Lemma hex_lower b : Forall (fun x => x < 256) b -> Forall (fun c => is_lower_hex c = true) (hex b).
Proof.
  induction 1 as [|x b Hx _ IH]; cbn; [constructor|].
  assert (forall n, n < 16 -> is_lower_hex (hex_digit n) = true) as Hd.
  { intros n Hn. unfold is_lower_hex, hex_digit. case_match; lia. }
  constructor; [apply Hd; nlia|]. constructor; [apply Hd; nlia|done].
Qed.
End Hex.

Section Base64.
Lemma b64_value_char x : x < 64 -> b64_value (b64_char x) = Some x.
Proof.
  intros Hx. unfold b64_char, b64_value.
  repeat case_match; try (f_equal; lia); lia.
Qed.

Lemma is_b64_char x : x < 64 -> is_b64 (b64_char x) = true.
Proof. intros Hx. unfold is_b64. by rw (b64_value_char _ Hx). Qed.

(** induction by groups of three bytes *)
Lemma group3_ind (P : list N -> Prop) :
  P [] -> (forall x, P [x]) -> (forall x y, P [x; y]) ->
  (forall x y z b, P b -> P (x :: y :: z :: b)) -> forall b, P b.
Proof.
  intros H0 H1 H2 H3. fix IH 1. intros [|x [|y [|z b]]]; [exact H0|apply H1|apply H2|apply H3, IH].
Qed.

Lemma b64_decode_cons c s :
  b64_decode (c :: s) = (x ← b64_value c; v ← mapM b64_value s; Some (b64_join (x :: v))).
Proof.
  unfold b64_decode. cbn. destruct (b64_value c); cbn; [|done].
  by destruct (mapM b64_value s).
Qed.

(** what a group of three bytes becomes, and back *)
Lemma b64_encode_spec b :
  Forall (fun x => x < 256) b ->
  exists v, mapM b64_value (b64_encode b) = Some v /\ b64_join v = b
    /\ Forall (fun c => is_b64 c = true) (b64_encode b).
Proof.
  induction b as [|x|x y|x y z b IH] using group3_ind; intros Hb; cbn [b64_encode].
  - by exists [].
  - apply Forall_cons in Hb as [Hx _].
    exists [x / 4; x mod 4 * 16]. cbn. rw !b64_value_char; [|nlia..]. cbn.
    split; [done|]. split; [f_equal; nlia|]. repeat constructor; apply is_b64_char; nlia.
  - apply Forall_cons in Hb as [Hx Hb]. apply Forall_cons in Hb as [Hy _].
    exists [x / 4; x mod 4 * 16 + y / 16; y mod 16 * 4]. cbn.
    rw !b64_value_char; [|nlia..]. cbn. split; [done|].
    split; [repeat f_equal; nlia|]. repeat constructor; apply is_b64_char; nlia.
  - apply Forall_cons in Hb as [Hx Hb]. apply Forall_cons in Hb as [Hy Hb].
    apply Forall_cons in Hb as [Hz Hb]. destruct (IH Hb) as (v & Hm & Hj & Hc).
    exists (x / 4 :: x mod 4 * 16 + y / 16 :: y mod 16 * 4 + z / 64 :: z mod 64 :: v).
    cbn [mapM]. rw !b64_value_char; [|nlia..]. cbn. rw Hm /=. split; [done|].
    rw Hj. split; [repeat f_equal; nlia|].
    repeat constructor; try (apply is_b64_char; nlia). done.
Qed.

Lemma b64_decode_encode b :
  Forall (fun x => x < 256) b -> b64_decode (b64_encode b) = Some b.
Proof.
  intros (v & Hm & Hj & _)%b64_encode_spec. unfold b64_decode. by rw Hm /= Hj.
Qed.

Lemma b64_encode_length32 b : length b = 32%nat -> length (b64_encode b) = 43%nat.
Proof. intros H. do 33 (destruct b as [|? b]; [try done|]); done. Qed.
End Base64.

(** ** Joining with a separator that the parts do not contain *)
Section Join.
Lemma app_sep_inj sep (a1 a2 b1 b2 : list N) :
  Forall (fun x => x <> sep) a1 -> Forall (fun x => x <> sep) a2 ->
  a1 ++ sep :: b1 = a2 ++ sep :: b2 -> a1 = a2 /\ b1 = b2.
Proof.
  intros H1. revert a2. induction H1 as [|x a1 Hx _ IH]; intros a2 H2 E.
  - destruct H2 as [|y a2 Hy H2]; cbn in E; [by simplify_eq|]. by simplify_eq.
  - destruct H2 as [|y a2 Hy H2]; cbn in E; [by simplify_eq|].
    injection E as -> E. by destruct (IH _ H2 E) as [-> ->].
Qed.

Lemma join_sep_inj sep ps qs :
  length ps = length qs ->
  Forall (Forall (fun x => x <> sep)) ps -> Forall (Forall (fun x => x <> sep)) qs ->
  join_sep sep ps = join_sep sep qs -> ps = qs.
Proof.
  revert qs. induction ps as [|p ps IH]; intros [|q qs]; try done.
  cbn [length]. intros [= Hl] Hp Hq E.
  apply Forall_cons in Hp as [Hp Hps]. apply Forall_cons in Hq as [Hq Hqs].
  destruct ps as [|p2 ps], qs as [|q2 qs]; try done; cbn [join_sep] in E; [by f_equal|].
  apply app_sep_inj in E as [-> E]; [|done..]. f_equal.
  apply (IH (q2 :: qs)); [by rw Hl|done..].
Qed.
End Join.

(** ** Plain ASCII text is stable under [strip] *)
Section Strip.
Definition plain (c : N) : bool := (33 <=? c) && (c <=? 126).

Lemma plain_not_space c : plain c = true -> is_space c = false.
Proof. unfold plain, is_space. lia. Qed.

Lemma lstrip_plain s : Forall (fun c => plain c = true) s -> lstrip s = s.
Proof. destruct 1 as [|c s Hc _]; cbn; [done|]. by rw (plain_not_space _ Hc). Qed.

Lemma strip_plain s : Forall (fun c => plain c = true) s -> strip s = s.
Proof.
  intros H. unfold strip. rw (lstrip_plain _ H) lstrip_plain; [|by apply Forall_rev].
  apply rev_involutive.
Qed.
End Strip.
