(* ===== verification/Sha256.v ===== *)
(** * SHA-256

    The contracts identify operations, requests, results and commits by
    [hashlib.sha256(...).hexdigest()].  This file defines the standard
    library's function (FIPS 180-4): 32-bit words are kept in native 63-bit
    integers and masked after every addition and rotation. *)
From S2P Require Import Prelude PyStr.
From Stdlib Require Import Uint63.

Section Words.
Local Open Scope uint63_scope.

Definition mask32 : int := 4294967295.
Definition add32 (a b : int) : int := (a + b) land mask32.
Definition rotr (n x : int) : int := ((x >> n) lor (x << (32 - n))) land mask32.
Definition ch (x y z : int) : int := (x land y) lxor ((x lxor mask32) land z).
Definition maj (x y z : int) : int := ((x land y) lxor (x land z)) lxor (y land z).
Definition big_sigma0 (x : int) : int := (rotr 2 x lxor rotr 13 x) lxor rotr 22 x.
Definition big_sigma1 (x : int) : int := (rotr 6 x lxor rotr 11 x) lxor rotr 25 x.
Definition small_sigma0 (x : int) : int := (rotr 7 x lxor rotr 18 x) lxor (x >> 3).
Definition small_sigma1 (x : int) : int := (rotr 17 x lxor rotr 19 x) lxor (x >> 10).

Definition round_constants : list int := [
  1116352408; 1899447441; 3049323471; 3921009573; 961987163; 1508970993; 2453635748; 2870763221;
  3624381080; 310598401; 607225278; 1426881987; 1925078388; 2162078206; 2614888103; 3248222580;
  3835390401; 4022224774; 264347078; 604807628; 770255983; 1249150122; 1555081692; 1996064986;
  2554220882; 2821834349; 2952996808; 3210313671; 3336571891; 3584528711; 113926993; 338241895;
  666307205; 773529912; 1294757372; 1396182291; 1695183700; 1986661051; 2177026350; 2456956037;
  2730485921; 2820302411; 3259730800; 3345764771; 3516065817; 3600352804; 4094571909; 275423344;
  430227734; 506948616; 659060556; 883997877; 958139571; 1322822218; 1537002063; 1747873779;
  1955562222; 2024104815; 2227730452; 2361852424; 2428436474; 2756734187; 3204031479; 3329325298].

Record hash_state := HashState {
  ha : int; hb : int; hc : int; hd_ : int; he : int; hf : int; hg : int; hh : int }.

Definition initial_hash : hash_state :=
  HashState 1779033703 3144134277 1013904242 2773480762
            1359893119 2600822924 528734635 1541459225.

(** [w] is the window of the next sixteen words of the message schedule. *)
Fixpoint rounds (ks w : list int) (s : hash_state) : hash_state :=
  match ks, w with
  | k :: ks, w0 :: ((w1 :: _) as w') =>
    let t1 := add32 (add32 (add32 (add32 (hh s) (big_sigma1 (he s)))
                (ch (he s) (hf s) (hg s))) k) w0 in
    let t2 := add32 (big_sigma0 (ha s)) (maj (ha s) (hb s) (hc s)) in
    let next := add32 (add32 (add32 (small_sigma1 (nth 14 w 0)) (nth 9 w 0))
                 (small_sigma0 w1)) w0 in
    rounds ks (w' ++ [next])
      (HashState (add32 t1 t2) (ha s) (hb s) (hc s) (add32 (hd_ s) t1) (he s) (hf s) (hg s))
  | _, _ => s
  end.

Definition compress (s : hash_state) (w : list int) : hash_state :=
  let r := rounds round_constants w s in
  HashState (add32 (ha s) (ha r)) (add32 (hb s) (hb r)) (add32 (hc s) (hc r))
    (add32 (hd_ s) (hd_ r)) (add32 (he s) (he r)) (add32 (hf s) (hf r))
    (add32 (hg s) (hg r)) (add32 (hh s) (hh r)).

Definition int_of_byte (n : N) : int := of_Z (Z.of_N n).

Fixpoint words_of_bytes (l : pybytes) : list int :=
  match l with
  | a :: b :: c :: d :: l =>
    ((int_of_byte a << 24) lor (int_of_byte b << 16)
     lor (int_of_byte c << 8) lor int_of_byte d) :: words_of_bytes l
  | _ => []
  end.

(** One unit of fuel per block; the number of words is more than enough. *)
Fixpoint blocks (fuel : nat) (w : list int) (s : hash_state) : hash_state :=
  match fuel, w with
  | S fuel, _ :: _ => blocks fuel (skipn 16 w) (compress s (firstn 16 w))
  | _, _ => s
  end.

Definition bytes_of_word (x : int) : pybytes :=
  map (fun s => Z.to_N (to_Z ((x >> s) land 255))) [24; 16; 8; 0].
End Words.

Definition big_endian64 (n : N) : pybytes :=
  map (fun i => N.land (N.shiftr n (8 * i)) 255) [7; 6; 5; 4; 3; 2; 1; 0]%N.

Definition sha_padding (m : pybytes) : pybytes :=
  let l := length m in
  m ++ [128%N] ++ replicate (Nat.modulo (64 - Nat.modulo (l + 9) 64) 64) 0%N
    ++ big_endian64 (8 * N.of_nat l).

(** [hashlib.sha256(m).digest()] *)
Definition sha256 (m : pybytes) : pybytes :=
  let w := words_of_bytes (sha_padding m) in
  let s := blocks (length w) w initial_hash in
  flat_map bytes_of_word [ha s; hb s; hc s; hd_ s; he s; hf s; hg s; hh s].

(** [hashlib.sha256(m).hexdigest()] *)
Definition sha256_hexdigest (m : pybytes) : pystr := hex (sha256 m).

(** FIPS 180-4 test vectors *)
Example sha256_abc : sha256_hexdigest (u "abc")
  = u "ba7816bf8f01cfea414140de5dae2223b00361a396177a9cb410ff61f20015ad".
Proof. vm_compute. reflexivity. Qed.
Example sha256_two_blocks :
  sha256_hexdigest (u "abcdbcdecdefdefgefghfghighijhijkijkljklmklmnlmnomnopnopq")
  = u "248d6a61d20638b8e5c026930c3e6039a33ce45964ff2167f6ecedd419db06c1".
Proof. vm_compute. reflexivity. Qed.

(** ** Shape of the digest *)
Lemma bytes_of_word_bounded x : Forall (fun b => (b < 256)%N) (bytes_of_word x).
Proof.
  assert (forall y, (Z.to_N (to_Z (y land 255)%uint63) < 256)%N) as H.
  { intros y. rw land_spec'. change (to_Z 255) with (Z.ones 8).
    rw Z.land_ones; [|done]. pose proof (Z.mod_pos_bound (to_Z y) (2 ^ 8)). lia. }
  repeat constructor; apply H.
Qed.

Lemma sha256_bytes m : Forall (fun b => (b < 256)%N) (sha256 m).
Proof.
  unfold sha256. cbn [flat_map].
  repeat (apply Forall_app; split; [apply bytes_of_word_bounded|]). constructor.
Qed.

Lemma sha256_length m : length (sha256 m) = 32%nat.
Proof. done. Qed.

#[global] Opaque sha256.

Lemma sha256_hexdigest_length m : length (sha256_hexdigest m) = 64%nat.
Proof. unfold sha256_hexdigest. by rw hex_length sha256_length. Qed.

Lemma sha256_hexdigest_lower m : Forall (fun c => is_lower_hex c = true) (sha256_hexdigest m).
Proof. apply hex_lower, sha256_bytes. Qed.
