(* ===== verification/Json.v ===== *)
(** * JSON: the standard library's decoder, and the interface of [rfc8785]

    [json_loads] models [json.loads] with an [object_pairs_hook] and a
    [parse_constant] hook, character by character, the interpreter's limit on
    recursion included.  [rfc8785.dumps] is a
    third-party function: it is the operation of the class [RFC8785], and
    [RFC8785Spec] states what its documentation promises and the contracts
    rely on.  The instance [reference_rfc8785] of [Rfc8785Reference.v] shows that the
    promises can be kept. *)
From S2P Require Import Prelude PyStr.
Local Open Scope N_scope.

(** A decoded JSON value; an object is the list of its members in order.  A
    number with a fraction or an exponent keeps its literal. *)
#[warnings="-register-all"]
Inductive json :=
| JNull
| JBool (b : bool)
| JInt (z : Z)
| JFloat (literal : pystr)
| JStr (s : pystr)
| JArr (l : list json)
| JObj (kvs : list (pystr * json)).

(** ** [json.loads] *)
Definition is_ws (c : N) : bool := (c =? 32) || (c =? 9) || (c =? 10) || (c =? 13).

Fixpoint skip_ws (s : pystr) : pystr :=
  match s with
  | c :: r => if is_ws c then skip_ws r else s
  | [] => []
  end.

Definition hex_value (c : N) : option N :=
  if (48 <=? c) && (c <=? 57) then Some (c - 48)
  else if (97 <=? c) && (c <=? 102) then Some (c - 87)
  else if (65 <=? c) && (c <=? 70) then Some (c - 55)
  else None.

Definition hex4 (a b c d : N) : option N :=
  a ← hex_value a; b ← hex_value b; c ← hex_value c; d ← hex_value d;
  Some (a * 4096 + b * 256 + c * 16 + d).

Definition simple_escape (c : N) : option N :=
  if (c =? 34) || (c =? 92) || (c =? 47) then Some c
  else if c =? 98 then Some 8
  else if c =? 102 then Some 12
  else if c =? 110 then Some 10
  else if c =? 114 then Some 13
  else if c =? 116 then Some 9
  else None.

(** the low surrogate an escape spells, if the text begins with one *)
Definition low_surrogate (s : pystr) : option N :=
  match s with
  | 92 :: 117 :: a :: b :: c :: d :: _ =>
    v ← hex4 a b c d;
    if (0xDC00 <=? v) && (v <=? 0xDFFF) then Some v else None
  | _ => None
  end.

(** The characters of a string after its opening quote, up to the closing one. *)
Fixpoint scan_string (s : pystr) : result (pystr * pystr) :=
  match s with
  | [] => Err JSONDecodeError
  | c :: r =>
    if c =? 34 then Ok ([], r)
    else if c <? 32 then Err JSONDecodeError
    else if c =? 92 then
      match r with
      | [] => Err JSONDecodeError
      | e :: r1 =>
        match simple_escape e with
        | Some x => '(t, rest) ← scan_string r1; Ok (x :: t, rest)
        | None =>
          if e =? 117 then
            match r1 with
            | h1 :: h2 :: h3 :: h4 :: r2 =>
              match hex4 h1 h2 h3 h4 with
              | None => Err JSONDecodeError
              | Some v =>
                if (0xD800 <=? v) && (v <=? 0xDBFF) then
                  match low_surrogate r2, r2 with
                  | Some w, _ :: _ :: _ :: _ :: _ :: _ :: r3 =>
                    '(t, rest) ← scan_string r3;
                    Ok (0x10000 + (v - 0xD800) * 1024 + (w - 0xDC00) :: t, rest)
                  | _, _ => '(t, rest) ← scan_string r2; Ok (v :: t, rest)
                  end
                else '(t, rest) ← scan_string r2; Ok (v :: t, rest)
              end
            | _ => Err JSONDecodeError
            end
          else Err JSONDecodeError
        end
      end
    else '(t, rest) ← scan_string r; Ok (c :: t, rest)
  end.

Fixpoint take_digits (s : pystr) : pystr * pystr :=
  match s with
  | c :: r => if is_digit c then let (ds, rest) := take_digits r in (c :: ds, rest) else ([], s)
  | [] => ([], [])
  end.

(** [int(text)] refuses more than 4300 digits. *)
Definition int_of_digits (sign : pystr) (ds : pystr) : result json :=
  if (4300 <? N.of_nat (length ds))
  then Err (ValueError "Exceeds the limit (4300 digits) for integer string conversion")
  else Ok (JInt (match sign with [] => Z.of_N (undecimal ds) | _ => - Z.of_N (undecimal ds) end)).

Definition scan_fraction (s : pystr) : pystr * pystr :=
  match s with
  | c :: r =>
    if c =? 46 then match take_digits r with ([], _) => ([], s) | (ds, r') => (46 :: ds, r') end
    else ([], s)
  | [] => ([], s)
  end.

Definition scan_exponent (s : pystr) : pystr * pystr :=
  match s with
  | e :: r =>
    if (e =? 101) || (e =? 69) then
      let '(sg, r1) := match r with
        | c :: r1 => if (c =? 43) || (c =? 45) then ([c], r1) else ([], r)
        | [] => ([], r) end in
      match take_digits r1 with ([], _) => ([], s) | (ds, r') => (e :: sg ++ ds, r') end
    else ([], s)
  | [] => ([], s)
  end.

(** The decoder's number grammar: an optional sign, an integer part without
    superfluous leading zeros, an optional fraction and an optional exponent. *)
Definition scan_integer_part (s : pystr) : pystr * pystr :=
  match s with
  | c :: r => if c =? 48 then ([48], r) else take_digits s
  | [] => ([], [])
  end.

Definition scan_unsigned (sign s : pystr) : result (json * pystr) :=
  let '(ds, rest) := scan_integer_part s in
  match ds with
  | [] => Err JSONDecodeError
  | _ =>
    let '(frac, rest1) := scan_fraction rest in
    let '(ex, rest2) := scan_exponent rest1 in
    match frac ++ ex with
    | [] => v ← int_of_digits sign ds; Ok (v, rest)
    | _ => Ok (JFloat (sign ++ ds ++ frac ++ ex), rest2)
    end
  end.

Definition scan_number (s : pystr) : result (json * pystr) :=
  match s with
  | c :: r => if c =? 45 then scan_unsigned [45] r else scan_unsigned [] s
  | [] => Err JSONDecodeError
  end.

(** the text after the given prefix *)
Fixpoint strip_prefix (p s : pystr) : option pystr :=
  match p, s with
  | [], _ => Some s
  | a :: p, b :: s => if a =? b then strip_prefix p s else None
  | _ :: _, [] => None
  end.

(** a [parse_constant] that raises *)
Definition raising (e : pystr -> exn) (constant : pystr) : result json := Err (e constant).

(** one more level of nesting *)
Definition enter (depth : nat) : result nat :=
  match depth with O => Err RecursionError | S depth => Ok depth end.

Section Loads.
(** [object_pairs_hook] and [parse_constant] *)
Context (pairs_hook : list (pystr * json) -> result (list (pystr * json))).
Context (parse_constant : pystr -> result json).

Definition constants : list (pystr * (result json)) :=
  [ (u "null", Ok JNull); (u "true", Ok (JBool true)); (u "false", Ok (JBool false));
    (u "NaN", parse_constant (u "NaN"));
    (u "Infinity", parse_constant (u "Infinity"));
    (u "-Infinity", parse_constant (u "-Infinity")) ].

Fixpoint scan_constant (cs : list (pystr * result json)) (s : pystr) : result (json * pystr) :=
  match cs with
  | [] => scan_number s
  | (p, v) :: cs =>
    match strip_prefix p s with
    | Some rest => v ← v; Ok (v, rest)
    | None => scan_constant cs s
    end
  end.

(** the first character of [s] is [c] *)
Definition starts (c : N) (s : pystr) : bool :=
  match s with d :: _ => d =? c | [] => false end.

(** [depth] is how many more arrays and objects the interpreter lets the scanner enter
    ([_Py_EnterRecursiveCall]): at its end entering one raises [RecursionError].  [fuel] bounds the
    calls made on the text, two for each of its characters; [OutOfFuel] marks its exhaustion, which
    [JsonTermination.v] excludes. *)
Fixpoint scan_value (fuel depth : nat) (s : pystr) {struct fuel} : result (json * pystr) :=
  match fuel with
  | O => Err OutOfFuel
  | S fuel =>
    if starts 34 s then '(t, rest) ← scan_string (tail s); Ok (JStr t, rest)
    else if starts 123 s then
      depth ← enter depth;
      let r := skip_ws (tail s) in
      if starts 125 r then kvs ← pairs_hook []; Ok (JObj kvs, tail r)
      else '(kvs, rest) ← scan_members fuel depth r; kvs ← pairs_hook kvs; Ok (JObj kvs, rest)
    else if starts 91 s then
      depth ← enter depth;
      let r := skip_ws (tail s) in
      if starts 93 r then Ok (JArr [], tail r)
      else '(l, rest) ← scan_elements fuel depth r; Ok (JArr l, rest)
    else scan_constant constants s
  end
with scan_members (fuel depth : nat) (s : pystr) {struct fuel}
    : result (list (pystr * json) * pystr) :=
  match fuel with
  | O => Err OutOfFuel
  | S fuel =>
    if starts 34 s then
      '(k, r) ← scan_string (tail s);
      let r := skip_ws r in
      if starts 58 r then
        '(v, r) ← scan_value fuel depth (skip_ws (tail r));
        let r := skip_ws r in
        if starts 44 r then
          '(kvs, rest) ← scan_members fuel depth (skip_ws (tail r)); Ok ((k, v) :: kvs, rest)
        else if starts 125 r then Ok ([(k, v)], tail r)
        else Err JSONDecodeError
      else Err JSONDecodeError
    else Err JSONDecodeError
  end
with scan_elements (fuel depth : nat) (s : pystr) {struct fuel} : result (list json * pystr) :=
  match fuel with
  | O => Err OutOfFuel
  | S fuel =>
    '(v, r) ← scan_value fuel depth s;
    let r := skip_ws r in
    if starts 44 r then '(l, rest) ← scan_elements fuel depth (skip_ws (tail r)); Ok (v :: l, rest)
    else if starts 93 r then Ok ([v], tail r)
    else Err JSONDecodeError
  end.

(** unfolding equations *)
Lemma scan_value_S fuel depth s : scan_value (S fuel) depth s =
  if starts 34 s then '(t, rest) ← scan_string (tail s); Ok (JStr t, rest)
  else if starts 123 s then
    depth ← enter depth;
    let r := skip_ws (tail s) in
    if starts 125 r then kvs ← pairs_hook []; Ok (JObj kvs, tail r)
    else '(kvs, rest) ← scan_members fuel depth r; kvs ← pairs_hook kvs; Ok (JObj kvs, rest)
  else if starts 91 s then
    depth ← enter depth;
    let r := skip_ws (tail s) in
    if starts 93 r then Ok (JArr [], tail r)
    else '(l, rest) ← scan_elements fuel depth r; Ok (JArr l, rest)
  else scan_constant constants s.
Proof. done. Qed.

Lemma scan_members_S fuel depth s : scan_members (S fuel) depth s =
  if starts 34 s then
    '(k, r) ← scan_string (tail s);
    let r := skip_ws r in
    if starts 58 r then
      '(v, r) ← scan_value fuel depth (skip_ws (tail r));
      let r := skip_ws r in
      if starts 44 r then
        '(kvs, rest) ← scan_members fuel depth (skip_ws (tail r)); Ok ((k, v) :: kvs, rest)
      else if starts 125 r then Ok ([(k, v)], tail r)
      else Err JSONDecodeError
    else Err JSONDecodeError
  else Err JSONDecodeError.
Proof. done. Qed.

Lemma scan_elements_S fuel depth s : scan_elements (S fuel) depth s =
  '(v, r) ← scan_value fuel depth s;
  let r := skip_ws r in
  if starts 44 r then '(l, rest) ← scan_elements fuel depth (skip_ws (tail r)); Ok (v :: l, rest)
  else if starts 93 r then Ok ([v], tail r)
  else Err JSONDecodeError.
Proof. done. Qed.

(** [nesting] is how deep the interpreter lets the text nest *)
Definition json_loads (nesting : nat) (s : pystr) : result json :=
  '(v, rest) ← scan_value (S (2 * length s)) nesting (skip_ws s);
  match skip_ws rest with [] => Ok v | _ => Err JSONDecodeError end.
End Loads.

(** ** Lookup in a decoded object *)
Fixpoint obj_get (k : pystr) (kvs : list (pystr * json)) : option json :=
  match kvs with
  | [] => None
  | (k', v) :: kvs => if bool_decide (k = k') then Some v else obj_get k kvs
  end.

(** ** The canonical member order: keys by UTF-16 code units *)
Definition utf16_char (c : N) : list N :=
  if c <? 0x10000 then [c]
  else [0xD800 + (c - 0x10000) / 1024; 0xDC00 + (c - 0x10000) mod 1024].
Definition utf16 (s : pystr) : list N := flat_map utf16_char s.
Definition key_leb (a b : pystr) : bool := bytes_leb (utf16 a) (utf16 b).

Fixpoint insert_member (kv : pystr * json) (l : list (pystr * json)) : list (pystr * json) :=
  match l with
  | [] => [kv]
  | kv' :: l' => if key_leb kv.1 kv'.1 then kv :: l else kv' :: insert_member kv l'
  end.
Definition sort_members (l : list (pystr * json)) : list (pystr * json) :=
  foldr insert_member [] l.

Fixpoint sort_json (v : json) : json :=
  match v with
  | JArr l => JArr (map sort_json l)
  | JObj kvs => JObj (sort_members (map (fun '(k, x) => (k, sort_json x)) kvs))
  | _ => v
  end.

(** I-JSON values: what RFC 8785 gives a canonical form to, floats apart *)
Definition max_safe_integer : Z := 9007199254740991.
Definition scalar_str (s : pystr) : bool := forallb is_scalar s.

Fixpoint ijson (v : json) : bool :=
  match v with
  | JNull | JBool _ => true
  | JInt z => (- max_safe_integer <=? z)%Z && (z <=? max_safe_integer)%Z
  | JFloat _ => false
  | JStr s => scalar_str s
  | JArr l => forallb ijson l
  | JObj kvs => bool_decide (NoDup (map fst kvs))
                && forallb (fun '(k, x) => scalar_str k && ijson x) kvs
  end.

(** how deep a value nests *)
Fixpoint depth_of (v : json) : nat :=
  match v with
  | JArr l => S (foldr (fun x n => depth_of x `max` n) 0 l)
  | JObj kvs => S (foldr (fun '(_, x) n => depth_of x `max` n) 0 kvs)
  | _ => 0
  end%nat.

(** ** The interface of the [rfc8785] package and of the interpreter *)

(** [rfc8785_dumps v] is [rfc8785.dumps(v)], which fails with a [CanonicalizationError] or, being
    recursive, with the interpreter's [RecursionError].  [loads_nesting] and [dumps_nesting] are how
    deep the interpreter lets [json.loads] and [rfc8785.dumps] nest. *)
Class RFC8785 := {
  rfc8785_dumps : json -> result pybytes;
  loads_nesting : nat;
  dumps_nesting : nat }.

(** The documented behaviour: every I-JSON value the recursion limit has room for has a
    serialisation; it is JSON text whose value is the given one with its members in canonical
    order, and it does not depend on the order in which a dict lists its members.  The recursion
    limit has room for sixteen levels (the interpreter's default is a thousand calls). *)
Class RFC8785Spec `{RFC8785} : Prop := {
  dumps_total v : ijson v = true -> (depth_of v <= dumps_nesting)%nat -> exists b, rfc8785_dumps v = Ok b;
  dumps_fails v e : rfc8785_dumps v = Err e ->
    e = CanonicalizationError \/ e = RecursionError /\ (dumps_nesting < depth_of v)%nat;
  dumps_sorted v : rfc8785_dumps (sort_json v) = rfc8785_dumps v;
  dumps_text v b : ijson v = true -> rfc8785_dumps v = Ok b ->
    exists t, decode_utf8 b = Ok t /\
      forall nesting hook konst, (depth_of v <= nesting)%nat ->
        (forall kvs, NoDup (map fst kvs) -> hook kvs = Ok kvs) ->
        json_loads hook konst nesting t = Ok (sort_json v);
  loads_room : (16 <= loads_nesting)%nat;
  dumps_room : (16 <= dumps_nesting)%nat
}.
