(* ===== verification/JsonFacts.v ===== *)
(** * Facts about decoded JSON

    Induction on JSON values, the canonical member order, and how lookups in an
    object behave when its members are permuted or sorted. *)
From S2P Require Import Prelude PyStr Json.
Local Open Scope N_scope.

(** ** Induction on decoded JSON *)
Section JsonInd.
Context (P : json -> Prop).
Context (HNull : P JNull) (HBool : forall b, P (JBool b)) (HInt : forall z, P (JInt z))
  (HFloat : forall s, P (JFloat s)) (HStr : forall s, P (JStr s))
  (HArr : forall l, Forall P l -> P (JArr l))
  (HObj : forall kvs, Forall (fun kv => P kv.2) kvs -> P (JObj kvs)).

Fixpoint json_nested_ind (v : json) : P v.
Proof.
  destruct v; [done..| |].
  - apply HArr. induction l; constructor; [apply json_nested_ind|exact IHl].
  - apply HObj. induction kvs as [|kv kvs IH]; constructor; [apply json_nested_ind|exact IH].
Qed.
End JsonInd.

(** ** Depth *)
Lemma depth_arr_le l n : (depth_of (JArr l) <= S n)%nat <-> Forall (fun x => depth_of x <= n)%nat l.
Proof.
  cbn [depth_of]. induction l as [|x l IH]; cbn [foldr]; [split; [done|lia]|].
  rewrite Forall_cons -IH. lia.
Qed.

Lemma depth_obj_le kvs n :
  (depth_of (JObj kvs) <= S n)%nat <-> Forall (fun kv => depth_of kv.2 <= n)%nat kvs.
Proof.
  cbn [depth_of]. induction kvs as [|[k x] kvs IH]; cbn [foldr]; [split; [done|lia]|].
  rewrite Forall_cons -IH. cbn [snd]. lia.
Qed.

(** an I-JSON value of at most the given depth *)
Definition within (n : nat) (v : json) : Prop := ijson v = true /\ (depth_of v <= n)%nat.

Lemma within_atom n v : depth_of v = 0%nat -> ijson v = true -> within n v.
Proof. intros Hd Hv. split; [done|lia]. Qed.

Lemma within_arr n l : Forall (within n) l -> within (S n) (JArr l).
Proof.
  intros Hl. split; [|apply depth_arr_le; by eapply Forall_impl; [exact Hl|intros x []]].
  cbn [ijson]. apply forallb_iff. by eapply Forall_impl; [exact Hl|intros x []].
Qed.

(** ** Sorting members *)
#[local] Arguments key_leb : simpl never.

Lemma insert_member_perm kv l : insert_member kv l ≡ₚ kv :: l.
Proof.
  induction l as [|a l IH]; cbn; [done|]. destruct (key_leb _ _); [done|].
  rw IH. constructor.
Qed.

Lemma sort_members_perm l : sort_members l ≡ₚ l.
Proof.
  unfold sort_members. induction l as [|a l IH]; cbn; [done|]. by rw insert_member_perm IH.
Qed.

Lemma bytes_leb_refl a : bytes_leb a a = true.
Proof. induction a; cbn; [done|]. by rw N.eqb_refl. Qed.

Lemma bytes_leb_total a b : bytes_leb a b = false -> bytes_leb b a = true.
Proof.
  revert b. induction a as [|x a IH]; intros [|y b]; cbn; try done.
  rw (N.eqb_sym y x). destruct (N.eqb_spec x y); [apply IH|]. lia.
Qed.

Lemma bytes_leb_trans a b c :
  bytes_leb a b = true -> bytes_leb b c = true -> bytes_leb a c = true.
Proof.
  revert b c. induction a as [|x a IH]; intros [|y b] [|z c]; cbn; try done.
  destruct (N.eqb_spec x y) as [->|], (N.eqb_spec y z) as [->|]; try done.
  - by eauto.
  - destruct (N.eqb_spec x z) as [->|]; lia.
  - destruct (N.eqb_spec x z) as [->|]; lia.
Qed.

Lemma bytes_leb_antisym a b : bytes_leb a b = true -> bytes_leb b a = true -> a = b.
Proof.
  revert b. induction a as [|x a IH]; intros [|y b]; cbn; try done.
  rw (N.eqb_sym y x). destruct (N.eqb_spec x y) as [->|].
  - intros. f_equal. eauto.
  - lia.
Qed.

(** members in order: every key is at most the later ones *)
Definition members_sorted (l : list (pystr * json)) : Prop :=
  StronglySorted (fun a b => key_leb a.1 b.1 = true) l.

Lemma insert_member_sorted kv l : members_sorted l -> members_sorted (insert_member kv l).
Proof.
  unfold members_sorted. induction 1 as [|a l Hl IH Ha]; cbn; [by repeat constructor|].
  destruct (key_leb kv.1 a.1) eqn:E.
  - constructor; [by constructor|]. constructor; [done|].
    eapply Forall_impl; [exact Ha|]. intros b Hb. eapply bytes_leb_trans; [exact E|exact Hb].
  - constructor; [done|]. rw insert_member_perm. constructor; [by apply bytes_leb_total|done].
Qed.

Lemma sort_members_sorted l : members_sorted (sort_members l).
Proof.
  unfold sort_members. induction l; cbn; [constructor|by apply insert_member_sorted].
Qed.

Lemma sort_members_id l : members_sorted l -> sort_members l = l.
Proof.
  unfold sort_members. induction 1 as [|a l Hl IH Ha]; cbn; [done|]. rw IH.
  destruct Ha as [|b l Hb]; cbn; [done|]. by rw Hb.
Qed.

(** the recursion of [sort_json] into the members *)
Definition sort_value (kv : pystr * json) : pystr * json := (kv.1, sort_json kv.2).

Lemma sort_json_obj kvs : sort_json (JObj kvs) = JObj (sort_members (map sort_value kvs)).
Proof. cbn. do 2 f_equal. apply map_ext. by intros []. Qed.

Lemma insert_member_map kv l :
  insert_member (sort_value kv) (map sort_value l) = map sort_value (insert_member kv l).
Proof.
  induction l as [|a l IH]; cbn; [done|]. destruct (key_leb _ _); cbn; [done|]. by rw IH.
Qed.

(** sorting keeps the depth *)
Lemma depth_sort_le v : forall n, (depth_of (sort_json v) <= n)%nat <-> (depth_of v <= n)%nat.
Proof.
  assert (forall A (P Q : A -> Prop) l, Forall (fun x => P x <-> Q x) l -> Forall P l <-> Forall Q l)
    as Hiff by (intros A P Q l; rewrite !Forall_forall; naive_solver).
  induction v as [|b|z|lit|s|l IH|kvs IH] using json_nested_ind; intros [|n]; try done; try (cbn; lia).
  - cbn [sort_json]. rewrite !depth_arr_le Forall_map. apply Hiff.
    eapply Forall_impl; [exact IH|]. by intros x Hx.
  - rw sort_json_obj !depth_obj_le sort_members_perm Forall_map. apply Hiff.
    eapply Forall_impl; [exact IH|]. by intros [k x] Hx.
Qed.

Lemma depth_sort v : depth_of (sort_json v) = depth_of v.
Proof. apply Nat.le_antisymm; by apply depth_sort_le. Qed.

Lemma sort_members_map l : sort_members (map sort_value l) = map sort_value (sort_members l).
Proof.
  unfold sort_members. induction l as [|a l IH]; cbn; [done|]. by rw IH insert_member_map.
Qed.

Lemma sort_json_idemp v : sort_json (sort_json v) = sort_json v.
Proof.
  induction v as [| | | | |l IH|kvs IH] using json_nested_ind; try done.
  - cbn. f_equal. rw map_map. apply map_ext_Forall. exact IH.
  - rw !sort_json_obj sort_members_map. f_equal.
    rw !sort_members_map sort_members_id; [|apply sort_members_sorted].
    rw map_map. apply map_ext_Forall.
    rw sort_members_perm.
    eapply Forall_impl; [exact IH|]. intros [k x]; cbn; intros Hx. unfold sort_value; cbn. by rw Hx.
Qed.

Lemma forallb_perm {A} (f : A -> bool) l l' : l ≡ₚ l' -> forallb f l = forallb f l'.
Proof.
  induction 1; cbn; try congruence. by rw !andb_assoc (andb_comm (f y)).
Qed.

Lemma NoDup_perm_bool {A} `{EqDecision A} (l l' : list A) :
  l ≡ₚ l' -> bool_decide (NoDup l) = bool_decide (NoDup l').
Proof. intros H. apply bool_decide_ext. by rw H. Qed.

Definition ijson_member (kv : pystr * json) : bool := scalar_str kv.1 && ijson kv.2.

Lemma ijson_obj kvs :
  ijson (JObj kvs) = bool_decide (NoDup (map fst kvs)) && forallb ijson_member kvs.
Proof.
  cbn. f_equal. induction kvs as [|[k x] kvs IH]; cbn; [done|]. by rw IH.
Qed.

Lemma ijson_sort v : ijson (sort_json v) = ijson v.
Proof.
  induction v as [| | | | |l IH|kvs IH] using json_nested_ind; try done.
  - cbn. induction IH as [|x l Hx _ IH]; cbn; [done|]. by rw Hx IH.
  - rw sort_json_obj !ijson_obj. f_equal.
    + erewrite NoDup_perm_bool; [|apply Permutation_map, sort_members_perm].
      by rw map_map.
    + rw (forallb_perm _ _ _ (sort_members_perm _)).
      induction IH as [|[k x] kvs Hx _ IH]; cbn; [done|]. rw IH. f_equal.
      unfold ijson_member, sort_value; cbn in *. by rw Hx.
Qed.

(** ** Lookups *)
Definition keys_of (kvs : list (pystr * json)) : list pystr := map fst kvs.

Lemma obj_get_Some k v kvs : obj_get k kvs = Some v -> (k, v) ∈ kvs.
Proof.
  induction kvs as [|[k' v'] kvs IH]; cbn; [done|]. case_bool_decide as E.
  - intros [= ->]. subst. by left.
  - intros H. right. by apply IH.
Qed.

Lemma obj_get_None k kvs : obj_get k kvs = None <-> k ∉ keys_of kvs.
Proof.
  induction kvs as [|[k' v'] kvs IH]; cbn; [set_solver|].
  case_bool_decide as E; [subst; split; [done|set_solver]|]. rw IH. set_solver.
Qed.

Lemma obj_get_elem k v kvs : NoDup (keys_of kvs) -> (k, v) ∈ kvs -> obj_get k kvs = Some v.
Proof.
  induction kvs as [|[k' v'] kvs IH]; cbn; [by intros _ ?%elem_of_nil|].
  intros [Hk Hnd]%NoDup_cons [[= -> ->]|Hin]%elem_of_cons; [by rw bool_decide_eq_true_2|].
  rw bool_decide_eq_false_2; [by apply IH|]. intros ->. apply Hk.
  apply list_elem_of_fmap. by exists (k', v).
Qed.

Lemma obj_get_perm k l l' : NoDup (keys_of l) -> l ≡ₚ l' -> obj_get k l = obj_get k l'.
Proof.
  intros Hnd Hp. assert (NoDup (keys_of l')) as Hnd' by (unfold keys_of; by rw -Hp).
  destruct (obj_get k l) as [v|] eqn:E.
  - symmetry. apply obj_get_elem; [done|]. rw -Hp. by apply obj_get_Some.
  - symmetry. apply obj_get_None. apply obj_get_None in E. unfold keys_of in *. by rw -Hp.
Qed.

(** the members [json.loads] reads back from a canonical serialisation *)
Definition canonical_members (d : list (pystr * json)) : list (pystr * json) :=
  sort_members (map sort_value d).

Lemma keys_sort_value d : keys_of (map sort_value d) = keys_of d.
Proof. unfold keys_of. by rw map_map. Qed.

Lemma canonical_members_keys d : keys_of (canonical_members d) ≡ₚ keys_of d.
Proof.
  unfold canonical_members. rw -(keys_sort_value d). apply Permutation_map, sort_members_perm.
Qed.

Lemma keys_perm l l' : l ≡ₚ l' -> keys_of l ≡ₚ keys_of l'.
Proof. intros H. by apply Permutation_map. Qed.

Lemma obj_get_sort_value k d : obj_get k (map sort_value d) = sort_json <$> obj_get k d.
Proof. induction d as [|[k' v] d IH]; cbn; [done|]. by case_bool_decide. Qed.

Lemma obj_get_canonical k d : NoDup (keys_of d) ->
  obj_get k (canonical_members d) = sort_json <$> obj_get k d.
Proof.
  intros Hnd. rw -obj_get_sort_value. apply obj_get_perm; [|apply sort_members_perm].
  by rw canonical_members_keys.
Qed.

(** ** Uniqueness of the canonical order *)
Lemma utf16_ascii s : Forall (fun c => c < 128) s -> utf16 s = s.
Proof.
  unfold utf16. induction 1 as [|c s Hc _ IH]; cbn [flat_map]; [done|].
  unfold utf16_char at 1. assert ((c <? 0x10000) = true) as -> by lia. by rw IH.
Qed.

Definition ascii (s : pystr) : Prop := Forall (fun c => c < 128) s.

Lemma key_leb_antisym a b : ascii a -> ascii b ->
  key_leb a b = true -> key_leb b a = true -> a = b.
Proof.
  unfold key_leb. intros Ha Hb. rw (utf16_ascii a Ha) (utf16_ascii b Hb). apply bytes_leb_antisym.
Qed.

Lemma sorted_perm_eq l l' : members_sorted l -> members_sorted l' -> l ≡ₚ l' ->
  NoDup (keys_of l) -> Forall ascii (keys_of l) -> l = l'.
Proof.
  unfold members_sorted. intros H. revert l'.
  induction H as [|a l Hl IH Ha]; intros l' Hl' Hp Hnd Hasc.
  { apply Permutation_nil in Hp. by subst. }
  destruct l' as [|b l']; [by apply Permutation_nil_r in Hp|].
  assert (a = b) as ->.
  { assert (b ∈ a :: l) as Hb by (rw Hp; by left).
    assert (a ∈ b :: l') as Ha' by (rw -Hp; by left).
    apply elem_of_cons in Hb as [|Hb]; [done|]. apply elem_of_cons in Ha' as [|Ha']; [done|].
    apply StronglySorted_inv in Hl' as [_ Hl'].
    rw Forall_forall in Ha. rw Forall_forall in Hl'. rw Forall_forall in Hasc.
    exfalso. apply NoDup_cons in Hnd as [Hnd _]. apply Hnd.
    assert (a.1 = b.1) as ->.
    { apply key_leb_antisym; [apply Hasc; by left| |by apply Ha|by apply Hl'].
      apply Hasc. right. apply list_elem_of_fmap. eauto. }
    apply list_elem_of_fmap. eauto. }
  apply Permutation_cons_inv in Hp. apply NoDup_cons in Hnd as [_ Hnd].
  apply Forall_cons in Hasc as [_ Hasc].
  apply StronglySorted_inv in Hl' as [Hl' _]. f_equal. by apply IH.
Qed.

(** Two objects with the same members, up to order, have the same canonical form. *)
Lemma canonical_members_ext d d' : NoDup (keys_of d) -> NoDup (keys_of d') ->
  Forall ascii (keys_of d) ->
  (forall k, sort_json <$> obj_get k d = sort_json <$> obj_get k d') ->
  canonical_members d = canonical_members d'.
Proof.
  intros Hnd Hnd' Hasc Hget. unfold canonical_members.
  assert (map sort_value d ≡ₚ map sort_value d') as Hp.
  { apply NoDup_Permutation.
    - apply (NoDup_fmap_1 fst). change (NoDup (keys_of (map sort_value d))). by rw keys_sort_value.
    - apply (NoDup_fmap_1 fst). change (NoDup (keys_of (map sort_value d'))). by rw keys_sort_value.
    - intros [k v]. rw -(keys_sort_value d) in Hnd. rw -(keys_sort_value d') in Hnd'.
      split; intros Hin.
      + apply obj_get_elem in Hin; [|done]. apply obj_get_Some.
        by rw obj_get_sort_value -Hget -obj_get_sort_value.
      + apply obj_get_elem in Hin; [|done]. apply obj_get_Some.
        by rw obj_get_sort_value Hget -obj_get_sort_value. }
  apply sorted_perm_eq; try apply sort_members_sorted.
  - by rw !sort_members_perm.
  - by rw (keys_perm _ _ (sort_members_perm _)) (keys_sort_value d).
  - by rw (keys_perm _ _ (sort_members_perm _)) (keys_sort_value d).
Qed.

(** ** What [json.loads] returns under a hook that refuses duplicate keys *)
Fixpoint unique_keys (v : json) : Prop :=
  match v with
  | JArr l => fold_right (fun x P => unique_keys x /\ P) True l
  | JObj kvs => NoDup (keys_of kvs) /\ fold_right (fun kv P => unique_keys kv.2 /\ P) True kvs
  | _ => True
  end.

Lemma unique_keys_arr l : unique_keys (JArr l) <-> Forall unique_keys l.
Proof.
  cbn. induction l as [|x l IH]; cbn; [by rw Forall_nil|]. by rw IH Forall_cons.
Qed.

Lemma unique_keys_obj kvs :
  unique_keys (JObj kvs) <-> NoDup (keys_of kvs) /\ Forall (fun kv => unique_keys kv.2) kvs.
Proof.
  cbn. enough (fold_right (fun kv P => unique_keys kv.2 /\ P) True kvs
    <-> Forall (fun kv => unique_keys kv.2) kvs) as -> by done.
  induction kvs as [|x l IH]; cbn; [by rw Forall_nil|]. by rw IH Forall_cons.
Qed.

Section UniqueKeys.
Context (hook : list (pystr * json) -> result (list (pystr * json))) (konst : pystr -> exn).
Context (Hhook : forall kvs kvs', hook kvs = Ok kvs' -> kvs' = kvs /\ NoDup (keys_of kvs)).

Lemma scan_constant_unique cs s v rest :
  Forall (fun c : pystr * result json => forall v, c.2 = Ok v -> unique_keys v) cs ->
  scan_constant cs s = Ok (v, rest) -> unique_keys v.
Proof.
  induction 1 as [|[p r] cs Hr _ IH]; cbn.
  - unfold scan_number, scan_unsigned, int_of_digits.
    repeat (case_match; try done); cbn; intros [= <- _]; done.
  - destruct (strip_prefix p s); [|done]. rw bind_ok. intros (w & Hw & [= <- _]). by apply Hr.
Qed.

Lemma scan_unique fuel :
  (forall n s v rest, scan_value hook (raising konst) fuel n s = Ok (v, rest) -> unique_keys v)
  /\ (forall n s kvs rest, scan_members hook (raising konst) fuel n s = Ok (kvs, rest) ->
        Forall (fun kv => unique_keys kv.2) kvs)
  /\ (forall n s l rest, scan_elements hook (raising konst) fuel n s = Ok (l, rest) -> Forall unique_keys l).
Proof.
  induction fuel as [|fuel (IHv & IHm & IHe)]; [done|]. split; [|split]; intros n s.
  - intros v rest. rw scan_value_S. cbv zeta. repeat case_match.
    + rw bind_ok. by intros ([] & _ & [= <- _]).
    + rw bind_ok. intros (d & _ & Hs).
      apply bind_ok in Hs as (kvs & [-> Hnd]%Hhook & [= <- _]). by rw unique_keys_obj.
    + rw bind_ok. intros (d & _ & Hs). apply bind_ok in Hs as ([kvs r] & Hm & Hk).
      apply bind_ok in Hk as (kvs' & [-> Hnd]%Hhook & [= <- _]).
      rw unique_keys_obj. split; [done|]. by eapply IHm.
    + rw bind_ok. by intros (d & _ & [= <- _]).
    + rw bind_ok. intros (d & _ & Hs). apply bind_ok in Hs as ([l r] & Hm & [= <- _]).
      rw unique_keys_arr. by eapply IHe.
    + apply scan_constant_unique. by repeat constructor; cbn; intros ? [= <-].
  - intros kvs rest. rw scan_members_S. cbv zeta. case_match; [|done].
    rw bind_ok. intros ([k r] & _ & Hk). case_match; [|done].
    apply bind_ok in Hk as ([v r'] & Hv & Hk). apply IHv in Hv. repeat case_match; try done.
    + apply bind_ok in Hk as ([kvs' r''] & Hm & [= <- _]). constructor; [done|]. by eapply IHm.
    + injection Hk as <- _. by repeat constructor.
  - intros l rest. rw scan_elements_S. rw bind_ok. intros ([v r] & Hv & Hk).
    apply IHv in Hv. cbv zeta in Hk. repeat case_match; try done.
    + apply bind_ok in Hk as ([l' r''] & Hm & [= <- _]). constructor; [done|]. by eapply IHe.
    + injection Hk as <- _. by repeat constructor.
Qed.

Lemma loads_unique n s v : json_loads hook (raising konst) n s = Ok v -> unique_keys v.
Proof.
  unfold json_loads. rw bind_ok. intros ([w rest] & Hw & Hr). case_match; [|done].
  injection Hr as <-. by eapply (proj1 (scan_unique _)).
Qed.
End UniqueKeys.
