(* ===== verification/JsonTermination.v ===== *)
(** * The JSON decoder terminates

    [json_loads] calls itself with fuel; here the fuel it starts with is shown
    to be enough for every text: each call reads characters its caller has not
    read, so exhaustion, marked by [OutOfFuel], is not among the errors it
    can end with.  The interpreter's [RecursionError] is, but only when the text opens
    more arrays and objects than the interpreter has levels. *)
From S2P Require Import Prelude PyStr Json JsonFacts.
Local Open Scope N_scope.

(** how many arrays and objects a text opens *)
Definition openings (s : pystr) : nat := length (List.filter (fun c => (c =? 91) || (c =? 123)) s).

Lemma openings_suffix r s : r `suffix_of` s -> (openings r <= openings s)%nat.
Proof. intros [p ->]. unfold openings. rewrite List.filter_app length_app. lia. Qed.

(** what is left of a text after some of it was read *)
Definition shorter (r s : pystr) : Prop := (length r < length s)%nat /\ r `suffix_of` s.

Lemma suffix_length_le (r s : pystr) : r `suffix_of` s -> (length r <= length s)%nat.
Proof. intros [p ->]. rewrite length_app. lia. Qed.
Lemma shorter_tail c r s : r `suffix_of` s -> shorter r (c :: s).
Proof.
  intros Hr. pose proof (suffix_length_le _ _ Hr). split; [cbn; lia|by apply suffix_cons_r].
Qed.
Lemma shorter_suffix r s s' : shorter r s -> s `suffix_of` s' -> shorter r s'.
Proof.
  intros [Hl Hr] Hs. pose proof (suffix_length_le _ _ Hs). split; [lia|by etransitivity].
Qed.
Lemma suffix_shorter r s s' : r `suffix_of` s -> shorter s s' -> shorter r s'.
Proof.
  intros Hr [Hl Hs]. pose proof (suffix_length_le _ _ Hr). split; [lia|by etransitivity].
Qed.
Lemma shorter_trans r s s' : shorter r s -> shorter s s' -> shorter r s'.
Proof. intros Hr [_ Hs]. by eapply shorter_suffix. Qed.
Ltac shorter := repeat first [done | apply shorter_tail | apply suffix_cons_r].

(** a scan of [s] that reads something, or an error that is allowed *)
Definition scanned {A} (allowed : exn -> Prop) (s : pystr) (m : result (A * pystr)) : Prop :=
  match m with
  | Ok (_, rest) => shorter rest s
  | Err e => allowed e
  end.

Section Scans.
Context (allowed : exn -> Prop) (Hjson : allowed JSONDecodeError).

Lemma scanned_bind {A B} s s' (m : result (A * pystr)) (f : A * pystr -> result (B * pystr)) :
  scanned allowed s' m ->
  (forall a rest, shorter rest s' -> scanned allowed s (f (a, rest))) ->
  scanned allowed s (m ≫= f).
Proof. destruct m as [[a rest]|e]; cbn; auto. Qed.

Lemma scanned_weaken {A} s s' (m : result (A * pystr)) : s `suffix_of` s' ->
  scanned allowed s m -> scanned allowed s' m.
Proof. destruct m as [[a rest]|e]; cbn; [|done]. intros Hs Hr. by eapply shorter_suffix. Qed.

Lemma skip_ws_suffix s : skip_ws s `suffix_of` s.
Proof. induction s as [|c s IH]; cbn; [done|]. destruct (is_ws c); [by apply suffix_cons_r|done]. Qed.

Lemma starts_tail c s : starts c s = true -> shorter (tail s) s.
Proof. destruct s; cbn; [done|]. intros _. by apply shorter_tail. Qed.

Lemma scan_string_shorter s : scanned allowed s (scan_string s).
Proof.
  induction s as [s IH] using (induction_ltof1 _ (@length N)). unfold ltof in IH.
  assert (forall c r, shorter r s -> scanned allowed s ('(t, rest) ← scan_string r; Ok (c :: t, rest)))
    as Hrec.
  { intros c r [Hr Hs]. eapply scanned_bind; [by apply IH|]. intros t rest Hrest.
    by eapply shorter_suffix. }
  destruct s as [|c r]; [done|]. cbn [scan_string].
  destruct (c =? 34); [by cbn; shorter|]. destruct (c <? 32); [done|].
  destruct (c =? 92); [|apply Hrec; shorter]. destruct r as [|e r]; [done|].
  destruct (simple_escape e); [apply Hrec; shorter|]. destruct (e =? 117); [|done].
  do 4 (destruct r as [|? r]; [done|]). destruct (hex4 _ _ _ _); [|done].
  destruct (_ && _); [|apply Hrec; shorter].
  destruct (low_surrogate r); [|apply Hrec; shorter].
  do 6 (destruct r as [|? r]; [apply Hrec; shorter|]). apply Hrec; shorter.
Qed.

Lemma take_digits_suffix s : (take_digits s).2 `suffix_of` s
  /\ ((take_digits s).1 <> [] -> shorter (take_digits s).2 s).
Proof.
  induction s as [|c s [IH _]]; cbn; [done|]. destruct (is_digit c); cbn; [|done].
  destruct (take_digits s); cbn in *. split; [by apply suffix_cons_r|by intros _; apply shorter_tail].
Qed.

Lemma scan_fraction_suffix s : (scan_fraction s).2 `suffix_of` s.
Proof.
  destruct s as [|c s]; cbn; [done|]. destruct (c =? 46); [|done].
  destruct (take_digits_suffix s) as [H _]. destruct (take_digits s) as [[|] r]; cbn in *; by shorter.
Qed.

Lemma scan_exponent_suffix s : (scan_exponent s).2 `suffix_of` s.
Proof.
  destruct s as [|e s]; cbn; [done|]. destruct (_ || _); [|done].
  destruct (match s with c :: r1 => _ | [] => _ end) as [sg r1] eqn:E.
  assert (r1 `suffix_of` s) as Hr.
  { destruct s as [|c s]; [by injection E as <- <-|]. destruct (_ || _) in E; injection E as <- <-; by shorter. }
  destruct (take_digits_suffix r1) as [H _]. destruct (take_digits r1) as [[|] r]; cbn in *; [by shorter|].
  apply suffix_cons_r. by etransitivity.
Qed.

Context (Hint_ : allowed (ValueError "Exceeds the limit (4300 digits) for integer string conversion")).

Lemma scan_unsigned_shorter sign s : scanned allowed s (scan_unsigned sign s).
Proof.
  unfold scan_unsigned. assert ((scan_integer_part s).1 <> [] -> shorter (scan_integer_part s).2 s) as Hi.
  { destruct s as [|c r]; [done|]. unfold scan_integer_part.
    destruct (c =? 48); [cbn; intros _; shorter|apply take_digits_suffix]. }
  destruct (scan_integer_part s) as [[|d ds] rest]; [done|]. cbn in Hi.
  pose proof (scan_fraction_suffix rest) as Hf. destruct (scan_fraction rest) as [frac rest1].
  pose proof (scan_exponent_suffix rest1) as He. destruct (scan_exponent rest1) as [ex rest2]. cbn in *.
  assert (shorter rest s) as Hr by by apply Hi.
  destruct (frac ++ ex); [unfold int_of_digits; by destruct (4300 <? _)|].
  cbn. eapply suffix_shorter; [|exact Hr]. by etransitivity.
Qed.

Lemma scan_number_shorter s : scanned allowed s (scan_number s).
Proof.
  destruct s as [|c r]; [done|]. unfold scan_number. destruct (c =? 45).
  - eapply scanned_weaken; [|apply scan_unsigned_shorter]. by apply suffix_cons_r.
  - apply scan_unsigned_shorter.
Qed.

Lemma strip_prefix_shorter p s rest : strip_prefix p s = Some rest -> p <> [] -> shorter rest s.
Proof.
  intros H Hp. assert (s = p ++ rest) as ->.
  { clear Hp. revert s H. induction p as [|a p IH]; intros s; cbn; [by intros [= ->]|].
    destruct s as [|b s]; [done|]. destruct (N.eqb_spec a b) as [->|]; [|done]. by intros <-%IH. }
  destruct p as [|a p]; [done|]. apply shorter_tail. by exists p.
Qed.

Lemma scan_constant_shorter cs s :
  Forall (fun c : pystr * result json => c.1 <> [] /\ forall e, c.2 = Err e -> allowed e) cs ->
  scanned allowed s (scan_constant cs s).
Proof.
  induction 1 as [|[p v] cs [Hp Hv] _ IH]; cbn; [apply scan_number_shorter|].
  destruct (strip_prefix p s) as [rest|] eqn:E; [|done].
  destruct v as [v|e]; cbn; [by eapply strip_prefix_shorter|by apply Hv].
Qed.
End Scans.

(** a failed decoding of bytes is a [UnicodeError] *)
Lemma decode_utf8_err b e : decode_utf8 b = Err e -> e = UnicodeError.
Proof.
  induction b as [b IH] using (induction_ltof1 _ (@length N)). unfold ltof in IH.
  assert (forall r (g : pystr -> pystr), (length r < length b)%nat ->
    (s ← decode_utf8 r; Ok (g s)) = Err e -> e = UnicodeError) as Hrec.
  { intros r g Hr. specialize (IH r Hr). destruct (decode_utf8 r); [done|]. intros [= ->]. by apply IH. }
  destruct b as [|b0 r0]; [done|]. cbn [decode_utf8].
  destruct (b0 <? 0x80); [apply Hrec; cbn; lia|]. destruct (b0 <? 0xC2); [by intros [= <-]|].
  destruct r0 as [|b1 r1]; [by intros [= <-]|]. destruct (negb (is_cont b1)); [by intros [= <-]|].
  destruct (b0 <? 0xE0); [apply Hrec; cbn; lia|]. destruct r1 as [|b2 r2]; [by intros [= <-]|].
  destruct (negb (is_cont b2)); [by intros [= <-]|].
  destruct (b0 <? 0xF0).
  - cbv zeta. destruct (_ && _); [apply Hrec; cbn; lia|by intros [= <-]].
  - destruct r2 as [|b3 r3]; [by intros [= <-]|]. cbv zeta.
    destruct (_ && _); [apply Hrec; cbn; lia|by intros [= <-]].
Qed.

Section Terminates.
Context (hook : list (pystr * json) -> result (list (pystr * json))) (konst : pystr -> exn).
Context (allowed : exn -> Prop) (Hjson : allowed JSONDecodeError).
Context (Hint_ : allowed (ValueError "Exceeds the limit (4300 digits) for integer string conversion")).
Context (Hhook : forall kvs e, hook kvs = Err e -> allowed e) (Hkonst : forall c, allowed (konst c)).

(** a text within the levels that are left, or one of which a [RecursionError] is allowed *)
Definition room (depth : nat) (s : pystr) : Prop := (depth < openings s)%nat -> allowed RecursionError.

Lemma room_suffix depth r s : r `suffix_of` s -> room depth s -> room depth r.
Proof. intros Hr%openings_suffix Hs Hd. apply Hs. lia. Qed.

Lemma scanned_enter {A} c depth s (f : nat -> result (A * pystr)) :
  starts c s = true -> (c =? 91) || (c =? 123) = true -> room depth s ->
  (forall depth', room depth' (tail s) -> scanned allowed s (f depth')) ->
  scanned allowed s (enter depth ≫= f).
Proof.
  intros Hs Hc Hr Hf. destruct s as [|c' s]; [done|]. apply N.eqb_eq in Hs as ->.
  unfold room, openings in Hr. cbn [List.filter] in Hr. rewrite Hc in Hr. cbn [length] in Hr.
  destruct depth as [|depth]; cbn; [apply Hr; lia|]. apply Hf. intros Hd. apply Hr.
  cbn in Hd. unfold openings in Hd. lia.
Qed.

(** what is read after the character [c] that follows a value *)
Lemma next_shorter c r s : starts c (skip_ws r) = true -> shorter r s ->
  shorter (tail (skip_ws r)) s /\ (S (length (skip_ws (tail (skip_ws r)))) <= length r)%nat
  /\ skip_ws (tail (skip_ws r)) `suffix_of` s.
Proof.
  intros [Hl Ht]%starts_tail Hr. pose proof (skip_ws_suffix r) as Hs.
  pose proof (suffix_length_le _ _ Hs). pose proof (skip_ws_suffix (tail (skip_ws r))) as Hs'.
  pose proof (suffix_length_le _ _ Hs').
  assert (shorter (tail (skip_ws r)) s) as Htl by (eapply suffix_shorter; [|exact Hr]; by etransitivity).
  split; [done|]. split; [lia|]. etransitivity; [exact Hs'|apply Htl].
Qed.

(** the fuel each scanner needs on a text *)
Lemma scan_enough fuel :
  (forall d s, (2 * length s < fuel)%nat -> room d s ->
     scanned allowed s (scan_value hook (raising konst) fuel d s))
  /\ (forall d s, (2 * length s < fuel)%nat -> room d s ->
     scanned allowed s (scan_members hook (raising konst) fuel d s))
  /\ (forall d s, (S (2 * length s) < fuel)%nat -> room d s ->
     scanned allowed s (scan_elements hook (raising konst) fuel d s)).
Proof.
  induction fuel as [|fuel (IHv & IHm & IHe)]; [by split; [|split]; intros; lia|].
  split; [|split]; intros d s Hs Hd.
  - rw scan_value_S. cbv zeta. destruct (starts 34 s) eqn:E1.
    { apply starts_tail in E1. eapply scanned_bind; [by apply scan_string_shorter|].
      intros t rest Hr. by eapply shorter_trans. }
    pose proof (skip_ws_suffix (tail s)) as Hw. pose proof (suffix_length_le _ _ Hw).
    destruct (starts 123 s) eqn:E2.
    { pose proof (starts_tail _ _ E2) as Ht. eapply scanned_enter; [exact E2|done|exact Hd|].
      intros d' Hd'. destruct Ht as [Hlt Hts]. destruct (starts 125 (skip_ws (tail s))) eqn:E3.
      - apply starts_tail in E3. destruct (hook []) eqn:E; cbn; [|by eapply Hhook].
        eapply shorter_suffix; [exact E3|]. by etransitivity.
      - eapply scanned_bind; [apply IHm; [lia|by eapply room_suffix]|]. intros kvs rest Hr.
        destruct (hook kvs) eqn:E; cbn; [|by eapply Hhook].
        eapply shorter_suffix; [exact Hr|]. by etransitivity. }
    destruct (starts 91 s) eqn:E3.
    { pose proof (starts_tail _ _ E3) as Ht. eapply scanned_enter; [exact E3|done|exact Hd|].
      intros d' Hd'. destruct Ht as [Hlt Hts]. destruct (starts 93 (skip_ws (tail s))) eqn:E4.
      - apply starts_tail in E4. cbn. eapply shorter_suffix; [exact E4|]. by etransitivity.
      - eapply scanned_bind; [apply IHe; [lia|by eapply room_suffix]|]. intros l rest Hr.
        cbn. eapply shorter_suffix; [exact Hr|]. by etransitivity. }
    apply scan_constant_shorter; [done..|].
    repeat (apply Forall_cons; split; [split; [done|by intros e [= <-]]|]). apply Forall_nil_2.
  - rw scan_members_S. cbv zeta. destruct (starts 34 s) eqn:E1; [|done].
    apply starts_tail in E1. eapply scanned_bind; [by apply scan_string_shorter|].
    intros k r Hr. pose proof (shorter_trans _ _ _ Hr E1) as Hrs.
    destruct (starts 58 (skip_ws r)) eqn:E2; [|done].
    destruct (next_shorter _ _ _ E2 Hrs) as (_ & Hl2 & Hs2). destruct Hrs as [Hlr _].
    eapply scanned_bind; [apply IHv; [lia|by eapply room_suffix]|]. intros v r' Hr'.
    pose proof (shorter_suffix _ _ _ Hr' Hs2) as Hrs'.
    destruct (starts 44 (skip_ws r')) eqn:E3.
    { destruct (next_shorter _ _ _ E3 Hrs') as (_ & Hl3 & Hs3). destruct Hrs' as [Hlr' _].
      eapply scanned_bind; [apply IHm; [lia|by eapply room_suffix]|]. intros kvs rest Hrest.
      by eapply shorter_suffix. }
    destruct (starts 125 (skip_ws r')) eqn:E4; [|done]. by destruct (next_shorter _ _ _ E4 Hrs').
  - rw scan_elements_S. cbv zeta. eapply scanned_bind; [apply IHv; [lia|done]|]. intros v r' Hr'.
    destruct (starts 44 (skip_ws r')) eqn:E3.
    { destruct (next_shorter _ _ _ E3 Hr') as (_ & Hl3 & Hs3). destruct Hr' as [Hlr' _].
      eapply scanned_bind; [apply IHe; [lia|by eapply room_suffix]|]. intros l rest Hrest.
      by eapply shorter_suffix. }
    destruct (starts 93 (skip_ws r')) eqn:E4; [|done]. by destruct (next_shorter _ _ _ E4 Hr').
Qed.

Lemma loads_allowed nesting s e : room nesting s ->
  json_loads hook (raising konst) nesting s = Err e -> allowed e.
Proof.
  intros Hn. unfold json_loads. pose proof (skip_ws_suffix s) as Hs. pose proof (suffix_length_le _ _ Hs).
  pose proof (proj1 (scan_enough (S (2 * length s))) nesting (skip_ws s)) as Hv.
  destruct (scan_value hook (raising konst) _ nesting (skip_ws s)) as [[v rest]|e']; cbn in *.
  - intros He. destruct (skip_ws rest); [done|by injection He as <-].
  - intros [= <-]. apply Hv; [lia|by eapply room_suffix].
Qed.
End Terminates.

(** ** A value is no deeper than its text opens *)
Section Depth.
Context (hook : list (pystr * json) -> result (list (pystr * json))) (konst : pystr -> exn).
Context (Hhook : forall kvs kvs', hook kvs = Ok kvs' -> kvs' = kvs).

Lemma openings_skip_ws s : (openings (skip_ws s) <= openings s)%nat.
Proof. apply openings_suffix, skip_ws_suffix. Qed.
Lemma openings_tail s : (openings (tail s) <= openings s)%nat.
Proof. destruct s as [|c s]; [done|]. by apply openings_suffix, suffix_cons_r. Qed.
Lemma openings_enter c s : starts c s = true -> (c =? 91) || (c =? 123) = true ->
  openings s = S (openings (tail s)).
Proof.
  destruct s as [|c' s]; [done|]. intros ->%N.eqb_eq Hc. unfold openings. cbn [List.filter].
  by rewrite Hc.
Qed.
Lemma openings_scanned {A} s (m : result (A * pystr)) x rest : scanned (fun _ => True) s m ->
  m = Ok (x, rest) -> (openings rest <= openings s)%nat.
Proof. intros Hm ->. apply openings_suffix, Hm. Qed.

Lemma scan_constant_flat cs s v rest :
  Forall (fun c : pystr * result json => forall v, c.2 = Ok v -> depth_of v = 0%nat) cs ->
  scan_constant cs s = Ok (v, rest) -> depth_of v = 0%nat.
Proof.
  induction 1 as [|[p r] cs Hr _ IH]; cbn.
  - unfold scan_number, scan_unsigned, int_of_digits.
    repeat (case_match; try done); cbn; intros [= <- _]; done.
  - destruct (strip_prefix p s); [|done]. rw bind_ok. intros (w & Hw & [= <- _]). by apply Hr.
Qed.

Lemma flat_constants :
  Forall (fun c : pystr * result json => forall v, c.2 = Ok v -> depth_of v = 0%nat) (constants (raising konst)).
Proof. by repeat constructor; cbn; intros v [= <-]. Qed.

(** the openings read are at least as many as the value is deep *)
Definition opened (s rest : pystr) (v : json) : Prop := (depth_of v + openings rest <= openings s)%nat.

(** what is left after the character [c] that follows a value, and the white space behind it *)
Lemma openings_next r : (openings (skip_ws (tail (skip_ws r))) <= openings r)%nat
  /\ (openings (tail (skip_ws r)) <= openings r)%nat.
Proof.
  pose proof (openings_skip_ws r). pose proof (openings_tail (skip_ws r)).
  pose proof (openings_skip_ws (tail (skip_ws r))). lia.
Qed.

Lemma scan_depth fuel :
  (forall d s v rest, scan_value hook (raising konst) fuel d s = Ok (v, rest) -> opened s rest v)
  /\ (forall d s kvs rest, scan_members hook (raising konst) fuel d s = Ok (kvs, rest) ->
       (openings rest <= openings s)%nat /\ Forall (fun kv => opened s rest kv.2) kvs)
  /\ (forall d s l rest, scan_elements hook (raising konst) fuel d s = Ok (l, rest) ->
       (openings rest <= openings s)%nat /\ Forall (opened s rest) l).
Proof.
  induction fuel as [|fuel (IHv & IHm & IHe)]; [done|]. split; [|split]; intros d s.
  - intros v rest. rw scan_value_S. cbv zeta. pose proof (openings_next (tail s)) as [Hn _].
    pose proof (openings_skip_ws (tail s)). pose proof (openings_tail (skip_ws (tail s))).
    unfold opened. destruct (starts 34 s) eqn:E1; [|destruct (starts 123 s) eqn:E2; [|destruct (starts 91 s) eqn:E3]].
    + rw bind_ok. intros ([t r] & Hs & [= <- <-]). cbn.
      pose proof (openings_scanned _ _ _ _ (scan_string_shorter _ I (tail s)) Hs).
      pose proof (openings_tail s). lia.
    + rewrite (openings_enter _ _ E2 eq_refl). rw bind_ok. intros (d' & _ & Hs).
      destruct (starts 125 _).
      * apply bind_ok in Hs as (kvs & ->%Hhook & [= <- <-]). cbn. lia.
      * apply bind_ok in Hs as ([kvs r] & [Hr Hm]%IHm & Hs).
        apply bind_ok in Hs as (kvs' & ->%Hhook & [= <- <-]).
        enough (depth_of (JObj kvs) <= S (openings (tail s) - openings r))%nat by lia.
        apply depth_obj_le. eapply Forall_impl; [exact Hm|]. unfold opened. cbn beta. lia.
    + rewrite (openings_enter _ _ E3 eq_refl). rw bind_ok. intros (d' & _ & Hs).
      destruct (starts 93 _); [injection Hs as <- <-; cbn; lia|].
      apply bind_ok in Hs as ([l r] & [Hr Hm]%IHe & [= <- <-]).
      enough (depth_of (JArr l) <= S (openings (tail s) - openings r))%nat by lia.
      apply depth_arr_le. eapply Forall_impl; [exact Hm|]. unfold opened. cbn beta. lia.
    + intros Hs. rewrite (scan_constant_flat _ _ _ _ (flat_constants) Hs).
      eapply openings_scanned; [|exact Hs]. apply scan_constant_shorter; [done..|].
      repeat (apply Forall_cons; split; [done|]). apply Forall_nil_2.
  - intros kvs rest. rw scan_members_S. cbv zeta. destruct (starts 34 s); [|done].
    rw bind_ok. intros ([k r] & Hs & Hk).
    pose proof (openings_scanned _ _ _ _ (scan_string_shorter _ I (tail s)) Hs) as Hr.
    pose proof (openings_tail s). destruct (starts 58 _); [|done].
    apply bind_ok in Hk as ([v r'] & Hv%IHv & Hk). pose proof (openings_next r).
    pose proof (openings_next r'). unfold opened in Hv.
    destruct (starts 44 _); [|destruct (starts 125 _); [|done]].
    + apply bind_ok in Hk as ([kvs' r''] & [Hr'' Hm]%IHm & [= <- <-]). split; [lia|].
      constructor; [unfold opened; cbn; lia|]. eapply Forall_impl; [exact Hm|]. unfold opened. cbn beta. lia.
    + injection Hk as <- <-. split; [lia|]. apply Forall_singleton. unfold opened. cbn. lia.
  - intros l rest. rw scan_elements_S. cbv zeta. rw bind_ok. intros ([v r'] & Hv%IHv & Hk).
    pose proof (openings_next r'). unfold opened in Hv.
    destruct (starts 44 _); [|destruct (starts 93 _); [|done]].
    + apply bind_ok in Hk as ([l' r''] & [Hr'' Hm]%IHe & [= <- <-]). split; [lia|].
      constructor; [unfold opened; lia|]. eapply Forall_impl; [exact Hm|]. unfold opened. cbn beta. lia.
    + injection Hk as <- <-. split; [lia|]. apply Forall_singleton. unfold opened. lia.
Qed.

Lemma loads_depth nesting s v : json_loads hook (raising konst) nesting s = Ok v ->
  (depth_of v <= openings s)%nat.
Proof.
  unfold json_loads. rw bind_ok. intros ([w rest] & Hw%scan_depth & Hr).
  destruct (skip_ws rest); [|done]. injection Hr as <-. unfold opened in Hw.
  pose proof (openings_skip_ws s). lia.
Qed.
End Depth.

(** opening brackets and nothing else: the limit on recursion is met exactly when they are more
    than its levels *)
Lemma scan_brackets hook konst n : forall fuel d, (2 * n < fuel)%nat ->
  scan_value hook (raising konst) fuel d (replicate n 91)
  = Err (if Nat.ltb d n then RecursionError else JSONDecodeError).
Proof.
  induction n as [|n IH]; intros [|fuel] d Hf; try lia; [done|].
  rw scan_value_S. cbn [replicate starts N.eqb Pos.eqb tail].
  destruct d as [|d]; [done|]. cbn [enter mbind result_bind].
  assert (skip_ws (replicate n 91) = replicate n 91) as -> by by destruct n.
  assert (starts 93 (replicate n 91) = false) as -> by by destruct n.
  destruct fuel as [|fuel]; [lia|]. rw scan_elements_S IH; [done|lia].
Qed.

Lemma loads_brackets hook konst nesting n :
  json_loads hook (raising konst) nesting (replicate n 91)
  = Err (if Nat.ltb nesting n then RecursionError else JSONDecodeError).
Proof.
  unfold json_loads. assert (skip_ws (replicate n 91) = replicate n 91) as -> by by destruct n.
  rw scan_brackets; [done|]. rewrite length_replicate. lia.
Qed.
