(* ===== verification/Rfc8785Reference.v ===== *)
(** * A reference serialiser that keeps the promises of [RFC8785Spec]

    Concrete executions need a concrete [rfc8785.dumps].  This instance writes
    integers in decimal, strings with the escapes of RFC 8785 section 3.2.2.2
    and members in the order of their keys' UTF-16 code units; it refuses
    numbers with a fraction.  [reference_spec] proves [RFC8785Spec] for it, so
    the hypotheses the theorems make about the package are satisfiable. *)
From S2P Require Import Prelude PyStr Json JsonFacts.
Local Open Scope N_scope.
#[local] Arguments u : simpl nomatch.

(** ** The serialiser *)
Definition escape_char (c : N) : pystr :=
  if c =? 34 then [92; 34]
  else if c =? 92 then [92; 92]
  else if c =? 8 then [92; 98]
  else if c =? 9 then [92; 116]
  else if c =? 10 then [92; 110]
  else if c =? 12 then [92; 102]
  else if c =? 13 then [92; 114]
  else if c <? 32 then [92; 117; 48; 48; hex_digit (c / 16); hex_digit (c mod 16)]
  else [c].

Definition quote (s : pystr) : pystr := 34 :: flat_map escape_char s ++ [34].

Fixpoint serialize (v : json) : pystr :=
  match v with
  | JNull => u "null"
  | JBool b => if b then u "true" else u "false"
  | JInt z => py_str_int z
  | JFloat literal => literal
  | JStr s => quote s
  | JArr l => 91 :: join_sep 44 (map serialize l) ++ [93]
  | JObj kvs => 123 :: join_sep 44 (map (fun '(k, x) => quote k ++ 58 :: serialize x) kvs) ++ [125]
  end.

(** an interpreter with room for 64 levels *)
#[export] Instance reference_rfc8785 : RFC8785 := {|
  rfc8785_dumps := fun v =>
    raise_if (Nat.ltb 64 (depth_of v)) RecursionError;;
    raise_if (negb (ijson v)) CanonicalizationError;;
    except (encode_utf8 (serialize (sort_json v))) (fun _ => true) CanonicalizationError;
  loads_nesting := 64;
  dumps_nesting := 64 |}.

(** ** Parsing what [serialize] writes *)
Lemma hex4_control c : c < 32 ->
  hex4 48 48 (hex_digit (c / 16)) (hex_digit (c mod 16)) = Some c.
Proof.
  intros Hc. unfold hex4.
  assert (forall n, n < 16 -> hex_value (hex_digit n) = Some n) as Hd.
  { intros n Hn. unfold hex_value, hex_digit. repeat case_match; try (f_equal; lia); lia. }
  rw !Hd; [|nlia..]. cbn. f_equal. nlia.
Qed.

Lemma scan_string_char c s : is_scalar c = true ->
  scan_string (escape_char c ++ s) = ('(t, rest) ← scan_string s; Ok (c :: t, rest)).
Proof.
  intros Hc. unfold escape_char.
  destruct (N.eqb_spec c 34) as [->|]; [done|].
  destruct (N.eqb_spec c 92) as [->|]; [done|].
  destruct (N.eqb_spec c 8) as [->|]; [done|].
  destruct (N.eqb_spec c 9) as [->|]; [done|].
  destruct (N.eqb_spec c 10) as [->|]; [done|].
  destruct (N.eqb_spec c 12) as [->|]; [done|].
  destruct (N.eqb_spec c 13) as [->|]; [done|].
  destruct (N.ltb_spec c 32) as [H32|H32].
  - cbn -[hex4 N.div N.modulo hex_digit]. rw (hex4_control c H32).
    assert ((0xD800 <=? c) = false) as -> by lia. done.
  - cbn [app scan_string]. assert ((c =? 34) = false) as -> by lia.
    assert ((c <? 32) = false) as -> by lia. assert ((c =? 92) = false) as -> by lia. done.
Qed.

Lemma scan_string_quote s rest : scalar_str s = true ->
  scan_string (flat_map escape_char s ++ 34 :: rest) = Ok (s, rest).
Proof.
  unfold scalar_str. induction s as [|c s IH]; cbn [forallb flat_map]; [done|].
  intros [Hc Hs]%andb_true_iff. rw -app_assoc (scan_string_char _ _ Hc) IH; done.
Qed.

(** what may follow a value inside an array or an object, or at the end *)
Definition delimited (s : pystr) : Prop :=
  match s with [] => True | c :: _ => c = 44 \/ c = 93 \/ c = 125 end.

Lemma delimited_not_digit s : delimited s -> take_digits s = ([], s).
Proof. destruct s as [|c s]; [done|]. by intros [->|[->| ->]]. Qed.

Lemma take_digits_app ds s : Forall (fun c => is_digit c = true) ds -> delimited s ->
  take_digits (ds ++ s) = (ds, s).
Proof.
  induction 1 as [|c ds Hc _ IH]; cbn [app]; intros Hs; [by apply delimited_not_digit|].
  cbn. by rw Hc IH.
Qed.

Lemma scan_fraction_none s : delimited s -> scan_fraction s = ([], s).
Proof. destruct s as [|c s]; [done|]. by intros [->|[->| ->]]. Qed.
Lemma scan_exponent_none s : delimited s -> scan_exponent s = ([], s).
Proof. destruct s as [|c s]; [done|]. by intros [->|[->| ->]]. Qed.

(** an integer of I-JSON is far below the limit on integer literals *)
Lemma decimal_go_length fuel n acc :
  (length (decimal_go fuel n acc) <= fuel + length acc)%nat.
Proof.
  revert n acc. induction fuel as [|fuel IH]; intros n acc; cbn; [done|].
  case_match; cbn; [lia|]. etrans; [apply IH|]. cbn. lia.
Qed.

Lemma pos_size_nat_le p : 2 ^ N.of_nat (Pos.size_nat p) <= 2 * N.pos p.
Proof.
  induction p as [p IH|p IH|]; cbn [Pos.size_nat]; [| |done];
    rw Nat2N.inj_succ N.pow_succ_r'; lia.
Qed.

Lemma decimal_length n : n < 2 ^ 60 -> (length (decimal n) <= 62)%nat.
Proof.
  intros Hn. unfold decimal. etrans; [apply decimal_go_length|]. cbn [length].
  enough (N.size_nat n <= 61)%nat by lia. destruct n as [|p]; cbn [N.size_nat]; [lia|].
  pose proof (pos_size_nat_le p) as H.
  destruct (le_lt_dec (Pos.size_nat p) 61) as [|Hlt]; [done|].
  pose proof (N.pow_le_mono_r 2 62 (N.of_nat (Pos.size_nat p))) as H2.
  assert (2 ^ 62 = 4 * 2 ^ 60) as E by done. lia.
Qed.

Lemma scan_unsigned_digits sign n rest : n < 2 ^ 60 -> delimited rest ->
  scan_unsigned sign (decimal n ++ rest)
  = Ok (JInt (match sign with [] => Z.of_N n | _ => - Z.of_N n end), rest).
Proof.
  intros Hn Hrest. pose proof (decimal_length n Hn) as Hlen.
  destruct (decimal_spec n) as (Hne & Hd & Hv & H0 & Hh).
  unfold scan_unsigned.
  assert (scan_integer_part (decimal n ++ rest) = (decimal n, rest)) as ->.
  { destruct (N.eqb_spec n 0) as [E|E]; [by rw (H0 E)|]. specialize (Hh E).
    unfold scan_integer_part. rw -(take_digits_app _ _ Hd Hrest).
    destruct (decimal n) as [|c ds]; [done|]. cbn [app hd] in *.
    by rw (proj2 (N.eqb_neq c 48) Hh). }
  destruct (decimal n) as [|c ds] eqn:E; [done|]. rw -E.
  rw scan_fraction_none; [|done]. rw scan_exponent_none; [|done]. cbn [app].
  unfold int_of_digits. rw E Hv.
  assert ((4300 <? N.of_nat (length (c :: ds))) = false) as -> by lia. by destruct sign.
Qed.

(** no constant of the decoder starts like a number *)
Lemma scan_constant_digit e c s : is_digit c = true ->
  scan_constant (constants e) (c :: s) = scan_number (c :: s)
  /\ scan_constant (constants e) (45 :: c :: s) = scan_number (45 :: c :: s).
Proof.
  unfold is_digit. intros Hc. cbn -[N.eqb scan_number].
  repeat match goal with |- context [N.eqb ?a c] => rw (proj2 (N.eqb_neq a c)); [|lia] end.
  done.
Qed.

Lemma scan_constant_int e z rest :
  (- max_safe_integer <= z <= max_safe_integer)%Z -> delimited rest ->
  scan_constant (constants e) (py_str_int z ++ rest) = Ok (JInt z, rest).
Proof.
  unfold max_safe_integer. intros Hz Hrest.
  assert (forall n, exists c ds, decimal n = c :: ds /\ is_digit c = true) as Hd.
  { intros n. destruct (decimal_spec n) as (? & Hd & _).
    destruct (decimal n) as [|c ds]; [done|]. apply Forall_cons in Hd as [? ?]. eauto. }
  destruct z as [|p|p]; cbn [py_str_int].
  - destruct (Hd (Z.to_N 0)) as (c & ds & E & Hc). rw E. cbn [app].
    rw (proj1 (scan_constant_digit e c _ Hc)). cbn [scan_number].
    assert ((c =? 45) = false) as -> by (unfold is_digit in Hc; lia).
    change (c :: ds ++ rest) with ((c :: ds) ++ rest). by rw -E (scan_unsigned_digits []).
  - destruct (Hd (Z.to_N (Z.pos p))) as (c & ds & E & Hc). rw E. cbn [app].
    rw (proj1 (scan_constant_digit e c _ Hc)). cbn [scan_number].
    assert ((c =? 45) = false) as -> by (unfold is_digit in Hc; lia).
    change (c :: ds ++ rest) with ((c :: ds) ++ rest).
    by rw -E (scan_unsigned_digits []); [|lia|done].
  - destruct (Hd (N.pos p)) as (c & ds & E & Hc). rw E. cbn [app].
    rw (proj2 (scan_constant_digit e c _ Hc)). cbn [scan_number].
    change (c :: ds ++ rest) with ((c :: ds) ++ rest).
    rw -E (scan_unsigned_digits [45]); [|lia|done]. done.
Qed.

Lemma serialize_head v : ijson v = true ->
  exists c s, serialize v = c :: s /\ is_ws c = false /\ c <> 93 /\ c <> 125.
Proof.
  destruct v as [|[]|z| | | |]; intros Hv; try done; cbn; try by eexists _, _.
  assert (forall n, exists c s, decimal n = c :: s /\ is_digit c = true) as Hd.
  { intros n. destruct (decimal_spec n) as (? & Hd & _).
    destruct (decimal n) as [|c ds]; [done|]. apply Forall_cons in Hd as [? ?]. eauto. }
  assert (forall n, exists c s, decimal n = c :: s /\ is_ws c = false /\ c <> 93 /\ c <> 125).
  { intros n. destruct (Hd n) as (c & s & -> & Hc). unfold is_digit in Hc. exists c, s.
    unfold is_ws. split; [done|]. lia. }
  destruct z; [apply (H (Z.to_N 0))|apply (H (Z.to_N (Z.pos p)))|by eexists _, _].
Qed.

Section RoundTrip.
Context (hook : list (pystr * json) -> result (list (pystr * json))) (konst : pystr -> result json).
Context (Hhook : forall kvs, NoDup (map fst kvs) -> hook kvs = Ok kvs).

(** [v] is scanned back from its serialisation *)
Definition scans (v : json) : Prop := forall fuel d rest,
  ijson v = true -> delimited rest -> (length (serialize v) < fuel)%nat -> (depth_of v <= d)%nat ->
  scan_value hook konst fuel d (serialize v ++ rest) = Ok (v, rest).

Lemma scan_elements_join l fuel d rest : l <> [] -> Forall scans l -> forallb ijson l = true ->
  (S (length (join_sep 44 (map serialize l))) < fuel)%nat -> Forall (fun x => depth_of x <= d)%nat l ->
  scan_elements hook konst fuel d (join_sep 44 (map serialize l) ++ 93 :: rest) = Ok (l, rest).
Proof.
  intros Hne Hl. revert fuel Hne.
  induction Hl as [|v l Hv _ IH]; intros fuel Hne Hij Hf Hd; [done|].
  destruct fuel as [|fuel]; [lia|]. rw scan_elements_S. cbn [forallb] in *.
  apply andb_true_iff in Hij as [Hvj Hlj]. apply Forall_cons in Hd as [Hdv Hd].
  destruct l as [|w l].
  - cbn [map join_sep] in *. rw Hv; [|done|by right; left|lia|done]. done.
  - cbn [map join_sep] in *. rw -app_assoc. cbn [app].
    rw length_app in Hf. cbn [length] in Hf.
    rw Hv; [|done|by left|lia|done]. cbn [mbind result_bind].
    cbn [skip_ws is_ws N.eqb Pos.eqb orb starts].
    destruct (serialize_head w) as (c & s & Hs & Hws & _); [by apply andb_true_iff in Hlj as [? _]|].
    assert (skip_ws (join_sep 44 (serialize w :: map serialize l) ++ 93 :: rest)
      = join_sep 44 (map serialize (w :: l)) ++ 93 :: rest) as E.
    { cbn [map]. destruct l as [|? l]; cbn [map join_sep]; rw Hs; cbn; by rw Hws. }
    cbn [tail]. rw E IH; [done|done|done| |done]. cbn [map join_sep]. lia.
Qed.

Let member_text : pystr * json -> pystr := fun '(k, x) => quote k ++ 58 :: serialize x.

Lemma scan_members_join kvs fuel d rest : kvs <> [] -> Forall (fun kv => scans kv.2) kvs ->
  forallb ijson_member kvs = true ->
  (S (length (join_sep 44 (map member_text kvs))) < fuel)%nat ->
  Forall (fun kv => depth_of kv.2 <= d)%nat kvs ->
  scan_members hook konst fuel d
    (join_sep 44 (map member_text kvs) ++ 125 :: rest)
  = Ok (kvs, rest).
Proof.
  intros Hne Hl. revert fuel Hne.
  induction Hl as [|[k v] kvs Hv _ IH]; intros fuel Hne Hij Hf Hd; [done|].
  destruct fuel as [|fuel]; [lia|]. cbn [forallb] in Hij.
  apply andb_true_iff in Hij as [Hm Hlj]. unfold ijson_member in Hm. cbn [fst snd] in *.
  apply andb_true_iff in Hm as [Hk Hvj]. apply Forall_cons in Hd as [Hdv Hd]. cbn [snd] in Hdv.
  destruct (serialize_head v Hvj) as (c & s & Hs & Hws & _).
  assert (forall tl, scan_members hook konst (S fuel) d ((quote k ++ 58 :: serialize v) ++ tl)
    = '(v, r) ← scan_value hook konst fuel d (serialize v ++ tl);
        let r := skip_ws r in
        if starts 44 r then
          '(kvs, rest) ← scan_members hook konst fuel d (skip_ws (tail r));
          Ok ((k, v) :: kvs, rest)
        else if starts 125 r then Ok ([(k, v)], tail r)
        else Err JSONDecodeError) as Hone.
  { intros tl. unfold quote. rw scan_members_S -!app_assoc. cbn [app starts tail].
    cbn [N.eqb Pos.eqb]. rw -!app_assoc. cbn [app]. rw (scan_string_quote _ _ Hk).
    cbn [mbind result_bind skip_ws is_ws N.eqb Pos.eqb orb starts tail].
    rw Hs. cbn [app skip_ws]. by rw Hws. }
  destruct kvs as [|[k2 v2] kvs].
  - cbn [map join_sep member_text] in *. rw length_app in Hf. cbn [length] in Hf.
    rw Hone Hv; [|done|by right; right|lia|done]. done.
  - cbn [map join_sep member_text] in *. rw -app_assoc Hone. cbn [app].
    rw !length_app in Hf. cbn [length] in Hf. 
    rw Hv; [|done|by left|lia|done]. cbn [mbind result_bind].
    cbn [skip_ws is_ws N.eqb Pos.eqb orb starts tail].
    assert (forall x, skip_ws (join_sep 44 ((quote k2 ++ x) :: 
        map member_text kvs) ++ 125 :: rest)
      = join_sep 44 ((quote k2 ++ x) :: 
        map member_text kvs) ++ 125 :: rest) as E.
    { intros x. destruct kvs as [|? kvs]; cbn [map join_sep]; by unfold quote. }
    rw E IH; [done|done|done|lia|done].
Qed.

Lemma scan_serialize v : scans v.
Proof.
  induction v as [|b|z|lit|s|l IH|kvs IH] using json_nested_ind;
    intros [|fuel] d rest Hv Hrest Hf Hn; try lia.
  - done.
  - by destruct b.
  - cbn [serialize ijson] in *. apply andb_true_iff in Hv as [H1 H2].
    assert (forall c, c = 34 \/ c = 123 \/ c = 91 -> starts c (py_str_int z ++ rest) = false) as Hst.
    { intros c Hc. destruct z as [|p|p]; cbn [py_str_int]; [..|cbn [app starts]; lia].
      all: match goal with |- context [decimal ?n] =>
             destruct (decimal_spec n) as (? & Hd & _); destruct (decimal n); [done|] end.
      all: apply Forall_cons in Hd as [Hd _]; unfold is_digit in Hd; cbn [app starts]; lia. }
    rw scan_value_S !Hst; [|tauto..]. apply scan_constant_int; lia || done.
  - done.
  - cbn [serialize ijson] in *. unfold quote. cbn [app]. rw -app_assoc scan_value_S.
    cbn [app starts N.eqb Pos.eqb tail]. by rw scan_string_quote.
  - cbn [serialize ijson length] in *. rw length_app in Hf. cbn [length] in Hf.
    cbn [app]. rw -app_assoc scan_value_S. cbn [app starts N.eqb Pos.eqb tail].
    destruct d as [|d]; [cbn in Hn; lia|]. apply depth_arr_le in Hn. cbn [enter mbind result_bind].
    destruct l as [|w l]; [done|].
    destruct (serialize_head w) as (c & s & Hs & Hws & Hc & _); [by apply andb_true_iff in Hv as [? _]|].
    assert (exists t, join_sep 44 (map serialize (w :: l)) = c :: t) as [t Ht].
    { destruct l; cbn [map join_sep]; rw Hs; by eexists. }
    assert (skip_ws (join_sep 44 (map serialize (w :: l)) ++ 93 :: rest)
      = join_sep 44 (map serialize (w :: l)) ++ 93 :: rest) as E
      by (rw Ht; cbn; by rw Hws).
    assert (starts 93 (join_sep 44 (map serialize (w :: l)) ++ 93 :: rest) = false) as E2
      by (rw Ht; cbn; lia).
    rw E E2 (scan_elements_join (w :: l)); [done|done|done|done|lia|done].
  - rw ijson_obj in Hv. apply andb_true_iff in Hv as [Hnd Hv].
    apply bool_decide_eq_true in Hnd.
    cbn [serialize length] in *. rw length_app in Hf. cbn [length] in Hf.
    cbn [app]. rw -app_assoc scan_value_S. cbn [app starts N.eqb Pos.eqb tail].
    destruct d as [|d]; [cbn in Hn; lia|]. apply depth_obj_le in Hn. cbn [enter mbind result_bind].
    change (fun '(k, x) => quote k ++ 58 :: serialize x) with member_text in Hf |- *.
    destruct kvs as [|[k x] kvs].
    { cbn. by rw Hhook. }
    set (j := join_sep 44 _) in *.
    assert (exists t, j = 34 :: t) as [t Ht].
    { subst j. destruct kvs; cbn [map join_sep]; unfold quote; by eexists. }
    assert (skip_ws (j ++ 125 :: rest) = j ++ 125 :: rest) as E by (rw Ht; done).
    assert (starts 125 (j ++ 125 :: rest) = false) as E2 by (rw Ht; done).
    rw E E2. subst j. rw (scan_members_join ((k, x) :: kvs)); [|done|done|done|lia|done].
    cbn [mbind result_bind]. by rw Hhook.
Qed.

Lemma loads_serialize n v : ijson v = true -> (depth_of v <= n)%nat ->
  json_loads hook konst n (serialize v) = Ok v.
Proof.
  intros Hv Hn. unfold json_loads.
  destruct (serialize_head v Hv) as (c & s & Hs & Hws & _).
  assert (skip_ws (serialize v) = serialize v ++ []) as E.
  { rw Hs. cbn. by rw Hws app_nil_r. }
  rw E scan_serialize; [done|done|done|lia|done].
Qed.
End RoundTrip.

(** ** The specification holds *)
Lemma scalar_serialize v : ijson v = true -> scalar_str (serialize v) = true.
Proof.
  assert (forall l, scalar_str l = true <-> Forall (fun c => is_scalar c = true) l) as Hs
    by (intros; apply forallb_iff).
  assert (forall n, Forall (fun c => is_scalar c = true) (decimal n)) as Hdec.
  { intros n. eapply Forall_impl; [apply decimal_ascii|]. cbn. unfold is_scalar. lia. }
  assert (forall s, scalar_str s = true -> Forall (fun c => is_scalar c = true) (quote s)) as Hq.
  { intros s Hc%Hs. unfold quote. constructor; [done|]. apply Forall_app. split; [|by repeat constructor].
    induction Hc as [|c s Hc _ IH]; cbn [flat_map]; [done|]. apply Forall_app. split; [|exact IH].
    unfold escape_char. repeat case_match; repeat constructor; try done;
      unfold hex_digit; case_match; unfold is_scalar; nlia. }
  assert (forall ps, Forall (Forall (fun c => is_scalar c = true)) ps ->
            Forall (fun c => is_scalar c = true) (join_sep 44 ps)) as Hj.
  { intros ps. induction ps as [|p [|q ps] IH]; cbn [join_sep]; [done|by inversion 1|].
    intros [Hp Hps]%Forall_cons. apply Forall_app. split; [done|]. constructor; [done|]. by apply IH. }
  rw Hs. induction v as [|b|z|lit|s|l IH|kvs IH] using json_nested_ind; cbn [serialize]; intros Hv.
  - by repeat constructor.
  - destruct b; by repeat constructor.
  - destruct z; cbn [py_str_int]; try apply Hdec. constructor; [done|apply Hdec].
  - done.
  - by apply Hq.
  - constructor; [done|]. apply Forall_app. split; [|by repeat constructor].
    cbn in Hv. apply forallb_iff in Hv. apply Hj. apply Forall_map.
    eapply Forall_impl; [apply Forall_and; split; [exact IH|exact Hv]|]. cbn. naive_solver.
  - rw ijson_obj in Hv. apply andb_true_iff in Hv as [_ Hv]. apply forallb_iff in Hv.
    constructor; [done|]. apply Forall_app. split; [|by repeat constructor].
    apply Hj. apply Forall_map.
    eapply Forall_impl; [apply Forall_and; split; [exact IH|exact Hv]|].
    intros [k x] [Hx Hm]. unfold ijson_member in Hm. cbn [fst snd] in *.
    apply andb_true_iff in Hm as [Hk Hxj]. apply Forall_app. split; [by apply Hq|].
    constructor; [done|]. by apply Hx.
Qed.

(** a text is longer than its value is deep *)
Lemma join_longer ps p : p ∈ ps -> (length p <= length (join_sep 44 ps))%nat.
Proof.
  induction ps as [|q ps IH]; [by intros ?%not_elem_of_nil|].
  intros [->|Hp]%elem_of_cons; cbn [join_sep]; destruct ps as [|r ps]; try lia.
  - rewrite length_app. lia.
  - by apply not_elem_of_nil in Hp.
  - rewrite length_app. cbn [length]. apply IH in Hp. lia.
Qed.

Lemma depth_serialize v : (depth_of v <= length (serialize v))%nat.
Proof.
  induction v as [|b|z|lit|s|l IH|kvs IH] using json_nested_ind; try (cbn; lia).
  - cbn [serialize length]. apply depth_arr_le. apply Forall_forall. intros x Hx.
    pose proof (proj1 (Forall_forall _ _) IH _ Hx) as Hd. cbn beta in Hd. rewrite length_app.
    pose proof (join_longer (map serialize l) (serialize x)) as Hj.
    specialize (Hj (list_elem_of_fmap_2 _ _ _ Hx)). lia.
  - cbn [serialize length]. apply depth_obj_le. apply Forall_forall. intros [k x] Hx.
    pose proof (proj1 (Forall_forall _ _) IH _ Hx) as Hd. cbn [snd] in Hd |- *. rewrite length_app.
    pose proof (join_longer (map (fun '(k, x) => quote k ++ 58 :: serialize x) kvs)
      (quote k ++ 58 :: serialize x)) as Hj.
    specialize (Hj (list_elem_of_fmap_2 _ _ _ Hx)). rewrite length_app in Hj. cbn [length] in Hj. lia.
Qed.

Lemma reference_ok v b : rfc8785_dumps v = Ok b <->
  (depth_of v <= 64)%nat /\ ijson v = true /\ encode_utf8 (serialize (sort_json v)) = Ok b.
Proof.
  cbn [rfc8785_dumps reference_rfc8785].
  rw !bind_ok_unit !raise_if_ok Nat.ltb_ge negb_false_iff except_ok. done.
Qed.

#[export] Instance reference_spec : RFC8785Spec.
Proof.
  split; cbn [loads_nesting dumps_nesting reference_rfc8785].
  - intros v Hv Hd. destruct (encode_utf8_ok (serialize (sort_json v))) as [b Hb].
    + apply forallb_iff. change (scalar_str (serialize (sort_json v)) = true).
      apply scalar_serialize. by rw ijson_sort.
    + exists b. by apply reference_ok.
  - intros v e. cbn [rfc8785_dumps reference_rfc8785]. destruct (Nat.ltb_spec 64 (depth_of v)); cbn.
    + intros [= <-]. by right.
    + left. destruct (ijson v); cbn in *; [|congruence].
      destruct (encode_utf8 _); cbn in *; congruence.
  - intros v. cbn [rfc8785_dumps reference_rfc8785]. by rw ijson_sort sort_json_idemp depth_sort.
  - intros v b Hv (_ & _ & E)%reference_ok.
    exists (serialize (sort_json v)). split; [by apply decode_encode_utf8|].
    intros n hook konst Hn Hhook. apply loads_serialize; [done|by rw ijson_sort|by rw depth_sort].
  - lia.
  - lia.
Qed.

Example reference_sorts :
  (rfc8785_dumps (JObj [(u "b", JInt 2); (u "a", JArr [JNull; JStr (u "x")])]))
  = Ok ([123; 34; 97; 34; 58; 91] ++ u "null" ++ [44; 34; 120; 34; 93; 44; 34; 98; 34; 58; 50; 125]).
Proof. vm_compute. reflexivity. Qed.
