(* ===== verification/Contract.v ===== *)
(** * The artifact-hold contract: constants, field checks and identities

    The part of [src/a2amesh/state_contracts/artifact_hold.py] every record of
    the contract is built from: the module constants and enumerations, the
    [_require_*] field checks, [_parse_canonical_object], and the preimages
    that identify an expiry operation and a replay claim. *)
From S2P Require Import Prelude PyStr Sha256 Json.
Local Open Scope py_scope.
Local Open Scope Z_scope.

(** ** Constants and enumerations *)
Definition _MAX_SAFE_INTEGER : Z := 9007199254740991.
Definition ARTIFACT_HOLD_CANDIDATE_LEASE_MAX_MS : Z := 300000.
Definition _EXPIRE_DOMAIN : pybytes := u "a2amesh-artifact-hold-expire-v1".
Definition _COMMIT_DOMAIN : pybytes := u "a2amesh-artifact-hold-expire-commit-v1".
Definition _EVENT_DOMAIN : pybytes := u "a2amesh-artifact-hold-expire-event-v1".
Definition _REPLAY_CLAIM_DOMAIN : pybytes := u "a2amesh-artifact-hold-replay-claim-v1".
Definition ARTIFACT_HOLD_REAPER_COMPONENT_TYPE : pystr := u "artifact-hold-reaper".
Definition ARTIFACT_HOLD_REAPER_PRINCIPAL_ID : pystr := u "component:artifact-hold-reaper".
Definition ARTIFACT_HOLD_EXPIRY_SUBJECT : pystr := u "a2a.v1.state.artifact.hold.expire".
Definition _SEPARATOR : N := 0.

Inductive ArtifactHoldStatus := ACTIVE | RELEASED | EXPIRED.
Inductive ArtifactLifecycleStatus :=
| PENDING_UPLOAD | AVAILABLE | QUARANTINED | DELETING | DELETED | FAILED.
Inductive ArtifactHoldExpiryOperation := SCAN | EXPIRE | REPLAY_CLAIM.
Inductive ArtifactHoldExpiryEventSink := AUDIT | OUTBOX.

#[global] Instance hold_status_eq_dec : EqDecision ArtifactHoldStatus.
Proof. solve_decision. Defined.
#[global] Instance lifecycle_eq_dec : EqDecision ArtifactLifecycleStatus.
Proof. solve_decision. Defined.
#[global] Instance operation_eq_dec : EqDecision ArtifactHoldExpiryOperation.
Proof. solve_decision. Defined.
#[global] Instance sink_eq_dec : EqDecision ArtifactHoldExpiryEventSink.
Proof. solve_decision. Defined.

(** the [.value] of the enumerations' members *)
Definition hold_status_value (s : ArtifactHoldStatus) : pystr :=
  match s with ACTIVE => u "ACTIVE" | RELEASED => u "RELEASED" | EXPIRED => u "EXPIRED" end.
Definition operation_value (o : ArtifactHoldExpiryOperation) : pystr :=
  match o with SCAN => u "SCAN" | EXPIRE => u "EXPIRE" | REPLAY_CLAIM => u "REPLAY_CLAIM" end.
Definition sink_value (s : ArtifactHoldExpiryEventSink) : pystr :=
  match s with AUDIT => u "AUDIT" | OUTBOX => u "OUTBOX" end.

(** the enumerations' lookup by value *)
Definition parse_hold_status (v : json) : option ArtifactHoldStatus :=
  match v with
  | JStr s => if s == u "ACTIVE" then Some ACTIVE
              else if s == u "RELEASED" then Some RELEASED
              else if s == u "EXPIRED" then Some EXPIRED else None
  | _ => None
  end.

Definition conflict (msg : string) : exn := ArtifactHoldExpiryConflict msg.

(** ** Field checks *)
Definition _require_stable_text (value : pystr) (label : string) : result unit :=
  raise_if ((value == []) || (value != strip value))
    (conflict (label <+> " must be non-empty trimmed text"));;
  raise_if (existsb (fun c => (c <? 0x20)%N || (c =? 0x7F)%N) value)
    (conflict (label <+> " contains a control character"));;
  match encode_utf8 value with
  | Ok _ => Ok tt
  | Err _ => Err (conflict (label <+> " is not valid Unicode text"))
  end.

(** [_LOWER_SHA256_RE.fullmatch(value)] *)
Definition sha256_re (value : pystr) : bool :=
  (length value == 64%nat) && forallb is_lower_hex value.

Definition _require_sha256 (value : pystr) (label : string) : result unit :=
  _require_stable_text value label;;
  raise_if (negb (sha256_re value)) (conflict (label <+> " must be lowercase SHA-256 hex")).

(** [_CANDIDATE_TOKEN_RE.fullmatch(value)] *)
Definition candidate_token_re (value : pystr) : bool :=
  (length value == 43%nat) && forallb is_b64 value.

Definition _require_candidate_token (value : pystr) (label : string) : result unit :=
  _require_stable_text value label;;
  raise_if (negb (candidate_token_re value)) (conflict (label <+> " must be 32-byte base64url"));;
  decoded ← or_raise (b64_decode value) (ValueError "Incorrect padding");
  let canonical := b64_encode decoded in
  raise_if ((length decoded != 32%nat) || (canonical != value))
    (conflict (label <+> " must be canonical 32-byte base64url")).

Definition _require_integer (value : Z) (label : string) (minimum maximum : Z) : result unit :=
  raise_if (negb ((minimum <=? value) && (value <=? maximum)))
    (conflict (label <+> " outside safe integer range")).
Abbreviation require_integer value label minimum :=
  (_require_integer value label minimum _MAX_SAFE_INTEGER).

(** a check of a field that may be [None] *)
Definition when_some {A} (o : option A) (f : A -> result unit) : result unit :=
  match o with None => Ok tt | Some a => f a end.

(** ** Decoding *)
Definition dict := list (pystr * json).
Definition dict_keys (value : dict) : gset pystr := list_to_set (map fst value).

Definition _require_exact_fields (value : dict) (expected : list string) (label : string)
    : result unit :=
  raise_if (dict_keys value != list_to_set (map u expected))
    (conflict (label <+> " has missing or extra fields")).

Definition _parse_operation (value : option json) (label : string)
    : result ArtifactHoldExpiryOperation :=
  match value with
  | Some (JStr s) =>
    if s == u "SCAN" then Ok SCAN
    else if s == u "EXPIRE" then Ok EXPIRE
    else if s == u "REPLAY_CLAIM" then Ok REPLAY_CLAIM
    else Err (conflict (label <+> " is unknown"))
  | _ => Err (conflict (label <+> " is unknown"))
  end.

(** [value[key]] where the field's check refuses anything but a [str], an [int],
    a [bool], or an [int] or [None]; [msg] is what that check raises. *)
Definition str_field (value : dict) (key msg : string) : result pystr :=
  match obj_get (u key) value with Some (JStr s) => Ok s | _ => Err (conflict msg) end.
Definition int_field (value : dict) (key msg : string) : result Z :=
  match obj_get (u key) value with Some (JInt z) => Ok z | _ => Err (conflict msg) end.
Definition bool_field (value : dict) (key msg : string) : result bool :=
  match obj_get (u key) value with Some (JBool b) => Ok b | _ => Err (conflict msg) end.
Definition opt_int_field (value : dict) (key msg : string) : result (option Z) :=
  match obj_get (u key) value with
  | Some (JInt z) => Ok (Some z)
  | Some JNull => Ok None
  | _ => Err (conflict msg)
  end.
Definition text_msg (label : string) : string := label <+> " must be non-empty trimmed text".
Definition int_msg (label : string) : string := label <+> " must be an integer".

Fixpoint reject_duplicates_go (label : string) (result : dict) (pairs : dict)
    : Prelude.result dict :=
  match pairs with
  | [] => Ok result
  | (key, value) :: pairs =>
    raise_if (bool_decide (key ∈ map fst result)) (conflict (label <+> " contains duplicate field"));;
    reject_duplicates_go label (result ++ [(key, value)]) pairs
  end.
Definition reject_duplicates (label : string) (pairs : dict) : result dict :=
  reject_duplicates_go label [] pairs.

(** the printable form of an ASCII constant's name *)
Definition ascii_string (s : pystr) : string :=
  String.string_of_list_ascii (map Ascii.ascii_of_N s).

Section Digests.
Context `{RFC8785}.

Definition _parse_canonical_object (wire : pybytes) (label : string) : result dict :=
  parsed ←
    (match decode_utf8 wire ≫= json_loads (reject_duplicates label)
         (raising (fun value => conflict (label <+> " contains " <+> ascii_string value)))
         loads_nesting with
     | Err (UnicodeError | JSONDecodeError) =>
       Err (conflict (label <+> " is not valid UTF-8 JSON"))
     | r => r
     end);
  match parsed with
  | JObj kvs =>
    canonical ← except (rfc8785_dumps (JObj kvs))
      (fun e => match e with
                | CanonicalizationError | TypeError | ValueError _ | UnicodeError => true
                | _ => false end)
      (conflict (label <+> " is not RFC8785-compatible"));
    raise_if (canonical != wire) (conflict (label <+> " is not canonical RFC8785 bytes"));;
    Ok kvs
  | _ => Err (conflict (label <+> " must be a JSON object"))
  end.

Definition _canonical_digest (payload : dict) : result pystr :=
  b ← rfc8785_dumps (JObj payload); Ok (sha256_hexdigest b).

Definition _event_digest (payload : dict) : result pystr :=
  b ← rfc8785_dumps (JObj payload);
  Ok (sha256_hexdigest (join_sep _SEPARATOR [_EVENT_DOMAIN; b])).

(** [rfc8785.dumps(self.to_wire_dict())] *)
Definition canonical_json_of (wire_dict : dict) : result pybytes :=
  rfc8785_dumps (JObj wire_dict).
End Digests.

(** ** Operation identities *)
Definition artifact_hold_expiry_preimage (artifact_id hold_id expected_hold_digest : pystr)
    (expected_artifact_version observed_expires_ms : Z) : result pybytes :=
  _require_stable_text artifact_id "artifact_id";;
  _require_stable_text hold_id "hold_id";;
  _require_sha256 expected_hold_digest "expected_hold_digest";;
  require_integer expected_artifact_version "expected_artifact_version" 1;;
  require_integer observed_expires_ms "observed_expires_ms" 0;;
  artifact ← encode_utf8 artifact_id;
  hold ← encode_utf8 hold_id;
  digest ← encode_ascii expected_hold_digest;
  version ← encode_ascii (py_str_int expected_artifact_version);
  expires ← encode_ascii (py_str_int observed_expires_ms);
  Ok (join_sep _SEPARATOR [_EXPIRE_DOMAIN; artifact; hold; digest; version; expires]).

Definition artifact_hold_expiry_operation_id (artifact_id hold_id expected_hold_digest : pystr)
    (expected_artifact_version observed_expires_ms : Z) : result pystr :=
  preimage ← artifact_hold_expiry_preimage artifact_id hold_id expected_hold_digest
    expected_artifact_version observed_expires_ms;
  Ok (sha256_hexdigest preimage).

Definition replay_claim_preimage (expire_operation_id candidate_lease_id : pystr)
    : result pybytes :=
  _require_sha256 expire_operation_id "expire_operation_id";;
  _require_candidate_token candidate_lease_id "replay claim candidate lease ID";;
  operation ← encode_ascii expire_operation_id;
  lease ← encode_ascii candidate_lease_id;
  Ok (join_sep _SEPARATOR [_REPLAY_CLAIM_DOMAIN; operation; lease]).

Definition artifact_hold_expiry_replay_claim_operation_id
    (expire_operation_id candidate_lease_id : pystr) : result pystr :=
  preimage ← replay_claim_preimage expire_operation_id candidate_lease_id;
  Ok (sha256_hexdigest preimage).

(** [_new_candidate_token()]: one draw of the State-side random source *)
Definition _new_candidate_token (random : pybytes) : pystr := token_urlsafe random.
