(* ===== verification/ContractFacts.v ===== *)
(** * Facts about the field checks and the operation identities

    Each check of [Contract.v] is characterised by a predicate on its argument;
    the characterisations are in the rewrite database [ok_iff], so that
    inverting a successful [validate] yields the predicates of its fields. *)
From S2P Require Import Prelude PyStr Sha256 Json JsonFacts Contract.
Local Open Scope py_scope.
Local Open Scope Z_scope.

(** ** The predicates *)
Definition control (c : N) : bool := (c <? 0x20)%N || (c =? 0x7F)%N.

(** trimmed, non-empty Unicode text without control characters *)
Definition stable_text (s : pystr) : Prop :=
  s <> [] /\ strip s = s /\ Forall (fun c => control c = false) s
  /\ Forall (fun c => is_scalar c = true) s.

(** 64 lower-case hexadecimal digits *)
Definition sha256_hex (s : pystr) : Prop :=
  length s = 64%nat /\ Forall (fun c => is_lower_hex c = true) s.

(** what [secrets.token_urlsafe] returns for some 32 bytes *)
Definition issued_token (s : pystr) : Prop :=
  exists random, length random = 32%nat /\ Forall (fun x => (x < 256)%N) random
    /\ s = token_urlsafe random.

Lemma lower_hex_plain c : is_lower_hex c = true -> plain c = true.
Proof. unfold is_lower_hex, plain. lia. Qed.
Lemma plain_stable c : plain c = true -> control c = false /\ is_scalar c = true /\ (c < 128)%N.
Proof. unfold plain, control, is_scalar. lia. Qed.
Lemma is_b64_plain c : is_b64 c = true -> plain c = true.
Proof.
  unfold is_b64, b64_value, plain. repeat case_match; try done; lia.
Qed.

Lemma require_stable_text_ok value label x :
  _require_stable_text value label = Ok x <-> stable_text value.
Proof.
  destruct x. unfold _require_stable_text, stable_text.
  rw !bind_ok_unit !raise_if_ok orb_false_iff neqb_false eqb_false_iff existsb_false_iff.
  assert ((match encode_utf8 value with Ok _ => Ok tt
           | Err _ => Err (conflict (label <+> " is not valid Unicode text")) end = Ok tt)
          <-> Forall (fun c => is_scalar c = true) value) as ->.
  { split.
    - destruct (encode_utf8 value) as [b|] eqn:E; [|done]. intros _. by eapply encode_utf8_ok_inv.
    - intros [b ->]%encode_utf8_ok. done. }
  unfold control. naive_solver.
Qed.

Lemma plain_stable_text s : s <> [] -> Forall (fun c => plain c = true) s -> stable_text s.
Proof.
  intros Hne H. split; [done|]. split; [by apply strip_plain|].
  split; (eapply Forall_impl; [exact H|]; intros c Hc; by destruct (plain_stable c Hc) as (? & ? & ?)).
Qed.

Lemma sha256_hex_plain s : sha256_hex s -> Forall (fun c => plain c = true) s.
Proof. intros [_ H]. eapply Forall_impl; [exact H|]. apply lower_hex_plain. Qed.

Lemma sha256_hex_stable s : sha256_hex s -> stable_text s.
Proof.
  intros H. apply plain_stable_text; [|by apply sha256_hex_plain].
  intros ->. by destruct H.
Qed.

Lemma require_sha256_ok value label x : _require_sha256 value label = Ok x <-> sha256_hex value.
Proof.
  destruct x. unfold _require_sha256, sha256_re.
  rw bind_ok_unit require_stable_text_ok raise_if_ok negb_false_iff andb_true_iff
    bool_decide_eq_true forallb_iff.
  split; [by intros [_ H]|]. intros H. split; [by apply sha256_hex_stable|done].
Qed.

Lemma sha256_hexdigest_hex m : sha256_hex (sha256_hexdigest m).
Proof. split; [apply sha256_hexdigest_length|apply sha256_hexdigest_lower]. Qed.

Lemma b64_join_bytes v :
  Forall (fun x => (x < 64)%N) v -> Forall (fun x => (x < 256)%N) (b64_join v).
Proof.
  revert v. fix IH 1. intros [|a [|b [|c [|d v]]]]; cbn [b64_join]; intros Hv;
    repeat (apply Forall_cons in Hv as [? Hv]); repeat (constructor; [nlia|]); try done.
  by apply IH.
Qed.

Lemma b64_decode_bytes s b : b64_decode s = Some b -> Forall (fun x => (x < 256)%N) b.
Proof.
  unfold b64_decode. destruct (mapM b64_value s) as [v|] eqn:E; [|done]. cbn. intros [= <-].
  assert (Forall (fun x => (x < 64)%N) v) as Hv.
  { apply mapM_Some_1 in E. induction E as [|c x s v Hc _ IH]; constructor; [|done].
    unfold b64_value in Hc. repeat case_match; simplify_eq; lia. }
  by apply b64_join_bytes.
Qed.

Lemma issued_token_re s : issued_token s -> length s = 43%nat /\ Forall (fun c => is_b64 c = true) s.
Proof.
  intros (b & Hl & Hb & ->). split; [by apply b64_encode_length32|].
  by destruct (b64_encode_spec b Hb) as (? & _ & _ & ?).
Qed.

Lemma require_candidate_token_ok value label x :
  _require_candidate_token value label = Ok x <-> issued_token value.
Proof.
  destruct x. unfold _require_candidate_token, candidate_token_re.
  rw bind_ok_unit require_stable_text_ok bind_ok_unit raise_if_ok negb_false_iff andb_true_iff
    bool_decide_eq_true forallb_iff bind_ok.
  setoid_rewrite or_raise_ok. setoid_rewrite raise_if_ok.
  setoid_rewrite orb_false_iff. setoid_rewrite neqb_false. split.
  - intros (_ & _ & b & Hd & Hl & He). exists b. split; [done|].
    split; [by eapply b64_decode_bytes|]. by unfold token_urlsafe.
  - intros H. destruct (issued_token_re _ H) as [Hl Hc].
    destruct H as (b & Hb & Hbytes & ->).
    split. { apply plain_stable_text; [by destruct (token_urlsafe b)|].
             eapply Forall_impl; [exact Hc|]. apply is_b64_plain. }
    split; [done|]. exists b. unfold token_urlsafe. by rw b64_decode_encode.
Qed.

Lemma require_integer_ok value label minimum maximum x :
  _require_integer value label minimum maximum = Ok x <-> minimum <= value <= maximum.
Proof. destruct x. unfold _require_integer. rw raise_if_ok. lia. Qed.

Lemma when_some_ok {A} (o : option A) (f : A -> result unit) x :
  when_some o f = Ok x <-> (forall a, o = Some a -> f a = Ok tt).
Proof. destruct o, x; cbn; naive_solver. Qed.

#[export] Hint Rewrite require_stable_text_ok require_sha256_ok require_candidate_token_ok
  require_integer_ok @when_some_ok @forM_ok : ok_iff.

(** From here on the checks are used through their characterisations only. *)
#[global] Opaque _require_stable_text _require_sha256 _require_candidate_token _require_integer.

(** ** Operation identities *)
(** the arguments an expiry operation is identified by *)
Definition due_tuple (artifact_id hold_id expected_hold_digest : pystr)
    (expected_artifact_version observed_expires_ms : Z) : Prop :=
  stable_text artifact_id /\ stable_text hold_id /\ sha256_hex expected_hold_digest
  /\ 1 <= expected_artifact_version <= _MAX_SAFE_INTEGER
  /\ 0 <= observed_expires_ms <= _MAX_SAFE_INTEGER.

Definition nonzero (b : pybytes) : Prop := Forall (fun x => x <> 0%N) b.

Lemma py_str_int_ascii z : Forall (fun c => 45 <= c < 128)%N (py_str_int z).
Proof.
  assert (forall n, Forall (fun c => 45 <= c < 128)%N (decimal n)) as H.
  { intros n. eapply Forall_impl; [apply decimal_ascii|]. cbn. lia. }
  destruct z; cbn [py_str_int]; [apply H..|]. constructor; [lia|apply H].
Qed.

Lemma py_str_int_inj z1 z2 : 0 <= z1 -> 0 <= z2 -> py_str_int z1 = py_str_int z2 -> z1 = z2.
Proof.
  intros H1 H2. destruct z1, z2; try lia; cbn [py_str_int]; intros E%decimal_inj; lia.
Qed.

Lemma encode_ascii_int z : encode_ascii (py_str_int z) = Ok (py_str_int z).
Proof.
  apply encode_ascii_ok. split; [|done].
  eapply Forall_impl; [apply py_str_int_ascii|]. cbn. lia.
Qed.

Lemma plain_ascii s : Forall (fun c => plain c = true) s -> encode_ascii s = Ok s.
Proof.
  intros H. apply encode_ascii_ok. split; [|done].
  eapply Forall_impl; [exact H|]. intros c Hc. by destruct (plain_stable c Hc) as (_ & _ & ?).
Qed.

Lemma plain_nonzero s : Forall (fun c => plain c = true) s -> nonzero s.
Proof. intros H. eapply Forall_impl; [exact H|]. unfold plain. cbn. lia. Qed.

Lemma int_nonzero z : nonzero (py_str_int z).
Proof. eapply Forall_impl; [apply py_str_int_ascii|]. cbn. lia. Qed.

Lemma stable_text_encode s : stable_text s -> exists b, encode_utf8 s = Ok b /\ nonzero b.
Proof.
  intros (_ & _ & Hc & Hs). destruct (encode_utf8_ok s Hs) as [b Hb]. exists b. split; [done|].
  eapply encode_utf8_nonzero; [|done]. eapply Forall_impl; [exact Hc|]. unfold control. cbn. lia.
Qed.

Lemma issued_token_plain s : issued_token s -> Forall (fun c => plain c = true) s.
Proof.
  intros [_ H]%issued_token_re. eapply Forall_impl; [exact H|]. apply is_b64_plain.
Qed.

Lemma preimage_iff a h d v e p :
  artifact_hold_expiry_preimage a h d v e = Ok p <->
  due_tuple a h d v e /\ exists ab hb, encode_utf8 a = Ok ab /\ encode_utf8 h = Ok hb
    /\ p = join_sep _SEPARATOR [_EXPIRE_DOMAIN; ab; hb; d; py_str_int v; py_str_int e].
Proof.
  unfold artifact_hold_expiry_preimage, due_tuple.
  ok_goal. rw !encode_ascii_int. split.
  - intros (? & ? & Hd & ? & ? & ab & ? & hb & ? & ? & [_ ->]%encode_ascii_ok & ? & [= <-]
      & ? & [= <-] & [= <-]).
    split; [done|]. by exists ab, hb.
  - intros ((? & ? & Hd & ? & ?) & ab & hb & ? & ? & ->).
    rw (plain_ascii d (sha256_hex_plain d Hd)). naive_solver.
Qed.

Lemma preimage_total a h d v e : due_tuple a h d v e ->
  exists p, artifact_hold_expiry_preimage a h d v e = Ok p.
Proof.
  intros H. destruct (stable_text_encode a) as (ab & Ha & _); [apply H|].
  destruct (stable_text_encode h) as (hb & Hh & _); [apply H|].
  eexists. apply preimage_iff. split; [done|]. eauto.
Qed.

Lemma operation_id_ok a h d v e id : artifact_hold_expiry_operation_id a h d v e = Ok id ->
  due_tuple a h d v e /\ sha256_hex id.
Proof.
  unfold artifact_hold_expiry_operation_id. rw bind_ok. intros (p & [H _]%preimage_iff & [= <-]).
  split; [done|]. apply sha256_hexdigest_hex.
Qed.

Lemma operation_id_total a h d v e : due_tuple a h d v e ->
  exists id, artifact_hold_expiry_operation_id a h d v e = Ok id.
Proof.
  intros [p Hp]%preimage_total. unfold artifact_hold_expiry_operation_id. rw Hp. by eexists.
Qed.

Lemma replay_preimage_iff o l p : replay_claim_preimage o l = Ok p <->
  sha256_hex o /\ issued_token l /\ p = join_sep _SEPARATOR [_REPLAY_CLAIM_DOMAIN; o; l].
Proof.
  unfold replay_claim_preimage. ok_goal. split.
  - intros (? & ? & ? & [_ ->]%encode_ascii_ok & ? & [_ ->]%encode_ascii_ok & [= <-]). done.
  - intros (Ho & Hl & ->).
    rw (plain_ascii o (sha256_hex_plain o Ho)) (plain_ascii l (issued_token_plain l Hl)).
    naive_solver.
Qed.

(** ** Digests *)
Section Digests.
Context `{RFC8785}.

Lemma canonical_digest_hex d x : _canonical_digest d = Ok x -> sha256_hex x.
Proof. unfold _canonical_digest. rw bind_ok. intros (b & _ & [= <-]). apply sha256_hexdigest_hex. Qed.

Lemma event_digest_hex d x : _event_digest d = Ok x -> sha256_hex x.
Proof. unfold _event_digest. rw bind_ok. intros (b & _ & [= <-]). apply sha256_hexdigest_hex. Qed.

Lemma dumps_ok `{!RFC8785Spec} v : within 16 v -> exists b, rfc8785_dumps v = Ok b.
Proof. intros [Hv Hd]. apply dumps_total; [done|]. pose proof dumps_room. lia. Qed.

Lemma canonical_digest_total `{!RFC8785Spec} d : within 16 (JObj d) ->
  exists x, _canonical_digest d = Ok x /\ sha256_hex x.
Proof.
  intros [b Hb]%dumps_ok. unfold _canonical_digest. rw Hb. eexists. split; [done|].
  apply sha256_hexdigest_hex.
Qed.
End Digests.

Lemma claim_operation_id_ok o l id :
  artifact_hold_expiry_replay_claim_operation_id o l = Ok id ->
  sha256_hex o /\ issued_token l /\ sha256_hex id.
Proof.
  unfold artifact_hold_expiry_replay_claim_operation_id. rw bind_ok.
  intros (p & (? & ? & _)%replay_preimage_iff & [= <-]).
  do 2 (split; [done|]). apply sha256_hexdigest_hex.
Qed.

Lemma claim_operation_id_total o l : sha256_hex o -> issued_token l ->
  exists id, artifact_hold_expiry_replay_claim_operation_id o l = Ok id.
Proof.
  intros Ho Hl. unfold artifact_hold_expiry_replay_claim_operation_id.
  rw (proj2 (replay_preimage_iff o l _) (conj Ho (conj Hl eq_refl))). by eexists.
Qed.

#[global] Opaque _canonical_digest _event_digest artifact_hold_expiry_operation_id
  artifact_hold_expiry_replay_claim_operation_id.
