(* ===== verification/WireFacts.v ===== *)
(** * Canonical wire forms

    Every record of the contract travels as the canonical JSON of a dictionary.
    This file has the generic half of the round trips: parsing the canonical
    bytes of a dictionary gives its members in canonical order, and a
    dictionary that parses has those bytes as its canonical form. *)
From S2P Require Import Prelude PyStr Sha256 Json JsonFacts Contract ContractFacts.
Local Open Scope py_scope.

Lemma reject_duplicates_go_ok label acc l d : reject_duplicates_go label acc l = Ok d <->
  d = acc ++ l /\ NoDup (keys_of l) /\ (forall k, k ∈ keys_of l -> k ∉ keys_of acc).
Proof.
  revert acc. induction l as [|[k v] l IH]; intros acc; cbn [reject_duplicates_go].
  - rw app_nil_r Ok_inj_iff. cbn. split; [|by intros [-> _]].
    intros ->. split; [done|]. split; [constructor|set_solver].
  - rw bind_ok_unit raise_if_ok bool_decide_eq_false IH. unfold keys_of. cbn [map].
    rw NoDup_cons map_app -app_assoc. cbn. set_solver.
Qed.

Lemma reject_duplicates_ok label l d :
  reject_duplicates label l = Ok d <-> d = l /\ NoDup (keys_of l).
Proof. unfold reject_duplicates. rw reject_duplicates_go_ok. set_solver. Qed.

Lemma reject_duplicates_err label l e : reject_duplicates label l = Err e -> exists msg, e = conflict msg.
Proof.
  unfold reject_duplicates. generalize (@nil (pystr * json)) as acc.
  induction l as [|[k v] l IH]; intros acc; cbn [reject_duplicates_go]; [done|].
  destruct (bool_decide _); cbn; [intros [= <-]; by eexists|apply IH].
Qed.

Lemma scalar_str_stable s : stable_text s -> scalar_str s = true.
Proof. intros (_ & _ & _ & H). by apply forallb_iff. Qed.
Lemma scalar_str_plain s : Forall (fun c => plain c = true) s -> scalar_str s = true.
Proof.
  intros H. apply forallb_iff. eapply Forall_impl; [exact H|].
  intros c Hc. by destruct (plain_stable c Hc) as (_ & ? & _).
Qed.
Lemma scalar_str_sha s : sha256_hex s -> scalar_str s = true.
Proof. intros H. by apply scalar_str_plain, sha256_hex_plain. Qed.
Lemma scalar_str_token s : issued_token s -> scalar_str s = true.
Proof. intros H. by apply scalar_str_plain, issued_token_plain. Qed.
Lemma safe_int z : (0 <= z <= _MAX_SAFE_INTEGER)%Z -> ijson (JInt z) = true.
Proof. unfold _MAX_SAFE_INTEGER. cbn. unfold max_safe_integer. lia. Qed.

Section Wire.
Context `{RFC8785}.

(** the acceptance of a wire object implies that it is canonical *)
Lemma parse_inv wire label d : _parse_canonical_object wire label = Ok d ->
  canonical_json_of d = Ok wire /\ unique_keys (JObj d).
Proof.
  unfold _parse_canonical_object. rw bind_ok. intros (v & Hv & Hd).
  assert (exists t, decode_utf8 wire = Ok t /\ json_loads (reject_duplicates label)
    (raising (fun value => conflict (label <+> " contains " <+> ascii_string value))) loads_nesting t = Ok v)
    as (t & _ & Ht).
  { destruct (decode_utf8 wire) as [t|[]]; cbn [mbind result_bind] in Hv; try done. exists t. split; [done|].
    destruct (json_loads _ _ _ t) as [w|e]; [by injection Hv as ->|by destruct e]. }
  destruct v as [| | | | | |kvs]; try done.
  apply bind_ok in Hd as (canonical & Hd & Hk). apply except_ok in Hd. ok_inv Hk. subst.
  split; [done|].
  - eapply loads_unique; [|exact Ht]. intros kvs' kvs'' [-> ?]%reject_duplicates_ok. done.
Qed.

(** the canonical bytes of a dictionary are accepted, with its members sorted *)
Lemma parse_canonical `{!RFC8785Spec} d wire label : within 16 (JObj d) ->
  canonical_json_of d = Ok wire ->
  _parse_canonical_object wire label = Ok (canonical_members d).
Proof.
  unfold canonical_json_of. intros [Hij Hn] Hd. pose proof loads_room as Hroom.
  destruct (dumps_text _ _ Hij Hd) as (t & Ht & Hl).
  unfold _parse_canonical_object. rw Ht. cbn [mbind result_bind].
  rw Hl; [|lia|intros; by apply reject_duplicates_ok]. rw sort_json_obj. cbn [mbind result_bind].
  rw -sort_json_obj dumps_sorted Hd. cbn [except mbind result_bind]. by rw bool_decide_eq_true_2.
Qed.

Lemma canonical_json_total `{!RFC8785Spec} d : within 16 (JObj d) ->
  exists wire, canonical_json_of d = Ok wire.
Proof. apply dumps_ok. Qed.

(** two dictionaries with equal members have equal canonical bytes *)
Lemma canonical_json_ext `{!RFC8785Spec} d d' :
  NoDup (keys_of d) -> NoDup (keys_of d') -> Forall ascii (keys_of d) ->
  (forall k, sort_json <$> obj_get k d = sort_json <$> obj_get k d') ->
  canonical_json_of d = canonical_json_of d'.
Proof.
  intros. unfold canonical_json_of.
  rw -(dumps_sorted (JObj d)) -(dumps_sorted (JObj d')) !sort_json_obj.
  change (sort_members (map sort_value ?x)) with (canonical_members x).
  by rw (canonical_members_ext d d').
Qed.
End Wire.

(** ** Fields of a canonical object *)
Lemma exact_fields_ok d fields label x : _require_exact_fields d fields label = Ok x <->
  dict_keys d = list_to_set (map u fields).
Proof.
  unfold _require_exact_fields. by rw raise_if_ok neqb_false.
Qed.

Lemma dict_keys_elem d k : k ∈ dict_keys d <-> k ∈ keys_of d.
Proof. unfold dict_keys. by rw elem_of_list_to_set. Qed.

Lemma dict_keys_canonical d : dict_keys (canonical_members d) = dict_keys d.
Proof.
  apply set_eq. intros k. rw !dict_keys_elem. by rw canonical_members_keys.
Qed.

Lemma str_field_ok d k m s : str_field d k m = Ok s <-> obj_get (u k) d = Some (JStr s).
Proof. unfold str_field. repeat case_match; naive_solver. Qed.
Lemma int_field_ok d k m z : int_field d k m = Ok z <-> obj_get (u k) d = Some (JInt z).
Proof. unfold int_field. repeat case_match; naive_solver. Qed.
Lemma bool_field_ok d k m b : bool_field d k m = Ok b <-> obj_get (u k) d = Some (JBool b).
Proof. unfold bool_field. repeat case_match; naive_solver. Qed.
Definition json_of_opt (o : option Z) : json := match o with Some z => JInt z | None => JNull end.
Lemma opt_int_field_ok d k m o : opt_int_field d k m = Ok o <-> obj_get (u k) d = Some (json_of_opt o).
Proof. unfold opt_int_field, json_of_opt. repeat case_match; naive_solver. Qed.

Lemma parse_operation_ok d k label o :
  _parse_operation (obj_get (u k) d) label = Ok o <->
  obj_get (u k) d = Some (JStr (operation_value o)).
Proof.
  unfold _parse_operation. destruct (obj_get (u k) d) as [[]|]; try naive_solver.
  repeat case_bool_decide; subst; destruct o; cbn; split; intros; simplify_eq; try done.
Qed.

Lemma parse_hold_status_ok d k s :
  obj_get (u k) d ≫= parse_hold_status = Some s <->
  obj_get (u k) d = Some (JStr (hold_status_value s)).
Proof.
  unfold parse_hold_status. destruct (obj_get (u k) d) as [[]|]; cbn; try naive_solver.
  repeat case_bool_decide; subst; destruct s; cbn; split; intros; simplify_eq; try done.
Qed.

#[export] Hint Rewrite exact_fields_ok str_field_ok int_field_ok bool_field_ok opt_int_field_ok
  parse_operation_ok parse_hold_status_ok : ok_iff.
#[global] Opaque _require_exact_fields str_field int_field bool_field opt_int_field
  _parse_operation _parse_canonical_object.

(** Solves [within] of a wire dictionary from the well-formedness of its fields. *)
Lemma scalar_operation o : scalar_str (operation_value o) = true.
Proof. by destruct o. Qed.
Lemma scalar_hold_status s : scalar_str (hold_status_value s) = true.
Proof. by destruct s. Qed.
#[export] Hint Resolve scalar_str_stable scalar_str_sha scalar_str_token scalar_operation
  scalar_hold_status : wire.

Lemma ijson_members d : bool_decide (NoDup (map fst d)) = true ->
  Forall (fun kv => scalar_str kv.1 = true /\ ijson kv.2 = true) d -> ijson (JObj d) = true.
Proof.
  intros Hnd Hd. rw ijson_obj. apply andb_true_iff. split; [done|].
  apply forallb_iff. eapply Forall_impl; [exact Hd|]. intros [k v] [? ?]. by apply andb_true_iff.
Qed.

Lemma within_members n d : bool_decide (NoDup (map fst d)) = true ->
  Forall (fun kv => scalar_str kv.1 = true /\ within n kv.2) d -> within (S n) (JObj d).
Proof.
  intros Hnd Hd. split; [apply ijson_members; [done|]|apply depth_obj_le];
    (eapply Forall_impl; [exact Hd|]); by intros kv [? []].
Qed.

Ltac wire_field := cbn [fst snd];
  first [ reflexivity
        | apply safe_int; cbn; unfold _MAX_SAFE_INTEGER in *; lia
        | match goal with |- ijson (JStr ?s) = true =>
            let s' := eval cbn in s in change (scalar_str s' = true) end;
          first [ solve [eauto with wire]
                | match goal with E : ?s = _ |- scalar_str ?s = true =>
                    rewrite E; first [reflexivity | solve [eauto with wire]] end ] ].
(** a field that is neither an array nor an object *)
Ltac wire_atom := apply within_atom; [cbn; repeat case_match; reflexivity|wire_field].
Ltac wire_object := apply within_members; [vm_compute; reflexivity|];
  repeat (apply Forall_cons; split; [split; [reflexivity|wire_atom]|]); try constructor.

(** objects with the same keys and the same values at those keys *)
Lemma obj_get_ext (d d' : dict) fields :
  dict_keys d = list_to_set (map u fields) -> dict_keys d' = list_to_set (map u fields) ->
  Forall (fun k => sort_json <$> obj_get (u k) d = sort_json <$> obj_get (u k) d') fields ->
  forall k, sort_json <$> obj_get k d = sort_json <$> obj_get k d'.
Proof.
  intros Hk Hk' Hf k. rw Forall_forall in Hf.
  destruct (decide (k ∈ map u fields)) as [Hin|Hin].
  - apply list_elem_of_fmap in Hin as (f & -> & Hin). by apply Hf.
  - assert (k ∉ keys_of d /\ k ∉ keys_of d') as [H1 H2].
    { by rw -!dict_keys_elem Hk Hk' elem_of_list_to_set. }
    apply obj_get_None in H1, H2. by rw H1 H2.
Qed.

Lemma keys_decide (d : dict) fields :
  bool_decide (dict_keys d = list_to_set (map u fields)) = true ->
  dict_keys d = list_to_set (map u fields).
Proof. apply bool_decide_eq_true. Qed.

Lemma nodup_decide (l : list pystr) : bool_decide (NoDup l) = true -> NoDup l.
Proof. apply bool_decide_eq_true. Qed.

Lemma ascii_decide (l : list pystr) :
  forallb (forallb (fun c => c <? 128)%N) l = true -> Forall ascii l.
Proof.
  intros H%forallb_iff. eapply Forall_impl; [exact H|]. intros s Hs%forallb_iff.
  eapply Forall_impl; [exact Hs|]. cbn. lia.
Qed.

(** closed facts about the keys of a wire dictionary *)
Ltac wire_keys :=
  first [apply keys_decide | apply nodup_decide | apply ascii_decide]; vm_compute; reflexivity.

(** one field of the canonical form of a known dictionary *)
Ltac wire_lookup := rewrite obj_get_canonical; [reflexivity|wire_keys].

Section Decode.
Context `{RFC8785} `{!RFC8785Spec}.

(** what decoding has to establish for the bytes to be canonical *)
Lemma decoded_canonical wire label d d' fields :
  _parse_canonical_object wire label = Ok d ->
  dict_keys d = list_to_set (map u fields) -> dict_keys d' = list_to_set (map u fields) ->
  NoDup (keys_of d') -> Forall ascii (keys_of d') ->
  Forall (fun k => sort_json <$> obj_get (u k) d = sort_json <$> obj_get (u k) d') fields ->
  canonical_json_of d' = Ok wire.
Proof.
  intros [Hw Hu]%parse_inv Hk Hk' Hnd Ha Hf. rw -Hw. apply unique_keys_obj in Hu as [Hu _].
  apply canonical_json_ext; [done..|]. intros k. symmetry. by apply (obj_get_ext d d' fields).
Qed.

Lemma canonical_decoded wire label d : within 16 (JObj d) -> canonical_json_of d = Ok wire ->
  _parse_canonical_object wire label = Ok (canonical_members d).
Proof. apply parse_canonical. Qed.
End Decode.
