(* ===== verification/Scan.v ===== *)
(** * SCAN records: request, candidate, result, authority seal, allocation proof

One module per dataclass of [artifact_hold.py] that the SCAN operation
writes.  In each module [t] is the record, [payload] the dictionary that is
digested, and the operations carry the source's names. *)
From S2P Require Import Prelude PyStr Sha256 Json Contract.
Local Open Scope py_scope.
Local Open Scope Z_scope.

(** ** [ArtifactHoldExpiryScanRequest] *)
Module ScanRequest.
Record t := Make {
  schema_version : pystr;
  operation : ArtifactHoldExpiryOperation;
  scan_operation_id : pystr;
  max_candidates : Z;
  idempotency_key : pystr;
  request_digest : pystr }.

#[global] Instance eq_dec : EqDecision t.
Proof. solve_decision. Defined.

Section Ops.
Context `{RFC8785}.

(** [_scan_request_payload] *)
Definition payload (request : t) : dict := [
  (u "schemaVersion", JStr (schema_version request));
  (u "operation", JStr (operation_value (operation request)));
  (u "scanOperationId", JStr (scan_operation_id request));
  (u "maxCandidates", JInt (max_candidates request));
  (u "idempotencyKey", JStr (idempotency_key request)) ].

Definition _scan_request_digest (request : t) : result pystr :=
  _canonical_digest (payload request).

Definition validate (self : t) : result unit :=
  raise_if (schema_version self != u "1") (conflict "unsupported hold expiry scan schema");;
  raise_if (operation self != SCAN) (conflict "hold expiry scan operation must be SCAN");;
  _require_sha256 (scan_operation_id self) "scan_operation_id";;
  _require_sha256 (idempotency_key self) "scan idempotency_key";;
  _require_sha256 (request_digest self) "scan request_digest";;
  _require_integer (max_candidates self) "max_candidates" 1 100;;
  raise_if (idempotency_key self != scan_operation_id self)
    (conflict "scan idempotency_key must equal scan_operation_id");;
  digest ← _scan_request_digest self;
  raise_if (request_digest self != digest) (conflict "scan request_digest mismatch").

Definition create (scan_operation_id : pystr) (max_candidates : Z) : result t :=
  let request := Make (u "1") SCAN scan_operation_id max_candidates scan_operation_id [] in
  digest ← _scan_request_digest request;
  let created := Make (u "1") SCAN scan_operation_id max_candidates scan_operation_id digest in
  validate created;;
  Ok created.

Definition fields : list string := ["schemaVersion"; "operation"; "scanOperationId";
  "maxCandidates"; "idempotencyKey"; "requestDigest"].

Definition from_canonical_json (wire : pybytes) : result t :=
  value ← _parse_canonical_object wire "hold expiry scan request";
  _require_exact_fields value fields "hold expiry scan request";;
  operation ← _parse_operation (obj_get (u "operation") value) "scan request operation";
  schema_version ← str_field value "schemaVersion" "unsupported hold expiry scan schema";
  scan_operation_id ← str_field value "scanOperationId" (text_msg "scan_operation_id");
  idempotency_key ← str_field value "idempotencyKey" (text_msg "scan idempotency_key");
  request_digest ← str_field value "requestDigest" (text_msg "scan request_digest");
  max_candidates ← int_field value "maxCandidates" (int_msg "max_candidates");
  let request := Make schema_version operation scan_operation_id max_candidates
    idempotency_key request_digest in
  validate request;;
  Ok request.

Definition to_wire_dict (self : t) : dict :=
  payload self ++ [(u "requestDigest", JStr (request_digest self))].

Definition canonical_json (self : t) : result pybytes := canonical_json_of (to_wire_dict self).
End Ops.
End ScanRequest.

(** ** [ArtifactHoldExpiryCandidate] *)
Module Candidate.
Record t := Make {
  schema_version : pystr;
  scan_operation_id : pystr;
  candidate_lease_id : pystr;
  candidate_fencing_token : Z;
  candidate_token : pystr;
  owner_principal_id : pystr;
  owner_instance_id : pystr;
  issued_at_ms : Z;
  lease_until_ms : Z;
  artifact_id : pystr;
  hold_id : pystr;
  expected_hold_digest : pystr;
  expected_artifact_version : Z;
  observed_expires_ms : Z;
  candidate_digest : pystr }.

#[global] Instance eq_dec : EqDecision t.
Proof. solve_decision. Defined.

Section Ops.
Context `{RFC8785}.

(** [_candidate_payload] *)
Definition payload (candidate : t) : dict := [
  (u "schemaVersion", JStr (schema_version candidate));
  (u "scanOperationId", JStr (scan_operation_id candidate));
  (u "candidateLeaseId", JStr (candidate_lease_id candidate));
  (u "candidateFencingToken", JInt (candidate_fencing_token candidate));
  (u "candidateToken", JStr (candidate_token candidate));
  (u "ownerPrincipalId", JStr (owner_principal_id candidate));
  (u "ownerInstanceId", JStr (owner_instance_id candidate));
  (u "issuedAtMs", JInt (issued_at_ms candidate));
  (u "leaseUntilMs", JInt (lease_until_ms candidate));
  (u "artifactId", JStr (artifact_id candidate));
  (u "holdId", JStr (hold_id candidate));
  (u "expectedHoldDigest", JStr (expected_hold_digest candidate));
  (u "expectedArtifactVersion", JInt (expected_artifact_version candidate));
  (u "observedExpiresMs", JInt (observed_expires_ms candidate)) ].

Definition validate (self : t) : result unit :=
  raise_if (schema_version self != u "1") (conflict "unsupported expiry candidate schema");;
  _require_sha256 (scan_operation_id self) "candidate.scan_operation_id";;
  _require_candidate_token (candidate_lease_id self) "candidate_lease_id";;
  _require_candidate_token (candidate_token self) "candidate_token";;
  raise_if (candidate_lease_id self == candidate_token self)
    (conflict "candidate lease ID and candidate token must be distinct");;
  require_integer (candidate_fencing_token self) "candidate_fencing_token" 1;;
  _require_stable_text (owner_principal_id self) "candidate owner principal";;
  _require_stable_text (owner_instance_id self) "candidate owner instance";;
  require_integer (issued_at_ms self) "candidate issued_at_ms" 0;;
  require_integer (lease_until_ms self) "candidate lease_until_ms" 0;;
  raise_if (lease_until_ms self <=? issued_at_ms self)
    (conflict "candidate lease must end after issue time");;
  raise_if (ARTIFACT_HOLD_CANDIDATE_LEASE_MAX_MS <? lease_until_ms self - issued_at_ms self)
    (conflict "candidate lease exceeds maximum candidate lease duration");;
  _require_stable_text (artifact_id self) "candidate artifact_id";;
  _require_stable_text (hold_id self) "candidate hold_id";;
  _require_sha256 (expected_hold_digest self) "candidate expected_hold_digest";;
  require_integer (expected_artifact_version self) "candidate expected_artifact_version" 1;;
  require_integer (observed_expires_ms self) "candidate observed_expires_ms" 0;;
  _require_sha256 (candidate_digest self) "candidate_digest";;
  digest ← _canonical_digest (payload self);
  raise_if (candidate_digest self != digest) (conflict "candidate_digest mismatch").

Definition create (scan_operation_id candidate_lease_id : pystr) (candidate_fencing_token : Z)
    (candidate_token owner_principal_id owner_instance_id : pystr)
    (issued_at_ms lease_until_ms : Z) (artifact_id hold_id expected_hold_digest : pystr)
    (expected_artifact_version observed_expires_ms : Z) : result t :=
  let candidate := Make (u "1") scan_operation_id candidate_lease_id candidate_fencing_token
    candidate_token owner_principal_id owner_instance_id issued_at_ms lease_until_ms
    artifact_id hold_id expected_hold_digest expected_artifact_version observed_expires_ms in
  digest ← _canonical_digest (payload (candidate []));
  let created := candidate digest in
  validate created;;
  Ok created.

Definition fields : list string := ["schemaVersion"; "scanOperationId"; "candidateLeaseId";
  "candidateFencingToken"; "candidateToken"; "ownerPrincipalId"; "ownerInstanceId";
  "issuedAtMs"; "leaseUntilMs"; "artifactId"; "holdId"; "expectedHoldDigest";
  "expectedArtifactVersion"; "observedExpiresMs"; "candidateDigest"].

(** [_candidate_from_mapping] *)
Definition _candidate_from_mapping (value : json) (label : string) : result t :=
  match value with
  | JObj value =>
    _require_exact_fields value fields label;;
    schema_version ← str_field value "schemaVersion" "unsupported expiry candidate schema";
    scan_operation_id ← str_field value "scanOperationId"
      (text_msg "candidate.scan_operation_id");
    candidate_lease_id ← str_field value "candidateLeaseId" (text_msg "candidate_lease_id");
    candidate_token ← str_field value "candidateToken" (text_msg "candidate_token");
    candidate_fencing_token ← int_field value "candidateFencingToken"
      (int_msg "candidate_fencing_token");
    owner_principal_id ← str_field value "ownerPrincipalId"
      (text_msg "candidate owner principal");
    owner_instance_id ← str_field value "ownerInstanceId"
      (text_msg "candidate owner instance");
    issued_at_ms ← int_field value "issuedAtMs" (int_msg "candidate issued_at_ms");
    lease_until_ms ← int_field value "leaseUntilMs" (int_msg "candidate lease_until_ms");
    artifact_id ← str_field value "artifactId" (text_msg "candidate artifact_id");
    hold_id ← str_field value "holdId" (text_msg "candidate hold_id");
    expected_hold_digest ← str_field value "expectedHoldDigest"
      (text_msg "candidate expected_hold_digest");
    expected_artifact_version ← int_field value "expectedArtifactVersion"
      (int_msg "candidate expected_artifact_version");
    observed_expires_ms ← int_field value "observedExpiresMs"
      (int_msg "candidate observed_expires_ms");
    candidate_digest ← str_field value "candidateDigest" (text_msg "candidate_digest");
    let candidate := Make schema_version scan_operation_id candidate_lease_id
      candidate_fencing_token candidate_token owner_principal_id owner_instance_id
      issued_at_ms lease_until_ms artifact_id hold_id expected_hold_digest
      expected_artifact_version observed_expires_ms candidate_digest in
    validate candidate;;
    Ok candidate
  | _ => Err (conflict (label <+> " must be an object"))
  end.

Definition from_canonical_json (wire : pybytes) : result t :=
  value ← _parse_canonical_object wire "hold expiry candidate";
  _candidate_from_mapping (JObj value) "hold expiry candidate".

Definition to_wire_dict (self : t) : dict :=
  payload self ++ [(u "candidateDigest", JStr (candidate_digest self))].

Definition canonical_json (self : t) : result pybytes := canonical_json_of (to_wire_dict self).
End Ops.
End Candidate.

(** ** [ArtifactHoldExpiryScanResult] *)
Module ScanResult.
Record t := Make {
  schema_version : pystr;
  scan_operation_id : pystr;
  request_digest : pystr;
  candidates : list Candidate.t;
  result_digest : pystr }.

#[global] Instance eq_dec : EqDecision t.
Proof. solve_decision. Defined.

(** the variables the loop of [validate] carries *)
Record loop := Loop {
  previous_key : option (pybytes * pybytes);
  candidate_lease_ids : list pystr;
  candidate_tokens : list pystr;
  candidate_fences : list Z }.

Section Ops.
Context `{RFC8785}.

(** [_scan_result_payload] *)
Definition payload (result : t) : dict := [
  (u "schemaVersion", JStr (schema_version result));
  (u "scanOperationId", JStr (scan_operation_id result));
  (u "requestDigest", JStr (request_digest result));
  (u "candidates", JArr (map (fun c => JObj (Candidate.to_wire_dict c)) (candidates result))) ].

Definition _scan_result_digest (result : t) : Prelude.result pystr :=
  _canonical_digest (payload result).

(** the body of the loop over [self.candidates] *)
Definition check_candidate (self : t) (l : loop) (candidate : Candidate.t) : result loop :=
  Candidate.validate candidate;;
  raise_if (Candidate.scan_operation_id candidate != scan_operation_id self)
    (conflict "candidate scan operation mismatch");;
  raise_if (bool_decide (Candidate.candidate_lease_id candidate ∈ candidate_lease_ids l)
      || bool_decide (Candidate.candidate_token candidate ∈ candidate_tokens l)
      || bool_decide (Candidate.candidate_fencing_token candidate ∈ candidate_fences l))
    (conflict "scan result contains duplicate candidate authority");;
  raise_if (bool_decide (Candidate.candidate_lease_id candidate ∈ candidate_tokens l)
      || bool_decide (Candidate.candidate_token candidate ∈ candidate_lease_ids l))
    (conflict "candidate authority namespace collision");;
  artifact ← encode_utf8 (Candidate.artifact_id candidate);
  hold ← encode_utf8 (Candidate.hold_id candidate);
  let key := (artifact, hold) in
  raise_if (match previous_key l with Some k => bytes2_leb key k | None => false end)
    (conflict "scan candidates must be unique and UTF-8 sorted");;
  Ok (Loop (Some key)
        (Candidate.candidate_lease_id candidate :: candidate_lease_ids l)
        (Candidate.candidate_token candidate :: candidate_tokens l)
        (Candidate.candidate_fencing_token candidate :: candidate_fences l)).

Definition validate (self : t) : result unit :=
  raise_if (schema_version self != u "1") (conflict "unsupported expiry scan result schema");;
  _require_sha256 (scan_operation_id self) "scan result operation ID";;
  _require_sha256 (request_digest self) "scan result request digest";;
  _ ← foldM (check_candidate self) (Loop None [] [] []) (candidates self);
  _require_sha256 (result_digest self) "scan result_digest";;
  digest ← _scan_result_digest self;
  raise_if (result_digest self != digest) (conflict "scan result_digest mismatch").

Definition validate_for (self : t) (request : ScanRequest.t) : result unit :=
  ScanRequest.validate request;;
  validate self;;
  raise_if ((scan_operation_id self != ScanRequest.scan_operation_id request)
      || (request_digest self != ScanRequest.request_digest request))
    (conflict "scan result is not bound to originating request");;
  raise_if (ScanRequest.max_candidates request <? Z.of_nat (length (candidates self)))
    (conflict "scan result exceeds request max_candidates").

Definition create (request : ScanRequest.t) (candidates : list Candidate.t) : result t :=
  ScanRequest.validate request;;
  raise_if (ScanRequest.max_candidates request <? Z.of_nat (length candidates))
    (conflict "scan result exceeds request max_candidates");;
  let result := Make (u "1") (ScanRequest.scan_operation_id request)
    (ScanRequest.request_digest request) candidates in
  digest ← _scan_result_digest (result []);
  let created := result digest in
  validate_for created request;;
  Ok created.

Definition fields : list string := ["schemaVersion"; "scanOperationId"; "requestDigest";
  "candidates"; "resultDigest"].

(** [f"scan candidate[{index}]"] *)
Definition candidate_label (index : nat) : string :=
  "scan candidate[" <+> ascii_string (decimal (N.of_nat index)) <+> "]".

Definition from_canonical_json (wire : pybytes) : result t :=
  value ← _parse_canonical_object wire "hold expiry scan result";
  _require_exact_fields value fields "hold expiry scan result";;
  candidate_values ←
    match obj_get (u "candidates") value with
    | Some (JArr l) => Ok l
    | _ => Err (conflict "hold expiry scan result candidates must be an array")
    end;
  candidates ← mapR (fun '(index, candidate) =>
      Candidate._candidate_from_mapping candidate (candidate_label index))
    (imap pair candidate_values);
  schema_version ← str_field value "schemaVersion" "unsupported expiry scan result schema";
  scan_operation_id ← str_field value "scanOperationId" (text_msg "scan result operation ID");
  request_digest ← str_field value "requestDigest" (text_msg "scan result request digest");
  result_digest ← str_field value "resultDigest" (text_msg "scan result_digest");
  let result := Make schema_version scan_operation_id request_digest candidates
    result_digest in
  validate result;;
  Ok result.

Definition to_wire_dict (self : t) : dict :=
  payload self ++ [(u "resultDigest", JStr (result_digest self))].

Definition canonical_json (self : t) : result pybytes := canonical_json_of (to_wire_dict self).
End Ops.
End ScanResult.

(** ** [ArtifactHoldExpiryScanAuthority] *)
Module ScanAuthority.
Record t := Make {
  schema_version : pystr;
  scan_operation_id : pystr;
  candidate_lease_id : pystr;
  candidate_token : pystr;
  candidate_digest : pystr;
  result_digest : pystr;
  owner_principal_id : pystr;
  owner_instance_id : pystr;
  candidate_fencing_token : Z;
  issued_at_ms : Z;
  lease_until_ms : Z }.

#[global] Instance eq_dec : EqDecision t.
Proof. solve_decision. Defined.

Section Ops.
Context `{RFC8785}.

Definition validate (self : t) : result unit :=
  raise_if (schema_version self != u "1") (conflict "unsupported scan authority schema");;
  _require_sha256 (scan_operation_id self) "scan authority operation ID";;
  _require_candidate_token (candidate_lease_id self) "scan authority lease ID";;
  _require_candidate_token (candidate_token self) "scan authority token";;
  raise_if (candidate_lease_id self == candidate_token self)
    (conflict "scan authority lease and token must differ");;
  _require_sha256 (candidate_digest self) "scan authority candidate digest";;
  _require_sha256 (result_digest self) "scan authority result digest";;
  _require_stable_text (owner_principal_id self) "scan authority owner principal";;
  _require_stable_text (owner_instance_id self) "scan authority owner instance";;
  require_integer (candidate_fencing_token self) "scan authority fencing token" 1;;
  require_integer (issued_at_ms self) "scan authority issued_at_ms" 0;;
  require_integer (lease_until_ms self) "scan authority lease_until_ms" 0;;
  raise_if (lease_until_ms self <=? issued_at_ms self)
    (conflict "scan authority lease must end after issue time");;
  raise_if (ARTIFACT_HOLD_CANDIDATE_LEASE_MAX_MS <? lease_until_ms self - issued_at_ms self)
    (conflict "scan authority lease exceeds maximum duration").

Definition create (request : ScanRequest.t) (result : ScanResult.t) (candidate : Candidate.t)
    : Prelude.result t :=
  ScanRequest.validate request;;
  ScanResult.validate_for result request;;
  Candidate.validate candidate;;
  raise_if (negb (bool_decide (candidate ∈ ScanResult.candidates result)))
    (conflict "scan authority candidate is absent from scan result");;
  let authority := Make (u "1") (ScanRequest.scan_operation_id request)
    (Candidate.candidate_lease_id candidate) (Candidate.candidate_token candidate)
    (Candidate.candidate_digest candidate) (ScanResult.result_digest result)
    (Candidate.owner_principal_id candidate) (Candidate.owner_instance_id candidate)
    (Candidate.candidate_fencing_token candidate) (Candidate.issued_at_ms candidate)
    (Candidate.lease_until_ms candidate) in
  validate authority;;
  Ok authority.

Definition validate_against (self : t) (request : ScanRequest.t) (result : ScanResult.t)
    (candidate : Candidate.t) : Prelude.result unit :=
  validate self;;
  ScanResult.validate_for result request;;
  Candidate.validate candidate;;
  raise_if (negb (bool_decide (candidate ∈ ScanResult.candidates result)))
    (conflict "scan authority candidate is absent from scan result");;
  raise_if ((scan_operation_id self != ScanRequest.scan_operation_id request)
      || (candidate_lease_id self != Candidate.candidate_lease_id candidate)
      || (candidate_token self != Candidate.candidate_token candidate)
      || (candidate_digest self != Candidate.candidate_digest candidate)
      || (result_digest self != ScanResult.result_digest result)
      || (owner_principal_id self != Candidate.owner_principal_id candidate)
      || (owner_instance_id self != Candidate.owner_instance_id candidate)
      || (candidate_fencing_token self != Candidate.candidate_fencing_token candidate)
      || (issued_at_ms self != Candidate.issued_at_ms candidate)
      || (lease_until_ms self != Candidate.lease_until_ms candidate))
    (conflict "scan authority seal contradicts scan evidence").
End Ops.
End ScanAuthority.

(** ** [_ArtifactHoldExpiryScanAllocation] *)
Module ScanAllocation.
(** [_seal] is a Python object compared by identity with
    [_SCAN_ALLOCATION_SEAL]: [sealed] says that it is that object. *)
Record t := Make {
  request : ScanRequest.t;
  candidate : Candidate.t;
  previous_fence_high_water : Z;
  allocation_digest : pystr;
  sealed : bool }.

#[global] Instance eq_dec : EqDecision t.
Proof. solve_decision. Defined.

Section Ops.
Context `{RFC8785}.

(** [_scan_allocation_payload] *)
Definition payload (allocation : t) : dict := [
  (u "schemaVersion", JStr (u "1"));
  (u "scanOperationId", JStr (ScanRequest.scan_operation_id (request allocation)));
  (u "requestDigest", JStr (ScanRequest.request_digest (request allocation)));
  (u "candidateDigest", JStr (Candidate.candidate_digest (candidate allocation)));
  (u "previousFenceHighWater", JInt (previous_fence_high_water allocation)) ].

Definition _scan_allocation_digest (allocation : t) : result pystr :=
  _canonical_digest (payload allocation).

Definition validate (self : t) : result unit :=
  raise_if (negb (sealed self)) (conflict "scan allocation proof is not State-issued");;
  ScanRequest.validate (request self);;
  Candidate.validate (candidate self);;
  require_integer (previous_fence_high_water self) "scan allocation previous fence high-water" 0;;
  raise_if (Candidate.scan_operation_id (candidate self)
      != ScanRequest.scan_operation_id (request self))
    (conflict "scan allocation candidate operation mismatch");;
  raise_if (Candidate.candidate_fencing_token (candidate self)
      <=? previous_fence_high_water self)
    (conflict "scan allocation fence does not advance high-water");;
  _require_sha256 (allocation_digest self) "scan allocation digest";;
  digest ← _scan_allocation_digest self;
  raise_if (allocation_digest self != digest) (conflict "scan allocation digest mismatch").

Definition validate_against (self : t) (request' : ScanRequest.t) (candidate' : Candidate.t)
    (previous_fence_high_water' : Z) : result unit :=
  validate self;;
  raise_if ((request self != request') || (candidate self != candidate')
      || (previous_fence_high_water self != previous_fence_high_water'))
    (conflict "scan allocation proof does not bind persisted scan evidence").

Definition _issue_scan_allocation (request : ScanRequest.t) (candidate : Candidate.t)
    (previous_fence_high_water : Z) : result t :=
  ScanRequest.validate request;;
  Candidate.validate candidate;;
  require_integer previous_fence_high_water "scan allocation previous fence high-water" 0;;
  let allocation digest := Make request candidate previous_fence_high_water digest true in
  digest ← _scan_allocation_digest (allocation []);
  Ok (allocation digest).
End Ops.
End ScanAllocation.
