(* ===== verification/ScanFacts.v ===== *)
(** * Well-formedness of the SCAN records

    For each record a predicate that lists what its [validate] establishes, and
    the proof that [validate] accepts exactly the records that satisfy it. *)
From S2P Require Import Prelude PyStr Sha256 Json Contract ContractFacts Scan.
Local Open Scope py_scope.
Local Open Scope Z_scope.

(** a lease that ends after its issue and lasts at most the maximum *)
Definition lease_ok (issued_at_ms lease_until_ms : Z) : Prop :=
  0 <= issued_at_ms /\ issued_at_ms < lease_until_ms <= _MAX_SAFE_INTEGER
  /\ lease_until_ms - issued_at_ms <= ARTIFACT_HOLD_CANDIDATE_LEASE_MAX_MS.

Section Valid.
Context `{RFC8785}.

Record scan_request_valid (r : ScanRequest.t) : Prop := {
  sr_schema : ScanRequest.schema_version r = u "1";
  sr_operation : ScanRequest.operation r = SCAN;
  sr_id : sha256_hex (ScanRequest.scan_operation_id r);
  sr_max : 1 <= ScanRequest.max_candidates r <= 100;
  sr_idempotency : ScanRequest.idempotency_key r = ScanRequest.scan_operation_id r;
  sr_digest : ScanRequest._scan_request_digest r = Ok (ScanRequest.request_digest r) }.

Record candidate_valid (c : Candidate.t) : Prop := {
  c_schema : Candidate.schema_version c = u "1";
  c_scan : sha256_hex (Candidate.scan_operation_id c);
  c_lease_id : issued_token (Candidate.candidate_lease_id c);
  c_token : issued_token (Candidate.candidate_token c);
  c_distinct : Candidate.candidate_lease_id c <> Candidate.candidate_token c;
  c_fence : 1 <= Candidate.candidate_fencing_token c <= _MAX_SAFE_INTEGER;
  c_principal : stable_text (Candidate.owner_principal_id c);
  c_instance : stable_text (Candidate.owner_instance_id c);
  c_lease : lease_ok (Candidate.issued_at_ms c) (Candidate.lease_until_ms c);
  c_due : due_tuple (Candidate.artifact_id c) (Candidate.hold_id c)
            (Candidate.expected_hold_digest c) (Candidate.expected_artifact_version c)
            (Candidate.observed_expires_ms c);
  c_digest : _canonical_digest (Candidate.payload c) = Ok (Candidate.candidate_digest c) }.

Lemma scan_request_ok r x : ScanRequest.validate r = Ok x <-> scan_request_valid r.
Proof.
  destruct x. unfold ScanRequest.validate. ok_goal. split.
  - intros. ok_split. subst. by constructor.
  - intros []. pose proof (canonical_digest_hex _ _ sr_digest0). rw sr_idempotency0. naive_solver.
Qed.

Lemma candidate_ok c x : Candidate.validate c = Ok x <-> candidate_valid c.
Proof.
  destruct x. unfold Candidate.validate. ok_goal. split.
  - intros. ok_split. subst. constructor; try done; unfold lease_ok, due_tuple; lia || done.
  - intros []. unfold lease_ok, due_tuple in *. ok_split.
    pose proof (canonical_digest_hex _ _ c_digest0). repeat (split; [done || lia|]). eauto.
Qed.
End Valid.

#[export] Hint Rewrite @scan_request_ok @candidate_ok : ok_iff.
#[global] Opaque ScanRequest.validate Candidate.validate.

(** ** Scan results *)
(** the bearer tokens of a list of candidates *)
Definition candidate_tokens (c : Candidate.t) : list pystr :=
  [Candidate.candidate_lease_id c; Candidate.candidate_token c].
Definition bearer_tokens (l : list Candidate.t) : list pystr := flat_map candidate_tokens l.

Definition utf8 (s : pystr) : pybytes := match encode_utf8 s with Ok b => b | Err _ => [] end.
Definition candidate_key (c : Candidate.t) : pybytes * pybytes :=
  (utf8 (Candidate.artifact_id c), utf8 (Candidate.hold_id c)).

(** each key is above the one before it *)
Fixpoint keys_ascend (previous : option (pybytes * pybytes)) (ks : list (pybytes * pybytes)) : Prop :=
  match ks with
  | [] => True
  | k :: ks =>
    match previous with Some p => bytes2_leb k p = false | None => True end
    /\ keys_ascend (Some k) ks
  end.

Lemma stable_utf8 s : stable_text s -> encode_utf8 s = Ok (utf8 s).
Proof. intros (b & Hb & _)%stable_text_encode. unfold utf8. by rw Hb. Qed.

Section ResultValid.
Context `{RFC8785}.

Record scan_result_valid (r : ScanResult.t) : Prop := {
  sres_schema : ScanResult.schema_version r = u "1";
  sres_id : sha256_hex (ScanResult.scan_operation_id r);
  sres_request : sha256_hex (ScanResult.request_digest r);
  sres_candidates : Forall candidate_valid (ScanResult.candidates r);
  sres_operation : Forall (fun c => Candidate.scan_operation_id c = ScanResult.scan_operation_id r)
    (ScanResult.candidates r);
  sres_tokens : NoDup (bearer_tokens (ScanResult.candidates r));
  sres_fences : NoDup (map Candidate.candidate_fencing_token (ScanResult.candidates r));
  sres_sorted : keys_ascend None (map candidate_key (ScanResult.candidates r));
  sres_digest : ScanResult._scan_result_digest r = Ok (ScanResult.result_digest r) }.

Lemma check_candidate_ok self st c st' :
  ScanResult.check_candidate self st c = Ok st' <->
  candidate_valid c
  /\ Candidate.scan_operation_id c = ScanResult.scan_operation_id self
  /\ (Candidate.candidate_lease_id c ∉ ScanResult.candidate_lease_ids st
      /\ Candidate.candidate_token c ∉ ScanResult.candidate_tokens st
      /\ Candidate.candidate_fencing_token c ∉ ScanResult.candidate_fences st)
  /\ (Candidate.candidate_lease_id c ∉ ScanResult.candidate_tokens st
      /\ Candidate.candidate_token c ∉ ScanResult.candidate_lease_ids st)
  /\ match ScanResult.previous_key st with
     | Some p => bytes2_leb (candidate_key c) p = false | None => True end
  /\ st' = ScanResult.Loop (Some (candidate_key c))
       (Candidate.candidate_lease_id c :: ScanResult.candidate_lease_ids st)
       (Candidate.candidate_token c :: ScanResult.candidate_tokens st)
       (Candidate.candidate_fencing_token c :: ScanResult.candidate_fences st).
Proof.
  unfold ScanResult.check_candidate. setoid_rewrite bind_ok_unit at 1. rw candidate_ok.
  assert (candidate_valid c -> encode_utf8 (Candidate.artifact_id c) = Ok (utf8 (Candidate.artifact_id c))
    /\ encode_utf8 (Candidate.hold_id c) = Ok (utf8 (Candidate.hold_id c))) as Hk.
  { intros [_ _ _ _ _ _ _ _ _ (? & ? & _) _]. split; by apply stable_utf8. }
  unfold candidate_key. destruct (ScanResult.previous_key st) as [p|]; split.
  all: try (intros [Hv Hc]; destruct (Hk Hv) as [E1 E2]; rw E1 E2 in Hc; ok_inv Hc; by subst).
  all: intros (Hv & ? & (? & ? & ?) & (? & ?) & ? & ->); destruct (Hk Hv) as [E1 E2];
    split; [done|]; ok_goal; rw E1 E2; naive_solver.
Qed.

(** the loop over the candidates, from any state of its variables *)
Lemma check_candidates_ok self l st :
  (exists st', foldM (ScanResult.check_candidate self) st l = Ok st') <->
  Forall candidate_valid l
  /\ Forall (fun c => Candidate.scan_operation_id c = ScanResult.scan_operation_id self) l
  /\ NoDup (bearer_tokens l)
  /\ (forall x, x ∈ bearer_tokens l ->
        x ∉ ScanResult.candidate_lease_ids st /\ x ∉ ScanResult.candidate_tokens st)
  /\ NoDup (map Candidate.candidate_fencing_token l)
  /\ (forall f, f ∈ map Candidate.candidate_fencing_token l -> f ∉ ScanResult.candidate_fences st)
  /\ keys_ascend (ScanResult.previous_key st) (map candidate_key l).
Proof.
  revert st. induction l as [|c l IH]; intros st; cbn [foldM].
  { split; [|by eexists]. intros _. cbn. repeat split; try constructor; set_solver. }
  setoid_rewrite bind_ok. setoid_rewrite check_candidate_ok.
  change (bearer_tokens (c :: l)) with
    (Candidate.candidate_lease_id c :: Candidate.candidate_token c :: bearer_tokens l).
  cbn [map keys_ascend]. rw !Forall_cons !NoDup_cons. split.
  - intros (st' & st1 & (Hv & Hop & (? & ? & ?) & (? & ?) & Hkey & ->) & Hl).
    destruct (proj1 (IH _) (ex_intro _ _ Hl)) as (? & ? & ? & Ht & ? & Hf & ?).
    cbn in Ht, Hf. pose proof (c_distinct _ Hv).
    assert (Candidate.candidate_lease_id c ∉ bearer_tokens l).
    { intros Hin. destruct (Ht _ Hin). set_solver. }
    assert (Candidate.candidate_token c ∉ bearer_tokens l).
    { intros Hin. destruct (Ht _ Hin). set_solver. }
    split; [done|]. split; [done|]. split; [set_solver|]. split; [|set_solver].
    intros x [->|[->|Hx]%elem_of_cons]%elem_of_cons; [done..|]. destruct (Ht _ Hx). set_solver.
  - intros ([Hv Hl] & [Hop Hops] & (Ha & Hb & Hn) & Ht & [Hfc Hfn] & Hf & Hkey & Hks).
    pose proof (Ht (Candidate.candidate_lease_id c)) as Ht1.
    pose proof (Ht (Candidate.candidate_token c)) as Ht2.
    pose proof (Hf (Candidate.candidate_fencing_token c)) as Hf1.
    destruct (proj2 (IH (ScanResult.Loop (Some (candidate_key c))
       (Candidate.candidate_lease_id c :: ScanResult.candidate_lease_ids st)
       (Candidate.candidate_token c :: ScanResult.candidate_tokens st)
       (Candidate.candidate_fencing_token c :: ScanResult.candidate_fences st)))) as [st' Hst'].
    { cbn. split; [done|]. split; [done|]. split; [done|]. split; [|split; [done|split; [|done]]].
      - intros x Hx. destruct (Ht x); [set_solver|]. set_solver.
      - intros f Hin. specialize (Hf f). set_solver. }
    exists st'. eexists. split; [|exact Hst']. set_solver.
Qed.

Lemma scan_result_ok r x : ScanResult.validate r = Ok x <-> scan_result_valid r.
Proof.
  destruct x. unfold ScanResult.validate. repeat setoid_rewrite bind_ok_unit.
  assert (forall f, ((_ ← foldM (ScanResult.check_candidate r) (ScanResult.Loop None [] [] [])
      (ScanResult.candidates r); f) = Ok tt) <->
    ((exists st', foldM (ScanResult.check_candidate r) (ScanResult.Loop None [] [] [])
      (ScanResult.candidates r) = Ok st') /\ f = Ok tt)) as Hb.
  { intros f. rw bind_ok. naive_solver. }
  rw Hb check_candidates_ok. ok_goal. cbn. split.
  - intros. ok_split. subst. by constructor.
  - intros []. pose proof (canonical_digest_hex _ _ sres_digest0). set_solver.
Qed.

(** a result bound to its request *)
Record scan_pair_valid (request : ScanRequest.t) (result : ScanResult.t) : Prop := {
  sp_request : scan_request_valid request;
  sp_result : scan_result_valid result;
  sp_id : ScanResult.scan_operation_id result = ScanRequest.scan_operation_id request;
  sp_digest : ScanResult.request_digest result = ScanRequest.request_digest request;
  sp_max : Z.of_nat (length (ScanResult.candidates result)) <= ScanRequest.max_candidates request }.
End ResultValid.

#[export] Hint Rewrite @scan_result_ok : ok_iff.
#[global] Opaque ScanResult.validate.

Section PairValid.
Context `{RFC8785}.

Lemma scan_result_for_ok r q x : ScanResult.validate_for r q = Ok x <-> scan_pair_valid q r.
Proof.
  destruct x. unfold ScanResult.validate_for. ok_goal. split.
  - intros. ok_split. by constructor.
  - by intros [].
Qed.
End PairValid.

#[export] Hint Rewrite @scan_result_for_ok : ok_iff.
#[global] Opaque ScanResult.validate_for.

(** ** Authority seals and allocation proofs *)
(** the seal [ScanAuthority.create] makes of its evidence *)
Definition seal_of (request : ScanRequest.t) (result : ScanResult.t) (c : Candidate.t)
    : ScanAuthority.t :=
  ScanAuthority.Make (u "1") (ScanRequest.scan_operation_id request)
    (Candidate.candidate_lease_id c) (Candidate.candidate_token c)
    (Candidate.candidate_digest c) (ScanResult.result_digest result)
    (Candidate.owner_principal_id c) (Candidate.owner_instance_id c)
    (Candidate.candidate_fencing_token c) (Candidate.issued_at_ms c)
    (Candidate.lease_until_ms c).

Section Seals.
Context `{RFC8785}.

Lemma seal_valid request result c x : scan_pair_valid request result -> candidate_valid c ->
  ScanAuthority.validate (seal_of request result c) = Ok x.
Proof.
  intros [Hq [] _ _ _] [] . destruct x. unfold ScanAuthority.validate. ok_goal. cbn.
  pose proof (canonical_digest_hex _ _ sres_digest0).
  pose proof (canonical_digest_hex _ _ c_digest0). pose proof (sr_id _ Hq).
  unfold lease_ok in *. repeat (split; [done || lia|]). lia.
Qed.

Lemma authority_schema a x : ScanAuthority.validate a = Ok x ->
  ScanAuthority.schema_version a = u "1".
Proof. unfold ScanAuthority.validate. intros Hv. ok_inv Hv. done. Qed.
End Seals.

#[global] Opaque ScanAuthority.validate.

Section Authorities.
Context `{RFC8785}.

Lemma scan_authority_create_ok request result c a :
  ScanAuthority.create request result c = Ok a <->
  scan_pair_valid request result /\ candidate_valid c /\ c ∈ ScanResult.candidates result
  /\ a = seal_of request result c.
Proof.
  unfold ScanAuthority.create. ok_goal. change (ScanAuthority.Make _ _ _ _ _ _ _ _ _ _ _)
    with (seal_of request result c). split.
  - naive_solver.
  - intros (Hp & Hc & ? & ->). split; [apply Hp|]. do 3 (split; [done|]).
    split; [by apply seal_valid|done].
Qed.

Lemma scan_authority_against_ok a request result c x :
  ScanAuthority.validate_against a request result c = Ok x <->
  scan_pair_valid request result /\ candidate_valid c /\ c ∈ ScanResult.candidates result
  /\ a = seal_of request result c.
Proof.
  destruct x. unfold ScanAuthority.validate_against. ok_goal. split.
  - intros (Hv & ? & ? & ? & Heq). ok_split. do 3 (split; [done|]).
    apply authority_schema in Hv. destruct a; cbn in *; subst. done.
  - intros (Hp & Hc & ? & ->). split; [by apply seal_valid|]. by cbn.
Qed.

Record allocation_valid (a : ScanAllocation.t) : Prop := {
  al_sealed : ScanAllocation.sealed a = true;
  al_request : scan_request_valid (ScanAllocation.request a);
  al_candidate : candidate_valid (ScanAllocation.candidate a);
  al_previous : 0 <= ScanAllocation.previous_fence_high_water a <= _MAX_SAFE_INTEGER;
  al_operation : Candidate.scan_operation_id (ScanAllocation.candidate a)
    = ScanRequest.scan_operation_id (ScanAllocation.request a);
  al_fence : ScanAllocation.previous_fence_high_water a
    < Candidate.candidate_fencing_token (ScanAllocation.candidate a);
  al_digest : ScanAllocation._scan_allocation_digest a = Ok (ScanAllocation.allocation_digest a) }.

Lemma allocation_ok a x : ScanAllocation.validate a = Ok x <-> allocation_valid a.
Proof.
  destruct x. unfold ScanAllocation.validate. ok_goal. split.
  - intros. ok_split. subst. by constructor.
  - intros []. pose proof (canonical_digest_hex _ _ al_digest0). naive_solver.
Qed.
End Authorities.

#[export] Hint Rewrite @allocation_ok @scan_authority_against_ok @scan_authority_create_ok : ok_iff.
#[global] Opaque ScanAllocation.validate ScanAuthority.validate_against ScanAuthority.create.

Section Allocation.
Context `{RFC8785}.

Lemma allocation_against_ok a request c previous x :
  ScanAllocation.validate_against a request c previous = Ok x <->
  allocation_valid a /\ ScanAllocation.request a = request /\ ScanAllocation.candidate a = c
  /\ ScanAllocation.previous_fence_high_water a = previous.
Proof. destruct x. unfold ScanAllocation.validate_against. ok_goal. naive_solver. Qed.

Lemma issue_allocation_ok request c previous a :
  ScanAllocation._issue_scan_allocation request c previous = Ok a <->
  scan_request_valid request /\ candidate_valid c /\ 0 <= previous <= _MAX_SAFE_INTEGER
  /\ exists digest, a = ScanAllocation.Make request c previous digest true
       /\ ScanAllocation._scan_allocation_digest a = Ok digest.
Proof. unfold ScanAllocation._issue_scan_allocation. ok_goal. naive_solver. Qed.

Lemma candidate_create_ok so li f to p oi ia lu ai hi hd av ox c :
  Candidate.create so li f to p oi ia lu ai hi hd av ox = Ok c <->
  candidate_valid c /\ exists digest,
    c = Candidate.Make (u "1") so li f to p oi ia lu ai hi hd av ox digest.
Proof.
  unfold Candidate.create. ok_goal. split; [naive_solver|].
  intros (Hv & digest & ->). exists digest. split; [apply (c_digest _ Hv)|]. done.
Qed.
End Allocation.

#[export] Hint Rewrite @allocation_against_ok : ok_iff.
#[global] Opaque ScanAllocation.validate_against ScanAllocation._issue_scan_allocation
  Candidate.create.
