(* ===== verification/Replay.v ===== *)
(** * Replay-claim records: request, result, current authority

    The dataclasses of [artifact_hold.py] that a reaper's claim on a committed
    expiry writes: the claim request and result, the pointer to the current
    replay authority, and the ledger-verified authority a replay carries. *)
From S2P Require Import Prelude PyStr Sha256 Json Contract Scan.
Local Open Scope py_scope.
Local Open Scope Z_scope.

(** ** [ArtifactHoldExpiryReplayClaimRequest] *)
Module ReplayClaimRequest.
Record t := Make {
  schema_version : pystr;
  operation : ArtifactHoldExpiryOperation;
  replay_operation_id : pystr;
  expire_operation_id : pystr;
  base_commit_digest : pystr;
  artifact_id : pystr;
  hold_id : pystr;
  expected_hold_digest : pystr;
  expected_artifact_version : Z;
  observed_expires_ms : Z;
  candidate_lease_id : pystr;
  candidate_token : pystr;
  idempotency_key : pystr;
  request_digest : pystr }.

#[global] Instance eq_dec : EqDecision t.
Proof. solve_decision. Defined.

Section Ops.
Context `{RFC8785}.

(** [_replay_claim_request_payload] *)
Definition payload (request : t) : dict := [
  (u "schemaVersion", JStr (schema_version request));
  (u "operation", JStr (operation_value (operation request)));
  (u "replayOperationId", JStr (replay_operation_id request));
  (u "expireOperationId", JStr (expire_operation_id request));
  (u "baseCommitDigest", JStr (base_commit_digest request));
  (u "artifactId", JStr (artifact_id request));
  (u "holdId", JStr (hold_id request));
  (u "expectedHoldDigest", JStr (expected_hold_digest request));
  (u "expectedArtifactVersion", JInt (expected_artifact_version request));
  (u "observedExpiresMs", JInt (observed_expires_ms request));
  (u "candidateLeaseId", JStr (candidate_lease_id request));
  (u "candidateToken", JStr (candidate_token request));
  (u "idempotencyKey", JStr (idempotency_key request)) ].

Definition _replay_claim_request_digest (request : t) : result pystr :=
  _canonical_digest (payload request).

Definition validate (self : t) : result unit :=
  raise_if (schema_version self != u "1")
    (conflict "unsupported hold expiry replay claim schema");;
  raise_if (operation self != REPLAY_CLAIM)
    (conflict "hold expiry replay claim operation must be REPLAY_CLAIM");;
  _require_sha256 (replay_operation_id self) "replay_operation_id";;
  _require_sha256 (expire_operation_id self) "expire_operation_id";;
  _require_sha256 (base_commit_digest self) "replay claim base_commit_digest";;
  _require_stable_text (artifact_id self) "replay claim artifact_id";;
  _require_stable_text (hold_id self) "replay claim hold_id";;
  _require_sha256 (expected_hold_digest self) "replay claim expected_hold_digest";;
  require_integer (expected_artifact_version self) "replay claim expected_artifact_version" 1;;
  require_integer (observed_expires_ms self) "replay claim observed_expires_ms" 0;;
  _require_candidate_token (candidate_lease_id self) "replay claim candidate_lease_id";;
  _require_candidate_token (candidate_token self) "replay claim candidate_token";;
  raise_if (candidate_lease_id self == candidate_token self)
    (conflict "replay claim lease ID and token must differ");;
  raise_if (idempotency_key self != replay_operation_id self)
    (conflict "replay claim idempotency_key must equal replay_operation_id");;
  expected_expire ← artifact_hold_expiry_operation_id (artifact_id self) (hold_id self)
    (expected_hold_digest self) (expected_artifact_version self) (observed_expires_ms self);
  raise_if (expire_operation_id self != expected_expire)
    (conflict "replay claim expire_operation_id does not match due tuple");;
  expected_replay ← artifact_hold_expiry_replay_claim_operation_id
    (expire_operation_id self) (candidate_lease_id self);
  raise_if (replay_operation_id self != expected_replay)
    (conflict "replay claim operation ID does not match commit and lease");;
  _require_sha256 (request_digest self) "replay claim request_digest";;
  digest ← _replay_claim_request_digest self;
  raise_if (request_digest self != digest) (conflict "replay claim request_digest mismatch").

Definition create (replay_operation_id expire_operation_id base_commit_digest artifact_id hold_id
      expected_hold_digest : pystr) (expected_artifact_version observed_expires_ms : Z)
      (candidate_lease_id candidate_token : pystr) : result t :=
  let request := Make (u "1") REPLAY_CLAIM replay_operation_id expire_operation_id
    base_commit_digest artifact_id hold_id expected_hold_digest expected_artifact_version
    observed_expires_ms candidate_lease_id candidate_token replay_operation_id in
  digest ← _replay_claim_request_digest (request []);
  let created := request digest in
  validate created;;
  Ok created.

Definition fields : list string := ["schemaVersion"; "operation"; "replayOperationId";
  "expireOperationId"; "baseCommitDigest"; "artifactId"; "holdId"; "expectedHoldDigest";
  "expectedArtifactVersion"; "observedExpiresMs"; "candidateLeaseId"; "candidateToken";
  "idempotencyKey"; "requestDigest"].

Definition from_canonical_json (wire : pybytes) : result t :=
  value ← _parse_canonical_object wire "hold expiry replay claim request";
  _require_exact_fields value fields "hold expiry replay claim request";;
  operation ← _parse_operation (obj_get (u "operation") value) "replay claim request operation";
  schema_version ← str_field value "schemaVersion" "unsupported hold expiry replay claim schema";
  replay_operation_id ← str_field value "replayOperationId" (text_msg "replay_operation_id");
  expire_operation_id ← str_field value "expireOperationId" (text_msg "expire_operation_id");
  base_commit_digest ← str_field value "baseCommitDigest"
    (text_msg "replay claim base_commit_digest");
  artifact_id ← str_field value "artifactId" (text_msg "replay claim artifact_id");
  hold_id ← str_field value "holdId" (text_msg "replay claim hold_id");
  expected_hold_digest ← str_field value "expectedHoldDigest"
    (text_msg "replay claim expected_hold_digest");
  expected_artifact_version ← int_field value "expectedArtifactVersion"
    (int_msg "replay claim expected_artifact_version");
  observed_expires_ms ← int_field value "observedExpiresMs"
    (int_msg "replay claim observed_expires_ms");
  candidate_lease_id ← str_field value "candidateLeaseId"
    (text_msg "replay claim candidate_lease_id");
  candidate_token ← str_field value "candidateToken" (text_msg "replay claim candidate_token");
  idempotency_key ← str_field value "idempotencyKey"
    "replay claim idempotency_key must equal replay_operation_id";
  request_digest ← str_field value "requestDigest" (text_msg "replay claim request_digest");
  let request := Make schema_version operation replay_operation_id expire_operation_id
    base_commit_digest artifact_id hold_id expected_hold_digest expected_artifact_version
    observed_expires_ms candidate_lease_id candidate_token idempotency_key request_digest in
  validate request;;
  Ok request.

Definition to_wire_dict (self : t) : dict :=
  payload self ++ [(u "requestDigest", JStr (request_digest self))].

Definition canonical_json (self : t) : result pybytes := canonical_json_of (to_wire_dict self).
End Ops.
End ReplayClaimRequest.

(** ** [ArtifactHoldExpiryReplayClaimResult] *)
Module ReplayClaimResult.
Record t := Make {
  schema_version : pystr;
  replay_operation_id : pystr;
  expire_operation_id : pystr;
  base_commit_digest : pystr;
  request_digest : pystr;
  result_code : pystr;
  candidate : Candidate.t;
  result_digest : pystr }.

#[global] Instance eq_dec : EqDecision t.
Proof. solve_decision. Defined.

Section Ops.
Context `{RFC8785}.

(** [_replay_claim_result_payload] *)
Definition payload (result : t) : dict := [
  (u "schemaVersion", JStr (schema_version result));
  (u "replayOperationId", JStr (replay_operation_id result));
  (u "expireOperationId", JStr (expire_operation_id result));
  (u "baseCommitDigest", JStr (base_commit_digest result));
  (u "requestDigest", JStr (request_digest result));
  (u "resultCode", JStr (result_code result));
  (u "candidate", JObj (Candidate.to_wire_dict (candidate result))) ].

Definition _replay_claim_result_digest (result : t) : Prelude.result pystr :=
  _canonical_digest (payload result).

Definition validate (self : t) : result unit :=
  raise_if (schema_version self != u "1")
    (conflict "unsupported hold expiry replay claim result schema");;
  _require_sha256 (replay_operation_id self) "replay result operation ID";;
  _require_sha256 (expire_operation_id self) "replay result expire operation ID";;
  _require_sha256 (base_commit_digest self) "replay result base_commit_digest";;
  _require_sha256 (request_digest self) "replay result request digest";;
  raise_if (result_code self != u "CLAIMED")
    (conflict "unknown hold expiry replay claim result");;
  Candidate.validate (candidate self);;
  raise_if (Candidate.scan_operation_id (candidate self) != replay_operation_id self)
    (conflict "replay result candidate is not bound to claim operation");;
  _require_sha256 (result_digest self) "replay result digest";;
  digest ← _replay_claim_result_digest self;
  raise_if (result_digest self != digest) (conflict "replay result digest mismatch").

Definition validate_for (self : t) (request : ReplayClaimRequest.t) : result unit :=
  ReplayClaimRequest.validate request;;
  validate self;;
  let candidate := candidate self in
  raise_if ((replay_operation_id self != ReplayClaimRequest.replay_operation_id request)
      || (expire_operation_id self != ReplayClaimRequest.expire_operation_id request)
      || (base_commit_digest self != ReplayClaimRequest.base_commit_digest request)
      || (request_digest self != ReplayClaimRequest.request_digest request)
      || (Candidate.candidate_lease_id candidate != ReplayClaimRequest.candidate_lease_id request)
      || (Candidate.candidate_token candidate != ReplayClaimRequest.candidate_token request)
      || (Candidate.artifact_id candidate != ReplayClaimRequest.artifact_id request)
      || (Candidate.hold_id candidate != ReplayClaimRequest.hold_id request)
      || (Candidate.expected_hold_digest candidate
            != ReplayClaimRequest.expected_hold_digest request)
      || (Candidate.expected_artifact_version candidate
            != ReplayClaimRequest.expected_artifact_version request)
      || (Candidate.observed_expires_ms candidate
            != ReplayClaimRequest.observed_expires_ms request))
    (conflict "replay result is not bound to originating claim request").

Definition create (request : ReplayClaimRequest.t) (candidate : Candidate.t) : result t :=
  ReplayClaimRequest.validate request;;
  Candidate.validate candidate;;
  let result := Make (u "1") (ReplayClaimRequest.replay_operation_id request)
    (ReplayClaimRequest.expire_operation_id request)
    (ReplayClaimRequest.base_commit_digest request)
    (ReplayClaimRequest.request_digest request) (u "CLAIMED") candidate in
  digest ← _replay_claim_result_digest (result []);
  let created := result digest in
  validate_for created request;;
  Ok created.

Definition fields : list string := ["schemaVersion"; "replayOperationId"; "expireOperationId";
  "baseCommitDigest"; "requestDigest"; "resultCode"; "candidate"; "resultDigest"].

Definition from_canonical_json (wire : pybytes) : result t :=
  value ← _parse_canonical_object wire "hold expiry replay claim result";
  _require_exact_fields value fields "hold expiry replay claim result";;
  candidate_value ←
    match obj_get (u "candidate") value with
    | Some (JObj kvs) => Ok (JObj kvs)
    | _ => Err (conflict "replay claim result candidate must be an object")
    end;
  candidate ← Candidate._candidate_from_mapping candidate_value "replay claim result candidate";
  schema_version ← str_field value "schemaVersion"
    "unsupported hold expiry replay claim result schema";
  replay_operation_id ← str_field value "replayOperationId"
    (text_msg "replay result operation ID");
  expire_operation_id ← str_field value "expireOperationId"
    (text_msg "replay result expire operation ID");
  base_commit_digest ← str_field value "baseCommitDigest"
    (text_msg "replay result base_commit_digest");
  request_digest ← str_field value "requestDigest" (text_msg "replay result request digest");
  result_code ← str_field value "resultCode" "unknown hold expiry replay claim result";
  result_digest ← str_field value "resultDigest" (text_msg "replay result digest");
  let result := Make schema_version replay_operation_id expire_operation_id base_commit_digest
    request_digest result_code candidate result_digest in
  validate result;;
  Ok result.

Definition to_wire_dict (self : t) : dict :=
  payload self ++ [(u "resultDigest", JStr (result_digest self))].

Definition canonical_json (self : t) : result pybytes := canonical_json_of (to_wire_dict self).
End Ops.
End ReplayClaimResult.

(** ** [ArtifactHoldExpiryReplayCurrentAuthority] *)
Module ReplayCurrentAuthority.
Record t := Make {
  schema_version : pystr;
  expire_operation_id : pystr;
  replay_operation_id : pystr;
  base_commit_digest : pystr;
  request_digest : pystr;
  candidate_lease_id : pystr;
  candidate_token : pystr;
  candidate_digest : pystr;
  result_digest : pystr;
  owner_principal_id : pystr;
  owner_instance_id : pystr;
  candidate_fencing_token : Z;
  issued_at_ms : Z;
  lease_until_ms : Z;
  revision : Z }.

#[global] Instance eq_dec : EqDecision t.
Proof. solve_decision. Defined.

Section Ops.
Context `{RFC8785}.

Definition validate (self : t) : result unit :=
  raise_if (schema_version self != u "1")
    (conflict "unsupported replay current authority schema");;
  _require_sha256 (expire_operation_id self) "replay current authority expire operation ID";;
  _require_sha256 (replay_operation_id self) "replay current authority operation ID";;
  _require_sha256 (base_commit_digest self) "replay current authority base commit digest";;
  _require_sha256 (request_digest self) "replay current authority request digest";;
  _require_candidate_token (candidate_lease_id self) "replay current authority lease ID";;
  _require_candidate_token (candidate_token self) "replay current authority token";;
  _require_sha256 (candidate_digest self) "replay current authority candidate digest";;
  _require_sha256 (result_digest self) "replay current authority result digest";;
  _require_stable_text (owner_principal_id self) "replay current authority owner principal";;
  _require_stable_text (owner_instance_id self) "replay current authority owner instance";;
  require_integer (candidate_fencing_token self) "replay current authority fencing token" 1;;
  require_integer (issued_at_ms self) "replay current authority issued_at_ms" 0;;
  require_integer (lease_until_ms self) "replay current authority lease_until_ms" 0;;
  raise_if (lease_until_ms self <=? issued_at_ms self)
    (conflict "replay current authority lease must end after issue time");;
  raise_if (ARTIFACT_HOLD_CANDIDATE_LEASE_MAX_MS <? lease_until_ms self - issued_at_ms self)
    (conflict "replay current authority lease exceeds maximum duration");;
  require_integer (revision self) "replay current authority revision" 1.

(** the authority [create] builds before it validates it *)
Definition project (request : ReplayClaimRequest.t) (result : ReplayClaimResult.t)
    (revision : Z) : t :=
  let candidate := ReplayClaimResult.candidate result in
  Make (u "1") (ReplayClaimRequest.expire_operation_id request)
    (ReplayClaimRequest.replay_operation_id request)
    (ReplayClaimRequest.base_commit_digest request)
    (ReplayClaimRequest.request_digest request)
    (Candidate.candidate_lease_id candidate) (Candidate.candidate_token candidate)
    (Candidate.candidate_digest candidate) (ReplayClaimResult.result_digest result)
    (Candidate.owner_principal_id candidate) (Candidate.owner_instance_id candidate)
    (Candidate.candidate_fencing_token candidate) (Candidate.issued_at_ms candidate)
    (Candidate.lease_until_ms candidate) revision.

Definition create (request : ReplayClaimRequest.t) (result : ReplayClaimResult.t) (revision : Z)
    : Prelude.result t :=
  ReplayClaimRequest.validate request;;
  ReplayClaimResult.validate_for result request;;
  require_integer revision "replay current authority revision" 1;;
  let authority := project request result revision in
  validate authority;;
  Ok authority.

Definition validate_against (self : t) (request : ReplayClaimRequest.t)
    (result : ReplayClaimResult.t) : Prelude.result unit :=
  validate self;;
  ReplayClaimResult.validate_for result request;;
  let candidate := ReplayClaimResult.candidate result in
  raise_if ((expire_operation_id self != ReplayClaimRequest.expire_operation_id request)
      || (replay_operation_id self != ReplayClaimRequest.replay_operation_id request)
      || (base_commit_digest self != ReplayClaimRequest.base_commit_digest request)
      || (request_digest self != ReplayClaimRequest.request_digest request)
      || (candidate_lease_id self != Candidate.candidate_lease_id candidate)
      || (candidate_token self != Candidate.candidate_token candidate)
      || (candidate_digest self != Candidate.candidate_digest candidate)
      || (result_digest self != ReplayClaimResult.result_digest result)
      || (owner_principal_id self != Candidate.owner_principal_id candidate)
      || (owner_instance_id self != Candidate.owner_instance_id candidate)
      || (candidate_fencing_token self != Candidate.candidate_fencing_token candidate)
      || (issued_at_ms self != Candidate.issued_at_ms candidate)
      || (lease_until_ms self != Candidate.lease_until_ms candidate))
    (conflict "replay current authority pointer contradicts claim evidence").
End Ops.
End ReplayCurrentAuthority.

(** ** [_VerifiedArtifactHoldExpiryReplayAuthority] *)
Module VerifiedReplayAuthority.
(** [sealed]: the [_seal] field is the object [_REPLAY_AUTHORITY_SEAL]. *)
Record t := Make {
  candidate : Candidate.t;
  sealed : bool }.

Definition validate `{RFC8785} (self : t) : result unit :=
  raise_if (negb (sealed self)) (conflict "replay authority proof is not ledger-verified");;
  Candidate.validate (candidate self).
End VerifiedReplayAuthority.
