(* ===== verification/ReplayFacts.v ===== *)
(** * Well-formedness of the replay-claim records *)
From S2P Require Import Prelude PyStr Sha256 Json Contract ContractFacts Scan ScanFacts Replay.
Local Open Scope py_scope.
Local Open Scope Z_scope.

Section Valid.
Context `{RFC8785}.

Record claim_request_valid (r : ReplayClaimRequest.t) : Prop := {
  cr_schema : ReplayClaimRequest.schema_version r = u "1";
  cr_operation : ReplayClaimRequest.operation r = REPLAY_CLAIM;
  cr_commit : sha256_hex (ReplayClaimRequest.base_commit_digest r);
  cr_lease_id : issued_token (ReplayClaimRequest.candidate_lease_id r);
  cr_token : issued_token (ReplayClaimRequest.candidate_token r);
  cr_distinct : ReplayClaimRequest.candidate_lease_id r <> ReplayClaimRequest.candidate_token r;
  cr_idempotency : ReplayClaimRequest.idempotency_key r = ReplayClaimRequest.replay_operation_id r;
  cr_expire : artifact_hold_expiry_operation_id (ReplayClaimRequest.artifact_id r)
    (ReplayClaimRequest.hold_id r) (ReplayClaimRequest.expected_hold_digest r)
    (ReplayClaimRequest.expected_artifact_version r) (ReplayClaimRequest.observed_expires_ms r)
    = Ok (ReplayClaimRequest.expire_operation_id r);
  cr_replay : artifact_hold_expiry_replay_claim_operation_id
    (ReplayClaimRequest.expire_operation_id r) (ReplayClaimRequest.candidate_lease_id r)
    = Ok (ReplayClaimRequest.replay_operation_id r);
  cr_digest : ReplayClaimRequest._replay_claim_request_digest r
    = Ok (ReplayClaimRequest.request_digest r) }.

Lemma claim_request_ok r x : ReplayClaimRequest.validate r = Ok x <-> claim_request_valid r.
Proof.
  destruct x. unfold ReplayClaimRequest.validate. ok_goal. split.
  - intros. ok_split. subst. constructor; try done; congruence.
  - intros []. destruct (operation_id_ok _ _ _ _ _ _ cr_expire0) as [Hd ?].
    destruct (claim_operation_id_ok _ _ _ cr_replay0) as (? & ? & ?).
    pose proof (canonical_digest_hex _ _ cr_digest0). unfold due_tuple in Hd. ok_split.
    repeat (split; [done || lia|]). naive_solver.
Qed.

Record claim_result_valid (r : ReplayClaimResult.t) : Prop := {
  cres_schema : ReplayClaimResult.schema_version r = u "1";
  cres_replay : sha256_hex (ReplayClaimResult.replay_operation_id r);
  cres_expire : sha256_hex (ReplayClaimResult.expire_operation_id r);
  cres_commit : sha256_hex (ReplayClaimResult.base_commit_digest r);
  cres_request : sha256_hex (ReplayClaimResult.request_digest r);
  cres_code : ReplayClaimResult.result_code r = u "CLAIMED";
  cres_candidate : candidate_valid (ReplayClaimResult.candidate r);
  cres_operation : Candidate.scan_operation_id (ReplayClaimResult.candidate r)
    = ReplayClaimResult.replay_operation_id r;
  cres_digest : ReplayClaimResult._replay_claim_result_digest r
    = Ok (ReplayClaimResult.result_digest r) }.

Lemma claim_result_ok r x : ReplayClaimResult.validate r = Ok x <-> claim_result_valid r.
Proof.
  destruct x. unfold ReplayClaimResult.validate. ok_goal. split.
  - intros. ok_split. subst. by constructor.
  - intros []. pose proof (canonical_digest_hex _ _ cres_digest0).
    repeat (split; [done|]). by eexists.
Qed.
End Valid.

#[export] Hint Rewrite @claim_request_ok @claim_result_ok : ok_iff.
#[global] Opaque ReplayClaimRequest.validate ReplayClaimResult.validate.

Section Claims.
Context `{RFC8785}.

(** a claim's result bound to its request *)
Record claim_pair_valid (q : ReplayClaimRequest.t) (r : ReplayClaimResult.t) : Prop := {
  cp_request : claim_request_valid q;
  cp_result : claim_result_valid r;
  cp_replay : ReplayClaimResult.replay_operation_id r = ReplayClaimRequest.replay_operation_id q;
  cp_expire : ReplayClaimResult.expire_operation_id r = ReplayClaimRequest.expire_operation_id q;
  cp_commit : ReplayClaimResult.base_commit_digest r = ReplayClaimRequest.base_commit_digest q;
  cp_digest : ReplayClaimResult.request_digest r = ReplayClaimRequest.request_digest q;
  cp_lease_id : Candidate.candidate_lease_id (ReplayClaimResult.candidate r)
    = ReplayClaimRequest.candidate_lease_id q;
  cp_token : Candidate.candidate_token (ReplayClaimResult.candidate r)
    = ReplayClaimRequest.candidate_token q;
  cp_artifact : Candidate.artifact_id (ReplayClaimResult.candidate r)
    = ReplayClaimRequest.artifact_id q;
  cp_hold : Candidate.hold_id (ReplayClaimResult.candidate r) = ReplayClaimRequest.hold_id q;
  cp_hold_digest : Candidate.expected_hold_digest (ReplayClaimResult.candidate r)
    = ReplayClaimRequest.expected_hold_digest q;
  cp_version : Candidate.expected_artifact_version (ReplayClaimResult.candidate r)
    = ReplayClaimRequest.expected_artifact_version q;
  cp_expires : Candidate.observed_expires_ms (ReplayClaimResult.candidate r)
    = ReplayClaimRequest.observed_expires_ms q }.

Lemma claim_result_for_ok r q x : ReplayClaimResult.validate_for r q = Ok x <-> claim_pair_valid q r.
Proof.
  destruct x. unfold ReplayClaimResult.validate_for. ok_goal. split.
  - intros. ok_split. by constructor.
  - intros []. tauto.
Qed.
End Claims.

#[export] Hint Rewrite @claim_result_for_ok : ok_iff.
#[global] Opaque ReplayClaimResult.validate_for.

Section Authorities.
Context `{RFC8785}.

Lemma project_valid q r n x : claim_pair_valid q r -> 1 <= n <= _MAX_SAFE_INTEGER ->
  ReplayCurrentAuthority.validate (ReplayCurrentAuthority.project q r n) = Ok x.
Proof.
  intros [Hq Hr] Hn. destruct x. unfold ReplayCurrentAuthority.validate. ok_goal. cbn.
  destruct (operation_id_ok _ _ _ _ _ _ (cr_expire _ Hq)) as [_ ?].
  destruct (claim_operation_id_ok _ _ _ (cr_replay _ Hq)) as (_ & _ & ?).
  pose proof (canonical_digest_hex _ _ (cr_digest _ Hq)).
  pose proof (canonical_digest_hex _ _ (cres_digest _ Hr)).
  destruct (cres_candidate _ Hr). pose proof (canonical_digest_hex _ _ c_digest).
  pose proof (cr_commit _ Hq). unfold lease_ok in *.
  repeat (split; [done || lia|]). lia.
Qed.

Lemma current_schema a x : ReplayCurrentAuthority.validate a = Ok x ->
  ReplayCurrentAuthority.schema_version a = u "1"
  /\ 1 <= ReplayCurrentAuthority.revision a <= _MAX_SAFE_INTEGER.
Proof. unfold ReplayCurrentAuthority.validate. intros Hv. ok_inv Hv. done. Qed.
End Authorities.

#[global] Opaque ReplayCurrentAuthority.validate.

Section Pointers.
Context `{RFC8785}.

Lemma current_create_ok q r n a : ReplayCurrentAuthority.create q r n = Ok a <->
  claim_pair_valid q r /\ 1 <= n <= _MAX_SAFE_INTEGER /\ a = ReplayCurrentAuthority.project q r n.
Proof.
  unfold ReplayCurrentAuthority.create. ok_goal. split; [naive_solver|].
  intros (Hp & Hn & ->). split; [apply Hp|]. do 2 (split; [done|]).
  split; [by apply project_valid|done].
Qed.

Lemma current_against_ok a q r x : ReplayCurrentAuthority.validate_against a q r = Ok x <->
  claim_pair_valid q r /\ 1 <= ReplayCurrentAuthority.revision a <= _MAX_SAFE_INTEGER
  /\ a = ReplayCurrentAuthority.project q r (ReplayCurrentAuthority.revision a).
Proof.
  destruct x. unfold ReplayCurrentAuthority.validate_against. ok_goal. split.
  - intros (Hv & Hp & Heq). apply current_schema in Hv as [Hs Hn]. ok_split.
    do 2 (split; [done|]). destruct a; cbn in *; subst. done.
  - intros (Hp & Hn & Ha). rw {1}Ha. split; [by apply project_valid|]. split; [done|].
    rw Ha. by cbn.
Qed.

Lemma verified_ok a x : VerifiedReplayAuthority.validate a = Ok x <->
  VerifiedReplayAuthority.sealed a = true /\ candidate_valid (VerifiedReplayAuthority.candidate a).
Proof. destruct x. unfold VerifiedReplayAuthority.validate. ok_goal. done. Qed.

Lemma claim_result_create_ok q c r : ReplayClaimResult.create q c = Ok r <->
  claim_pair_valid q r /\ ReplayClaimResult.candidate r = c.
Proof.
  unfold ReplayClaimResult.create. ok_goal. split.
  - naive_solver.
  - intros [Hp <-]. split; [apply Hp|]. split; [apply (cres_candidate _ (cp_result _ _ Hp))|].
    exists (ReplayClaimResult.result_digest r). destruct Hp as [Hq Hr ? ? ? ? ? ? ? ? ? ? ?].
    destruct (Hr) as [? _ _ _ _ ? _ _ Hd]. destruct r; cbn in *; subst. done.
Qed.
End Pointers.

#[export] Hint Rewrite @current_create_ok @current_against_ok @verified_ok : ok_iff.
#[global] Opaque ReplayCurrentAuthority.create ReplayCurrentAuthority.validate_against
  VerifiedReplayAuthority.validate ReplayClaimResult.create.
