(* ===== verification/Expire.v ===== *)
(** * EXPIRE records: request, hold state, result, commit evidence, event record

    The dataclasses of [artifact_hold.py] that one expiry transition reads and
    writes, with the binding and the predicate the transition is guarded by. *)
From S2P Require Import Prelude PyStr Sha256 Json Contract Scan Replay.
Local Open Scope py_scope.
Local Open Scope Z_scope.

(** ** [ArtifactHoldExpiryRequest] *)
Module ExpireRequest.
Record t := Make {
  schema_version : pystr;
  operation : ArtifactHoldExpiryOperation;
  expire_operation_id : pystr;
  artifact_id : pystr;
  hold_id : pystr;
  expected_hold_digest : pystr;
  expected_artifact_version : Z;
  observed_expires_ms : Z;
  scan_operation_id : pystr;
  candidate_lease_id : pystr;
  candidate_fencing_token : Z;
  candidate_token : pystr;
  idempotency_key : pystr;
  request_digest : pystr }.

#[global] Instance eq_dec : EqDecision t.
Proof. solve_decision. Defined.

Section Ops.
Context `{RFC8785}.

(** [_expire_request_business_payload] *)
Definition business_payload (request : t) : dict := [
  (u "schemaVersion", JStr (schema_version request));
  (u "operation", JStr (operation_value (operation request)));
  (u "expireOperationId", JStr (expire_operation_id request));
  (u "artifactId", JStr (artifact_id request));
  (u "holdId", JStr (hold_id request));
  (u "expectedHoldDigest", JStr (expected_hold_digest request));
  (u "expectedArtifactVersion", JInt (expected_artifact_version request));
  (u "observedExpiresMs", JInt (observed_expires_ms request));
  (u "idempotencyKey", JStr (idempotency_key request)) ].

(** [_expire_request_payload] *)
Definition payload (request : t) : dict := business_payload request ++ [
  (u "scanOperationId", JStr (scan_operation_id request));
  (u "candidateLeaseId", JStr (candidate_lease_id request));
  (u "candidateFencingToken", JInt (candidate_fencing_token request));
  (u "candidateToken", JStr (candidate_token request)) ].

Definition artifact_hold_expiry_request_digest (request : t) : result pystr :=
  _canonical_digest (business_payload request).

Definition validate (self : t) : result unit :=
  raise_if (schema_version self != u "1") (conflict "unsupported artifact hold expiry schema");;
  raise_if (operation self != EXPIRE)
    (conflict "artifact hold expiry operation must be EXPIRE");;
  _require_sha256 (expire_operation_id self) "expire_operation_id";;
  _require_stable_text (artifact_id self) "artifact_id";;
  _require_stable_text (hold_id self) "hold_id";;
  _require_sha256 (expected_hold_digest self) "expected_hold_digest";;
  require_integer (expected_artifact_version self) "expected_artifact_version" 1;;
  require_integer (observed_expires_ms self) "observed_expires_ms" 0;;
  _require_sha256 (scan_operation_id self) "scan_operation_id";;
  _require_candidate_token (candidate_lease_id self) "candidate_lease_id";;
  require_integer (candidate_fencing_token self) "candidate_fencing_token" 1;;
  _require_candidate_token (candidate_token self) "candidate_token";;
  raise_if (candidate_lease_id self == candidate_token self)
    (conflict "candidate lease ID and candidate token must differ");;
  _require_sha256 (idempotency_key self) "idempotency_key";;
  _require_sha256 (request_digest self) "request_digest";;
  expected_operation_id ← artifact_hold_expiry_operation_id (artifact_id self) (hold_id self)
    (expected_hold_digest self) (expected_artifact_version self) (observed_expires_ms self);
  raise_if (expire_operation_id self != expected_operation_id)
    (conflict "expire_operation_id does not match due tuple");;
  raise_if (idempotency_key self != expire_operation_id self)
    (conflict "idempotency_key must equal expire_operation_id");;
  digest ← artifact_hold_expiry_request_digest self;
  raise_if (request_digest self != digest) (conflict "request_digest mismatch").

Definition create (candidate : Candidate.t) : result t :=
  Candidate.validate candidate;;
  operation_id ← artifact_hold_expiry_operation_id (Candidate.artifact_id candidate)
    (Candidate.hold_id candidate) (Candidate.expected_hold_digest candidate)
    (Candidate.expected_artifact_version candidate) (Candidate.observed_expires_ms candidate);
  let request := Make (u "1") EXPIRE operation_id (Candidate.artifact_id candidate)
    (Candidate.hold_id candidate) (Candidate.expected_hold_digest candidate)
    (Candidate.expected_artifact_version candidate) (Candidate.observed_expires_ms candidate)
    (Candidate.scan_operation_id candidate) (Candidate.candidate_lease_id candidate)
    (Candidate.candidate_fencing_token candidate) (Candidate.candidate_token candidate)
    operation_id in
  digest ← artifact_hold_expiry_request_digest (request []);
  let created := request digest in
  validate created;;
  Ok created.

Definition fields : list string := ["schemaVersion"; "operation"; "expireOperationId";
  "artifactId"; "holdId"; "expectedHoldDigest"; "expectedArtifactVersion"; "observedExpiresMs";
  "scanOperationId"; "candidateLeaseId"; "candidateFencingToken"; "candidateToken";
  "idempotencyKey"; "requestDigest"].

Definition from_canonical_json (wire : pybytes) : result t :=
  value ← _parse_canonical_object wire "artifact hold expiry request";
  _require_exact_fields value fields "artifact hold expiry request";;
  operation ← _parse_operation (obj_get (u "operation") value) "expiry request operation";
  schema_version ← str_field value "schemaVersion" "unsupported artifact hold expiry schema";
  expire_operation_id ← str_field value "expireOperationId" (text_msg "expire_operation_id");
  artifact_id ← str_field value "artifactId" (text_msg "artifact_id");
  hold_id ← str_field value "holdId" (text_msg "hold_id");
  expected_hold_digest ← str_field value "expectedHoldDigest" (text_msg "expected_hold_digest");
  expected_artifact_version ← int_field value "expectedArtifactVersion"
    (int_msg "expected_artifact_version");
  observed_expires_ms ← int_field value "observedExpiresMs" (int_msg "observed_expires_ms");
  scan_operation_id ← str_field value "scanOperationId" (text_msg "scan_operation_id");
  candidate_lease_id ← str_field value "candidateLeaseId" (text_msg "candidate_lease_id");
  candidate_fencing_token ← int_field value "candidateFencingToken"
    (int_msg "candidate_fencing_token");
  candidate_token ← str_field value "candidateToken" (text_msg "candidate_token");
  idempotency_key ← str_field value "idempotencyKey" (text_msg "idempotency_key");
  request_digest ← str_field value "requestDigest" (text_msg "request_digest");
  let request := Make schema_version operation expire_operation_id artifact_id hold_id
    expected_hold_digest expected_artifact_version observed_expires_ms scan_operation_id
    candidate_lease_id candidate_fencing_token candidate_token idempotency_key request_digest in
  validate request;;
  Ok request.

Definition to_wire_dict (self : t) : dict :=
  payload self ++ [(u "requestDigest", JStr (request_digest self))].

Definition canonical_json (self : t) : result pybytes := canonical_json_of (to_wire_dict self).
End Ops.
End ExpireRequest.

Definition _require_candidate_request_binding (request : ExpireRequest.t)
    (candidate : Candidate.t) : result unit :=
  raise_if ((ExpireRequest.artifact_id request != Candidate.artifact_id candidate)
      || (ExpireRequest.hold_id request != Candidate.hold_id candidate)
      || (ExpireRequest.expected_hold_digest request != Candidate.expected_hold_digest candidate)
      || (ExpireRequest.expected_artifact_version request
            != Candidate.expected_artifact_version candidate)
      || (ExpireRequest.observed_expires_ms request != Candidate.observed_expires_ms candidate)
      || (ExpireRequest.scan_operation_id request != Candidate.scan_operation_id candidate)
      || (ExpireRequest.candidate_lease_id request != Candidate.candidate_lease_id candidate)
      || (ExpireRequest.candidate_fencing_token request
            != Candidate.candidate_fencing_token candidate)
      || (ExpireRequest.candidate_token request != Candidate.candidate_token candidate))
    (conflict "candidate ledger is not bound to expiry request").

(** ** [ArtifactHoldState] *)
Module HoldState.
Record t := Make {
  artifact_id : pystr;
  artifact_version : Z;
  artifact_status : ArtifactLifecycleStatus;
  hold_id : pystr;
  hold_digest : pystr;
  hold_status : ArtifactHoldStatus;
  expires_ms : option Z;
  active_hold_ids : gset pystr;
  active_ref_count : Z;
  minimum_delete_at_ms : option Z;
  due_indexed : bool;
  due_score_ms : option Z;
  candidate : option Candidate.t }.

#[global] Instance eq_dec : EqDecision t.
Proof. solve_decision. Defined.

(** [replace(hold, candidate=...)] *)
Definition with_candidate (self : t) (candidate : option Candidate.t) : t :=
  Make (artifact_id self) (artifact_version self) (artifact_status self) (hold_id self)
    (hold_digest self) (hold_status self) (expires_ms self) (active_hold_ids self)
    (active_ref_count self) (minimum_delete_at_ms self) (due_indexed self) (due_score_ms self)
    candidate.

(** the value [retention_locked_at] returns once its argument is checked *)
Definition retention_locked (self : t) (server_now_ms : Z) : bool :=
  let minimum_time_lock :=
    match minimum_delete_at_ms self with Some m => server_now_ms <? m | None => false end in
  (active_hold_ids self != ∅) || (0 <? active_ref_count self) || minimum_time_lock.

Definition retention_locked_at (self : t) (server_now_ms : Z) : result bool :=
  require_integer server_now_ms "server_now_ms" 0;;
  Ok (retention_locked self server_now_ms).

(** [self.hold_status is ACTIVE and self.expires_ms is not None] *)
Definition is_finite_active (self : t) : bool :=
  (hold_status self == ACTIVE) && (expires_ms self != None).

(** [all(comparisons)] of the candidate projection *)
Definition candidate_bound (self : t) (candidate : Candidate.t) : bool :=
  (Candidate.artifact_id candidate == artifact_id self)
  && (Candidate.hold_id candidate == hold_id self)
  && (Candidate.expected_hold_digest candidate == hold_digest self)
  && (Candidate.expected_artifact_version candidate == artifact_version self)
  && (Some (Candidate.observed_expires_ms candidate) == expires_ms self)
  && is_finite_active self
  && due_indexed self
  && (due_score_ms self == expires_ms self).

Section Ops.
Context `{RFC8785}.

Definition validate (self : t) : result unit :=
  _require_stable_text (artifact_id self) "artifact_id";;
  require_integer (artifact_version self) "artifact_version" 1;;
  _require_stable_text (hold_id self) "hold_id";;
  _require_sha256 (hold_digest self) "hold_digest";;
  when_some (expires_ms self) (fun v => require_integer v "expires_ms" 0);;
  forM_ (fun h => _require_stable_text h "active hold ID") (elements (active_hold_ids self));;
  require_integer (active_ref_count self) "active_ref_count" 0;;
  when_some (minimum_delete_at_ms self)
    (fun v => require_integer v "minimum_delete_at_ms" 0);;
  when_some (due_score_ms self) (fun v => require_integer v "due_score_ms" 0);;
  (if hold_status self == ACTIVE then
     raise_if (negb (bool_decide (hold_id self ∈ active_hold_ids self)))
       (conflict "ACTIVE hold is absent from active hold set")
   else
     raise_if (bool_decide (hold_id self ∈ active_hold_ids self))
       (conflict "terminal hold remains in active retention set"));;
  (if is_finite_active self then
     raise_if (negb (due_indexed self) || (due_score_ms self != expires_ms self))
       (conflict "finite ACTIVE hold due index is missing or changed")
   else
     raise_if (due_indexed self || (due_score_ms self != None))
       (conflict "non-expiring or terminal hold must not remain in due index"));;
  when_some (candidate self) (fun candidate =>
    Candidate.validate candidate;;
    raise_if (negb (candidate_bound self candidate))
      (conflict "candidate ledger is not bound to current due tuple")).
End Ops.
End HoldState.

(** ** [ArtifactHoldExpiryResult] *)
Module ExpiryResult.
Record t := Make {
  schema_version : pystr;
  expire_operation_id : pystr;
  artifact_id : pystr;
  hold_id : pystr;
  request_digest : pystr;
  result_code : pystr;
  hold_status : ArtifactHoldStatus;
  artifact_version : Z;
  retention_locked : bool;
  audit_event_type : pystr;
  outbox_event_type : pystr;
  result_digest : pystr }.

#[global] Instance eq_dec : EqDecision t.
Proof. solve_decision. Defined.

Section Ops.
Context `{RFC8785}.

(** [_expire_result_payload] *)
Definition payload (result : t) : dict := [
  (u "schemaVersion", JStr (schema_version result));
  (u "expireOperationId", JStr (expire_operation_id result));
  (u "artifactId", JStr (artifact_id result));
  (u "holdId", JStr (hold_id result));
  (u "requestDigest", JStr (request_digest result));
  (u "resultCode", JStr (result_code result));
  (u "holdStatus", JStr (hold_status_value (hold_status result)));
  (u "artifactVersion", JInt (artifact_version result));
  (u "retentionLocked", JBool (retention_locked result));
  (u "auditEventType", JStr (audit_event_type result));
  (u "outboxEventType", JStr (outbox_event_type result)) ].

Definition _expire_result_digest (result : t) : Prelude.result pystr :=
  _canonical_digest (payload result).

Definition validate (self : t) : result unit :=
  raise_if (schema_version self != u "1") (conflict "unsupported expiry result schema");;
  _require_sha256 (expire_operation_id self) "result.expire_operation_id";;
  _require_stable_text (artifact_id self) "result.artifact_id";;
  _require_stable_text (hold_id self) "result.hold_id";;
  _require_sha256 (request_digest self) "result.request_digest";;
  raise_if (result_code self != u "EXPIRED") (conflict "invalid expiry result code");;
  raise_if (hold_status self != EXPIRED) (conflict "invalid stored expiry hold status");;
  require_integer (artifact_version self) "result.artifact_version" 1;;
  raise_if ((audit_event_type self != u "ArtifactHoldExpired")
      || (outbox_event_type self != u "ArtifactHoldExpired"))
    (conflict "expiry result sink mismatch");;
  _require_sha256 (result_digest self) "result.result_digest";;
  digest ← _expire_result_digest self;
  raise_if (result_digest self != digest) (conflict "stored expiry result digest mismatch").

Definition create (expire_operation_id artifact_id hold_id request_digest : pystr)
    (artifact_version : Z) (retention_locked : bool) : result t :=
  let result := Make (u "1") expire_operation_id artifact_id hold_id request_digest
    (u "EXPIRED") EXPIRED artifact_version retention_locked
    (u "ArtifactHoldExpired") (u "ArtifactHoldExpired") in
  digest ← _expire_result_digest (result []);
  let created := result digest in
  validate created;;
  Ok created.

Definition fields : list string := ["schemaVersion"; "expireOperationId"; "artifactId"; "holdId";
  "requestDigest"; "resultCode"; "holdStatus"; "artifactVersion"; "retentionLocked";
  "auditEventType"; "outboxEventType"; "resultDigest"].

Definition from_canonical_json (wire : pybytes) : result t :=
  value ← _parse_canonical_object wire "stored expiry result";
  _require_exact_fields value fields "stored expiry result";;
  hold_status ← or_raise (obj_get (u "holdStatus") value ≫= parse_hold_status)
    (conflict "stored expiry result has unknown holdStatus");
  schema_version ← str_field value "schemaVersion" "unsupported expiry result schema";
  expire_operation_id ← str_field value "expireOperationId"
    (text_msg "result.expire_operation_id");
  artifact_id ← str_field value "artifactId" (text_msg "result.artifact_id");
  hold_id ← str_field value "holdId" (text_msg "result.hold_id");
  request_digest ← str_field value "requestDigest" (text_msg "result.request_digest");
  result_code ← str_field value "resultCode" "invalid expiry result code";
  artifact_version ← int_field value "artifactVersion" (int_msg "result.artifact_version");
  retention_locked ← bool_field value "retentionLocked"
    "result.retention_locked must be a boolean";
  audit_event_type ← str_field value "auditEventType" "expiry result sink mismatch";
  outbox_event_type ← str_field value "outboxEventType" "expiry result sink mismatch";
  result_digest ← str_field value "resultDigest" (text_msg "result.result_digest");
  let result := Make schema_version expire_operation_id artifact_id hold_id request_digest
    result_code hold_status artifact_version retention_locked audit_event_type outbox_event_type
    result_digest in
  validate result;;
  Ok result.

Definition to_wire_dict (self : t) : dict :=
  payload self ++ [(u "resultDigest", JStr (result_digest self))].

Definition canonical_json (self : t) : result pybytes := canonical_json_of (to_wire_dict self).
End Ops.
End ExpiryResult.

(** ** [ArtifactHoldExpiryCommit] *)
Module Commit.
Record t := Make {
  schema_version : pystr;
  expire_operation_id : pystr;
  request_digest : pystr;
  expected_hold_digest : pystr;
  authorized_candidate_digest : pystr;
  authorized_reaper_principal_id : pystr;
  authorized_reaper_fencing_token : Z;
  previous_artifact_version : Z;
  remaining_active_hold_count : Z;
  active_ref_count : Z;
  minimum_delete_at_ms : option Z;
  committed_at_ms : Z;
  result_json : pybytes;
  commit_digest : pystr }.

#[global] Instance eq_dec : EqDecision t.
Proof. solve_decision. Defined.

(** the bytes [_commit_digest] hashes *)
Definition preimage (commit : t) : result pybytes :=
  minimum_delete ←
    match minimum_delete_at_ms commit with
    | None => Ok (u "null")
    | Some m => encode_ascii (py_str_int m)
    end;
  schema_version ← encode_ascii (schema_version commit);
  expire_operation_id ← encode_ascii (expire_operation_id commit);
  request_digest ← encode_ascii (request_digest commit);
  expected_hold_digest ← encode_ascii (expected_hold_digest commit);
  authorized_candidate_digest ← encode_ascii (authorized_candidate_digest commit);
  principal ← encode_utf8 (authorized_reaper_principal_id commit);
  fence ← encode_ascii (py_str_int (authorized_reaper_fencing_token commit));
  previous ← encode_ascii (py_str_int (previous_artifact_version commit));
  remaining ← encode_ascii (py_str_int (remaining_active_hold_count commit));
  refs ← encode_ascii (py_str_int (active_ref_count commit));
  committed ← encode_ascii (py_str_int (committed_at_ms commit));
  Ok (join_sep _SEPARATOR [_COMMIT_DOMAIN; schema_version; expire_operation_id; request_digest;
        expected_hold_digest; authorized_candidate_digest; principal; fence; previous; remaining;
        refs; minimum_delete; committed; result_json commit]).

Definition _commit_digest (commit : t) : result pystr :=
  b ← preimage commit; Ok (sha256_hexdigest b).

(** [minimum_delete_at_ms is not None and committed_at_ms < minimum_delete_at_ms] *)
Definition minimum_lock (self : t) : bool :=
  match minimum_delete_at_ms self with Some m => committed_at_ms self <? m | None => false end.

(** the retention state the evidence implies *)
Definition expected_retention (self : t) : bool :=
  (0 <? remaining_active_hold_count self) || (0 <? active_ref_count self) || minimum_lock self.

Section Ops.
Context `{RFC8785}.

Definition validate (self : t) : result unit :=
  raise_if (schema_version self != u "1") (conflict "unsupported expiry commit schema");;
  _require_sha256 (expire_operation_id self) "commit expire_operation_id";;
  _require_sha256 (request_digest self) "commit request_digest";;
  _require_sha256 (expected_hold_digest self) "commit expected_hold_digest";;
  _require_sha256 (authorized_candidate_digest self) "commit authorized_candidate_digest";;
  _require_stable_text (authorized_reaper_principal_id self)
    "commit authorized reaper principal";;
  require_integer (authorized_reaper_fencing_token self)
    "commit authorized reaper fencing token" 1;;
  require_integer (previous_artifact_version self) "commit previous_artifact_version" 1;;
  require_integer (remaining_active_hold_count self) "commit remaining_active_hold_count" 0;;
  require_integer (active_ref_count self) "commit active_ref_count" 0;;
  when_some (minimum_delete_at_ms self)
    (fun v => require_integer v "commit minimum_delete_at_ms" 0);;
  require_integer (committed_at_ms self) "commit committed_at_ms" 0;;
  _ ← ExpiryResult.from_canonical_json (result_json self);
  _require_sha256 (commit_digest self) "commit_digest";;
  digest ← _commit_digest self;
  raise_if (commit_digest self != digest) (conflict "commit_digest mismatch").

(** the checks of [_validate_result_for_request] on a fence above the commit's *)
Definition check_higher_fence (request : ExpireRequest.t) (principal_id : pystr)
    (fencing_token : Z) (replay_candidate : option Candidate.t) : result unit :=
  match replay_candidate with
  | None => Err (conflict "higher-fence replay requires ledger-verified authority")
  | Some replay_candidate =>
    _require_candidate_request_binding request replay_candidate;;
    raise_if ((Candidate.owner_principal_id replay_candidate != principal_id)
        || (Candidate.candidate_fencing_token replay_candidate != fencing_token))
      (conflict "verified replay candidate does not bind authenticated authority")
  end.

Definition _validate_result_for_request (self : t) (request : ExpireRequest.t)
    (authenticated_reaper_principal_id : pystr) (authenticated_reaper_fencing_token : Z)
    (authenticated_component_type authenticated_subject : pystr)
    (verified_replay_authority : option VerifiedReplayAuthority.t)
    : result ExpiryResult.t :=
  ExpireRequest.validate request;;
  validate self;;
  _require_stable_text authenticated_reaper_principal_id "authenticated reaper principal";;
  require_integer authenticated_reaper_fencing_token "authenticated reaper fencing token" 1;;
  _require_stable_text authenticated_component_type "authenticated component type";;
  _require_stable_text authenticated_subject "authenticated subject";;
  raise_if (authenticated_component_type != ARTIFACT_HOLD_REAPER_COMPONENT_TYPE)
    (conflict "only artifact-hold-reaper may replay hold expiry");;
  raise_if (authenticated_subject != ARTIFACT_HOLD_EXPIRY_SUBJECT)
    (conflict "hold expiry replay used a forbidden subject");;
  when_some verified_replay_authority VerifiedReplayAuthority.validate;;
  let replay_candidate := VerifiedReplayAuthority.candidate <$> verified_replay_authority in
  raise_if ((expire_operation_id self != ExpireRequest.expire_operation_id request)
      || (request_digest self != ExpireRequest.request_digest request)
      || (expected_hold_digest self != ExpireRequest.expected_hold_digest request)
      || (previous_artifact_version self != ExpireRequest.expected_artifact_version request))
    (conflict "stored commit does not match request");;
  raise_if (match replay_candidate with
      | Some c => (Candidate.candidate_fencing_token c == authorized_reaper_fencing_token self)
                  && (Candidate.candidate_digest c != authorized_candidate_digest self)
      | None => false end)
    (conflict "stored commit candidate digest does not match persisted candidate");;
  raise_if (authenticated_reaper_principal_id != authorized_reaper_principal_id self)
    (conflict "authenticated reaper principal cannot replay this commit");;
  raise_if (authenticated_reaper_fencing_token <? authorized_reaper_fencing_token self)
    (conflict "authenticated reaper fence is stale for this commit");;
  (if authorized_reaper_fencing_token self <? authenticated_reaper_fencing_token
   then check_higher_fence request authenticated_reaper_principal_id
          authenticated_reaper_fencing_token replay_candidate
   else Ok tt);;
  result ← ExpiryResult.from_canonical_json (result_json self);
  raise_if ((ExpiryResult.expire_operation_id result
               != ExpireRequest.expire_operation_id request)
      || (ExpiryResult.request_digest result != ExpireRequest.request_digest request)
      || (ExpiryResult.artifact_id result != ExpireRequest.artifact_id request)
      || (ExpiryResult.hold_id result != ExpireRequest.hold_id request)
      || (ExpiryResult.artifact_version result != previous_artifact_version self + 1))
    (conflict "stored result does not match request or transition evidence");;
  raise_if (ExpiryResult.retention_locked result != expected_retention self)
    (conflict "stored result retention contradicts commit evidence");;
  Ok result.

(** the disjunction [create] refuses as "invalid expiry transition evidence" *)
Definition invalid_transition (result : ExpiryResult.t) (before_state updated_state : HoldState.t)
    (candidate : Candidate.t) (committed_at_ms : Z) : bool :=
  (HoldState.artifact_id before_state != HoldState.artifact_id updated_state)
  || (HoldState.hold_id before_state != HoldState.hold_id updated_state)
  || (HoldState.artifact_status before_state == DELETING)
  || (HoldState.artifact_status before_state == DELETED)
  || (HoldState.artifact_status updated_state != HoldState.artifact_status before_state)
  || (HoldState.hold_status before_state != ACTIVE)
  || negb (bool_decide (HoldState.hold_id before_state ∈ HoldState.active_hold_ids before_state))
  || negb (HoldState.due_indexed before_state)
  || (HoldState.due_score_ms before_state != HoldState.expires_ms before_state)
  || match HoldState.expires_ms before_state with
     | None => true
     | Some expires_ms => committed_at_ms <? expires_ms
     end
  || (committed_at_ms <? Candidate.issued_at_ms candidate)
  || (Candidate.lease_until_ms candidate <=? committed_at_ms)
  || (HoldState.artifact_version updated_state != HoldState.artifact_version before_state + 1)
  || (HoldState.hold_digest updated_state != HoldState.hold_digest before_state)
  || (HoldState.expires_ms updated_state != HoldState.expires_ms before_state)
  || (HoldState.active_ref_count updated_state != HoldState.active_ref_count before_state)
  || (HoldState.minimum_delete_at_ms updated_state
        != HoldState.minimum_delete_at_ms before_state)
  || (HoldState.active_hold_ids updated_state
        != HoldState.active_hold_ids before_state ∖ {[HoldState.hold_id before_state]})
  || (ExpiryResult.artifact_version result != HoldState.artifact_version updated_state)
  || (HoldState.hold_status updated_state != EXPIRED)
  || HoldState.due_indexed updated_state
  || (HoldState.due_score_ms updated_state != None)
  || (HoldState.candidate updated_state != None).

Definition create (request : ExpireRequest.t) (result : ExpiryResult.t)
    (before_state updated_state : HoldState.t) (committed_at_ms : Z) : Prelude.result t :=
  ExpireRequest.validate request;;
  ExpiryResult.validate result;;
  HoldState.validate before_state;;
  HoldState.validate updated_state;;
  require_integer committed_at_ms "committed_at_ms" 0;;
  candidate ← or_raise (HoldState.candidate before_state)
    (conflict "commit evidence requires the consumed candidate ledger");
  _require_candidate_request_binding request candidate;;
  raise_if ((ExpiryResult.expire_operation_id result
               != ExpireRequest.expire_operation_id request)
      || (ExpiryResult.request_digest result != ExpireRequest.request_digest request)
      || (ExpiryResult.artifact_id result != ExpireRequest.artifact_id request)
      || (ExpiryResult.hold_id result != ExpireRequest.hold_id request))
    (conflict "result does not match expiry request");;
  raise_if (invalid_transition result before_state updated_state candidate committed_at_ms)
    (conflict "invalid expiry transition evidence");;
  expected_retention ← HoldState.retention_locked_at updated_state committed_at_ms;
  raise_if (ExpiryResult.retention_locked result != expected_retention)
    (conflict "result retention projection contradicts transition evidence");;
  result_json ← ExpiryResult.canonical_json result;
  let commit := Make (u "1") (ExpireRequest.expire_operation_id request)
    (ExpireRequest.request_digest request) (ExpireRequest.expected_hold_digest request)
    (Candidate.candidate_digest candidate) (Candidate.owner_principal_id candidate)
    (Candidate.candidate_fencing_token candidate) (HoldState.artifact_version before_state)
    (Z.of_nat (size (HoldState.active_hold_ids updated_state)))
    (HoldState.active_ref_count updated_state) (HoldState.minimum_delete_at_ms updated_state)
    committed_at_ms result_json in
  digest ← _commit_digest (commit []);
  let created := commit digest in
  _ ← _validate_result_for_request created request (Candidate.owner_principal_id candidate)
    (Candidate.candidate_fencing_token candidate) ARTIFACT_HOLD_REAPER_COMPONENT_TYPE
    ARTIFACT_HOLD_EXPIRY_SUBJECT None;
  Ok created.

Definition fields : list string := ["schemaVersion"; "expireOperationId"; "requestDigest";
  "expectedHoldDigest"; "authorizedCandidateDigest"; "authorizedReaperPrincipalId";
  "authorizedReaperFencingToken"; "previousArtifactVersion"; "remainingActiveHoldCount";
  "activeRefCount"; "minimumDeleteAtMs"; "committedAtMs"; "resultJson"; "commitDigest"].

Definition from_canonical_json (wire : pybytes) : result t :=
  value ← _parse_canonical_object wire "artifact hold expiry commit";
  _require_exact_fields value fields "artifact hold expiry commit";;
  result_json ← str_field value "resultJson" "commit resultJson must be a string";
  result_json ← encode_utf8 result_json;
  schema_version ← str_field value "schemaVersion" "unsupported expiry commit schema";
  expire_operation_id ← str_field value "expireOperationId"
    (text_msg "commit expire_operation_id");
  request_digest ← str_field value "requestDigest" (text_msg "commit request_digest");
  expected_hold_digest ← str_field value "expectedHoldDigest"
    (text_msg "commit expected_hold_digest");
  authorized_candidate_digest ← str_field value "authorizedCandidateDigest"
    (text_msg "commit authorized_candidate_digest");
  authorized_reaper_principal_id ← str_field value "authorizedReaperPrincipalId"
    (text_msg "commit authorized reaper principal");
  authorized_reaper_fencing_token ← int_field value "authorizedReaperFencingToken"
    (int_msg "commit authorized reaper fencing token");
  previous_artifact_version ← int_field value "previousArtifactVersion"
    (int_msg "commit previous_artifact_version");
  remaining_active_hold_count ← int_field value "remainingActiveHoldCount"
    (int_msg "commit remaining_active_hold_count");
  active_ref_count ← int_field value "activeRefCount" (int_msg "commit active_ref_count");
  minimum_delete_at_ms ← opt_int_field value "minimumDeleteAtMs"
    (int_msg "commit minimum_delete_at_ms");
  committed_at_ms ← int_field value "committedAtMs" (int_msg "commit committed_at_ms");
  commit_digest ← str_field value "commitDigest" (text_msg "commit_digest");
  let commit := Make schema_version expire_operation_id request_digest expected_hold_digest
    authorized_candidate_digest authorized_reaper_principal_id authorized_reaper_fencing_token
    previous_artifact_version remaining_active_hold_count active_ref_count minimum_delete_at_ms
    committed_at_ms result_json commit_digest in
  validate commit;;
  Ok commit.

(** the fields of the wire form, [result_text] being [self.result_json] decoded *)
Definition wire_fields (self : t) (result_text : pystr) : dict := [
  (u "schemaVersion", JStr (schema_version self));
  (u "expireOperationId", JStr (expire_operation_id self));
  (u "requestDigest", JStr (request_digest self));
  (u "expectedHoldDigest", JStr (expected_hold_digest self));
  (u "authorizedCandidateDigest", JStr (authorized_candidate_digest self));
  (u "authorizedReaperPrincipalId", JStr (authorized_reaper_principal_id self));
  (u "authorizedReaperFencingToken", JInt (authorized_reaper_fencing_token self));
  (u "previousArtifactVersion", JInt (previous_artifact_version self));
  (u "remainingActiveHoldCount", JInt (remaining_active_hold_count self));
  (u "activeRefCount", JInt (active_ref_count self));
  (u "minimumDeleteAtMs",
     match minimum_delete_at_ms self with Some m => JInt m | None => JNull end);
  (u "committedAtMs", JInt (committed_at_ms self));
  (u "resultJson", JStr result_text);
  (u "commitDigest", JStr (commit_digest self)) ].

Definition to_wire_dict (self : t) : result dict :=
  result_text ← decode_utf8 (result_json self);
  Ok (wire_fields self result_text).

Definition canonical_json (self : t) : result pybytes :=
  d ← to_wire_dict self; canonical_json_of d.
End Ops.
End Commit.

(** ** [ArtifactHoldExpiryEventRecord] *)
Module EventRecord.
Record t := Make {
  schema_version : pystr;
  sink : ArtifactHoldExpiryEventSink;
  event_id : pystr;
  event_type : pystr;
  expire_operation_id : pystr;
  artifact_id : pystr;
  hold_id : pystr;
  artifact_version : Z;
  result_digest : pystr;
  commit_digest : pystr;
  recorded_at_ms : Z;
  event_digest : pystr }.

#[global] Instance eq_dec : EqDecision t.
Proof. solve_decision. Defined.

(** the bytes an event is identified by *)
Definition id_preimage (sink : ArtifactHoldExpiryEventSink) (expire_operation_id : pystr)
    : result pybytes :=
  sink ← encode_ascii (sink_value sink);
  operation ← encode_ascii expire_operation_id;
  Ok (join_sep _SEPARATOR [_EVENT_DOMAIN; sink; operation]).

Definition event_id_of (sink : ArtifactHoldExpiryEventSink) (expire_operation_id : pystr)
    : result pystr :=
  b ← id_preimage sink expire_operation_id; Ok (sha256_hexdigest b).

Definition _digest_payload (self : t) : dict := [
  (u "schemaVersion", JStr (schema_version self));
  (u "sink", JStr (sink_value (sink self)));
  (u "eventId", JStr (event_id self));
  (u "eventType", JStr (event_type self));
  (u "expireOperationId", JStr (expire_operation_id self));
  (u "artifactId", JStr (artifact_id self));
  (u "holdId", JStr (hold_id self));
  (u "artifactVersion", JInt (artifact_version self));
  (u "resultDigest", JStr (result_digest self));
  (u "commitDigest", JStr (commit_digest self));
  (u "recordedAtMs", JInt (recorded_at_ms self)) ].

Section Ops.
Context `{RFC8785}.

Definition validate (self : t) : result unit :=
  raise_if (schema_version self != u "1") (conflict "unknown hold expiry event schema");;
  _require_sha256 (event_id self) "hold expiry event ID";;
  raise_if (event_type self != u "ArtifactHoldExpired")
    (conflict "unknown hold expiry event type");;
  _require_sha256 (expire_operation_id self) "expire operation ID";;
  _require_stable_text (artifact_id self) "artifact_id";;
  _require_stable_text (hold_id self) "hold_id";;
  require_integer (artifact_version self) "artifact_version" 1;;
  _require_sha256 (result_digest self) "result_digest";;
  _require_sha256 (commit_digest self) "commit_digest";;
  require_integer (recorded_at_ms self) "recorded_at_ms" 0;;
  expected_id ← event_id_of (sink self) (expire_operation_id self);
  raise_if (event_id self != expected_id) (conflict "hold expiry event ID mismatch");;
  _require_sha256 (event_digest self) "event_digest";;
  digest ← _event_digest (_digest_payload self);
  raise_if (event_digest self != digest) (conflict "hold expiry event digest mismatch").

Definition create (sink : ArtifactHoldExpiryEventSink) (commit : Commit.t) : result t :=
  Commit.validate commit;;
  result ← ExpiryResult.from_canonical_json (Commit.result_json commit);
  event_id ← event_id_of sink (Commit.expire_operation_id commit);
  let record := Make (u "1") sink event_id (u "ArtifactHoldExpired")
    (Commit.expire_operation_id commit) (ExpiryResult.artifact_id result)
    (ExpiryResult.hold_id result) (ExpiryResult.artifact_version result)
    (ExpiryResult.result_digest result) (Commit.commit_digest commit)
    (Commit.committed_at_ms commit) in
  digest ← _event_digest (_digest_payload (record []));
  let created := record digest in
  validate created;;
  Ok created.
End Ops.
End EventRecord.

(** ** The expiry transition of one hold *)
Section Transition.
Context `{RFC8785}.

(** the table of [_require_expiry_predicate] *)
Definition expiry_comparisons (request : ExpireRequest.t) (state : HoldState.t)
    (candidate : Candidate.t) (server_now_ms : Z)
    (principal_id instance_id : pystr) (fencing_token : Z) : list (bool * string) := [
  (negb ((HoldState.artifact_status state == DELETING)
         || (HoldState.artifact_status state == DELETED)),
    "artifact lifecycle forbids hold expiry");
  (HoldState.hold_status state == ACTIVE, "hold is not ACTIVE");
  (bool_decide (HoldState.hold_id state ∈ HoldState.active_hold_ids state),
    "hold is absent from active retention set");
  (HoldState.expires_ms state != None, "legal/non-expiring hold cannot expire");
  (HoldState.due_indexed state, "hold due index membership is missing");
  (HoldState.due_score_ms state == HoldState.expires_ms state, "hold due score changed");
  (ExpireRequest.observed_expires_ms request <=? server_now_ms, "hold is not due");
  (Candidate.issued_at_ms candidate <=? server_now_ms, "candidate lease is not active yet");
  (server_now_ms <? Candidate.lease_until_ms candidate, "candidate lease expired");
  (Candidate.owner_principal_id candidate == principal_id,
    "authenticated reaper principal is not candidate owner");
  (Candidate.owner_instance_id candidate == instance_id,
    "authenticated reaper instance is not candidate owner");
  (Candidate.candidate_fencing_token candidate == fencing_token,
    "authenticated reaper fence does not match candidate");
  ((ExpireRequest.artifact_id request == HoldState.artifact_id state)
    && (HoldState.artifact_id state == Candidate.artifact_id candidate), "artifact_id mismatch");
  ((ExpireRequest.hold_id request == HoldState.hold_id state)
    && (HoldState.hold_id state == Candidate.hold_id candidate), "hold_id mismatch");
  ((ExpireRequest.expected_hold_digest request == HoldState.hold_digest state)
    && (HoldState.hold_digest state == Candidate.expected_hold_digest candidate),
    "hold digest changed");
  ((ExpireRequest.expected_artifact_version request == HoldState.artifact_version state)
    && (HoldState.artifact_version state == Candidate.expected_artifact_version candidate),
    "artifact version changed");
  ((Some (ExpireRequest.observed_expires_ms request) == HoldState.expires_ms state)
    && (HoldState.expires_ms state == Some (Candidate.observed_expires_ms candidate)),
    "expiry due tuple changed");
  (ExpireRequest.scan_operation_id request == Candidate.scan_operation_id candidate,
    "scan operation mismatch");
  (ExpireRequest.candidate_lease_id request == Candidate.candidate_lease_id candidate,
    "candidate lease ID mismatch");
  (ExpireRequest.candidate_fencing_token request == Candidate.candidate_fencing_token candidate,
    "candidate fence mismatch");
  (ExpireRequest.candidate_token request == Candidate.candidate_token candidate,
    "candidate token mismatch") ].

Definition _require_expiry_predicate (request : ExpireRequest.t) (state : HoldState.t)
    (candidate : Candidate.t) (server_now_ms : Z)
    (principal_id instance_id : pystr) (fencing_token : Z) : result unit :=
  Candidate.validate candidate;;
  _require_candidate_request_binding request candidate;;
  forM_ (fun '(matches, message) => raise_if (negb matches) (conflict message))
    (expiry_comparisons request state candidate server_now_ms principal_id instance_id
       fencing_token).

(** the [updated] state of [_project_artifact_hold_expiry] *)
Definition expired_state (state : HoldState.t) : HoldState.t :=
  HoldState.Make (HoldState.artifact_id state) (HoldState.artifact_version state + 1)
    (HoldState.artifact_status state) (HoldState.hold_id state) (HoldState.hold_digest state)
    EXPIRED (HoldState.expires_ms state)
    (HoldState.active_hold_ids state ∖ {[HoldState.hold_id state]})
    (HoldState.active_ref_count state) (HoldState.minimum_delete_at_ms state)
    false None None.

(** the checks on the authenticated context that open the projection *)
Definition check_expiry_context (server_now_ms : Z) (principal_id instance_id : pystr)
    (fencing_token : Z) (component_type subject : pystr) : result unit :=
  require_integer server_now_ms "server_now_ms" 0;;
  _require_stable_text principal_id "authenticated reaper principal";;
  _require_stable_text instance_id "authenticated reaper instance";;
  require_integer fencing_token "authenticated reaper fencing token" 1;;
  _require_stable_text component_type "authenticated component type";;
  _require_stable_text subject "authenticated subject";;
  raise_if (component_type != ARTIFACT_HOLD_REAPER_COMPONENT_TYPE)
    (conflict "only artifact-hold-reaper may submit hold expiry");;
  raise_if (subject != ARTIFACT_HOLD_EXPIRY_SUBJECT)
    (conflict "hold expiry used a forbidden subject").

Definition _project_artifact_hold_expiry (request : ExpireRequest.t) (state : HoldState.t)
    (server_now_ms : Z) (principal_id instance_id : pystr) (fencing_token : Z)
    (component_type subject : pystr)
    : result (HoldState.t * ExpiryResult.t * Commit.t) :=
  ExpireRequest.validate request;;
  check_expiry_context server_now_ms principal_id instance_id fencing_token
    component_type subject;;
  HoldState.validate state;;
  candidate ← or_raise (HoldState.candidate state)
    (conflict "expiry candidate ledger is missing");
  _require_expiry_predicate request state candidate server_now_ms principal_id instance_id
    fencing_token;;
  let updated := expired_state state in
  HoldState.validate updated;;
  retention_locked ← HoldState.retention_locked_at updated server_now_ms;
  result ← ExpiryResult.create (ExpireRequest.expire_operation_id request)
    (HoldState.artifact_id state) (HoldState.hold_id state)
    (ExpireRequest.request_digest request) (HoldState.artifact_version updated)
    retention_locked;
  commit ← Commit.create request result state updated server_now_ms;
  Ok (updated, result, commit).
End Transition.
