(* ===== verification/ExpireFacts.v ===== *)
(** * Well-formedness of the EXPIRE records *)
From S2P Require Import Prelude PyStr Sha256 Json JsonFacts Contract ContractFacts WireFacts Scan.
From S2P Require Import ScanFacts Replay ReplayFacts Expire.
Local Open Scope py_scope.
Local Open Scope Z_scope.

(** ** Request, hold state, result *)
Section Valid.
Context `{RFC8785}.

Record expire_request_valid (r : ExpireRequest.t) : Prop := {
  er_schema : ExpireRequest.schema_version r = u "1";
  er_operation : ExpireRequest.operation r = EXPIRE;
  er_expire : artifact_hold_expiry_operation_id (ExpireRequest.artifact_id r)
    (ExpireRequest.hold_id r) (ExpireRequest.expected_hold_digest r)
    (ExpireRequest.expected_artifact_version r) (ExpireRequest.observed_expires_ms r)
    = Ok (ExpireRequest.expire_operation_id r);
  er_scan : sha256_hex (ExpireRequest.scan_operation_id r);
  er_lease_id : issued_token (ExpireRequest.candidate_lease_id r);
  er_token : issued_token (ExpireRequest.candidate_token r);
  er_distinct : ExpireRequest.candidate_lease_id r <> ExpireRequest.candidate_token r;
  er_fence : 1 <= ExpireRequest.candidate_fencing_token r <= _MAX_SAFE_INTEGER;
  er_idempotency : ExpireRequest.idempotency_key r = ExpireRequest.expire_operation_id r;
  er_digest : ExpireRequest.artifact_hold_expiry_request_digest r
    = Ok (ExpireRequest.request_digest r) }.

Lemma expire_request_ok r x : ExpireRequest.validate r = Ok x <-> expire_request_valid r.
Proof.
  destruct x. unfold ExpireRequest.validate. ok_goal. split.
  - intros. ok_split. subst. constructor; try done; congruence.
  - intros []. destruct (operation_id_ok _ _ _ _ _ _ er_expire0) as [Hd ?].
    pose proof (canonical_digest_hex _ _ er_digest0). unfold due_tuple in Hd. ok_split.
    rw er_idempotency0. repeat (split; [done || lia|]). naive_solver.
Qed.

Record hold_valid (h : HoldState.t) : Prop := {
  h_artifact : stable_text (HoldState.artifact_id h);
  h_version : 1 <= HoldState.artifact_version h <= _MAX_SAFE_INTEGER;
  h_hold : stable_text (HoldState.hold_id h);
  h_digest : sha256_hex (HoldState.hold_digest h);
  h_expires : forall e, HoldState.expires_ms h = Some e -> 0 <= e <= _MAX_SAFE_INTEGER;
  h_holds : forall x, x ∈ HoldState.active_hold_ids h -> stable_text x;
  h_refs : 0 <= HoldState.active_ref_count h <= _MAX_SAFE_INTEGER;
  h_minimum : forall m, HoldState.minimum_delete_at_ms h = Some m -> 0 <= m <= _MAX_SAFE_INTEGER;
  h_member : HoldState.hold_id h ∈ HoldState.active_hold_ids h <-> HoldState.hold_status h = ACTIVE;
  h_due : HoldState.due_indexed h = HoldState.is_finite_active h;
  h_score : HoldState.due_score_ms h
    = if HoldState.is_finite_active h then HoldState.expires_ms h else None;
  h_candidate : forall c, HoldState.candidate h = Some c ->
    candidate_valid c /\ HoldState.candidate_bound h c = true }.

Lemma hold_ok h x : HoldState.validate h = Ok x <-> hold_valid h.
Proof.
  destruct x. unfold HoldState.validate.
  assert ((if bool_decide (HoldState.hold_status h = ACTIVE) then
     raise_if (negb (bool_decide (HoldState.hold_id h ∈ HoldState.active_hold_ids h)))
       (conflict "ACTIVE hold is absent from active hold set")
   else raise_if (bool_decide (HoldState.hold_id h ∈ HoldState.active_hold_ids h))
       (conflict "terminal hold remains in active retention set")) = Ok tt
   <-> (HoldState.hold_id h ∈ HoldState.active_hold_ids h <-> HoldState.hold_status h = ACTIVE))
    as Hm.
  { case_bool_decide; ok_goal; naive_solver. }
  assert ((if HoldState.is_finite_active h then
     raise_if (negb (HoldState.due_indexed h)
       || negb (bool_decide (HoldState.due_score_ms h = HoldState.expires_ms h)))
       (conflict "finite ACTIVE hold due index is missing or changed")
   else raise_if (HoldState.due_indexed h || negb (bool_decide (HoldState.due_score_ms h = None)))
       (conflict "non-expiring or terminal hold must not remain in due index")) = Ok tt
   <-> HoldState.due_indexed h = HoldState.is_finite_active h
     /\ HoldState.due_score_ms h
        = (if HoldState.is_finite_active h then HoldState.expires_ms h else None)) as Hd.
  { destruct (HoldState.is_finite_active h); ok_goal; done. }
  repeat setoid_rewrite bind_ok_unit. rw Hm Hd. clear Hm Hd. ok_goal.
  setoid_rewrite Forall_forall. setoid_rewrite elem_of_elements. split.
  - intros. ok_split. constructor; try done; naive_solver.
  - intros []. repeat (split; [done|]). split; [|done].
    intros a. rw h_score0. case_match; [apply h_expires0|done].
Qed.

Record expiry_result_valid (r : ExpiryResult.t) : Prop := {
  x_schema : ExpiryResult.schema_version r = u "1";
  x_expire : sha256_hex (ExpiryResult.expire_operation_id r);
  x_artifact : stable_text (ExpiryResult.artifact_id r);
  x_hold : stable_text (ExpiryResult.hold_id r);
  x_request : sha256_hex (ExpiryResult.request_digest r);
  x_code : ExpiryResult.result_code r = u "EXPIRED";
  x_status : ExpiryResult.hold_status r = EXPIRED;
  x_version : 1 <= ExpiryResult.artifact_version r <= _MAX_SAFE_INTEGER;
  x_audit : ExpiryResult.audit_event_type r = u "ArtifactHoldExpired";
  x_outbox : ExpiryResult.outbox_event_type r = u "ArtifactHoldExpired";
  x_digest : ExpiryResult._expire_result_digest r = Ok (ExpiryResult.result_digest r) }.

Lemma expiry_result_ok r x : ExpiryResult.validate r = Ok x <-> expiry_result_valid r.
Proof.
  destruct x. unfold ExpiryResult.validate. ok_goal. split.
  - intros. ok_split. subst. by constructor.
  - intros []. pose proof (canonical_digest_hex _ _ x_digest0).
    repeat (split; [done|]). naive_solver.
Qed.
End Valid.

#[export] Hint Rewrite @expire_request_ok @hold_ok @expiry_result_ok : ok_iff.
#[global] Opaque ExpireRequest.validate HoldState.validate ExpiryResult.validate.

(** ** Binding a request to its candidate *)
Record bound (r : ExpireRequest.t) (c : Candidate.t) : Prop := {
  b_artifact : ExpireRequest.artifact_id r = Candidate.artifact_id c;
  b_hold : ExpireRequest.hold_id r = Candidate.hold_id c;
  b_digest : ExpireRequest.expected_hold_digest r = Candidate.expected_hold_digest c;
  b_version : ExpireRequest.expected_artifact_version r = Candidate.expected_artifact_version c;
  b_expires : ExpireRequest.observed_expires_ms r = Candidate.observed_expires_ms c;
  b_scan : ExpireRequest.scan_operation_id r = Candidate.scan_operation_id c;
  b_lease_id : ExpireRequest.candidate_lease_id r = Candidate.candidate_lease_id c;
  b_fence : ExpireRequest.candidate_fencing_token r = Candidate.candidate_fencing_token c;
  b_token : ExpireRequest.candidate_token r = Candidate.candidate_token c }.

Lemma binding_ok r c x : _require_candidate_request_binding r c = Ok x <-> bound r c.
Proof.
  destruct x. unfold _require_candidate_request_binding. ok_goal. split.
  - intros. ok_split. by constructor.
  - intros []. tauto.
Qed.

#[export] Hint Rewrite binding_ok : ok_iff.
#[global] Opaque _require_candidate_request_binding.

Section Requests.
Context `{RFC8785}.

Lemma expire_request_create_ok c r : ExpireRequest.create c = Ok r <->
  candidate_valid c /\ expire_request_valid r /\ bound r c.
Proof.
  unfold ExpireRequest.create. ok_goal. split.
  - intros (Hc & id & Hid & d & Hd & Hv & [= <-]). split; [done|]. split; [done|]. by constructor.
  - intros (Hc & Hv & []). split; [done|]. exists (ExpireRequest.expire_operation_id r).
    destruct (Hv) as [? ? He ? ? ? ? ? ? Hd]. split; [by rw -b_artifact0 -b_hold0 -b_digest0 -b_version0 -b_expires0|].
    exists (ExpireRequest.request_digest r). destruct r; cbn in *; subst. done.
Qed.

(** a valid request is determined by the candidate it is bound to *)
Lemma bound_unique r1 r2 c : expire_request_valid r1 -> expire_request_valid r2 ->
  bound r1 c -> bound r2 c -> r1 = r2.
Proof.
  intros V1 V2 B1 B2.
  assert (ExpireRequest.expire_operation_id r1 = ExpireRequest.expire_operation_id r2) as E.
  { pose proof (er_expire _ V1) as E1. pose proof (er_expire _ V2) as E2. destruct B1, B2.
    congruence. }
  assert (ExpireRequest.business_payload r1 = ExpireRequest.business_payload r2) as Ep.
  { destruct V1, V2, B1, B2. unfold ExpireRequest.business_payload. congruence. }
  assert (ExpireRequest.request_digest r1 = ExpireRequest.request_digest r2) as Ed.
  { pose proof (er_digest _ V1) as E1. pose proof (er_digest _ V2) as E2.
    unfold ExpireRequest.artifact_hold_expiry_request_digest in *. congruence. }
  destruct V1, V2, B1, B2, r1, r2; cbn in *; congruence.
Qed.

(** the request [ExpireRequest.create] makes of a valid candidate *)
Lemma expire_request_create_total `{!RFC8785Spec} c : candidate_valid c ->
  exists r, ExpireRequest.create c = Ok r.
Proof.
  intros Hc. destruct (operation_id_total _ _ _ _ _ (c_due _ Hc)) as [id Hid].
  set (mk := ExpireRequest.Make (u "1") EXPIRE id (Candidate.artifact_id c) (Candidate.hold_id c)
    (Candidate.expected_hold_digest c) (Candidate.expected_artifact_version c)
    (Candidate.observed_expires_ms c) (Candidate.scan_operation_id c)
    (Candidate.candidate_lease_id c) (Candidate.candidate_fencing_token c)
    (Candidate.candidate_token c) id).
  destruct (canonical_digest_total (ExpireRequest.business_payload (mk []))) as (d & Hd & _).
  { destruct (operation_id_ok _ _ _ _ _ _ Hid) as [(? & ? & ? & ? & ?) ?].
    subst mk. wire_object. }
  exists (mk d). apply expire_request_create_ok. split; [done|]. destruct Hc.
  split; [|by constructor]. constructor; try done.
Qed.
End Requests.
