(* ===== verification/Wire.v ===== *)
(** * The wire codecs: decoding is the exact inverse of encoding

    For every record that travels, [from_canonical_json] accepts precisely the
    canonical bytes of the records [validate] accepts, and returns that record. *)
From S2P Require Import Prelude PyStr Sha256 Json JsonFacts Contract ContractFacts WireFacts Scan.
From S2P Require Import ScanFacts Replay ReplayFacts Expire ExpireFacts.
Local Open Scope py_scope.
Local Open Scope Z_scope.

(** every field of the decoded object is the field of the record *)
Ltac wire_same :=
  repeat (apply Forall_cons; split; [
    match goal with Hk : obj_get (u ?k) ?d = _ |- context [obj_get (u ?k) ?d] => rewrite Hk end;
    reflexivity|]); constructor.
Ltac wire_read :=
  repeat first [ eexists; split; [wire_lookup|]
               | split; [first [wire_lookup | rewrite dict_keys_canonical; wire_keys]|] ].

Section Codecs.
Context `{RFC8785} `{!RFC8785Spec}.

Lemma scan_request_within n r : scan_request_valid r -> within (S n) (JObj (ScanRequest.to_wire_dict r)).
Proof. intros []. pose proof (canonical_digest_hex _ _ sr_digest). wire_object. Qed.

Lemma candidate_within n c : candidate_valid c -> within (S n) (JObj (Candidate.to_wire_dict c)).
Proof.
  intros []. pose proof (canonical_digest_hex _ _ c_digest). unfold due_tuple, lease_ok in *.
  ok_split. wire_object.
Qed.

Lemma claim_request_within n r : claim_request_valid r -> within (S n) (JObj (ReplayClaimRequest.to_wire_dict r)).
Proof.
  intros []. destruct (operation_id_ok _ _ _ _ _ _ cr_expire) as [Hd ?].
  destruct (claim_operation_id_ok _ _ _ cr_replay) as (? & ? & ?).
  pose proof (canonical_digest_hex _ _ cr_digest). unfold due_tuple in Hd. ok_split. wire_object.
Qed.

Lemma expire_request_within n r : expire_request_valid r -> within (S n) (JObj (ExpireRequest.to_wire_dict r)).
Proof.
  intros []. destruct (operation_id_ok _ _ _ _ _ _ er_expire) as [Hd ?].
  pose proof (canonical_digest_hex _ _ er_digest). unfold due_tuple in Hd. ok_split. wire_object.
Qed.

Lemma expiry_result_within n r : expiry_result_valid r -> within (S n) (JObj (ExpiryResult.to_wire_dict r)).
Proof. intros []. pose proof (canonical_digest_hex _ _ x_digest). wire_object. Qed.

Lemma scan_request_wire w r : ScanRequest.from_canonical_json w = Ok r <->
  scan_request_valid r /\ ScanRequest.canonical_json r = Ok w.
Proof.
  unfold ScanRequest.from_canonical_json, ScanRequest.canonical_json. ok_goal. split.
  - intros. ok_split. subst r. split; [done|].
    eapply decoded_canonical; [eassumption|eassumption|wire_keys..|]. wire_same.
  - intros [Hv Hw]. eexists. split.
    { apply canonical_decoded; [by apply scan_request_within|exact Hw]. }
    destruct r. wire_read. done.
Qed.

Lemma claim_request_wire w r : ReplayClaimRequest.from_canonical_json w = Ok r <->
  claim_request_valid r /\ ReplayClaimRequest.canonical_json r = Ok w.
Proof.
  unfold ReplayClaimRequest.from_canonical_json, ReplayClaimRequest.canonical_json. ok_goal. split.
  - intros. ok_split. subst r. split; [done|].
    eapply decoded_canonical; [eassumption|eassumption|wire_keys..|]. wire_same.
  - intros [Hv Hw]. eexists. split.
    { apply canonical_decoded; [by apply claim_request_within|exact Hw]. }
    destruct r. wire_read. done.
Qed.

Lemma expire_request_wire w r : ExpireRequest.from_canonical_json w = Ok r <->
  expire_request_valid r /\ ExpireRequest.canonical_json r = Ok w.
Proof.
  unfold ExpireRequest.from_canonical_json, ExpireRequest.canonical_json. ok_goal. split.
  - intros. ok_split. subst r. split; [done|].
    eapply decoded_canonical; [eassumption|eassumption|wire_keys..|]. wire_same.
  - intros [Hv Hw]. eexists. split.
    { apply canonical_decoded; [by apply expire_request_within|exact Hw]. }
    destruct r. wire_read. done.
Qed.

Lemma expiry_result_wire w r : ExpiryResult.from_canonical_json w = Ok r <->
  expiry_result_valid r /\ ExpiryResult.canonical_json r = Ok w.
Proof.
  unfold ExpiryResult.from_canonical_json, ExpiryResult.canonical_json. ok_goal. split.
  - intros. ok_split. subst r. split; [done|].
    eapply decoded_canonical; [eassumption|eassumption|wire_keys..|]. wire_same.
  - intros [Hv Hw]. eexists. split.
    { apply canonical_decoded; [by apply expiry_result_within|exact Hw]. }
    destruct r. wire_read. done.
Qed.

(** ** Nested candidates *)
Lemma candidate_of_mapping v label c : unique_keys v ->
  Candidate._candidate_from_mapping v label = Ok c ->
  candidate_valid c /\ sort_json v = sort_json (JObj (Candidate.to_wire_dict c)).
Proof.
  intros Hu. destruct v as [| | | | | |d]; cbn [Candidate._candidate_from_mapping]; try done.
  ok_goal. intros. ok_split. subst c. split; [done|]. apply unique_keys_obj in Hu as [Hu _].
  rw !sort_json_obj. f_equal. symmetry.
  apply canonical_members_ext; [wire_keys|done|wire_keys|]. intros k. symmetry.
  eapply obj_get_ext; [eassumption|wire_keys|]. wire_same.
Qed.

Lemma mapping_of_candidate c label : candidate_valid c ->
  Candidate._candidate_from_mapping (sort_json (JObj (Candidate.to_wire_dict c))) label = Ok c.
Proof.
  intros Hv. rw sort_json_obj. cbn [Candidate._candidate_from_mapping]. ok_goal.
  change (sort_members (map sort_value ?x)) with (canonical_members x).
  destruct c. wire_read. done.
Qed.

Lemma candidate_wire w c : Candidate.from_canonical_json w = Ok c <->
  candidate_valid c /\ Candidate.canonical_json c = Ok w.
Proof.
  unfold Candidate.from_canonical_json, Candidate.canonical_json. rw bind_ok. split.
  - intros (d & [Hw Hu]%parse_inv & Hc).
    destruct (candidate_of_mapping _ _ _ Hu Hc) as [Hv Hs]. split; [done|].
    rw -Hw. unfold canonical_json_of. by rw -dumps_sorted -Hs dumps_sorted.
  - intros [Hv Hw]. exists (canonical_members (Candidate.to_wire_dict c)).
    split; [by apply canonical_decoded; [apply candidate_within|]|].
    pose proof (mapping_of_candidate c "hold expiry candidate" Hv) as Hm.
    by rw sort_json_obj in Hm.
Qed.
End Codecs.
