(* ===== verification/WireNested.v ===== *)
(** * The wire codecs of the records that carry candidates or a stored result *)
From S2P Require Import Prelude PyStr Sha256 Json JsonFacts Contract ContractFacts WireFacts Scan.
From S2P Require Import ScanFacts Replay ReplayFacts Expire ExpireFacts Wire.
Local Open Scope py_scope.
Local Open Scope Z_scope.

Lemma mapR_indexed {A B} (f : nat -> A -> result B) (g : nat -> nat) l bs :
  mapR (fun '(i, a) => f i a) (imap (fun i a => (g i, a)) l) = Ok bs ->
  Forall2 (fun a b => exists i, f i a = Ok b) l bs.
Proof.
  revert g bs. induction l as [|a l IH]; intros g bs; cbn.
  - intros [= <-]. constructor.
  - rw bind_ok. intros (b & Hb & Hl). apply bind_ok in Hl as (bs' & Hbs & [= <-]).
    constructor; [by eexists|]. eapply (IH (fun i => g (S i))), Hbs.
Qed.

Lemma mapR_indexed_ok {A B} (f : nat -> A -> result B) (g : nat -> nat) l bs :
  Forall2 (fun a b => forall i, f i a = Ok b) l bs ->
  mapR (fun '(i, a) => f i a) (imap (fun i a => (g i, a)) l) = Ok bs.
Proof.
  intros H. revert g. induction H as [|a b l bs Hab _ IH]; intros g; cbn; [done|].
  rw Hab. cbn. change (imap _ l) with (imap (fun i a => (g (S i), a)) l). by rw IH.
Qed.

Section Codecs.
Context `{RFC8785} `{!RFC8785Spec}.

Definition candidate_json (c : Candidate.t) : json := JObj (Candidate.to_wire_dict c).

Lemma candidates_sorted l cs : Forall unique_keys l ->
  Forall2 (fun v c => exists i, Candidate._candidate_from_mapping v (ScanResult.candidate_label i) = Ok c) l cs ->
  map sort_json l = map sort_json (map candidate_json cs).
Proof.
  intros Hu H2. induction H2 as [|v c l cs [i Hc] _ IH]; [done|].
  apply Forall_cons in Hu as [Hu Hl]. cbn [map]. rw (IH Hl). f_equal.
  by destruct (candidate_of_mapping _ _ _ Hu Hc).
Qed.

Lemma scan_result_within n r : scan_result_valid r -> within (S (S (S n))) (JObj (ScanResult.to_wire_dict r)).
Proof.
  intros []. pose proof (canonical_digest_hex _ _ sres_digest).
  assert (within (S (S n)) (JArr (map candidate_json (ScanResult.candidates r)))) as Hc.
  { apply within_arr, Forall_map. eapply Forall_impl; [exact sres_candidates|].
    intros c. apply candidate_within. }
  apply within_members; [vm_compute; reflexivity|].
  repeat (apply Forall_cons; split; [split; [reflexivity|first [exact Hc|wire_atom]]|]). constructor.
Qed.

(** the value of the [candidates] member *)
Lemma candidates_field_ok (d : dict) l :
  match obj_get (u "candidates") d with
  | Some (JArr l) => Ok l
  | _ => Err (conflict "hold expiry scan result candidates must be an array")
  end = Ok l <-> obj_get (u "candidates") d = Some (JArr l).
Proof. repeat case_match; naive_solver. Qed.

Lemma scan_result_wire w r : ScanResult.from_canonical_json w = Ok r <->
  scan_result_valid r /\ ScanResult.canonical_json r = Ok w.
Proof.
  unfold ScanResult.from_canonical_json, ScanResult.canonical_json. ok_goal.
  setoid_rewrite candidates_field_ok. split.
  - intros (d & Hd & Hk & l & Hl & cs & Hcs & ? & ? & ? & ? & ? & ? & ? & ? & Hv & [= <-]).
    split; [done|]. pose proof (parse_inv _ _ _ Hd) as [_ Hu].
    apply (mapR_indexed (fun i v => Candidate._candidate_from_mapping v (ScanResult.candidate_label i))
      (fun i => i)) in Hcs.
    assert (Forall unique_keys l) as Hul.
    { apply unique_keys_obj in Hu as [_ Hu]. rw Forall_forall in Hu.
      apply obj_get_Some in Hl. apply Hu in Hl. by apply unique_keys_arr. }
    pose proof (candidates_sorted _ _ Hul Hcs) as Hs.
    eapply decoded_canonical; [eassumption|eassumption|wire_keys..|].
    do 3 (apply Forall_cons; split;
      [match goal with E : obj_get (u ?k) d = _ |- context [obj_get (u ?k) d] => rewrite E end; reflexivity|]).
    apply Forall_cons; split; [|wire_same].
    rw Hl. change (Some (JArr (map sort_json l)) = Some (JArr (map sort_json (map candidate_json cs)))).
    by rw Hs.
  - intros [Hv Hw]. eexists. split.
    { apply canonical_decoded; [by apply scan_result_within|exact Hw]. }
    split; [rewrite dict_keys_canonical; wire_keys|].
    exists (map (fun c => sort_json (candidate_json c)) (ScanResult.candidates r)). split.
    { rw obj_get_canonical; [|wire_keys]. 
      change (Some (JArr (map sort_json (map candidate_json (ScanResult.candidates r))))
        = Some (JArr (map (fun c => sort_json (candidate_json c)) (ScanResult.candidates r)))).
      by rw map_map. }
    exists (ScanResult.candidates r). split.
    { apply (mapR_indexed_ok (fun i v => Candidate._candidate_from_mapping v (ScanResult.candidate_label i))
        (fun i => i)).
      pose proof (sres_candidates _ Hv) as Hc. induction Hc as [|c cs Hc _ IH]; [constructor|].
      constructor; [|exact IH]. intros i. by apply mapping_of_candidate. }
    destruct r. wire_read. done.
Qed.

Lemma claim_result_within n r : claim_result_valid r ->
  within (S (S n)) (JObj (ReplayClaimResult.to_wire_dict r)).
Proof.
  intros []. pose proof (canonical_digest_hex _ _ cres_digest).
  pose proof (candidate_within n _ cres_candidate) as Hc.
  apply within_members; [vm_compute; reflexivity|].
  repeat (apply Forall_cons; split; [split; [reflexivity|first [exact Hc|wire_atom]]|]). constructor.
Qed.

Lemma candidate_field_ok (d : dict) v :
  match obj_get (u "candidate") d with
  | Some (JObj kvs) => Ok (JObj kvs)
  | _ => Err (conflict "replay claim result candidate must be an object")
  end = Ok v <-> exists kvs, v = JObj kvs /\ obj_get (u "candidate") d = Some v.
Proof. repeat case_match; naive_solver. Qed.

Lemma claim_result_wire w r : ReplayClaimResult.from_canonical_json w = Ok r <->
  claim_result_valid r /\ ReplayClaimResult.canonical_json r = Ok w.
Proof.
  unfold ReplayClaimResult.from_canonical_json, ReplayClaimResult.canonical_json. ok_goal.
  setoid_rewrite candidate_field_ok. split.
  - intros (d & Hd & Hk & v & (kvs & Hkvs & Hl) & c & Hc & ? & ? & ? & ? & ? & ? & ? & ? & ? & ? & ? & ?
      & ? & ? & Hv & [= <-]).
    split; [done|]. pose proof (parse_inv _ _ _ Hd) as [_ Hu].
    assert (unique_keys v) as Huv.
    { apply unique_keys_obj in Hu as [_ Hu]. rw Forall_forall in Hu.
      apply obj_get_Some in Hl. by apply Hu in Hl. }
    destruct (candidate_of_mapping _ _ _ Huv Hc) as [_ Hs].
    eapply decoded_canonical; [eassumption|eassumption|wire_keys..|].
    do 6 (apply Forall_cons; split;
      [match goal with E : obj_get (u ?k) d = _ |- context [obj_get (u ?k) d] => rewrite E end; reflexivity|]).
    apply Forall_cons; split; [|wire_same].
    rw Hl. change (Some (sort_json v) = Some (sort_json (candidate_json c))). by rw Hs.
  - intros [Hv Hw]. eexists. split.
    { apply canonical_decoded; [by apply claim_result_within|exact Hw]. }
    split; [rewrite dict_keys_canonical; wire_keys|].
    exists (sort_json (candidate_json (ReplayClaimResult.candidate r))). split.
    { eexists. split; [unfold candidate_json; apply sort_json_obj|].
      rw obj_get_canonical; [|wire_keys]. reflexivity. }
    exists (ReplayClaimResult.candidate r). split.
    { apply mapping_of_candidate, (cres_candidate _ Hv). }
    destruct r. wire_read. done.
Qed.
End Codecs.
