(* ===== verification/CommitFacts.v ===== *)
(** * Commit evidence and event records *)
From S2P Require Import Prelude PyStr Sha256 Json JsonFacts Contract ContractFacts WireFacts Scan.
From S2P Require Import ScanFacts Replay ReplayFacts Expire ExpireFacts Wire.
Local Open Scope py_scope.
Local Open Scope Z_scope.

(** a decoded result is well-formed, whatever the serialiser *)
Lemma decoded_result_valid `{RFC8785} w r :
  ExpiryResult.from_canonical_json w = Ok r -> expiry_result_valid r.
Proof. unfold ExpiryResult.from_canonical_json. ok_goal. naive_solver. Qed.

#[global] Opaque ExpiryResult.from_canonical_json.

(** ** Commits *)
Section Commits.
Context `{RFC8785}.

Record commit_valid (c : Commit.t) : Prop := {
  k_schema : Commit.schema_version c = u "1";
  k_expire : sha256_hex (Commit.expire_operation_id c);
  k_request : sha256_hex (Commit.request_digest c);
  k_hold_digest : sha256_hex (Commit.expected_hold_digest c);
  k_candidate : sha256_hex (Commit.authorized_candidate_digest c);
  k_principal : stable_text (Commit.authorized_reaper_principal_id c);
  k_fence : 1 <= Commit.authorized_reaper_fencing_token c <= _MAX_SAFE_INTEGER;
  k_version : 1 <= Commit.previous_artifact_version c <= _MAX_SAFE_INTEGER;
  k_remaining : 0 <= Commit.remaining_active_hold_count c <= _MAX_SAFE_INTEGER;
  k_refs : 0 <= Commit.active_ref_count c <= _MAX_SAFE_INTEGER;
  k_minimum : forall m, Commit.minimum_delete_at_ms c = Some m -> 0 <= m <= _MAX_SAFE_INTEGER;
  k_time : 0 <= Commit.committed_at_ms c <= _MAX_SAFE_INTEGER;
  k_result : exists r, ExpiryResult.from_canonical_json (Commit.result_json c) = Ok r;
  k_digest : Commit._commit_digest c = Ok (Commit.commit_digest c) }.

Lemma commit_digest_hex c x : Commit._commit_digest c = Ok x -> sha256_hex x.
Proof. unfold Commit._commit_digest. rw bind_ok. intros (b & _ & [= <-]). apply sha256_hexdigest_hex. Qed.

(** the digest exists when the text fields can be encoded *)
Lemma commit_digest_total s e q h a p f v n rc m t j d : ascii s -> sha256_hex e ->
  sha256_hex q -> sha256_hex h -> sha256_hex a -> stable_text p ->
  exists x, Commit._commit_digest (Commit.Make s e q h a p f v n rc m t j d) = Ok x.
Proof.
  intros Hs He Hq Hh Ha Hp. unfold Commit._commit_digest, Commit.preimage.
  cbn [Commit.schema_version Commit.expire_operation_id Commit.request_digest
    Commit.expected_hold_digest Commit.authorized_candidate_digest
    Commit.authorized_reaper_principal_id Commit.minimum_delete_at_ms].
  rw (proj2 (encode_ascii_ok s s) (conj Hs eq_refl)) !(plain_ascii _ (sha256_hex_plain _ He))
    !(plain_ascii _ (sha256_hex_plain _ Hq)) !(plain_ascii _ (sha256_hex_plain _ Hh))
    !(plain_ascii _ (sha256_hex_plain _ Ha)) !encode_ascii_int (stable_utf8 _ Hp).
  destruct m; [rw encode_ascii_int|]; by eexists.
Qed.

(** the digest does not cover the field it is stored in *)
Lemma commit_digest_make d' s e q h a p f v n rc m t j d :
  Commit._commit_digest (Commit.Make s e q h a p f v n rc m t j d)
  = Commit._commit_digest (Commit.Make s e q h a p f v n rc m t j d').
Proof. done. Qed.
End Commits.

#[global] Opaque Commit._commit_digest.

Section CommitChecks.
Context `{RFC8785}.

Lemma commit_ok c x : Commit.validate c = Ok x <-> commit_valid c.
Proof.
  destruct x. unfold Commit.validate. ok_goal. split.
  - intros. ok_split. subst. constructor; try done. by eexists.
  - intros []. pose proof (commit_digest_hex _ _ k_digest0). destruct k_result0 as [r Hr].
    repeat (split; [done|]). exists r. do 2 (split; [done|]). by eexists.
Qed.
End CommitChecks.

#[export] Hint Rewrite @commit_ok : ok_iff.
#[global] Opaque Commit.validate.

(** The evidence a commit keeps of the request it committed and of its result. *)
Record commit_for_request (k : Commit.t) (q : ExpireRequest.t) (r : ExpiryResult.t) : Prop := {
  kq_expire : Commit.expire_operation_id k = ExpireRequest.expire_operation_id q;
  kq_request : Commit.request_digest k = ExpireRequest.request_digest q;
  kq_digest : Commit.expected_hold_digest k = ExpireRequest.expected_hold_digest q;
  kq_version : Commit.previous_artifact_version k = ExpireRequest.expected_artifact_version q;
  kr_expire : ExpiryResult.expire_operation_id r = ExpireRequest.expire_operation_id q;
  kr_request : ExpiryResult.request_digest r = ExpireRequest.request_digest q;
  kr_artifact : ExpiryResult.artifact_id r = ExpireRequest.artifact_id q;
  kr_hold : ExpiryResult.hold_id r = ExpireRequest.hold_id q;
  kr_version : ExpiryResult.artifact_version r = Commit.previous_artifact_version k + 1;
  kr_retention : ExpiryResult.retention_locked r = Commit.expected_retention k }.

Section Replays.
Context `{RFC8785}.

(** the authenticated context every expiry operation asks for *)
Record reaper_context (principal component subject : pystr) (fence : Z) : Prop := {
  rc_principal : stable_text principal;
  rc_fence : 1 <= fence <= _MAX_SAFE_INTEGER;
  rc_component : component = ARTIFACT_HOLD_REAPER_COMPONENT_TYPE;
  rc_subject : subject = ARTIFACT_HOLD_EXPIRY_SUBJECT }.

Lemma component_stable : stable_text ARTIFACT_HOLD_REAPER_COMPONENT_TYPE.
Proof. apply plain_stable_text; [done|]. by repeat constructor. Qed.
Lemma subject_stable : stable_text ARTIFACT_HOLD_EXPIRY_SUBJECT.
Proof. apply plain_stable_text; [done|]. by repeat constructor. Qed.

(** [_validate_result_for_request], with the fence that committed or a later one *)
Lemma validate_result_ok k q principal fence component subject authority r :
  Commit._validate_result_for_request k q principal fence component subject authority = Ok r <->
  expire_request_valid q /\ commit_valid k
  /\ reaper_context principal component subject fence
  /\ (forall a, authority = Some a -> VerifiedReplayAuthority.sealed a = true
        /\ candidate_valid (VerifiedReplayAuthority.candidate a)
        /\ (Candidate.candidate_fencing_token (VerifiedReplayAuthority.candidate a)
              = Commit.authorized_reaper_fencing_token k ->
            Candidate.candidate_digest (VerifiedReplayAuthority.candidate a)
              = Commit.authorized_candidate_digest k))
  /\ principal = Commit.authorized_reaper_principal_id k
  /\ Commit.authorized_reaper_fencing_token k <= fence
  /\ (Commit.authorized_reaper_fencing_token k < fence -> exists a, authority = Some a
        /\ bound q (VerifiedReplayAuthority.candidate a)
        /\ Candidate.owner_principal_id (VerifiedReplayAuthority.candidate a) = principal
        /\ Candidate.candidate_fencing_token (VerifiedReplayAuthority.candidate a) = fence)
  /\ ExpiryResult.from_canonical_json (Commit.result_json k) = Ok r
  /\ commit_for_request k q r.
Proof.
  unfold Commit._validate_result_for_request.
  assert ((if Commit.authorized_reaper_fencing_token k <? fence
    then Commit.check_higher_fence q principal fence (VerifiedReplayAuthority.candidate <$> authority)
    else Ok tt) = Ok tt <->
    (Commit.authorized_reaper_fencing_token k < fence -> exists a, authority = Some a
        /\ bound q (VerifiedReplayAuthority.candidate a)
        /\ Candidate.owner_principal_id (VerifiedReplayAuthority.candidate a) = principal
        /\ Candidate.candidate_fencing_token (VerifiedReplayAuthority.candidate a) = fence)) as Hf.
  { destruct (Z.ltb_spec (Commit.authorized_reaper_fencing_token k) fence).
    - destruct authority as [a|]; cbn [fmap option_fmap option_map Commit.check_higher_fence].
      + ok_goal. naive_solver.
      + split; [done|]. intros Ha. by destruct (Ha H0) as (? & ? & _).
    - split; [lia|done]. }
  assert ((match VerifiedReplayAuthority.candidate <$> authority with
      | Some c => bool_decide (Candidate.candidate_fencing_token c = Commit.authorized_reaper_fencing_token k)
                  && negb (bool_decide (Candidate.candidate_digest c = Commit.authorized_candidate_digest k))
      | None => false end = false) <->
    (forall a, authority = Some a -> 
        (Candidate.candidate_fencing_token (VerifiedReplayAuthority.candidate a)
              = Commit.authorized_reaper_fencing_token k ->
            Candidate.candidate_digest (VerifiedReplayAuthority.candidate a)
              = Commit.authorized_candidate_digest k))) as Hd.
  { destruct authority as [a|]; cbn; [|naive_solver].
    rw andb_false_iff eqb_false_iff neqb_false. split.
    - intros [Hn|He] a' [= <-] E; [by destruct Hn|done].
    - intros Ha. destruct (decide (Candidate.candidate_fencing_token
        (VerifiedReplayAuthority.candidate a) = Commit.authorized_reaper_fencing_token k))
        as [E|E]; [right; by apply (Ha a)|by left]. }
  repeat setoid_rewrite bind_ok_unit. rw Hf. setoid_rewrite raise_if_ok at 4. rw Hd. clear Hf Hd.
  ok_goal. split.
  - intros (? & ? & ? & ? & ? & ? & ? & ? & Ha & Hk & Hd & ? & ? & ? & x & ? & Hr & ? & <-).
    ok_split. do 2 (split; [done|]). split; [by constructor|].
    split; [intros a Ea; destruct (Ha a Ea); split; [done|split; [done|by apply Hd]]|].
    do 4 (split; [done|]). by constructor.
  - intros (? & ? & [] & Ha & ? & ? & ? & ? & []). subst component subject.
    pose proof component_stable. pose proof subject_stable.
    do 8 (split; [done|]). split; [intros a Ea; by destruct (Ha a Ea) as (? & ? & _)|].
    split; [done|]. split; [intros a Ea; by destruct (Ha a Ea) as (_ & _ & ?)|].
    do 3 (split; [done|]). by exists r.
Qed.
End Replays.

#[export] Hint Rewrite @validate_result_ok : ok_iff.
#[global] Opaque Commit._validate_result_for_request.

(** ** Event records *)
Section Events.
Context `{RFC8785}.

Record event_valid (e : EventRecord.t) : Prop := {
  ev_schema : EventRecord.schema_version e = u "1";
  ev_type : EventRecord.event_type e = u "ArtifactHoldExpired";
  ev_expire : sha256_hex (EventRecord.expire_operation_id e);
  ev_artifact : stable_text (EventRecord.artifact_id e);
  ev_hold : stable_text (EventRecord.hold_id e);
  ev_version : 1 <= EventRecord.artifact_version e <= _MAX_SAFE_INTEGER;
  ev_result : sha256_hex (EventRecord.result_digest e);
  ev_commit : sha256_hex (EventRecord.commit_digest e);
  ev_time : 0 <= EventRecord.recorded_at_ms e <= _MAX_SAFE_INTEGER;
  ev_id : EventRecord.event_id_of (EventRecord.sink e) (EventRecord.expire_operation_id e)
    = Ok (EventRecord.event_id e);
  ev_digest : _event_digest (EventRecord._digest_payload e) = Ok (EventRecord.event_digest e) }.

(** the record of a commit in one of the two sinks *)
Record event_of (s : ArtifactHoldExpiryEventSink) (k : Commit.t) (r : ExpiryResult.t)
    (e : EventRecord.t) : Prop := {
  eo_valid : event_valid e;
  eo_sink : EventRecord.sink e = s;
  eo_expire : EventRecord.expire_operation_id e = Commit.expire_operation_id k;
  eo_artifact : EventRecord.artifact_id e = ExpiryResult.artifact_id r;
  eo_hold : EventRecord.hold_id e = ExpiryResult.hold_id r;
  eo_version : EventRecord.artifact_version e = ExpiryResult.artifact_version r;
  eo_result : EventRecord.result_digest e = ExpiryResult.result_digest r;
  eo_commit : EventRecord.commit_digest e = Commit.commit_digest k;
  eo_time : EventRecord.recorded_at_ms e = Commit.committed_at_ms k }.

Lemma event_id_hex s o x : EventRecord.event_id_of s o = Ok x -> sha256_hex x.
Proof. unfold EventRecord.event_id_of. rw bind_ok. intros (b & _ & [= <-]). apply sha256_hexdigest_hex. Qed.

Lemma event_id_total s o : sha256_hex o -> exists x, EventRecord.event_id_of s o = Ok x.
Proof.
  intros Ho. unfold EventRecord.event_id_of, EventRecord.id_preimage.
  rw (plain_ascii o (sha256_hex_plain o Ho)). destruct s; by eexists.
Qed.
End Events.

#[global] Opaque EventRecord.event_id_of.

Section EventChecks.
Context `{RFC8785}.

Lemma event_ok e x : EventRecord.validate e = Ok x <-> event_valid e.
Proof.
  destruct x. unfold EventRecord.validate. ok_goal. split.
  - intros. ok_split. subst. constructor; try done; congruence.
  - intros []. pose proof (event_id_hex _ _ _ ev_id0). pose proof (event_digest_hex _ _ ev_digest0).
    repeat (split; [done|]). naive_solver.
Qed.
End EventChecks.

#[export] Hint Rewrite @event_ok : ok_iff.
#[global] Opaque EventRecord.validate.

Section EventCreation.
Context `{RFC8785}.

Lemma event_create_ok s k e : EventRecord.create s k = Ok e <->
  commit_valid k /\ exists r, ExpiryResult.from_canonical_json (Commit.result_json k) = Ok r
    /\ event_of s k r e.
Proof.
  unfold EventRecord.create. ok_goal. split.
  - intros (? & r & ? & id & ? & d & ? & ? & [= <-]). split; [done|]. exists r. split; [done|]. by constructor.
  - intros (? & r & Hr & []). split; [done|]. exists r. split; [done|].
    exists (EventRecord.event_id e). destruct (eo_valid0).
    split; [by rw -eo_expire0 -eo_sink0|]. exists (EventRecord.event_digest e).
    destruct e; cbn in *; subst. done.
Qed.

(** a commit has one record in each sink *)
Lemma event_of_unique s k r e1 e2 : event_of s k r e1 -> event_of s k r e2 -> e1 = e2.
Proof.
  intros E1 E2.
  assert (EventRecord._digest_payload e1 = EventRecord._digest_payload e2) as Ep.
  { destruct E1 as [[]], E2 as [[]]. unfold EventRecord._digest_payload.
    assert (EventRecord.event_id e1 = EventRecord.event_id e2) by congruence. congruence. }
  pose proof (ev_digest _ (eo_valid _ _ _ _ E1)) as D1.
  pose proof (ev_digest _ (eo_valid _ _ _ _ E2)) as D2.
  assert (EventRecord.event_digest e1 = EventRecord.event_digest e2) as Ed by congruence.
  destruct E1 as [[]], E2 as [[]], e1, e2; cbn in *. congruence.
Qed.

Lemma event_create_total `{!RFC8785Spec} s k : commit_valid k -> exists e, EventRecord.create s k = Ok e.
Proof.
  intros Hk. destruct (k_result _ Hk) as [r Hr]. pose proof (decoded_result_valid _ _ Hr) as Hv.
  destruct (event_id_total s _ (k_expire _ Hk)) as [id Hid].
  pose proof (event_id_hex _ _ _ Hid). pose proof (commit_digest_hex _ _ (k_digest _ Hk)).
  set (mk := EventRecord.Make (u "1") s id (u "ArtifactHoldExpired") (Commit.expire_operation_id k)
    (ExpiryResult.artifact_id r) (ExpiryResult.hold_id r) (ExpiryResult.artifact_version r)
    (ExpiryResult.result_digest r) (Commit.commit_digest k) (Commit.committed_at_ms k)).
  destruct (dumps_ok (JObj (EventRecord._digest_payload (mk [])))) as [b Hb].
  { destruct Hk, Hv. pose proof (canonical_digest_hex _ _ x_digest).
    assert (scalar_str (sink_value s) = true) by (by destruct s). subst mk. wire_object. }
  assert (exists d, _event_digest (EventRecord._digest_payload (mk [])) = Ok d) as [d Hd].
  { Transparent _event_digest. unfold _event_digest. rw Hb. by eexists. Opaque _event_digest. }
  exists (mk d). apply event_create_ok. split; [done|]. exists r. split; [done|].
  pose proof (canonical_digest_hex _ _ (x_digest _ Hv)). destruct Hk, Hv.
  by repeat (split; try done).
Qed.
End EventCreation.

#[global] Opaque EventRecord.create.
