(* ===== verification/TransitionFacts.v ===== *)
(** * The expiry transition of one hold: when it happens and what it produces *)
From S2P Require Import Prelude PyStr Sha256 Json JsonFacts Contract ContractFacts WireFacts Scan.
From S2P Require Import ScanFacts Replay ReplayFacts Expire ExpireFacts Wire CommitFacts.
Local Open Scope py_scope.
Local Open Scope Z_scope.

(** Everything an expiry of hold [h] through candidate [c] requires at [now]. *)
Record may_expire (q : ExpireRequest.t) (h : HoldState.t) (c : Candidate.t) (now : Z)
    (principal instance : pystr) (fence : Z) : Prop := {
  m_bound : bound q c;
  m_lifecycle : HoldState.artifact_status h <> DELETING /\ HoldState.artifact_status h <> DELETED;
  m_active : HoldState.hold_status h = ACTIVE;
  m_member : HoldState.hold_id h ∈ HoldState.active_hold_ids h;
  m_indexed : HoldState.due_indexed h = true;
  m_score : HoldState.due_score_ms h = HoldState.expires_ms h;
  m_due : ExpireRequest.observed_expires_ms q <= now;
  m_lease : Candidate.issued_at_ms c <= now < Candidate.lease_until_ms c;
  m_principal : Candidate.owner_principal_id c = principal;
  m_instance : Candidate.owner_instance_id c = instance;
  m_fence : Candidate.candidate_fencing_token c = fence;
  m_artifact : HoldState.artifact_id h = Candidate.artifact_id c;
  m_hold : HoldState.hold_id h = Candidate.hold_id c;
  m_digest : HoldState.hold_digest h = Candidate.expected_hold_digest c;
  m_version : HoldState.artifact_version h = Candidate.expected_artifact_version c;
  m_expires : HoldState.expires_ms h = Some (Candidate.observed_expires_ms c) }.

Section Predicate.
Context `{RFC8785}.

Lemma expiry_predicate_ok q h c now p i f x :
  _require_expiry_predicate q h c now p i f = Ok x <->
  candidate_valid c /\ may_expire q h c now p i f.
Proof.
  destruct x. unfold _require_expiry_predicate. ok_goal.
  split.
  - intros. ok_split. constructor; try done; congruence.
  - intros (Hc & []). destruct m_bound0. split; [done|]. split; [done|]. ok_split.
    repeat split; done || congruence || lia.
Qed.
End Predicate.

#[export] Hint Rewrite @expiry_predicate_ok : ok_iff.
#[global] Opaque _require_expiry_predicate.

(** the authenticated context of an expiry *)
Record expiry_context (now : Z) (principal instance : pystr) (fence : Z)
    (component subject : pystr) : Prop := {
  ec_now : 0 <= now <= _MAX_SAFE_INTEGER;
  ec_reaper : reaper_context principal component subject fence;
  ec_instance : stable_text instance }.

Lemma expiry_context_ok now p i f comp subj x :
  check_expiry_context now p i f comp subj = Ok x <-> expiry_context now p i f comp subj.
Proof.
  destruct x. unfold check_expiry_context. ok_goal. split.
  - intros. ok_split. constructor; [done|by constructor|done].
  - intros [? [] ?]. subst. pose proof component_stable. pose proof subject_stable. done.
Qed.

#[export] Hint Rewrite expiry_context_ok : ok_iff.
#[global] Opaque check_expiry_context.

(** ** The result and the commit of a transition *)
Record result_of `{RFC8785} (q : ExpireRequest.t) (h : HoldState.t) (now : Z) (r : ExpiryResult.t)
    : Prop := {
  ro_valid : expiry_result_valid r;
  ro_expire : ExpiryResult.expire_operation_id r = ExpireRequest.expire_operation_id q;
  ro_artifact : ExpiryResult.artifact_id r = HoldState.artifact_id h;
  ro_hold : ExpiryResult.hold_id r = HoldState.hold_id h;
  ro_request : ExpiryResult.request_digest r = ExpireRequest.request_digest q;
  ro_version : ExpiryResult.artifact_version r = HoldState.artifact_version h + 1;
  ro_retention : ExpiryResult.retention_locked r = HoldState.retention_locked (expired_state h) now }.

Record commit_of `{RFC8785} (q : ExpireRequest.t) (h : HoldState.t) (c : Candidate.t) (now : Z)
    (r : ExpiryResult.t) (k : Commit.t) : Prop := {
  co_valid : commit_valid k;
  co_expire : Commit.expire_operation_id k = ExpireRequest.expire_operation_id q;
  co_request : Commit.request_digest k = ExpireRequest.request_digest q;
  co_digest : Commit.expected_hold_digest k = ExpireRequest.expected_hold_digest q;
  co_candidate : Commit.authorized_candidate_digest k = Candidate.candidate_digest c;
  co_principal : Commit.authorized_reaper_principal_id k = Candidate.owner_principal_id c;
  co_fence : Commit.authorized_reaper_fencing_token k = Candidate.candidate_fencing_token c;
  co_previous : Commit.previous_artifact_version k = HoldState.artifact_version h;
  co_remaining : Commit.remaining_active_hold_count k
    = Z.of_nat (size (HoldState.active_hold_ids (expired_state h)));
  co_refs : Commit.active_ref_count k = HoldState.active_ref_count h;
  co_minimum : Commit.minimum_delete_at_ms k = HoldState.minimum_delete_at_ms h;
  co_time : Commit.committed_at_ms k = now;
  co_json : ExpiryResult.canonical_json r = Ok (Commit.result_json k) }.

(** the remaining-hold count of a commit says whether a hold remains *)
Lemma remaining_positive (s : gset pystr) : (0 <? Z.of_nat (size s)) = bool_decide (s <> ∅).
Proof.
  destruct (decide (s = ∅)) as [->|Hne].
  - rw size_empty. by rw bool_decide_eq_false_2; [|intros []].
  - rw (bool_decide_eq_true_2 (s <> ∅)); [|done].
    assert (size s <> 0)%nat by (intros ?%size_empty_inv; apply Hne; by apply leibniz_equiv). lia.
Qed.

Lemma commit_retention `{RFC8785} q h c now r k : commit_of q h c now r k ->
  Commit.expected_retention k = HoldState.retention_locked (expired_state h) now.
Proof.
  intros []. unfold Commit.expected_retention, Commit.minimum_lock, HoldState.retention_locked.
  rw co_remaining0 co_refs0 co_minimum0 co_time0 remaining_positive bool_decide_not. done.
Qed.

Lemma transition_evidence `{RFC8785} q h c now p i f r :
  may_expire q h c now p i f -> result_of q h now r ->
  Commit.invalid_transition r h (expired_state h) c now = false.
Proof.
  intros [] []. destruct m_bound0, m_lifecycle0. unfold Commit.invalid_transition. cbn.
  rw m_expires0. ok_goal. repeat split; done || congruence || lia.
Qed.

#[global] Opaque Commit.invalid_transition.

Section Projection.
Context `{RFC8785} `{!RFC8785Spec}.

Lemma result_create_ok q h now r :
  ExpiryResult.create (ExpireRequest.expire_operation_id q) (HoldState.artifact_id h)
    (HoldState.hold_id h) (ExpireRequest.request_digest q)
    (HoldState.artifact_version (expired_state h))
    (HoldState.retention_locked (expired_state h) now) = Ok r <-> result_of q h now r.
Proof.
  unfold ExpiryResult.create. ok_goal. split.
  - intros (d & ? & ? & [= <-]). by constructor.
  - intros [[] ? ? ? ? ? ?]. exists (ExpiryResult.result_digest r).
    destruct r; cbn in *; subst. split; [done|]. split; [by constructor|done].
Qed.

Lemma commit_create_ok q r h c now k : expire_request_valid q -> hold_valid h ->
  HoldState.candidate h = Some c -> candidate_valid c -> 0 <= now <= _MAX_SAFE_INTEGER ->
  (exists p i f, may_expire q h c now p i f) -> result_of q h now r ->
  hold_valid (expired_state h) ->
  Commit.create q r h (expired_state h) now = Ok k <-> commit_of q h c now r k.
Proof.
  intros Hq Hh Hc Hcv Hnow (p & i & f & Hm) Hr Hh'. unfold Commit.create. ok_goal.
  split.
  - intros (_ & _ & _ & _ & _ & c' & Hc' & Hb & _ & _ & ret & _ & Hret & w & Hw & d & Hd & r' & Hv & [= <-]).
    simplify_eq. destruct Hv as (_ & Hk & _). by constructor.
  - intros Hk. split; [done|]. split; [apply (ro_valid _ _ _ _ Hr)|]. do 3 (split; [done|]).
    exists c. split; [done|].
    split; [by destruct Hm|]. split; [by destruct Hr, Hm, m_bound0; repeat split; congruence|].
    split; [by apply (transition_evidence q h c now p i f)|].
    exists (HoldState.retention_locked (expired_state h) now). split; [done|]. split; [by destruct Hr|].
    exists (Commit.result_json k). split; [apply (co_json _ _ _ _ _ _ Hk)|].
    exists (Commit.commit_digest k).
    pose proof (commit_retention _ _ _ _ _ _ Hk) as Hret.
    assert (Commit.Make (u "1") (ExpireRequest.expire_operation_id q) (ExpireRequest.request_digest q)
      (ExpireRequest.expected_hold_digest q) (Candidate.candidate_digest c)
      (Candidate.owner_principal_id c) (Candidate.candidate_fencing_token c)
      (HoldState.artifact_version h) (Z.of_nat (size (HoldState.active_hold_ids (expired_state h))))
      (HoldState.active_ref_count (expired_state h)) (HoldState.minimum_delete_at_ms (expired_state h))
      now (Commit.result_json k) (Commit.commit_digest k) = k) as Ek.
    { destruct Hk, co_valid0, k; cbn in *; subst; done. }
    split.
    { etrans; [apply (commit_digest_make (Commit.commit_digest k))|]. rw Ek.
      apply (k_digest _ (co_valid _ _ _ _ _ _ Hk)). }
    exists r. split; [|by f_equal]. rw Ek.
    split; [done|]. split; [by destruct Hk|].
    split. { constructor; [by destruct Hcv|by destruct Hcv|done..]. }
    split; [done|]. destruct Hk, Hr, Hm, m_bound0, Hcv.
    split; [done|]. split; [lia|]. split; [lia|].
    split; [by apply expiry_result_wire|]. constructor; try congruence.
Qed.
End Projection.

#[export] Hint Rewrite @result_create_ok : ok_iff.
#[global] Opaque ExpiryResult.create Commit.create.

Section Project.
Context `{RFC8785} `{!RFC8785Spec}.

(** the projection succeeds exactly when the hold may expire *)
Lemma project_ok q h now p i f component subject h' r k :
  _project_artifact_hold_expiry q h now p i f component subject = Ok (h', r, k) <->
  expire_request_valid q /\ expiry_context now p i f component subject /\ hold_valid h
  /\ exists c, HoldState.candidate h = Some c /\ candidate_valid c
       /\ may_expire q h c now p i f /\ h' = expired_state h /\ hold_valid h'
       /\ result_of q h now r /\ commit_of q h c now r k.
Proof.
  unfold _project_artifact_hold_expiry, HoldState.retention_locked_at. ok_goal. split.
  - intros (Hq & Hx & Hh & c & Hc & (Hcv & Hm) & Hh' & b & (Hn & <-) & r' & Hr & k' & Hk & [= <- <- <-]).
    apply result_create_ok in Hr. do 3 (split; [done|]). exists c.
    do 4 (split; [done|]). split; [done|]. split; [done|].
    eapply commit_create_ok; eauto.
  - intros (Hq & Hx & Hh & c & Hc & Hcv & Hm & -> & Hh' & Hr & Hk).
    do 3 (split; [done|]). exists c. split; [done|]. do 2 (split; [done|]).
    eexists. split; [split; [apply Hx|done]|]. exists r. split; [by apply result_create_ok|].
    exists k. split; [|done]. eapply commit_create_ok; eauto. apply Hx.
Qed.

(** the expired hold is well-formed *)
Lemma expired_valid h : hold_valid h -> HoldState.hold_id h ∈ HoldState.active_hold_ids h ->
  HoldState.artifact_version h + 1 <= _MAX_SAFE_INTEGER -> hold_valid (expired_state h).
Proof.
  intros [] Hin Hv. constructor; cbn; try done; [lia|set_solver|set_solver].
Qed.

Lemma result_of_total q h now : expire_request_valid q -> hold_valid h ->
  HoldState.artifact_version h + 1 <= _MAX_SAFE_INTEGER -> exists r, result_of q h now r.
Proof.
  intros Hq Hh Hv. destruct (operation_id_ok _ _ _ _ _ _ (er_expire _ Hq)) as [_ Hid].
  pose proof (canonical_digest_hex _ _ (er_digest _ Hq)) as Hd. destruct Hh.
  set (mk := ExpiryResult.Make (u "1") (ExpireRequest.expire_operation_id q)
    (HoldState.artifact_id h) (HoldState.hold_id h) (ExpireRequest.request_digest q) (u "EXPIRED")
    EXPIRED (HoldState.artifact_version h + 1) (HoldState.retention_locked (expired_state h) now)
    (u "ArtifactHoldExpired") (u "ArtifactHoldExpired")).
  destruct (canonical_digest_total (ExpiryResult.payload (mk []))) as (d & Hdd & _).
  { subst mk. wire_object. }
  exists (mk d). constructor; try done. constructor; try done. cbn. lia.
Qed.

Lemma commit_of_total q h c now p i f r : expire_request_valid q -> hold_valid h ->
  candidate_valid c -> may_expire q h c now p i f -> 0 <= now <= _MAX_SAFE_INTEGER ->
  Z.of_nat (size (HoldState.active_hold_ids h)) <= _MAX_SAFE_INTEGER ->
  result_of q h now r -> exists k, commit_of q h c now r k.
Proof.
  intros Hq Hh Hc Hm Hnow Hs Hr.
  destruct (operation_id_ok _ _ _ _ _ _ (er_expire _ Hq)) as [(_ & _ & Hqd & _) Hid].
  pose proof (canonical_digest_hex _ _ (er_digest _ Hq)).
  pose proof (canonical_digest_hex _ _ (c_digest _ Hc)).
  destruct (canonical_json_total (ExpiryResult.to_wire_dict r)) as [w Hw];
    [apply expiry_result_within, Hr|].
  set (mk := Commit.Make (u "1") (ExpireRequest.expire_operation_id q)
    (ExpireRequest.request_digest q) (ExpireRequest.expected_hold_digest q)
    (Candidate.candidate_digest c) (Candidate.owner_principal_id c)
    (Candidate.candidate_fencing_token c) (HoldState.artifact_version h)
    (Z.of_nat (size (HoldState.active_hold_ids (expired_state h)))) (HoldState.active_ref_count h)
    (HoldState.minimum_delete_at_ms h) now w).
  assert (exists d, Commit._commit_digest (mk []) = Ok d) as [d Hd].
  { apply commit_digest_total; try done; [by repeat constructor|apply Hc]. }
  assert (size (HoldState.active_hold_ids (expired_state h))
    <= size (HoldState.active_hold_ids h))%nat by (apply subseteq_size; cbn; set_solver).
  exists (mk d). constructor; try done. destruct Hh, Hc. constructor; try done.
  - change (0 <= Z.of_nat (size (HoldState.active_hold_ids (expired_state h)))
      <= _MAX_SAFE_INTEGER). lia.
  - exists r. apply expiry_result_wire. split; [apply Hr|done].
Qed.
End Project.
