(* ===== verification/Ledger.v ===== *)
(** * The candidate ledger: entries, the ledger's validation, its operations

    [ArtifactHoldExpiryCandidateLedgerEntry] and
    [ArtifactHoldExpiryLedgerState] of [artifact_hold.py].  The loops of
    [ArtifactHoldExpiryLedgerState.validate] are definitions of their own, in
    the order the method runs them; each carries the local variables of the
    method that its loop updates. *)
From S2P Require Import Prelude PyStr Sha256 Json Contract Scan Replay Expire.
Local Open Scope py_scope.
Local Open Scope Z_scope.

(** ** [ArtifactHoldExpiryCandidateLedgerEntry] *)
Module LedgerEntry.
Record t := Make {
  candidate : Candidate.t;
  consumed_by_expire_operation_id : option pystr;
  consumed_at_ms : option Z }.

#[global] Instance eq_dec : EqDecision t.
Proof. solve_decision. Defined.

Definition consumed (self : t) : bool := consumed_by_expire_operation_id self != None.

Definition validate `{RFC8785} (self : t) : result unit :=
  Candidate.validate (candidate self);;
  match consumed_by_expire_operation_id self with
  | None =>
    raise_if (consumed_at_ms self != None)
      (conflict "active candidate ledger entry has consumed timestamp")
  | Some operation_id =>
    _require_sha256 operation_id "candidate consumed operation ID";;
    consumed_at_ms ← or_raise (consumed_at_ms self)
      (conflict "consumed candidate ledger entry is missing timestamp");
    require_integer consumed_at_ms "candidate consumed timestamp" 0
  end.

(** a new entry, and [replace(entry, consumed_by_..., consumed_at_ms)] *)
Definition fresh (candidate : Candidate.t) : t := Make candidate None None.
Definition consume (self : t) (operation_id : pystr) (consumed_at_ms : Z) : t :=
  Make (candidate self) (Some operation_id) (Some consumed_at_ms).

(** [(entry.candidate.candidate_lease_id, entry.candidate.candidate_token)] *)
Definition tokens (self : t) : list pystr :=
  [Candidate.candidate_lease_id (candidate self); Candidate.candidate_token (candidate self)].
End LedgerEntry.

(** ** [ArtifactHoldExpiryLedgerState] *)
Module LedgerState.
Abbreviation claim := (ReplayClaimRequest.t * ReplayClaimResult.t)%type.
Abbreviation scan_evidence := (ScanRequest.t * ScanResult.t * Candidate.t)%type.

Record t := Make {
  candidate_fence_high_water : Z;
  scan_requests : list ScanRequest.t;
  scan_results : list ScanResult.t;
  candidate_entries : list LedgerEntry.t;
  replay_claim_requests : list ReplayClaimRequest.t;
  replay_claim_results : list ReplayClaimResult.t;
  replay_current_authorities : list ReplayCurrentAuthority.t;
  scan_authorities : list ScanAuthority.t;
  scan_allocations : list ScanAllocation.t }.

#[global] Instance eq_dec : EqDecision t.
Proof. solve_decision. Defined.

Definition empty : t := Make 0 [] [] [] [] [] [] [] [].

(** [zip(self.scan_requests, self.scan_results, strict=True)] and its replay
    counterpart: [validate], which every caller runs first, has refused lists
    of different lengths. *)
Definition scans (self : t) : list (ScanRequest.t * ScanResult.t) :=
  combine (scan_requests self) (scan_results self).
Definition claims (self : t) : list claim :=
  combine (replay_claim_requests self) (replay_claim_results self).

Definition claim_candidate (c : claim) : Candidate.t := ReplayClaimResult.candidate c.2.
Definition claim_fence (c : claim) : Z := Candidate.candidate_fencing_token (claim_candidate c).

(** *** [validate], first loop: scan evidence *)
Record scan_index := ScanIndex {
  persisted_candidates : list Candidate.t;
  scan_ids : list pystr;
  scan_evidence_by_lease : list (pystr * scan_evidence) }.

Definition index_candidate (request : ScanRequest.t) (result : ScanResult.t)
    (d : list (pystr * scan_evidence)) (candidate : Candidate.t)
    : Prelude.result (list (pystr * scan_evidence)) :=
  raise_if (dict_mem (Candidate.candidate_lease_id candidate) d)
    (conflict "scan candidate authority was duplicated");;
  Ok (d ++ [(Candidate.candidate_lease_id candidate, (request, result, candidate))]).

Section Validate.
Context `{RFC8785}.

Definition index_scan (s : scan_index) (scan : ScanRequest.t * ScanResult.t)
    : result scan_index :=
  let '(request, result) := scan in
  ScanResult.validate_for result request;;
  raise_if (bool_decide (ScanRequest.scan_operation_id request ∈ scan_ids s))
    (conflict "scan ledger contains duplicate scan ID");;
  evidence ← foldM (index_candidate request result) (scan_evidence_by_lease s)
    (ScanResult.candidates result);
  Ok (ScanIndex (persisted_candidates s ++ ScanResult.candidates result)
        (scan_ids s ++ [ScanRequest.scan_operation_id request]) evidence).

Definition index_scans (self : t) : result scan_index :=
  foldM index_scan (ScanIndex [] [] []) (scans self).

(** *** [validate]: scan authority seals and allocation proofs *)
Definition index_authority (d : list (pystr * ScanAuthority.t)) (authority : ScanAuthority.t)
    : result (list (pystr * ScanAuthority.t)) :=
  ScanAuthority.validate authority;;
  raise_if (dict_mem (ScanAuthority.candidate_lease_id authority) d)
    (conflict "scan authority ledger contains duplicate seal");;
  Ok (d ++ [(ScanAuthority.candidate_lease_id authority, authority)]).

Definition keys {V} (d : list (pystr * V)) : gset pystr := list_to_set (map fst d).

(** the [KeyError] of a lookup the set comparison before it has ruled out *)
Definition key_error : exn := ValueError "KeyError".

Definition check_authorities (self : t) (evidence : list (pystr * scan_evidence))
    : result unit :=
  authorities ← foldM index_authority [] (scan_authorities self);
  raise_if (keys authorities != keys evidence)
    (conflict "scan authority seal set is incomplete");;
  forM_ (fun '(lease, (request, result, candidate)) =>
    authority ← or_raise (dict_get lease authorities) key_error;
    ScanAuthority.validate_against authority request result candidate) evidence.

Definition index_allocation (d : list (pystr * ScanAllocation.t)) (allocation : ScanAllocation.t)
    : result (list (pystr * ScanAllocation.t)) :=
  ScanAllocation.validate allocation;;
  let lease := Candidate.candidate_lease_id (ScanAllocation.candidate allocation) in
  raise_if (dict_mem lease d) (conflict "scan allocation ledger contains duplicate proof");;
  Ok (d ++ [(lease, allocation)]).

Definition check_allocations (self : t) (evidence : list (pystr * scan_evidence))
    : result unit :=
  allocations ← foldM index_allocation [] (scan_allocations self);
  raise_if (keys allocations != keys evidence)
    (conflict "scan allocation proof set is incomplete");;
  forM_ (fun '(lease, (request, _, candidate)) =>
    allocation ← or_raise (dict_get lease allocations) key_error;
    ScanAllocation.validate_against allocation request candidate
      (ScanAllocation.previous_fence_high_water allocation)) evidence.

(** *** [validate]: replay claims.  [replay_candidates_by_expire_operation] has
    the keys of [replay_claims_by_expire_operation] and the candidates of its
    claims, so the one dictionary stands for both. *)
Record claim_index := ClaimIndex {
  claim_persisted_candidates : list Candidate.t;
  replay_ids : list pystr;
  replay_claims_by_expire_operation : list (pystr * list claim) }.

Definition index_claim (scan_ids : list pystr) (s : claim_index) (c : claim)
    : result claim_index :=
  let '(request, result) := c in
  ReplayClaimResult.validate_for result request;;
  let operation_id := ReplayClaimRequest.replay_operation_id request in
  raise_if (bool_decide (operation_id ∈ replay_ids s))
    (conflict "replay claim ledger contains duplicate operation ID");;
  raise_if (bool_decide (operation_id ∈ scan_ids))
    (conflict "candidate issuance operation ID was reused across kinds");;
  Ok (ClaimIndex (claim_persisted_candidates s ++ [ReplayClaimResult.candidate result])
        (replay_ids s ++ [operation_id])
        (setdefault_append (ReplayClaimRequest.expire_operation_id request) c
           (replay_claims_by_expire_operation s))).

Definition index_claims (self : t) (persisted : list Candidate.t) (scan_ids : list pystr)
    : result claim_index :=
  foldM (index_claim scan_ids) (ClaimIndex persisted [] []) (claims self).

Definition check_overlap (claims : list claim) : result unit :=
  forM_ (fun '(previous, current) =>
      raise_if (Candidate.issued_at_ms current <? Candidate.lease_until_ms previous)
        (conflict "replay claim authority leases overlap"))
    (adjacent (sorted_by Candidate.candidate_fencing_token (map claim_candidate claims))).

Definition index_current (d : list (pystr * ReplayCurrentAuthority.t))
    (authority : ReplayCurrentAuthority.t)
    : result (list (pystr * ReplayCurrentAuthority.t)) :=
  ReplayCurrentAuthority.validate authority;;
  raise_if (dict_mem (ReplayCurrentAuthority.expire_operation_id authority) d)
    (conflict "duplicate replay current authority pointer");;
  Ok (d ++ [(ReplayCurrentAuthority.expire_operation_id authority, authority)]).

(** [authorities[expire_operation_id]] against [ordered_claims[-1]] *)
Definition check_current (authorities : list (pystr * ReplayCurrentAuthority.t))
    (group : pystr * list claim) : result unit :=
  let '(expire_operation_id, claims) := group in
  '(current_request, current_result) ← or_raise (last (sorted_by claim_fence claims))
    (ValueError "IndexError");
  authority ← or_raise (dict_get expire_operation_id authorities) key_error;
  ReplayCurrentAuthority.validate_against authority current_request current_result;;
  raise_if (ReplayCurrentAuthority.revision authority != Z.of_nat (length claims))
    (conflict "replay current authority revision is not append-bound").

Definition check_currents (self : t) (groups : list (pystr * list claim)) : result unit :=
  authorities ← foldM index_current [] (replay_current_authorities self);
  raise_if (keys authorities != keys groups)
    (conflict "replay current authority pointer set is incomplete");;
  forM_ (check_current authorities) groups.

(** *** [validate]: candidate entries *)
Record entry_index := EntryIndex {
  authority_tokens : list pystr;
  fences : list Z;
  entry_candidates : list Candidate.t;
  previous_fence : Z }.

Definition add_token (tokens : list pystr) (token : pystr) : result (list pystr) :=
  raise_if (bool_decide (token ∈ tokens))
    (conflict "global candidate bearer authority was reused");;
  Ok (tokens ++ [token]).

Definition index_entry (high_water : Z) (s : entry_index) (entry : LedgerEntry.t)
    : result entry_index :=
  LedgerEntry.validate entry;;
  let candidate := LedgerEntry.candidate entry in
  let fence := Candidate.candidate_fencing_token candidate in
  raise_if (fence <=? previous_fence s)
    (conflict "candidate ledger append order is not fence-monotonic");;
  tokens ← foldM add_token (authority_tokens s) (LedgerEntry.tokens entry);
  raise_if (bool_decide (fence ∈ fences s))
    (conflict "global candidate fencing authority was reused");;
  raise_if (high_water <? fence) (conflict "candidate fence exceeds persisted high-water");;
  Ok (EntryIndex tokens (fences s ++ [fence]) (entry_candidates s ++ [candidate]) fence).

Definition index_entries (self : t) : result entry_index :=
  foldM (index_entry (candidate_fence_high_water self)) (EntryIndex [] [] [] 0)
    (candidate_entries self).

(** the fence of the entry before position [i], 0 at the front *)
Definition fence_before (entry_candidates : list Candidate.t) (i : nat) : Z :=
  match i with
  | O => 0
  | S j => match entry_candidates !! j with
           | Some c => Candidate.candidate_fencing_token c
           | None => 0
           end
  end.

Definition check_provenance (entry_candidates : list Candidate.t)
    (allocation : ScanAllocation.t) : result unit :=
  candidate_index ← or_raise (index_of (ScanAllocation.candidate allocation) entry_candidates)
    (conflict "scan allocation candidate is absent from candidate ledger");
  raise_if (ScanAllocation.previous_fence_high_water allocation
      != fence_before entry_candidates candidate_index)
    (conflict "scan allocation previous high-water is not persisted provenance").

Definition validate (self : t) : result unit :=
  require_integer (candidate_fence_high_water self) "candidate fence high-water" 0;;
  raise_if (length (scan_requests self) != length (scan_results self))
    (conflict "scan request/result ledger cardinality mismatch");;
  raise_if (length (replay_claim_requests self) != length (replay_claim_results self))
    (conflict "replay claim request/result ledger cardinality mismatch");;
  scan ← index_scans self;
  check_authorities self (scan_evidence_by_lease scan);;
  check_allocations self (scan_evidence_by_lease scan);;
  replay ← index_claims self (persisted_candidates scan) (scan_ids scan);
  forM_ (fun group => check_overlap group.2) (replay_claims_by_expire_operation replay);;
  check_currents self (replay_claims_by_expire_operation replay);;
  entries ← index_entries self;
  forM_ (check_provenance (entry_candidates entries)) (scan_allocations self);;
  raise_if (entry_candidates entries
      != sorted_by Candidate.candidate_fencing_token (claim_persisted_candidates replay))
    (conflict "candidate ledger append order does not project persisted authority").
End Validate.

(** *** [_record_scan] *)
Section Operations.
Context `{RFC8785}.

(** the tokens of all entries, a set in the source *)
Definition entry_tokens (self : t) : list pystr :=
  flat_map LedgerEntry.tokens (candidate_entries self).

Definition check_allocation_pair (request : ScanRequest.t)
    (pair : ScanAllocation.t * Candidate.t) : result unit :=
  let '(allocation, candidate) := pair in
  ScanAllocation.validate allocation;;
  raise_if ((ScanAllocation.request allocation != request)
      || (ScanAllocation.candidate allocation != candidate))
    (conflict "scan allocation proof does not match result candidate").

(** [persisted_allocations] of a retried scan *)
Definition allocations_of (self : t) (result : ScanResult.t) : list ScanAllocation.t :=
  flat_map (fun candidate =>
      List.filter (fun a => ScanAllocation.candidate a == candidate) (scan_allocations self))
    (ScanResult.candidates result).

(** the loop over the stored scans: [Some tt] is the retry of a persisted scan *)
Fixpoint find_scan (self : t) (request : ScanRequest.t) (result : ScanResult.t)
    (allocations : list ScanAllocation.t) (stored : list (ScanRequest.t * ScanResult.t))
    : Prelude.result (option unit) :=
  match stored with
  | [] => Ok None
  | (stored_request, stored_result) :: stored =>
    if ScanRequest.scan_operation_id stored_request != ScanRequest.scan_operation_id request
    then find_scan self request result allocations stored
    else if (stored_request == request) && (stored_result == result) then
      raise_if (allocations_of self stored_result != allocations)
        (conflict "scan retry does not carry the persisted allocation proof");;
      Ok (Some tt)
    else Err (conflict "scan ID already has different persisted request or result")
  end.

(** the variables of the loop over the new candidates *)
Record new_scan := NewScan {
  used_tokens : list pystr;
  next_high_water : Z;
  new_entries : list LedgerEntry.t;
  new_scan_authorities : list ScanAuthority.t }.

Definition add_candidate (request : ScanRequest.t) (result : ScanResult.t) (s : new_scan)
    (pair : Candidate.t * ScanAllocation.t) : Prelude.result new_scan :=
  let '(candidate, allocation) := pair in
  let lease := Candidate.candidate_lease_id candidate in
  let token := Candidate.candidate_token candidate in
  let fence := Candidate.candidate_fencing_token candidate in
  ScanAllocation.validate_against allocation request candidate (next_high_water s);;
  raise_if (bool_decide (lease ∈ used_tokens s) || bool_decide (token ∈ used_tokens s)
      || (lease == token) || (fence <=? next_high_water s))
    (conflict "global candidate authority was reused or regressed");;
  authority ← ScanAuthority.create request result candidate;
  Ok (NewScan (used_tokens s ++ [lease; token]) fence
        (new_entries s ++ [LedgerEntry.fresh candidate])
        (new_scan_authorities s ++ [authority])).

Definition _record_scan (self : t) (request : ScanRequest.t) (result : ScanResult.t)
    (allocations : list ScanAllocation.t) : Prelude.result t :=
  validate self;;
  ScanResult.validate_for result request;;
  raise_if (length allocations != length (ScanResult.candidates result))
    (conflict "scan allocation/result cardinality mismatch");;
  forM_ (check_allocation_pair request) (combine allocations (ScanResult.candidates result));;
  retry ← find_scan self request result allocations (scans self);
  match retry with
  | Some tt => Ok self
  | None =>
    new ← foldM (add_candidate request result)
      (NewScan (entry_tokens self) (candidate_fence_high_water self) [] [])
      (combine (ScanResult.candidates result) allocations);
    let updated := Make (next_high_water new) (scan_requests self ++ [request])
      (scan_results self ++ [result]) (candidate_entries self ++ new_entries new)
      (replay_claim_requests self) (replay_claim_results self)
      (replay_current_authorities self) (scan_authorities self ++ new_scan_authorities new)
      (scan_allocations self ++ allocations) in
    validate updated;;
    Ok updated
  end.

(** *** [_record_replay_claim] *)
Fixpoint find_claim (request : ReplayClaimRequest.t) (result : ReplayClaimResult.t)
    (stored : list claim) : Prelude.result (option unit) :=
  match stored with
  | [] => Ok None
  | (stored_request, stored_result) :: stored =>
    if ReplayClaimRequest.replay_operation_id stored_request
       != ReplayClaimRequest.replay_operation_id request
    then find_claim request result stored
    else if (stored_request == request) && (stored_result == result) then Ok (Some tt)
    else Err (conflict "replay claim ID already has different persisted request or result")
  end.

(** the current authorities of an expiry operation *)
Definition authorities_for (self : t) (expire_operation_id : pystr)
    : list ReplayCurrentAuthority.t :=
  List.filter (fun a => ReplayCurrentAuthority.expire_operation_id a == expire_operation_id)
    (replay_current_authorities self).

(** the authority list with the pointer of the operation replaced or appended *)
Definition put_authority (authorities existing : list ReplayCurrentAuthority.t)
    (current : ReplayCurrentAuthority.t) : list ReplayCurrentAuthority.t :=
  match existing with
  | old :: _ =>
    match index_of old authorities with
    | Some i => <[i := current]> authorities
    | None => authorities
    end
  | [] => authorities ++ [current]
  end.

Definition _record_replay_claim (self : t) (request : ReplayClaimRequest.t)
    (result : ReplayClaimResult.t) : Prelude.result t :=
  validate self;;
  ReplayClaimResult.validate_for result request;;
  retry ← find_claim request result (claims self);
  match retry with
  | Some tt => Ok self
  | None =>
    let candidate := ReplayClaimResult.candidate result in
    let tokens := entry_tokens self in
    let lease := Candidate.candidate_lease_id candidate in
    let token := Candidate.candidate_token candidate in
    let fence := Candidate.candidate_fencing_token candidate in
    raise_if (bool_decide (lease ∈ tokens) || bool_decide (token ∈ tokens) || (lease == token)
        || (fence <=? candidate_fence_high_water self))
      (conflict "replay claim authority was reused or regressed");;
    let existing := authorities_for self (ReplayClaimRequest.expire_operation_id request) in
    raise_if (Nat.ltb 1 (length existing)) (conflict "duplicate replay current authority pointer");;
    let revision :=
      match existing with a :: _ => ReplayCurrentAuthority.revision a + 1 | [] => 1 end in
    current ← ReplayCurrentAuthority.create request result revision;
    let updated := Make fence (scan_requests self) (scan_results self)
      (candidate_entries self ++ [LedgerEntry.fresh candidate])
      (replay_claim_requests self ++ [request]) (replay_claim_results self ++ [result])
      (put_authority (replay_current_authorities self) existing current)
      (scan_authorities self) (scan_allocations self) in
    validate updated;;
    Ok updated
  end.

(** *** Lookups *)
Definition candidate_entry_for (self : t) (candidate_lease_id : pystr) : result LedgerEntry.t :=
  _require_candidate_token candidate_lease_id "candidate lease ID";;
  match List.filter (fun entry =>
      Candidate.candidate_lease_id (LedgerEntry.candidate entry) == candidate_lease_id)
    (candidate_entries self) with
  | [entry] => Ok entry
  | _ => Err (conflict "authoritative candidate ledger entry is missing")
  end.

Definition replay_claim_for_candidate (self : t) (candidate : Candidate.t)
    : result (option claim) :=
  match List.filter (fun c => ReplayClaimResult.candidate c.2 == candidate) (claims self) with
  | [] => Ok None
  | [c] => Ok (Some c)
  | _ => Err (conflict "replay candidate has duplicate claim evidence")
  end.

Definition is_replay_candidate (self : t) (candidate : Candidate.t) : result bool :=
  c ← replay_claim_for_candidate self candidate;
  Ok (match c with Some _ => true | None => false end).

Definition replay_claims_for_expire_operation (self : t) (expire_operation_id : pystr)
    : result (list claim) :=
  _require_sha256 expire_operation_id "expire operation ID";;
  Ok (List.filter (fun c =>
        ReplayClaimRequest.expire_operation_id c.1 == expire_operation_id) (claims self)).

Definition current_replay_claim_for_expire_operation (self : t) (expire_operation_id : pystr)
    : result (option claim) :=
  claims ← replay_claims_for_expire_operation self expire_operation_id;
  match claims with
  | [] => Ok None
  | _ =>
    match authorities_for self expire_operation_id with
    | [authority] =>
      match List.filter (fun c => ReplayClaimRequest.replay_operation_id c.1
          == ReplayCurrentAuthority.replay_operation_id authority) claims with
      | [c] => ReplayCurrentAuthority.validate_against authority c.1 c.2;; Ok (Some c)
      | _ => Err (conflict "replay current authority pointer has no matching claim")
      end
    | _ => Err (conflict "replay current authority pointer is missing or duplicated")
    end
  end.

(** *** [consume_candidate] *)
Definition consume_candidate (self : t) (request : ExpireRequest.t) (consumed_at_ms : Z)
    : result t :=
  validate self;;
  ExpireRequest.validate request;;
  require_integer consumed_at_ms "candidate consumed timestamp" 0;;
  entry ← candidate_entry_for self (ExpireRequest.candidate_lease_id request);
  raise_if (LedgerEntry.consumed entry)
    (conflict "candidate authority was already consumed");;
  _require_candidate_request_binding request (LedgerEntry.candidate entry);;
  entry_index ← or_raise (index_of entry (candidate_entries self)) (ValueError "not in list");
  let consumed_entry :=
    LedgerEntry.consume entry (ExpireRequest.expire_operation_id request) consumed_at_ms in
  let updated := Make (candidate_fence_high_water self) (scan_requests self)
    (scan_results self) (<[entry_index := consumed_entry]> (candidate_entries self))
    (replay_claim_requests self) (replay_claim_results self) (replay_current_authorities self)
    (scan_authorities self) (scan_allocations self) in
  validate updated;;
  Ok updated.

(** *** [require_replay_authority] *)
(** a replay that presents the committed candidate itself *)
Definition committed_authority (request : ExpireRequest.t) (committed_candidate : Candidate.t)
    (current_replay_claim : option claim) (instance_id : pystr) (fencing_token : Z)
    : result VerifiedReplayAuthority.t :=
  raise_if (match current_replay_claim with Some _ => true | None => false end)
    (conflict "committed replay authority was superseded");;
  _require_candidate_request_binding request committed_candidate;;
  raise_if (fencing_token <? Candidate.candidate_fencing_token committed_candidate)
    (conflict "authenticated replay fence is stale for committed authority");;
  raise_if (Candidate.candidate_fencing_token committed_candidate <? fencing_token)
    (conflict "higher-fence replay requires a persisted candidate authority");;
  raise_if (instance_id != Candidate.owner_instance_id committed_candidate)
    (conflict "authenticated replay instance does not own committed fence");;
  Ok (VerifiedReplayAuthority.Make committed_candidate true).

(** a replay that presents the candidate of a later claim *)
Definition claimed_authority (self : t) (request : ExpireRequest.t)
    (committed_candidate : Candidate.t) (current_replay_claim : option claim)
    (principal_id instance_id : pystr) (fencing_token server_now_ms : Z)
    : result VerifiedReplayAuthority.t :=
  replay_entry ← candidate_entry_for self (ExpireRequest.candidate_lease_id request);
  raise_if (LedgerEntry.consumed replay_entry)
    (conflict "replay candidate authority was already consumed");;
  let replay_candidate := LedgerEntry.candidate replay_entry in
  claim ← replay_claim_for_candidate self replay_candidate;
  '(claim_request, claim_result) ← or_raise claim
    (conflict "persisted replay candidate claim is missing");
  ReplayClaimResult.validate_for claim_result claim_request;;
  raise_if (match current_replay_claim with
      | None => true
      | Some (_, current_result) => claim_result != current_result end)
    (conflict "persisted replay candidate authority was superseded");;
  raise_if ((ReplayClaimResult.expire_operation_id claim_result
               != ExpireRequest.expire_operation_id request)
      || (Candidate.candidate_fencing_token replay_candidate
            <=? Candidate.candidate_fencing_token committed_candidate))
    (conflict "replay candidate is not a newer authority for this commit");;
  _require_candidate_request_binding request replay_candidate;;
  raise_if ((Candidate.owner_principal_id replay_candidate != principal_id)
      || (Candidate.owner_instance_id replay_candidate != instance_id)
      || (Candidate.candidate_fencing_token replay_candidate != fencing_token))
    (conflict "authenticated replay context does not own persisted candidate");;
  raise_if (negb ((Candidate.issued_at_ms replay_candidate <=? server_now_ms)
      && (server_now_ms <? Candidate.lease_until_ms replay_candidate)))
    (conflict "persisted replay candidate lease is not live");;
  Ok (VerifiedReplayAuthority.Make replay_candidate true).

Definition require_replay_authority (self : t) (request : ExpireRequest.t)
    (principal_id instance_id : pystr) (fencing_token server_now_ms : Z)
    : result VerifiedReplayAuthority.t :=
  validate self;;
  ExpireRequest.validate request;;
  _require_stable_text principal_id "authenticated replay principal";;
  _require_stable_text instance_id "authenticated replay instance";;
  require_integer fencing_token "authenticated replay fence" 1;;
  require_integer server_now_ms "server_now_ms" 0;;
  committed_candidate ←
    match List.filter (fun entry => LedgerEntry.consumed_by_expire_operation_id entry
        == Some (ExpireRequest.expire_operation_id request)) (candidate_entries self) with
    | [entry] => Ok (LedgerEntry.candidate entry)
    | _ => Err (conflict "committed candidate authority is missing or duplicated")
    end;
  raise_if ((ExpireRequest.artifact_id request != Candidate.artifact_id committed_candidate)
      || (ExpireRequest.hold_id request != Candidate.hold_id committed_candidate)
      || (ExpireRequest.expected_hold_digest request
            != Candidate.expected_hold_digest committed_candidate)
      || (ExpireRequest.expected_artifact_version request
            != Candidate.expected_artifact_version committed_candidate)
      || (ExpireRequest.observed_expires_ms request
            != Candidate.observed_expires_ms committed_candidate))
    (conflict "replay request does not match committed business identity");;
  raise_if (principal_id != Candidate.owner_principal_id committed_candidate)
    (conflict "authenticated replay principal does not own committed authority");;
  current_replay_claim ← current_replay_claim_for_expire_operation self
    (ExpireRequest.expire_operation_id request);
  if ExpireRequest.candidate_lease_id request
     == Candidate.candidate_lease_id committed_candidate
  then committed_authority request committed_candidate current_replay_claim instance_id
         fencing_token
  else claimed_authority self request committed_candidate current_replay_claim principal_id
         instance_id fencing_token server_now_ms.
End Operations.
End LedgerState.
