(* ===== verification/LedgerFacts.v ===== *)
(** * Well-formedness of the candidate ledger

    The invariant [ledger_valid] of the candidate ledger, in terms of the
    ledger's lists, and the proof that [LedgerState.validate] accepts exactly
    the ledgers that satisfy it.  Each section treats one loop of [validate]. *)
From S2P Require Import Prelude ListFacts PyStr Sha256 Json Contract ContractFacts Scan ScanFacts.
From S2P Require Import Replay ReplayFacts Expire ExpireFacts Ledger.
Local Open Scope py_scope.
Local Open Scope Z_scope.
Import LedgerState.

(** ** Entries *)
Section Entry.
Context `{RFC8785}.

Record entry_valid (e : LedgerEntry.t) : Prop := {
  e_candidate : candidate_valid (LedgerEntry.candidate e);
  e_time : LedgerEntry.consumed_at_ms e = None
    <-> LedgerEntry.consumed_by_expire_operation_id e = None;
  e_operation : forall o, LedgerEntry.consumed_by_expire_operation_id e = Some o -> sha256_hex o;
  e_bound : forall n, LedgerEntry.consumed_at_ms e = Some n -> 0 <= n <= _MAX_SAFE_INTEGER }.

Lemma entry_ok e x : LedgerEntry.validate e = Ok x <-> entry_valid e.
Proof.
  destruct x. unfold LedgerEntry.validate. destruct e as [c o n]; cbn [LedgerEntry.candidate
    LedgerEntry.consumed_by_expire_operation_id LedgerEntry.consumed_at_ms].
  destruct o as [o|]; ok_goal; split.
  - intros (? & ? & m & -> & ?). constructor; cbn; try done; naive_solver.
  - intros [? Ht Ho Hb]; cbn in *. split; [done|]. split; [by apply Ho|].
    destruct n as [m|]; [|by destruct Ht as [Ht _]; specialize (Ht eq_refl)].
    exists m. split; [done|]. by apply Hb.
  - intros (? & ->). constructor; cbn; try done.
  - intros [? Ht _ _]; cbn in *. split; [done|]. by apply Ht.
Qed.
End Entry.

#[export] Hint Rewrite @entry_ok : ok_iff.
#[global] Opaque LedgerEntry.validate.

(** ** Scan evidence *)
Definition scan_leases (scan : ScanRequest.t * ScanResult.t) : list (pystr * scan_evidence) :=
  map (fun c => (Candidate.candidate_lease_id c, (scan.1, scan.2, c)))
    (ScanResult.candidates scan.2).
(** all scan evidence, keyed by lease *)
Definition evidence (l : t) : list (pystr * scan_evidence) := flat_map scan_leases (scans l).
Definition scan_candidates (l : t) : list Candidate.t :=
  flat_map (fun scan => ScanResult.candidates scan.2) (scans l).
Definition scan_operation_ids (l : t) : list pystr :=
  map (fun scan => ScanRequest.scan_operation_id scan.1) (scans l).
Definition replay_operation_ids (l : t) : list pystr :=
  map (fun c => ReplayClaimRequest.replay_operation_id c.1) (claims l).

Section Scans.
Context `{RFC8785}.

Lemma index_result_ok q r d0 d : NoDup (map fst d0) ->
  foldM (index_candidate q r) d0 (ScanResult.candidates r) = Ok d <->
  NoDup (map fst d0 ++ map fst (scan_leases (q, r))) /\ d = d0 ++ scan_leases (q, r).
Proof.
  intros Hd. rw (index_by_ok _ (fun _ => True) Candidate.candidate_lease_id (fun c => (q, r, c))).
  - assert (Forall (fun _ => True) (ScanResult.candidates r)) by by apply Forall_true.
    unfold scan_leases. rw map_map. naive_solver.
  - intros d1 c d'. unfold index_candidate, dict_mem. ok_goal. naive_solver.
  - done.
Qed.

(** the loop over the scans, from any state of its variables *)
Lemma index_scans_from l s s' : NoDup (scan_ids s) -> NoDup (map fst (scan_evidence_by_lease s)) ->
  foldM index_scan s l = Ok s' <->
  Forall (fun scan => scan_pair_valid scan.1 scan.2) l
  /\ NoDup (scan_ids s ++ map (fun scan => ScanRequest.scan_operation_id scan.1) l)
  /\ NoDup (map fst (scan_evidence_by_lease s) ++ map fst (flat_map scan_leases l))
  /\ s' = ScanIndex
       (persisted_candidates s ++ flat_map (fun scan => ScanResult.candidates scan.2) l)
       (scan_ids s ++ map (fun scan => ScanRequest.scan_operation_id scan.1) l)
       (scan_evidence_by_lease s ++ flat_map scan_leases l).
Proof.
  revert s. induction l as [|[q r] l IH]; intros s Hi He; cbn [foldM].
  - destruct s as [p i e]. cbn in *. rw !app_nil_r Ok_inj_iff Forall_nil. naive_solver.
  - rw bind_ok Forall_cons.
    assert (forall s1, index_scan s (q, r) = Ok s1 <-> scan_pair_valid q r
      /\ NoDup (scan_ids s ++ [ScanRequest.scan_operation_id q])
      /\ NoDup (map fst (scan_evidence_by_lease s) ++ map fst (scan_leases (q, r)))
      /\ s1 = ScanIndex (persisted_candidates s ++ ScanResult.candidates r)
           (scan_ids s ++ [ScanRequest.scan_operation_id q])
           (scan_evidence_by_lease s ++ scan_leases (q, r))) as H1.
    { intros s1. unfold index_scan. ok_goal. rw NoDup_snoc. 
      setoid_rewrite (index_result_ok q r _ _ He). naive_solver. }
    setoid_rewrite H1. cbn [flat_map map fst snd]. clear H1. split.
    + intros (s1 & (Hp & Hn & Hd & ->) & Hl). apply IH in Hl as (Hl & Hnl & Hdl & ->);
        cbn [persisted_candidates scan_ids scan_evidence_by_lease] in *; [|done|by rw map_app].
      rw map_app -!app_assoc in Hnl Hdl |- *. by rw map_app.
    + intros ([Hp Hl] & Hn & Hd & ->).
      rw (cons_middle (ScanRequest.scan_operation_id q)) app_assoc in Hn.
      rw map_app app_assoc in Hd.
      pose proof Hn as [Hs _]%NoDup_app. pose proof Hd as [Hs' _]%NoDup_app.
      eexists. split; [done|]. apply IH; cbn [persisted_candidates scan_ids scan_evidence_by_lease];
        [done|by rw map_app|]. rw map_app. split; [done|]. split; [done|]. split; [done|].
      by rw -!app_assoc.
Qed.

Lemma index_scans_ok l si : index_scans l = Ok si <->
  Forall (fun scan => scan_pair_valid scan.1 scan.2) (scans l)
  /\ NoDup (scan_operation_ids l) /\ NoDup (map fst (evidence l))
  /\ si = ScanIndex (scan_candidates l) (scan_operation_ids l) (evidence l).
Proof. unfold index_scans. rw index_scans_from; [done|constructor..]. Qed.
End Scans.

(** ** Index and match

    Three parts of [validate] run the same program: index items by key, compare
    the key set with the one of the evidence, check each item against its
    evidence.  The run succeeds when the items' images are a permutation of what
    the evidence determines. *)
Lemma keys_eq {V W} (d : list (pystr * V)) (e : list (pystr * W)) :
  keys d = keys e <-> forall k, k ∈ map fst d <-> k ∈ map fst e.
Proof.
  unfold keys. rw set_eq. apply forall_proper. intros k. by rw !elem_of_list_to_set.
Qed.

Section Match.
Context {A B X : Type} (index : list (pystr * A) -> A -> result (list (pystr * A)))
  (P : A -> Prop) (f : A -> B) (kb : B -> pystr) (g : X -> B) (R : A -> X -> Prop)
  (body : list (pystr * A) -> pystr * X -> result unit) (e : exn).
Hypothesis index_ok : forall d a d', index d a = Ok d' <->
  P a /\ kb (f a) ∉ map fst d /\ d' = d ++ [(kb (f a), a)].

Lemma index_match_ok l ev :
  (forall k x, (k, x) ∈ ev -> kb (g x) = k) -> NoDup (map fst ev) ->
  (forall d kx, kx ∈ ev -> body d kx = Ok tt <-> exists a, dict_get kx.1 d = Some a /\ R a kx.2) ->
  (forall a kx, kx ∈ ev -> P a -> R a kx.2 <-> f a = g kx.2) ->
  (d ← foldM index [] l; raise_if (keys d != keys ev) e;; forM_ (body d) ev) = Ok tt
  <-> Forall P l /\ map f l ≡ₚ map (fun kx => g kx.2) ev.
Proof.
  intros Hk Hev Hbody HR. rw bind_ok -(indexed_perm f kb g l ev Hk Hev).
  setoid_rewrite (index_by_ok index P (fun a => kb (f a)) (fun a => a) l [] _ index_ok
    NoDup_nil_2). cbn [map app].
  assert (Forall P l -> forM_ (body (map (fun a => (kb (f a), a)) l)) ev = Ok tt
    <-> Forall (fun kx => exists a, dict_get kx.1 (map (fun a => (kb (f a), a)) l) = Some a
          /\ f a = g kx.2) ev) as Hl.
  { intros HP. rw forM_ok. apply Forall_iff_elem. intros kx Hin. rw Hbody; [|done].
    apply exist_proper. intros a. split; intros [Ha Hra]; (split; [done|]);
      apply dict_get_Some, list_elem_of_fmap in Ha as (a' & [= _ ->] & Ha');
      (apply HR; [done| |done]); rw Forall_forall in HP; by apply HP. }
  assert (map fst (map (fun a => (kb (f a), a)) l) = map (fun a => kb (f a)) l) as Em
    by by rw map_map.
  split.
  - intros (d & (HP & Hnd & ->) & Hc). rw bind_ok_unit raise_if_ok neqb_false keys_eq Em in Hc.
    destruct Hc as [Hkeys Hc]. apply Hl in Hc; done.
  - intros (HP & Hnd & Hkeys & Hc). eexists. split; [done|].
    rw bind_ok_unit raise_if_ok neqb_false keys_eq Em Hl; done.
Qed.
End Match.

(** ** Seals and allocation proofs *)
Definition seal_of_evidence (x : scan_evidence) : ScanAuthority.t := seal_of x.1.1 x.1.2 x.2.
Definition proof_of_evidence (x : scan_evidence) : ScanRequest.t * Candidate.t := (x.1.1, x.2).
Definition allocated (a : ScanAllocation.t) : ScanRequest.t * Candidate.t :=
  (ScanAllocation.request a, ScanAllocation.candidate a).

Lemma evidence_elem l k q r c : (k, (q, r, c)) ∈ evidence l <->
  (q, r) ∈ scans l /\ c ∈ ScanResult.candidates r /\ k = Candidate.candidate_lease_id c.
Proof.
  unfold evidence, scan_leases. rw list_elem_of_In in_flat_map. setoid_rewrite in_map_iff.
  setoid_rewrite <- list_elem_of_In. split.
  - intros ([q' r'] & Hin & c' & [= <- <- <- <-] & Hc). done.
  - intros (Hin & Hc & ->). exists (q, r). split; [done|]. by exists c.
Qed.

Section Authorities.
Context `{RFC8785} (l : t).
Hypothesis pairs_valid : Forall (fun scan => scan_pair_valid scan.1 scan.2) (scans l).
Hypothesis leases_distinct : NoDup (map fst (evidence l)).

(** the evidence of well-formed scans *)
Lemma evidence_valid k q r c : (k, (q, r, c)) ∈ evidence l ->
  scan_pair_valid q r /\ c ∈ ScanResult.candidates r /\ candidate_valid c.
Proof.
  intros (Hin & Hc & _)%evidence_elem.
  pose proof (proj1 (Forall_forall _ _) pairs_valid _ Hin) as Hp. cbn in Hp.
  split; [done|]. split; [done|]. destruct (sp_result _ _ Hp). rw Forall_forall in sres_candidates. by apply sres_candidates.
Qed.

Lemma check_authorities_ok x : check_authorities l (evidence l) = Ok x <->
  scan_authorities l ≡ₚ map (fun kx => seal_of_evidence kx.2) (evidence l).
Proof.
  destruct x. unfold check_authorities.
  rw (index_match_ok index_authority (fun a => ScanAuthority.validate a = Ok tt) (fun a => a)
    ScanAuthority.candidate_lease_id seal_of_evidence (fun a x => a = seal_of_evidence x)).
  - rw map_id. split; [by intros [_ ?]|]. intros Hp. split; [|done]. rw Hp.
    apply Forall_forall. intros a ([k [[q r] c]] & -> & Hin)%list_elem_of_fmap.
    destruct (evidence_valid _ _ _ _ Hin) as (? & ? & ?). by apply seal_valid.
  - intros d a d'. unfold index_authority, dict_mem. ok_goal. naive_solver.
  - by intros k [[q r] c] (_ & _ & ->)%evidence_elem.
  - done.
  - intros d [k [[q r] c]] Hin. cbn. rw bind_ok. setoid_rewrite or_raise_ok.
    setoid_rewrite scan_authority_against_ok.
    destruct (evidence_valid _ _ _ _ Hin) as (? & ? & ?). naive_solver.
  - done.
Qed.

Lemma check_allocations_ok x : check_allocations l (evidence l) = Ok x <->
  Forall allocation_valid (scan_allocations l)
  /\ map allocated (scan_allocations l) ≡ₚ map (fun kx => proof_of_evidence kx.2) (evidence l).
Proof.
  destruct x. unfold check_allocations.
  apply (index_match_ok index_allocation allocation_valid allocated
    (fun a => Candidate.candidate_lease_id a.2) proof_of_evidence
    (fun a x => allocation_valid a /\ allocated a = proof_of_evidence x)).
  - intros d a d'. unfold index_allocation, dict_mem. ok_goal. naive_solver.
  - by intros k [[q r] c] (_ & _ & ->)%evidence_elem.
  - done.
  - intros d [k [[q r] c]] Hin. cbn. rw bind_ok. setoid_rewrite or_raise_ok.
    setoid_rewrite allocation_against_ok. unfold allocated, proof_of_evidence. cbn. naive_solver.
  - naive_solver.
Qed.
End Authorities.

(** ** Replay claims *)
Definition claim_expire (c : claim) : pystr := ReplayClaimRequest.expire_operation_id c.1.
Definition claim_operation (c : claim) : pystr := ReplayClaimRequest.replay_operation_id c.1.
(** the claims by expiry operation, in claim order *)
Definition claim_groups (l : t) : list (pystr * list claim) := group_by claim_expire (claims l).
(** a lease that ends before the next one begins *)
Definition ends_before (c c' : Candidate.t) : Prop :=
  Candidate.lease_until_ms c <= Candidate.issued_at_ms c'.
(** the authority pointer the claims of one operation determine *)
Definition pointer_of (cs : list claim) : option ReplayCurrentAuthority.t :=
  match last (sorted_by claim_fence cs) with
  | Some c => Some (ReplayCurrentAuthority.project c.1 c.2 (Z.of_nat (length cs)))
  | None => None
  end.

Lemma adjacent_sorted {A} (R : A -> A -> Prop) l :
  Forall (fun p => R p.1 p.2) (adjacent l) <-> Sorted R l.
Proof.
  induction l as [|a [|b l] IH]; cbn [adjacent].
  - split; constructor.
  - split; repeat constructor.
  - rw Forall_cons IH. split.
    + intros [Hr Hs]. constructor; [done|]. by constructor.
    + intros Hs. inversion Hs as [|? ? ? Hd]; subst. by inversion Hd.
Qed.

Section Claims.
Context `{RFC8785}.

Lemma index_claims_from sids s l s' : NoDup (replay_ids s) ->
  foldM (index_claim sids) s l = Ok s' <->
  Forall (fun c => claim_pair_valid c.1 c.2) l
  /\ NoDup (replay_ids s ++ map claim_operation l)
  /\ Forall (fun c => claim_operation c ∉ sids) l
  /\ s' = ClaimIndex (claim_persisted_candidates s ++ map claim_candidate l)
       (replay_ids s ++ map claim_operation l)
       (fold_left (fun d c => setdefault_append (claim_expire c) c d) l
          (replay_claims_by_expire_operation s)).
Proof.
  revert s. induction l as [|[q r] l IH]; intros s Hs; cbn [foldM].
  - destruct s. cbn in *. rw !app_nil_r Ok_inj_iff !Forall_nil. naive_solver.
  - rw bind_ok !Forall_cons.
    assert (forall s1, index_claim sids s (q, r) = Ok s1 <-> claim_pair_valid q r
      /\ NoDup (replay_ids s ++ [claim_operation (q, r)]) /\ claim_operation (q, r) ∉ sids
      /\ s1 = ClaimIndex (claim_persisted_candidates s ++ [claim_candidate (q, r)])
           (replay_ids s ++ [claim_operation (q, r)])
           (setdefault_append (claim_expire (q, r)) (q, r)
              (replay_claims_by_expire_operation s))) as H1.
    { intros s1. unfold index_claim. ok_goal. rw NoDup_snoc. naive_solver. }
    setoid_rewrite H1. cbn [map fold_left fst snd]. clear H1. split.
    + intros (s1 & (Hp & Hn & Hd & ->) & Hl). apply IH in Hl as (Hl & Hnl & Hdl & ->);
        cbn [replay_ids claim_persisted_candidates replay_claims_by_expire_operation] in *; [|done].
      rw -!app_assoc in Hnl |- *. done.
    + intros ([Hp Hl] & Hn & [Hd Hdl] & ->).
      rw (cons_middle (claim_operation (q, r))) app_assoc in Hn.
      pose proof Hn as [Hs' _]%NoDup_app.
      eexists. split; [done|].
      apply IH; cbn [replay_ids claim_persisted_candidates replay_claims_by_expire_operation]; [done|].
      do 3 (split; [done|]). by rw -!app_assoc.
Qed.

Lemma index_claims_ok l p sids s : index_claims l p sids = Ok s <->
  Forall (fun c => claim_pair_valid c.1 c.2) (claims l)
  /\ NoDup (map claim_operation (claims l))
  /\ Forall (fun c => claim_operation c ∉ sids) (claims l)
  /\ s = ClaimIndex (p ++ map claim_candidate (claims l)) (map claim_operation (claims l))
       (claim_groups l).
Proof. unfold index_claims. rw index_claims_from; [done|constructor]. Qed.

Lemma check_overlap_ok cs x : check_overlap cs = Ok x <->
  Sorted ends_before (sorted_by Candidate.candidate_fencing_token (map claim_candidate cs)).
Proof.
  destruct x. unfold check_overlap. rw forM_ok -adjacent_sorted.
  apply Forall_iff_elem. intros [p c] _. unfold ends_before. ok_goal. cbn. lia.
Qed.

Lemma group_nonempty cs k vs : (k, vs) ∈ group_by claim_expire cs ->
  vs <> [] /\ Forall (fun c => claim_expire c = k /\ c ∈ cs) vs.
Proof.
  intros [(c & -> & Hc)%list_elem_of_fmap ->]%group_by_elem. unfold group. split.
  - assert (c ∈ group claim_expire (claim_expire c) cs) as Hin; [|by intros E; unfold group in Hin; rw E in Hin; apply elem_of_nil in Hin].
    apply filter_In. split; [done|]. by apply bool_decide_eq_true.
  - apply Forall_forall. intros c' [Hin Hk]%filter_In. by apply bool_decide_eq_true in Hk.
Qed.

(** the current claim of a group *)
Lemma group_current cs k vs : Forall (fun c => claim_pair_valid c.1 c.2) cs ->
  (k, vs) ∈ group_by claim_expire cs ->
  exists q r, last (sorted_by claim_fence vs) = Some (q, r) /\ (q, r) ∈ vs
    /\ claim_pair_valid q r /\ ReplayClaimRequest.expire_operation_id q = k.
Proof.
  intros Hv [Hne Hall]%group_nonempty.
  destruct (last (sorted_by claim_fence vs)) as [[q r]|] eqn:E.
  - exists q, r. split; [done|].
    assert ((q, r) ∈ vs) as Hin.
    { rw -(sorted_by_perm claim_fence vs). apply last_Some in E as [l' ->].
      apply elem_of_app. right. by left. }
    split; [done|]. rw Forall_forall in Hall. destruct (Hall _ Hin) as [Hk Hc].
    rw Forall_forall in Hv. split; [by apply (Hv _ Hc)|done].
  - apply last_None in E. exfalso. apply Hne.
    pose proof (sorted_by_perm claim_fence vs) as Hp. rw E in Hp. by apply Permutation_nil in Hp.
Qed.

Lemma check_currents_ok l x : Forall (fun c => claim_pair_valid c.1 c.2) (claims l) ->
  check_currents l (claim_groups l) = Ok x <->
  Forall (fun a => ReplayCurrentAuthority.revision a <= _MAX_SAFE_INTEGER)
    (replay_current_authorities l)
  /\ map Some (replay_current_authorities l) ≡ₚ map (fun kx => pointer_of kx.2) (claim_groups l).
Proof.
  intros Hv. destruct x. unfold check_currents.
  rw (index_match_ok index_current (fun a => ReplayCurrentAuthority.validate a = Ok tt) Some
    (fun o => match o with Some a => ReplayCurrentAuthority.expire_operation_id a | None => [] end)
    pointer_of (fun a vs => exists q r, last (sorted_by claim_fence vs) = Some (q, r)
      /\ ReplayCurrentAuthority.validate_against a q r = Ok tt
      /\ ReplayCurrentAuthority.revision a = Z.of_nat (length vs))).
  - assert (forall a, a ∈ replay_current_authorities l ->
      map Some (replay_current_authorities l) ≡ₚ map (fun kx => pointer_of kx.2) (claim_groups l) ->
      exists q r n, claim_pair_valid q r /\ 1 <= n
        /\ a = ReplayCurrentAuthority.project q r n) as Hpt.
    { intros a Ha Hp. assert (Some a ∈ map (fun kx => pointer_of kx.2) (claim_groups l))
        as ([k vs] & E & Hin)%list_elem_of_fmap by (rw -Hp; apply list_elem_of_fmap; eauto).
      cbn in E. destruct (group_current _ _ _ Hv Hin) as (q & r & El & _ & Hqr & _).
      unfold pointer_of in E. rw El in E. injection E as ->. do 3 eexists. split; [done|].
      split; [|done]. apply group_nonempty in Hin as [Hne _]. destruct vs; [done|]. cbn. lia. }
    split; intros [Ha Hp]; (split; [|done]); apply Forall_forall; intros a Hin;
      rw Forall_forall in Ha; specialize (Ha _ Hin).
    + by apply current_schema in Ha as (_ & _ & ?).
    + destruct (Hpt a Hin Hp) as (q & r & n & Hqr & Hn & ->). by apply project_valid.
  - intros d a d'. unfold index_current, dict_mem. ok_goal. naive_solver.
  - intros k vs Hin. destruct (group_current _ _ _ Hv Hin) as (q & r & El & _ & _ & Hk).
    unfold pointer_of. rw El. done.
  - apply group_by_spec.
  - intros d [k vs] Hin. cbn. rw bind_ok. setoid_rewrite or_raise_ok. split.
    + intros ([q r] & El & Hc). rw bind_ok in Hc. destruct Hc as (a & Ha & Hc).
      rw or_raise_ok in Ha. rw bind_ok_unit raise_if_ok neqb_false in Hc. destruct Hc as [Hag Hr].
      exists a. split; [done|]. by exists q, r.
    + intros (a & Ha & q & r & El & Hag & Hr). exists (q, r). split; [done|].
      rw bind_ok. exists a. rw or_raise_ok bind_ok_unit raise_if_ok neqb_false. done.
  - intros a [k vs] Hin Hval. cbn. unfold pointer_of.
    destruct (group_current _ _ _ Hv Hin) as (q & r & El & _ & Hqr & _). rw El. cbn.
    setoid_rewrite current_against_ok. apply current_schema in Hval as [_ Hn]. split.
    + intros (q' & r' & [= <- <-] & (_ & _ & Ha) & Hr). by rw -Hr -Ha.
    + intros [= ->]. exists q, r. cbn in *. done.
Qed.
End Claims.

(** ** Entries, provenance, projection *)
Definition entry_fence (e : LedgerEntry.t) : Z :=
  Candidate.candidate_fencing_token (LedgerEntry.candidate e).
Definition ledger_candidates (l : t) : list Candidate.t :=
  map LedgerEntry.candidate (candidate_entries l).

Lemma Forall_weaken_all {A} (P Q : A -> Prop) l : (forall a, P a -> Q a) -> Forall P l -> Forall Q l.
Proof. intros H Hl. eapply Forall_impl; [exact Hl|exact H]. Qed.

(** the high-water an allocation was issued at is the fence of the entry before its own *)
Definition provenance (l : t) (a : ScanAllocation.t) : Prop :=
  exists i, ledger_candidates l !! i = Some (ScanAllocation.candidate a)
    /\ ScanAllocation.previous_fence_high_water a = fence_before (ledger_candidates l) i.

Section Entries.
Context `{RFC8785}.

Lemma check_provenance_ok l a x : NoDup (ledger_candidates l) ->
  check_provenance (ledger_candidates l) a = Ok x <-> provenance l a.
Proof.
  intros Hn. destruct x. unfold check_provenance, provenance. rw bind_ok.
  setoid_rewrite or_raise_ok. setoid_rewrite raise_if_ok. setoid_rewrite neqb_false.
  apply exist_proper. intros i. split; intros [Hi ?]; (split; [|done]).
  - by apply index_of_Some.
  - by apply index_of_NoDup.
Qed.

Lemma add_tokens_ok ts l ts' : NoDup ts ->
  foldM add_token ts l = Ok ts' <-> NoDup (ts ++ l) /\ ts' = ts ++ l.
Proof.
  revert ts. induction l as [|x l IH]; intros ts Hts; cbn [foldM].
  - rw Ok_inj_iff app_nil_r. naive_solver.
  - rw bind_ok. assert (forall ts1, add_token ts x = Ok ts1 <-> NoDup (ts ++ [x]) /\ ts1 = ts ++ [x])
      as H1. { intros ts1. unfold add_token. ok_goal. rw NoDup_snoc. naive_solver. }
    setoid_rewrite H1. rw (cons_middle x ts l) app_assoc. split.
    + intros (ts1 & [Hn ->] & Hl). by apply IH in Hl.
    + intros [Hn ->]. pose proof Hn as [Hs _]%NoDup_app. eexists. split; [done|]. by apply IH.
Qed.

Lemma index_entries_from hw l s s' : NoDup (authority_tokens s) ->
  Forall (fun f => f <= previous_fence s) (fences s) ->
  foldM (index_entry hw) s l = Ok s' <->
  Forall entry_valid l /\ StronglySorted Z.lt (previous_fence s :: map entry_fence l)
  /\ Forall (fun e => entry_fence e <= hw) l
  /\ NoDup (authority_tokens s ++ flat_map LedgerEntry.tokens l)
  /\ s' = EntryIndex (authority_tokens s ++ flat_map LedgerEntry.tokens l)
       (fences s ++ map entry_fence l) (entry_candidates s ++ map LedgerEntry.candidate l)
       (default (previous_fence s) (last (map entry_fence l))).
Proof.
  revert s. induction l as [|e l IH]; intros s Ht Hf; cbn [foldM].
  - destruct s. cbn in *. rw !app_nil_r Ok_inj_iff !Forall_nil. split.
    + intros <-. split; [done|]. split; [by repeat constructor|]. done.
    + by intros (_ & _ & _ & _ & ->).
  - rw bind_ok !Forall_cons.
    assert (forall s1, index_entry hw s e = Ok s1 <-> entry_valid e
      /\ previous_fence s < entry_fence e /\ entry_fence e <= hw
      /\ NoDup (authority_tokens s ++ LedgerEntry.tokens e)
      /\ s1 = EntryIndex (authority_tokens s ++ LedgerEntry.tokens e)
           (fences s ++ [entry_fence e]) (entry_candidates s ++ [LedgerEntry.candidate e])
           (entry_fence e)) as H1.
    { intros s1. unfold index_entry.
      assert (forall ts, foldM add_token (authority_tokens s) (LedgerEntry.tokens e) = Ok ts
        <-> _) as HT by (intros ts; by apply add_tokens_ok). revert HT.
      generalize (foldM add_token (authority_tokens s) (LedgerEntry.tokens e)). intros m HT.
      ok_goal. setoid_rewrite HT.
      change (Candidate.candidate_fencing_token (LedgerEntry.candidate e)) with (entry_fence e).
      split; [naive_solver|]. intros (? & Hlt & ? & ? & ->). do 2 (split; [done|]).
      eexists. split; [done|]. split; [|done]. intros Hin. rw Forall_forall in Hf.
      specialize (Hf _ Hin). cbn in Hf. lia. }
    setoid_rewrite H1. cbn [map flat_map]. clear H1.
    assert (forall f, default f (last (entry_fence e :: map entry_fence l))
      = default (entry_fence e) (last (map entry_fence l))) as Hlast.
    { intros f. rw last_cons. by destruct (last (map entry_fence l)). }
    rw Hlast. split.
    + intros (s1 & (He & Hlt & Hhw & Hn & ->) & Hl).
      apply IH in Hl as (Hl & Hs & Hb & Hnl & ->);
        cbn [authority_tokens fences entry_candidates previous_fence] in *; [|done|].
      * rw -!app_assoc in Hnl |- *. split; [done|]. split; [|done].
        constructor; [done|]. constructor; [done|]. apply StronglySorted_inv in Hs as [_ Hs].
        eapply Forall_impl; [exact Hs|]. cbn. lia.
      * apply Forall_app. split; [|by repeat constructor]. eapply Forall_impl; [exact Hf|]. cbn. lia.
    + intros ([He Hl] & Hs & [Hhw Hb] & Hn & ->). rw app_assoc in Hn.
      pose proof Hn as [Hn1 _]%NoDup_app. apply StronglySorted_inv in Hs as [Hs Hlt].
      apply Forall_cons in Hlt as [Hlt _].
      eexists. split; [done|]. apply IH;
        cbn [authority_tokens fences entry_candidates previous_fence]; [done| |].
      * apply Forall_app. split; [|by repeat constructor]. eapply Forall_impl; [exact Hf|]. cbn. lia.
      * do 4 (split; [done|]). by rw -!app_assoc.
Qed.

Lemma index_entries_ok l s : index_entries l = Ok s <->
  Forall entry_valid (candidate_entries l)
  /\ StronglySorted Z.lt (0 :: map entry_fence (candidate_entries l))
  /\ Forall (fun e => entry_fence e <= candidate_fence_high_water l) (candidate_entries l)
  /\ NoDup (entry_tokens l)
  /\ s = EntryIndex (entry_tokens l) (map entry_fence (candidate_entries l)) (ledger_candidates l)
       (default 0 (last (map entry_fence (candidate_entries l)))).
Proof. unfold index_entries. rw index_entries_from; [done|constructor..]. Qed.
End Entries.

#[global] Opaque index_scans check_authorities check_allocations index_claims check_currents
  index_entries check_provenance check_overlap.

(** ** The invariant *)
Section Valid.
Context `{RFC8785}.

Record ledger_valid (l : t) : Prop := {
  l_high_water : 0 <= candidate_fence_high_water l <= _MAX_SAFE_INTEGER;
  l_scan_lengths : length (scan_requests l) = length (scan_results l);
  l_claim_lengths : length (replay_claim_requests l) = length (replay_claim_results l);
  l_scans : Forall (fun scan => scan_pair_valid scan.1 scan.2) (scans l);
  l_leases : NoDup (map fst (evidence l));
  l_seals : scan_authorities l ≡ₚ map (fun kx => seal_of_evidence kx.2) (evidence l);
  l_allocations : Forall allocation_valid (scan_allocations l);
  l_allocated :
    map allocated (scan_allocations l) ≡ₚ map (fun kx => proof_of_evidence kx.2) (evidence l);
  l_claims : Forall (fun c => claim_pair_valid c.1 c.2) (claims l);
  l_operations : NoDup (scan_operation_ids l ++ map claim_operation (claims l));
  l_disjoint : Forall (fun group => Sorted ends_before
    (sorted_by Candidate.candidate_fencing_token (map claim_candidate group.2))) (claim_groups l);
  l_revisions : Forall (fun a => ReplayCurrentAuthority.revision a <= _MAX_SAFE_INTEGER)
    (replay_current_authorities l);
  l_currents :
    map Some (replay_current_authorities l) ≡ₚ map (fun kx => pointer_of kx.2) (claim_groups l);
  l_entries : Forall entry_valid (candidate_entries l);
  l_fences : StronglySorted Z.lt (0 :: map entry_fence (candidate_entries l));
  l_bounded :
    Forall (fun e => entry_fence e <= candidate_fence_high_water l) (candidate_entries l);
  l_tokens : NoDup (entry_tokens l);
  l_provenance : Forall (provenance l) (scan_allocations l);
  l_projection : ledger_candidates l ≡ₚ scan_candidates l ++ map claim_candidate (claims l) }.

Lemma fences_ascending l : StronglySorted Z.lt (0 :: map entry_fence (candidate_entries l)) ->
  key_ascending Candidate.candidate_fencing_token (ledger_candidates l).
Proof.
  intros [Hs _]%StronglySorted_inv. unfold key_ascending, ledger_candidates.
  induction (candidate_entries l) as [|e es IH]; cbn in *; [constructor|].
  apply StronglySorted_inv in Hs as [Hs He]. constructor; [by apply IH|].
  rw Forall_map. rw Forall_map in He. exact He.
Qed.

Lemma fences_nodup l : key_ascending Candidate.candidate_fencing_token (ledger_candidates l) ->
  NoDup (ledger_candidates l).
Proof. intros Ha. apply (NoDup_fmap_1 Candidate.candidate_fencing_token). by apply ascending_nodup. Qed.

Lemma index_ids_nodup sids (cs : list claim) : NoDup sids ->
  NoDup (sids ++ map claim_operation cs) <->
  NoDup (map claim_operation cs) /\ Forall (fun c => claim_operation c ∉ sids) cs.
Proof.
  intros Hs. rw NoDup_app Forall_forall. setoid_rewrite list_elem_of_fmap. split.
  - intros (_ & Hd & Hn). split; [done|]. intros c Hc Hin. by apply (Hd _ Hin); exists c.
  - intros [Hn Hd]. split; [done|]. split; [|done]. intros o Ho (c & -> & Hc). by apply (Hd c).
Qed.

(** [validate] accepts exactly the well-formed ledgers *)
Lemma ledger_ok l x : validate l = Ok x <-> ledger_valid l.
Proof.
  destruct x. unfold validate.
  rw !bind_ok_unit require_integer_ok !raise_if_ok !neqb_false bind_ok.
  setoid_rewrite index_scans_ok.
  split.
  - intros (Hw & Hl1 & Hl2 & si & (Hs & Hi & He & ->) & Hv). cbn [scan_evidence_by_lease] in Hv.
    rw !bind_ok_unit check_authorities_ok // check_allocations_ok // in Hv.
    cbn [persisted_candidates scan_ids] in Hv.
    destruct Hv as (Hsl & (Ha & Ha') & (ci & Hv)%bind_ok).
    destruct Hv as [(Hc & Hci & Hcs & ->)%index_claims_ok Hv].
    cbn [replay_claims_by_expire_operation claim_persisted_candidates] in Hv.
    rw !bind_ok_unit forM_ok check_currents_ok // in Hv.
    destruct Hv as (Hov & (Hrev & Hcur) & (ei & (Hen & Hf & Hb & Ht & ->)%index_entries_ok & Hv)%bind_ok).
    cbn [entry_candidates] in Hv.
    rw bind_ok_unit forM_ok raise_if_ok neqb_false in Hv. destruct Hv as [Hpr Hpj].
    pose proof (fences_ascending l Hf) as Hasc.
    constructor; try done.
    + by apply index_ids_nodup.
    + eapply Forall_impl; [exact Hov|]. intros g Hg. by apply check_overlap_ok in Hg.
    + eapply Forall_impl; [exact Hpr|]. intros al Hal.
      apply check_provenance_ok in Hal; [done|]. by apply fences_nodup.
    + rw Hpj. apply sorted_by_perm.
  - intros []. do 3 (split; [done|]). eexists. split; [split; [done|split; [|done]]|].
    { by apply NoDup_app in l_operations0 as [? _]. }
    cbn [scan_evidence_by_lease persisted_candidates scan_ids].
    rw !bind_ok_unit check_authorities_ok // check_allocations_ok //.
    do 2 (split; [done|]). rw bind_ok. eexists. rw index_claims_ok.
    pose proof (proj1 (proj1 (NoDup_app _ _) l_operations0)) as Hsi.
    apply index_ids_nodup in l_operations0 as [? ?]; [|done]. split; [done|].
    cbn [replay_claims_by_expire_operation claim_persisted_candidates].
    rw !bind_ok_unit forM_ok check_currents_ok // bind_ok. setoid_rewrite index_entries_ok.
    pose proof (fences_ascending l l_fences0) as Hasc.
    split; [eapply Forall_impl; [exact l_disjoint0|]; intros g Hg; by apply check_overlap_ok|].
    split; [done|]. eexists. split; [done|]. cbn [entry_candidates].
    rw bind_ok_unit forM_ok raise_if_ok neqb_false. split.
    + eapply Forall_impl; [exact l_provenance0|]. intros al Hal.
      apply check_provenance_ok; [by apply fences_nodup|done].
    + by apply (proj1 (ascending_sort_perm _ _ _ Hasc)) in l_projection0 as [_ ?].
Qed.
End Valid.

#[export] Hint Rewrite @ledger_ok : ok_iff.
#[global] Opaque validate.
