(* ===== verification/LedgerOps.v ===== *)
(** * The operations of the candidate ledger on well-formed ledgers

    Lookups, consumption and the two issuing operations of
    [ArtifactHoldExpiryLedgerState]: what each returns on a ledger that satisfies
    [ledger_valid], and that the ledgers they return satisfy it again. *)
From S2P Require Import Prelude ListFacts PyStr Sha256 Json Contract ContractFacts Scan ScanFacts.
From S2P Require Import Replay ReplayFacts Expire ExpireFacts Ledger LedgerFacts.
Local Open Scope py_scope.
Local Open Scope Z_scope.
Import LedgerState.

(** ** Distinctness *)
Definition entry_lease (e : LedgerEntry.t) : pystr :=
  Candidate.candidate_lease_id (LedgerEntry.candidate e).

Section Distinct.
Context `{RFC8785} (l : t) (HV : ledger_valid l).

Lemma ledger_candidates_nodup : NoDup (ledger_candidates l).
Proof. apply fences_nodup, fences_ascending, HV. Qed.

Lemma entries_nodup : NoDup (candidate_entries l).
Proof. apply (NoDup_fmap_1 LedgerEntry.candidate). apply ledger_candidates_nodup. Qed.

Lemma entry_leases_nodup : NoDup (map entry_lease (candidate_entries l)).
Proof.
  pose proof (l_tokens _ HV) as Ht. unfold entry_tokens in Ht.
  induction (candidate_entries l) as [|e es IH]; cbn in *; [constructor|].
  apply NoDup_cons in Ht as [H1 Ht]. apply NoDup_cons in Ht as [_ Ht]. constructor; [|by apply IH].
  intros (e' & E & Hin)%list_elem_of_fmap. apply H1. right.
  apply list_elem_of_In, in_flat_map. exists e'. split; [by apply list_elem_of_In|].
  cbn. left. by symmetry.
Qed.

Lemma entry_by_lease e e' : e ∈ candidate_entries l -> e' ∈ candidate_entries l ->
  entry_lease e = entry_lease e' -> e = e'.
Proof.
  intros. eapply (NoDup_map_inj entry_lease); [apply entry_leases_nodup|done..].
Qed.

Lemma entry_by_candidate e e' : e ∈ candidate_entries l -> e' ∈ candidate_entries l ->
  LedgerEntry.candidate e = LedgerEntry.candidate e' -> e = e'.
Proof. intros H1 H2 E. apply entry_by_lease; [done..|]. unfold entry_lease. by rw E. Qed.

Lemma entry_is_valid e : e ∈ candidate_entries l -> entry_valid e.
Proof. intros He. pose proof (l_entries _ HV) as Hall. rw Forall_forall in Hall. by apply Hall. Qed.

Lemma claim_is_valid c : c ∈ claims l -> claim_pair_valid c.1 c.2.
Proof. intros Hc. pose proof (l_claims _ HV) as Hall. rw Forall_forall in Hall. by apply Hall. Qed.

Lemma claim_candidates_nodup : NoDup (map claim_candidate (claims l)).
Proof.
  pose proof ledger_candidates_nodup as Hn. rw (l_projection _ HV) in Hn.
  by apply NoDup_app in Hn as (_ & _ & ?).
Qed.

Lemma claims_nodup : NoDup (claims l).
Proof. apply (NoDup_fmap_1 claim_candidate). apply claim_candidates_nodup. Qed.

Lemma claim_by_candidate c c' : c ∈ claims l -> c' ∈ claims l ->
  claim_candidate c = claim_candidate c' -> c = c'.
Proof.
  intros. eapply (NoDup_map_inj claim_candidate); [apply claim_candidates_nodup|done..].
Qed.

(** a claim's candidate is never a scan's *)
Lemma claim_not_scanned c : c ∈ claims l -> claim_candidate c ∉ scan_candidates l.
Proof.
  intros Hc. pose proof ledger_candidates_nodup as Hn. rw (l_projection _ HV) in Hn.
  apply NoDup_app in Hn as (_ & Hd & _). intros Hs. apply (Hd _ Hs). apply list_elem_of_fmap. by exists c.
Qed.
End Distinct.

(** ** Lookups *)
Section Lookups.
Context `{RFC8785} (l : t) (HV : ledger_valid l).

Lemma candidate_entry_for_ok lease e : candidate_entry_for l lease = Ok e <->
  e ∈ candidate_entries l /\ entry_lease e = lease.
Proof.
  unfold candidate_entry_for. rw bind_ok_unit require_candidate_token_ok. split.
  - intros [_ Hm]. destruct (List.filter _ _) as [|x [|y k]] eqn:E; try done. injection Hm as ->.
    assert (e ∈ [e]) as Hin by (by left). rw -E in Hin. apply filter_In in Hin as [Hin Hl].
    by apply bool_decide_eq_true in Hl.
  - intros [Hin <-]. split.
    { destruct (entry_is_valid l HV e Hin) as [Hc _ _ _]. by destruct Hc. }
    rw (filter_unique _ _ e); [done|by apply entries_nodup|done|by apply bool_decide_eq_true|].
    intros b Hb Hl. apply bool_decide_eq_true in Hl. by apply (entry_by_lease l HV).
Qed.

Lemma replay_claim_for_candidate_ok c o : replay_claim_for_candidate l c = Ok o <->
  match o with
  | Some cl => cl ∈ claims l /\ claim_candidate cl = c
  | None => c ∉ map claim_candidate (claims l)
  end.
Proof.
  unfold replay_claim_for_candidate. split.
  - destruct (List.filter _ _) as [|x [|y k]] eqn:E; try done; intros [= <-].
    + intros (cl & -> & Hin)%list_elem_of_fmap.
      assert (cl ∈ []) as Hn; [|by apply elem_of_nil in Hn]. rw -E. apply filter_In.
      split; [done|]. by apply bool_decide_eq_true.
    + assert (x ∈ [x]) as Hin by (by left). rw -E in Hin. apply filter_In in Hin as [Hin Hl].
      by apply bool_decide_eq_true in Hl.
  - destruct o as [cl|].
    + intros [Hin <-].
      rw (filter_unique _ _ cl); [done|by apply claims_nodup|done|by apply bool_decide_eq_true|].
      intros b Hb Hl. apply bool_decide_eq_true in Hl. by apply (claim_by_candidate l HV).
    + intros Hn. rw filter_none; [done|]. intros b Hb. apply bool_decide_eq_false. intros <-.
      apply Hn. apply list_elem_of_fmap. by exists b.
Qed.

Lemma is_replay_candidate_ok c b : is_replay_candidate l c = Ok b <->
  b = bool_decide (c ∈ map claim_candidate (claims l)).
Proof.
  unfold is_replay_candidate. rw bind_ok. setoid_rewrite replay_claim_for_candidate_ok. split.
  - intros ([cl|] & Hc & [= <-]); symmetry.
    + destruct Hc as [Hin <-]. apply bool_decide_eq_true. apply list_elem_of_fmap. by exists cl.
    + by apply bool_decide_eq_false.
  - intros ->. case_bool_decide as Hc.
    + apply list_elem_of_fmap in Hc as (cl & -> & Hin). by exists (Some cl).
    + by exists None.
Qed.
End Lookups.

(** ** Consumption *)
(** the ledger with its entries replaced *)
Definition with_entries (l : t) (entries : list LedgerEntry.t) : t :=
  Make (candidate_fence_high_water l) (scan_requests l) (scan_results l) entries
    (replay_claim_requests l) (replay_claim_results l) (replay_current_authorities l)
    (scan_authorities l) (scan_allocations l).

Lemma entry_tokens_candidates l : entry_tokens l
  = flat_map (fun c => [Candidate.candidate_lease_id c; Candidate.candidate_token c])
      (ledger_candidates l).
Proof.
  unfold entry_tokens, ledger_candidates.
  induction (candidate_entries l) as [|e es IH]; cbn; [done|]. by rw IH.
Qed.

Section Consume.
Context `{RFC8785}.

(** the entries' candidates carry all the ledger knows about them but consumption *)
Lemma with_entries_valid l entries : ledger_valid l ->
  map LedgerEntry.candidate entries = ledger_candidates l -> Forall entry_valid entries ->
  ledger_valid (with_entries l entries).
Proof.
  intros [] Ec He.
  assert (ledger_candidates (with_entries l entries) = ledger_candidates l) as El by exact Ec.
  assert (map entry_fence entries = map entry_fence (candidate_entries l)) as Ef.
  { assert (forall es, map entry_fence es
      = map Candidate.candidate_fencing_token (map LedgerEntry.candidate es)) as Em
      by (intros es; by rw map_map). by rw !Em Ec. }
  constructor; try done.
  - cbn. by rw Ef.
  - assert (Forall (fun f => f <= candidate_fence_high_water l)
      (map entry_fence (candidate_entries l))) as Hb by by apply Forall_map.
    rw -Ef Forall_map in Hb. exact Hb.
  - by rw entry_tokens_candidates El -entry_tokens_candidates.
  - unfold provenance. by rw El.
  - by rw El.
Qed.

Lemma map_insert_same {A B} (f : A -> B) l i a b :
  l !! i = Some a -> f b = f a -> map f (<[i := b]> l) = map f l.
Proof.
  revert i. induction l as [|x l IH]; intros [|i]; cbn; try done.
  - by intros [= ->] ->.
  - intros Hi E. f_equal. by apply IH.
Qed.

Lemma consumed_valid l i e op now : ledger_valid l -> candidate_entries l !! i = Some e ->
  sha256_hex op -> 0 <= now <= _MAX_SAFE_INTEGER ->
  ledger_valid (with_entries l (<[i := LedgerEntry.consume e op now]> (candidate_entries l))).
Proof.
  intros HV Hi Hop Hnow. apply with_entries_valid; [done|by eapply map_insert_same|].
  pose proof (l_entries _ HV) as He. apply Forall_insert; [done|].
  rw Forall_lookup in He. destruct (He _ _ Hi). constructor; cbn; [done|done|..]; naive_solver.
Qed.

(** [consume_candidate] marks one entry, the request's, and nothing else *)
Lemma consume_candidate_ok l q now l' : consume_candidate l q now = Ok l' <->
  ledger_valid l /\ expire_request_valid q /\ 0 <= now <= _MAX_SAFE_INTEGER
  /\ exists i e, candidate_entries l !! i = Some e /\ LedgerEntry.consumed e = false
       /\ bound q (LedgerEntry.candidate e)
       /\ l' = with_entries l (<[i :=
            LedgerEntry.consume e (ExpireRequest.expire_operation_id q) now]> (candidate_entries l)).
Proof.
  unfold consume_candidate. rw bind_ok_unit ledger_ok bind_ok_unit expire_request_ok bind_ok_unit
    require_integer_ok bind_ok.
  split.
  - intros (HV & Hq & Hn & e & [Hin El]%(candidate_entry_for_ok l HV) & Hr).
    rw bind_ok_unit raise_if_ok bind_ok_unit binding_ok bind_ok in Hr.
    destruct Hr as (Hc & Hb & i & Hi%or_raise_ok%index_of_Some & Hr).
    rw bind_ok_unit Ok_inj_iff in Hr. destruct Hr as [_ <-].
    do 3 (split; [done|]). by exists i, e.
  - intros (HV & Hq & Hn & i & e & Hi & Hc & Hb & ->). do 3 (split; [done|]). exists e.
    assert (e ∈ candidate_entries l) as Hin by by eapply list_elem_of_lookup_2.
    split. { apply candidate_entry_for_ok; [done|]. split; [done|]. symmetry. apply Hb. }
    rw bind_ok_unit raise_if_ok bind_ok_unit binding_ok bind_ok. do 2 (split; [done|]). exists i.
    split. { apply or_raise_ok, index_of_NoDup; [by apply entries_nodup|done]. }
    rw bind_ok_unit ledger_ok. split; [|done].
    apply consumed_valid; [done..| |done]. by apply (operation_id_ok _ _ _ _ _ _ (er_expire _ Hq)).
Qed.
End Consume.

#[global] Opaque consume_candidate candidate_entry_for.

(** ** Recording a scan *)
(** the ledger with a scan and the authorities it issued appended *)
Definition scanned (l : t) (q : ScanRequest.t) (r : ScanResult.t) (als : list ScanAllocation.t) : t :=
  let cs := ScanResult.candidates r in
  Make (default (candidate_fence_high_water l) (last (map Candidate.candidate_fencing_token cs)))
    (scan_requests l ++ [q]) (scan_results l ++ [r])
    (candidate_entries l ++ map LedgerEntry.fresh cs)
    (replay_claim_requests l) (replay_claim_results l) (replay_current_authorities l)
    (scan_authorities l ++ map (seal_of q r) cs) (scan_allocations l ++ als).

Lemma combine_snoc {A B} (l : list A) (k : list B) a b : length l = length k ->
  combine (l ++ [a]) (k ++ [b]) = combine l k ++ [(a, b)].
Proof.
  revert k. induction l as [|x l IH]; intros [|y k]; cbn; try done.
  intros [= E]. by rw IH.
Qed.

Section RecordScan.
Context `{RFC8785}.

Lemma find_scan_fresh l q r als :
  ScanRequest.scan_operation_id q ∉ scan_operation_ids l -> find_scan l q r als (scans l) = Ok None.
Proof.
  unfold scan_operation_ids. induction (scans l) as [|[q' r'] ss IH]; cbn; [done|].
  rw not_elem_of_cons. intros [Hne Hn]. rw bool_decide_eq_false_2; [|done]. by apply IH.
Qed.

Lemma find_scan_stored l q r als o : NoDup (scan_operation_ids l) -> (q, r) ∈ scans l ->
  find_scan l q r als (scans l) = Ok o <-> allocations_of l r = als /\ o = Some tt.
Proof.
  unfold scan_operation_ids. induction (scans l) as [|[q' r'] ss IH]; cbn.
  { by intros _ ?%elem_of_nil. }
  intros [Hn Hnd]%NoDup_cons [[= <- <-]|Hin]%elem_of_cons.
  - rw (bool_decide_eq_true_2 (ScanRequest.scan_operation_id q = _)) //.
    rw (bool_decide_eq_true_2 (q = q)) // (bool_decide_eq_true_2 (r = r)) //. cbn. rw bind_ok_unit raise_if_ok neqb_false. naive_solver.
  - rw bool_decide_eq_false_2; [by apply IH|]. intros E. apply Hn. rw E.
    apply list_elem_of_fmap. by exists (q, r).
Qed.

Lemma add_candidates_ok q r cs als s s' : Forall (fun c => c ∈ ScanResult.candidates r) cs ->
  length als = length cs -> foldM (add_candidate q r) s (combine cs als) = Ok s' ->
  next_high_water s'
    = default (next_high_water s) (last (map Candidate.candidate_fencing_token cs))
  /\ new_entries s' = new_entries s ++ map LedgerEntry.fresh cs
  /\ new_scan_authorities s' = new_scan_authorities s ++ map (seal_of q r) cs.
Proof.
  intros Hcs. revert als s. induction Hcs as [|c cs Hc _ IH]; intros [|a als] s; try done.
  - cbn. intros _ [= <-]. by rw !app_nil_r.
  - cbn [combine foldM length]. intros [= El]. rw bind_ok. intros (s1 & Hs1 & Hl).
    apply IH in Hl as (-> & -> & ->); [|done]. unfold add_candidate in Hs1. ok_inv Hs1.
    match goal with Ha : ScanAuthority.create _ _ _ = Ok _ |- _ =>
      apply scan_authority_create_ok in Ha as (_ & _ & _ & ->) end.
    cbn [next_high_water new_entries new_scan_authorities map]. rw last_cons -!app_assoc.
    split; [by destruct (last (map Candidate.candidate_fencing_token cs))|done].
Qed.

(** what a scan with a fresh operation identifier records *)
Lemma record_scan_fresh l q r als l' :
  ScanRequest.scan_operation_id q ∉ scan_operation_ids l -> _record_scan l q r als = Ok l' ->
  ledger_valid l' /\ scan_pair_valid q r /\ length als = length (ScanResult.candidates r)
  /\ Forall2 (fun a c => allocated a = (q, c)) als (ScanResult.candidates r)
  /\ l' = scanned l q r als.
Proof.
  intros Hf. unfold _record_scan.
  rw bind_ok_unit ledger_ok bind_ok_unit scan_result_for_ok bind_ok_unit raise_if_ok neqb_false
    bind_ok_unit forM_ok bind_ok find_scan_fresh //.
  intros (HV & Hp & El & Hal & o & [= <-] & Hr).
  rw bind_ok in Hr. destruct Hr as (new & Hnew & Hr). rw bind_ok_unit ledger_ok Ok_inj_iff in Hr.
  destruct Hr as [HV' El']. rw El' in HV'. split; [done|]. split; [done|]. split; [done|].
  apply add_candidates_ok in Hnew as (En & Ee & Ea); [|by apply Forall_forall|done].
  rw En Ee Ea in El'. split; [|by rw -El'].
  revert Hal El. generalize (ScanResult.candidates r). clear. intros cs.
  revert cs. induction als as [|a als IH]; intros [|c cs]; try done; cbn [combine].
  intros [Ha Hal]%Forall_cons [= El]. constructor; [|by apply IH].
  cbn in Ha. ok_inv Ha. unfold allocated. congruence.
Qed.
End RecordScan.
