(* ===== verification/LedgerIssue.v ===== *)
(** * Issuing authority: the ledger accepts a scan of a fresh candidate

    [record_scan_complete]: on a well-formed ledger whose high-water is the
    fence of its last entry, recording a scan of one fresh candidate succeeds;
    the ledger it returns is well-formed, so the final [validate] of
    [_record_scan] never refuses it. *)
From S2P Require Import Prelude ListFacts PyStr Sha256 Json Contract ContractFacts Scan ScanFacts.
From S2P Require Import Replay ReplayFacts Expire ExpireFacts Ledger LedgerFacts LedgerOps.
Local Open Scope py_scope.
Local Open Scope Z_scope.
Import LedgerState.

(** the fence of the last entry, 0 for the empty ledger *)
Definition last_fence (l : t) : Z := default 0 (last (map entry_fence (candidate_entries l))).

Lemma StronglySorted_snoc {A} (R : A -> A -> Prop) l x :
  StronglySorted R (l ++ [x]) <-> StronglySorted R l /\ Forall (fun y => R y x) l.
Proof.
  induction l as [|a l IH]; cbn.
  - split; [intros _; split; constructor|intros _; by repeat constructor].
  - rw Forall_cons. split.
    + intros [Hs Ha]%StronglySorted_inv. apply IH in Hs as [Hs Hx].
      apply Forall_app in Ha as [Ha Hax]. apply Forall_cons in Hax as [Hax _].
      split; [by constructor|done].
    + intros [[Hs Ha]%StronglySorted_inv [Hax Hx]]. constructor; [by apply IH|].
      apply Forall_app. split; [done|]. by repeat constructor.
Qed.

(** the last element of an ascending list bounds all of them *)
Lemma ascending_last l x y : StronglySorted Z.lt (x :: l) -> default x (last l) < y ->
  Forall (fun z => z < y) (x :: l).
Proof.
  revert x. induction l as [|a l IH]; intros x Hs Hy.
  - cbn in Hy. by repeat constructor.
  - apply StronglySorted_inv in Hs as [Hs Hx]. apply Forall_cons in Hx as [Hx _].
    rw last_cons in Hy.
    assert (default a (last l) < y) as Hy' by (by destruct (last l)).
    specialize (IH a Hs Hy'). constructor; [|done]. apply Forall_cons in IH as [? _]. lia.
Qed.

Lemma fence_before_app cs c i : (i <= length cs)%nat ->
  fence_before (cs ++ [c]) i = fence_before cs i.
Proof.
  destruct i as [|j]; [done|]. intros Hi. cbn [fence_before]. rw lookup_app_l; [done|]. lia.
Qed.

Lemma fence_before_last cs : fence_before cs (length cs)
  = default 0 (last (map Candidate.candidate_fencing_token cs)).
Proof.
  destruct cs as [|c cs _] using rev_ind; [done|].
  rw map_app last_snoc length_app Nat.add_1_r. cbn [fence_before].
  by rw lookup_app_r // Nat.sub_diag.
Qed.

Section Issue.
Context `{RFC8785}.

(** the candidates whose bearer tokens the ledger knows *)
Lemma token_of_candidate l c : c ∈ ledger_candidates l ->
  Candidate.candidate_lease_id c ∈ entry_tokens l.
Proof.
  intros Hc. rw entry_tokens_candidates. apply list_elem_of_In, in_flat_map.
  exists c. split; [by apply list_elem_of_In|]. by left.
Qed.

(** a candidate whose authority the ledger has not issued yet *)
Record fresh_candidate (l : t) (c : Candidate.t) : Prop := {
  fr_valid : candidate_valid c;
  fr_fence : candidate_fence_high_water l < Candidate.candidate_fencing_token c;
  fr_lease : Candidate.candidate_lease_id c ∉ entry_tokens l;
  fr_token : Candidate.candidate_token c ∉ entry_tokens l }.

(** the entry of a fresh candidate goes at the end of a well-formed ledger *)
Lemma fresh_tokens l c : ledger_valid l -> fresh_candidate l c ->
  NoDup (entry_tokens l ++ [Candidate.candidate_lease_id c; Candidate.candidate_token c]).
Proof.
  intros HV [Hc _ Hl Ht]. rw (cons_middle (Candidate.candidate_lease_id c)) app_assoc.
  rw !NoDup_snoc. split; [split; [apply (l_tokens _ HV)|done]|].
  rw elem_of_app list_elem_of_singleton. intros [?|E]; [done|]. by destruct Hc.
Qed.

Lemma fresh_fences l c : ledger_valid l -> fresh_candidate l c ->
  StronglySorted Z.lt (0 :: map entry_fence (candidate_entries l ++ [LedgerEntry.fresh c])).
Proof.
  intros HV [Hc Hf _ _]. rw map_app. cbn [map]. rw app_comm_cons. apply StronglySorted_snoc.
  split; [apply (l_fences _ HV)|]. change (entry_fence (LedgerEntry.fresh c))
    with (Candidate.candidate_fencing_token c). constructor.
  - pose proof (l_high_water _ HV). lia.
  - apply Forall_map. eapply Forall_impl; [apply (l_bounded _ HV)|]. cbn. lia.
Qed.

Lemma fresh_entry_valid c : candidate_valid c -> entry_valid (LedgerEntry.fresh c).
Proof. intros Hc. by constructor. Qed.

Lemma provenance_snoc l l' c a : provenance l a ->
  ledger_candidates l' = ledger_candidates l ++ [c] -> provenance l' a.
Proof.
  intros (i & Hi & Ha) E. exists i. rw E. pose proof (lookup_lt_Some _ _ _ Hi).
  rw lookup_app_l // fence_before_app //. lia.
Qed.

(** ** A scan of one fresh candidate *)
Section ScanOne.
Variables (l : t) (q : ScanRequest.t) (r : ScanResult.t) (c : Candidate.t) (a : ScanAllocation.t).
Hypothesis valid : ledger_valid l.
Hypothesis pair : scan_pair_valid q r.
Hypothesis single : ScanResult.candidates r = [c].
Hypothesis fresh_id : ScanRequest.scan_operation_id q
  ∉ scan_operation_ids l ++ map claim_operation (claims l).
Hypothesis fresh : fresh_candidate l c.
Hypothesis proof_ok : allocation_valid a.
Hypothesis proof_of : allocated a = (q, c).
Hypothesis previous : ScanAllocation.previous_fence_high_water a = candidate_fence_high_water l.
Hypothesis tight : candidate_fence_high_water l = last_fence l.

Lemma scanned_scans : scans (scanned l q r [a]) = scans l ++ [(q, r)].
Proof. apply combine_snoc, valid. Qed.

Lemma scanned_evidence : evidence (scanned l q r [a])
  = evidence l ++ [(Candidate.candidate_lease_id c, (q, r, c))].
Proof.
  unfold evidence. rw scanned_scans flat_map_app. cbn [flat_map]. unfold scan_leases at 2.
  by rw single app_nil_r.
Qed.

Lemma scanned_candidates : scan_candidates (scanned l q r [a]) = scan_candidates l ++ [c].
Proof. unfold scan_candidates. rw scanned_scans flat_map_app. cbn. by rw single. Qed.

Lemma scanned_entries : candidate_entries (scanned l q r [a])
  = candidate_entries l ++ [LedgerEntry.fresh c].
Proof. unfold scanned. cbn [candidate_entries]. by rw single. Qed.

Lemma scanned_ledger_candidates : ledger_candidates (scanned l q r [a]) = ledger_candidates l ++ [c].
Proof. unfold ledger_candidates. by rw scanned_entries map_app. Qed.

Lemma evidence_candidate k x : (k, x) ∈ evidence l -> x.2 ∈ ledger_candidates l
  /\ k = Candidate.candidate_lease_id x.2.
Proof.
  destruct x as [[q' r'] c']. intros (Hin & Hc & ->)%evidence_elem. split; [|done].
  rw (l_projection _ valid) elem_of_app. left. unfold scan_candidates.
  apply list_elem_of_In, in_flat_map. exists (q', r'). split; by apply list_elem_of_In.
Qed.

Lemma scanned_provenance : Forall (provenance (scanned l q r [a])) (scan_allocations l ++ [a]).
Proof.
  apply Forall_app. split.
  - eapply Forall_impl; [apply (l_provenance _ valid)|]. intros a' Ha'.
    by apply (provenance_snoc l _ c), scanned_ledger_candidates.
  - apply Forall_singleton. exists (length (ledger_candidates l)).
    rw scanned_ledger_candidates lookup_app_r // Nat.sub_diag. split.
    + cbn. f_equal. unfold allocated in proof_of. congruence.
    + rw fence_before_app // fence_before_last previous tight. unfold last_fence, ledger_candidates.
      by rw map_map.
Qed.

Lemma scanned_valid : ledger_valid (scanned l q r [a]).
Proof.
  destruct valid. pose proof (fr_fence _ _ fresh) as Hf.
  assert (candidate_fence_high_water (scanned l q r [a]) = Candidate.candidate_fencing_token c) as Ew.
  { unfold scanned. cbn [candidate_fence_high_water]. by rw single. }
  constructor; rw ?scanned_scans ?scanned_evidence ?scanned_candidates ?scanned_entries
    ?scanned_ledger_candidates ?Ew; try done.
  - pose proof (c_fence _ (fr_valid _ _ fresh)). lia.
  - cbn. rw !length_app. cbn. lia.
  - apply Forall_app. split; [done|]. by apply Forall_singleton.
  - rw map_app. cbn [map fst]. apply NoDup_snoc. split; [done|].
    intros ([k x] & E & Hin)%list_elem_of_fmap. cbn in E. subst k.
    apply evidence_candidate in Hin as [Hin E]. apply (fr_lease _ _ fresh). rw E.
    by apply token_of_candidate.
  - unfold scanned. cbn [scan_authorities]. rw single map_app. by apply Permutation_app.
  - apply Forall_app. split; [done|]. by apply Forall_singleton.
  - unfold scanned. cbn [scan_allocations]. rw !map_app. apply Permutation_app; [done|].
    cbn. by rw proof_of.
  - unfold scan_operation_ids. rw scanned_scans map_app. cbn [map].
    change (claims (scanned l q r [a])) with (claims l).
    rw -app_assoc. eapply (NoDup_Permutation_proper _ (ScanRequest.scan_operation_id q
      :: (scan_operation_ids l ++ map claim_operation (claims l)))).
    + cbn. by rw -Permutation_middle.
    + by apply NoDup_cons.
  - apply Forall_app. split; [done|]. apply Forall_singleton. apply fresh_entry_valid, fresh.
  - by apply fresh_fences.
  - apply Forall_app. split; [|by apply Forall_singleton].
    eapply Forall_impl; [exact l_bounded|]. cbn. lia.
  - unfold entry_tokens. rw scanned_entries flat_map_app. by apply fresh_tokens.
  - apply scanned_provenance.
  - rw l_projection. change (claims (scanned l q r [a])) with (claims l).
    rw -!app_assoc. apply Permutation_app; [done|]. apply Permutation_app_comm.
Qed.

Lemma record_scan_complete : _record_scan l q r [a] = Ok (scanned l q r [a]).
Proof.
  unfold _record_scan.
  rw bind_ok_unit ledger_ok bind_ok_unit scan_result_for_ok bind_ok_unit raise_if_ok neqb_false
    bind_ok_unit forM_ok single. cbn [combine length].
  split; [done|]. split; [done|]. split; [done|]. split.
  { apply Forall_singleton. unfold check_allocation_pair. rw bind_ok_unit allocation_ok.
    split; [done|]. unfold allocated in proof_of. injection proof_of as -> ->.
    by rw !bool_decide_eq_true_2. }
  rw find_scan_fresh; [|by intros ?; apply fresh_id; apply elem_of_app; left]. cbn [mbind result_bind].
  assert (add_candidate q r (NewScan (entry_tokens l) (candidate_fence_high_water l) [] []) (c, a)
    = Ok (NewScan (entry_tokens l
          ++ [Candidate.candidate_lease_id c; Candidate.candidate_token c])
        (Candidate.candidate_fencing_token c) [LedgerEntry.fresh c] [seal_of q r c])) as Ea.
  { unfold add_candidate. rw bind_ok_unit allocation_against_ok bind_ok_unit raise_if_ok bind_ok.
    unfold allocated in proof_of. injection proof_of as Eq Ec. split; [done|].
    destruct fresh as [Hc Hf Hl Ht]. split.
    - rw (bool_decide_eq_false_2 _ Hl) (bool_decide_eq_false_2 _ Ht) bool_decide_eq_false_2; [|apply Hc].
      cbn. lia.
    - exists (seal_of q r c). rw scan_authority_create_ok single. split; [|done].
      split; [done|]. split; [done|]. split; [by left|done]. }
  cbn [foldM]. rw Ea. cbn [mbind result_bind next_high_water new_entries new_scan_authorities].
  assert (scanned l q r [a] = Make (Candidate.candidate_fencing_token c) (scan_requests l ++ [q])
    (scan_results l ++ [r]) (candidate_entries l ++ [LedgerEntry.fresh c])
    (replay_claim_requests l) (replay_claim_results l) (replay_current_authorities l)
    (scan_authorities l ++ [seal_of q r c]) (scan_allocations l ++ [a])) as <-
    by (unfold scanned; by rw single).
  rw bind_ok_unit ledger_ok. split; [apply scanned_valid|done].
Qed.
End ScanOne.
End Issue.
