(* ===== verification/LedgerClaims.v ===== *)
(** * Replay claims on the ledger: the current authority and its succession

    The pointer of an expiry operation designates the claim with the greatest
    fence; recording a claim of a fresh candidate moves the pointer to it.
    [record_claim_complete] is the counterpart of [record_scan_complete]. *)
From S2P Require Import Prelude ListFacts PyStr Sha256 Json Contract ContractFacts Scan ScanFacts.
From S2P Require Import Replay ReplayFacts Expire ExpireFacts Ledger LedgerFacts LedgerOps LedgerIssue.
Local Open Scope py_scope.
Local Open Scope Z_scope.
Import LedgerState.

(** ** Sorting *)
Lemma sorted_by_map {A B} (f : A -> B) (key : B -> Z) l :
  map f (sorted_by (fun a => key (f a)) l) = sorted_by key (map f l).
Proof.
  assert (forall a l, map f (insert_by (fun a => key (f a)) a l) = insert_by key (f a) (map f l))
    as Hi.
  { intros a l'. induction l' as [|b l' IH]; cbn; [done|]. case_match; cbn; [done|]. by rw IH. }
  unfold sorted_by. induction l as [|a l IH]; cbn; [done|]. by rw Hi IH.
Qed.

Lemma sorted_by_snoc {A} (key : A -> Z) l a : Forall (fun b => key b <= key a) l ->
  sorted_by key (l ++ [a]) = sorted_by key l ++ [a].
Proof.
  assert (forall b l, key b <= key a -> insert_by key b (l ++ [a]) = insert_by key b l ++ [a]) as Hi.
  { intros b l' Hb. induction l' as [|c l' IH]; cbn.
    - by rw (proj2 (Z.leb_le _ _) Hb).
    - case_match; cbn; [done|]. by rw IH. }
  unfold sorted_by. induction 1 as [|b l Hb _ IH]; cbn; [done|]. by rw IH Hi.
Qed.

Lemma Sorted_snoc {A} (R : A -> A -> Prop) l a : Sorted R l ->
  (forall b, last l = Some b -> R b a) -> Sorted R (l ++ [a]).
Proof.
  induction 1 as [|b l Hs IH Hb]; cbn [app]; intros Hl; [by repeat constructor|].
  constructor.
  - apply IH. intros x Hx. apply Hl. by rw last_cons Hx.
  - destruct Hb as [|x l Hx]; cbn [app]; constructor; [|done]. by apply Hl.
Qed.

Lemma setdefault_absent {K V} `{EqDecision K} (k : K) (v : V) d :
  k ∉ map fst d -> setdefault_append k v d = d ++ [(k, [v])].
Proof.
  induction d as [|[k' vs] d IH]; cbn; [done|]. rw not_elem_of_cons. intros [Hk Hd].
  rw bool_decide_eq_false_2 // IH //.
Qed.

Lemma setdefault_present {K V} `{EqDecision K} (k : K) (v : V) d1 vs d2 : k ∉ map fst d1 ->
  setdefault_append k v (d1 ++ (k, vs) :: d2) = d1 ++ (k, vs ++ [v]) :: d2.
Proof.
  induction d1 as [|[k' vs'] d1 IH]; cbn.
  - intros _. by rw bool_decide_eq_true_2.
  - rw not_elem_of_cons. intros [Hk Hd]. rw bool_decide_eq_false_2 // IH //.
Qed.

(** the claims on one expiry operation *)
Definition claims_for (l : t) (k : pystr) : list claim := group claim_expire k (claims l).
(** the claim with the greatest fence *)
Definition current_claim (l : t) (k : pystr) : option claim :=
  last (sorted_by claim_fence (claims_for l k)).

Lemma claims_for_nil l k : claims_for l k = [] <-> k ∉ map claim_expire (claims l).
Proof.
  unfold claims_for, group. split.
  - intros E (c & -> & Hc)%list_elem_of_fmap. assert (c ∈ []) as Hn; [|by apply elem_of_nil in Hn].
    rw -E filter_In. split; [done|]. by apply bool_decide_eq_true.
  - intros Hk. apply filter_none. intros c Hc. apply bool_decide_eq_false. intros <-.
    apply Hk. apply list_elem_of_fmap. eauto.
Qed.

Lemma claims_for_elem l k c : c ∈ claims_for l k <-> c ∈ claims l /\ claim_expire c = k.
Proof. unfold claims_for, group. by rw filter_In bool_decide_eq_true. Qed.

(** ** The current pointer *)
Section Current.
Context `{RFC8785} (l : t) (HV : ledger_valid l).

Lemma current_claim_elem k c : current_claim l k = Some c -> c ∈ claims_for l k.
Proof.
  intros [l' E]%last_Some. rw -(sorted_by_perm claim_fence (claims_for l k)) E.
  apply elem_of_app. right. by left.
Qed.

Lemma current_claim_None k : current_claim l k = None <-> k ∉ map claim_expire (claims l).
Proof.
  rw -claims_for_nil. unfold current_claim. rw last_None. split; intros E.
  - pose proof (sorted_by_perm claim_fence (claims_for l k)) as Hp. rw E in Hp.
    by apply Permutation_nil in Hp.
  - by rw E.
Qed.

(** every other claim on the operation has a smaller fence *)
Lemma current_claim_max k c c' : current_claim l k = Some c -> c' ∈ claims_for l k ->
  claim_fence c' <= claim_fence c.
Proof.
  intros [l' E]%last_Some Hc'. pose proof (sorted_by_sorted claim_fence (claims_for l k)) as Hs.
  unfold key_sorted in Hs. rw E in Hs. apply StronglySorted_snoc in Hs as [_ Hs].
  rw -(sorted_by_perm claim_fence (claims_for l k)) E in Hc'.
  apply elem_of_app in Hc' as [Hc'|Hc']; [|by apply list_elem_of_singleton in Hc' as ->].
  rw Forall_forall in Hs. by apply Hs.
Qed.

Lemma group_claims k vs : (k, vs) ∈ claim_groups l <->
  k ∈ map claim_expire (claims l) /\ vs = claims_for l k.
Proof. apply group_by_elem. Qed.

(** the pointers are exactly those of the claimed operations, one each *)
Lemma current_keys :
  map ReplayCurrentAuthority.expire_operation_id (replay_current_authorities l)
  ≡ₚ map fst (claim_groups l).
Proof.
  set (kb := fun o => match o with
    | Some a => ReplayCurrentAuthority.expire_operation_id a | None => [] end).
  pose proof (Permutation_map kb (l_currents _ HV)) as Hp. rw !map_map in Hp.
  etrans; [exact Hp|]. match goal with |- ?x ≡ₚ ?y => assert (x = y) as ->; [|done] end.
  apply map_ext_in. intros [k vs] Hin. cbn.
  apply list_elem_of_In in Hin.
  destruct (group_current _ _ _ (l_claims _ HV) Hin) as (q & r & E & _ & _ & Hk).
  unfold pointer_of. by rw E.
Qed.

Lemma current_elem a : a ∈ replay_current_authorities l <->
  exists c, current_claim l (ReplayCurrentAuthority.expire_operation_id a) = Some c
    /\ a = ReplayCurrentAuthority.project c.1 c.2
             (Z.of_nat (length (claims_for l (ReplayCurrentAuthority.expire_operation_id a)))).
Proof.
  assert (a ∈ replay_current_authorities l <-> Some a ∈ map Some (replay_current_authorities l)) as ->.
  { rw list_elem_of_fmap. split; [by eexists|]. by intros (? & [= ->] & ?). }
  rw (l_currents _ HV) list_elem_of_fmap. split.
  - intros ([k vs] & E & Hin). cbn in E.
    destruct (group_current _ _ _ (l_claims _ HV) Hin) as (q & r & El & _ & _ & Hk).
    apply group_claims in Hin as [_ ->]. unfold pointer_of in E. rw El in E.
    injection E as ->. cbn. rw Hk. by exists (q, r).
  - intros (c & Hc & Ha). set (k := ReplayCurrentAuthority.expire_operation_id a) in *.
    exists (k, claims_for l k). cbn. unfold pointer_of. unfold current_claim in Hc. rw Hc.
    split; [by f_equal|]. apply group_claims. split; [|done].
    destruct (decide (k ∈ map claim_expire (claims l))) as [|Hn]; [done|].
    apply current_claim_None in Hn. unfold current_claim in Hn. congruence.
Qed.

Lemma currents_nodup : NoDup (map ReplayCurrentAuthority.expire_operation_id
  (replay_current_authorities l)).
Proof. rw current_keys. apply group_by_spec. Qed.

(** the pointer of an operation *)
Definition pointer (k : pystr) (c : claim) : ReplayCurrentAuthority.t :=
  ReplayCurrentAuthority.project c.1 c.2 (Z.of_nat (length (claims_for l k))).

Lemma pointer_expire k c : current_claim l k = Some c ->
  ReplayCurrentAuthority.expire_operation_id (pointer k c) = k.
Proof. by intros [_ Hk]%current_claim_elem%claims_for_elem. Qed.

Lemma authorities_for_ok k : authorities_for l k
  = match current_claim l k with Some c => [pointer k c] | None => [] end.
Proof.
  unfold authorities_for. destruct (current_claim l k) as [c|] eqn:E.
  - pose proof (pointer_expire _ _ E) as Ek. apply filter_unique.
    + eapply (NoDup_fmap_1 ReplayCurrentAuthority.expire_operation_id), currents_nodup.
    + apply current_elem. rw Ek. by exists c.
    + by apply bool_decide_eq_true.
    + intros b Hb Hk%bool_decide_eq_true.
      eapply NoDup_map_inj; [apply currents_nodup|done| |by rw Hk Ek].
      apply current_elem. rw Ek. by exists c.
  - apply filter_none. intros b (c & Hc & _)%current_elem. apply bool_decide_eq_false. congruence.
Qed.

Lemma pointer_elem k c : current_claim l k = Some c -> pointer k c ∈ replay_current_authorities l.
Proof. intros E. apply current_elem. rw (pointer_expire _ _ E). by exists c. Qed.

Lemma claim_operations_nodup : NoDup (map claim_operation (claims l)).
Proof. by pose proof (l_operations _ HV) as (_ & _ & ?)%NoDup_app. Qed.

(** [current_replay_claim_for_expire_operation] is the claim with the greatest fence *)
Lemma current_replay_claim_ok k o : current_replay_claim_for_expire_operation l k = Ok o <->
  sha256_hex k /\ o = current_claim l k.
Proof.
  assert (sha256_hex k -> current_replay_claim_for_expire_operation l k = Ok (current_claim l k))
    as Hc.
  { intros Hk. unfold current_replay_claim_for_expire_operation, replay_claims_for_expire_operation.
    rw (proj2 (require_sha256_ok k "expire operation ID" tt) Hk). cbn [mbind result_bind].
    change (List.filter _ (claims l)) with (claims_for l k). rw authorities_for_ok.
    destruct (current_claim l k) as [c|] eqn:E.
    - pose proof (current_claim_elem _ _ E) as Hin.
      destruct (claims_for l k) as [|c0 cs] eqn:El; [by apply elem_of_nil in Hin|]. rw -El in Hin |- *.
      clear El. rw (filter_unique _ _ c).
      + rw bind_ok_unit current_against_ok. split; [|done].
        pose proof (pointer_elem _ _ E) as Hp. pose proof (l_revisions _ HV) as Hr.
        rw Forall_forall in Hr. specialize (Hr _ Hp). cbn in Hr.
        split; [apply (claim_is_valid l HV); by apply claims_for_elem in Hin as [? _]|].
        split; [|done]. split; [|exact Hr]. cbn. destruct (claims_for l k); [by apply elem_of_nil in Hin|].
        cbn. lia.
      + pose proof (claims_nodup l HV) as Hn. eapply sublist_NoDup; [exact Hn|].
        apply (filter_sublist _ (claims l)).
      + done.
      + by apply bool_decide_eq_true.
      + intros b [Hb _]%claims_for_elem Ho%bool_decide_eq_true.
        apply claims_for_elem in Hin as [Hin _].
        eapply NoDup_map_inj; [apply claim_operations_nodup|done..].
    - apply current_claim_None, claims_for_nil in E. by rw E. }
  split.
  - intros Ho. assert (sha256_hex k) as Hk.
    { unfold current_replay_claim_for_expire_operation, replay_claims_for_expire_operation in Ho.
      apply bind_ok in Ho as (cs & Hcs & _). apply bind_ok_unit in Hcs as [Hk _].
      by apply require_sha256_ok in Hk. }
    split; [done|]. rw Hc // in Ho. by injection Ho.
  - intros [Hk ->]. by apply Hc.
Qed.
End Current.

(** ** Recording a claim *)
(** the revision a new claim on an operation gets *)
Definition next_revision (l : t) (k : pystr) : Z :=
  match authorities_for l k with a :: _ => ReplayCurrentAuthority.revision a + 1 | [] => 1 end.

(** the ledger with a claim appended and the operation's pointer moved to it *)
Definition claimed (l : t) (q : ReplayClaimRequest.t) (r : ReplayClaimResult.t) : t :=
  let c := ReplayClaimResult.candidate r in
  let k := ReplayClaimRequest.expire_operation_id q in
  Make (Candidate.candidate_fencing_token c) (scan_requests l) (scan_results l)
    (candidate_entries l ++ [LedgerEntry.fresh c])
    (replay_claim_requests l ++ [q]) (replay_claim_results l ++ [r])
    (put_authority (replay_current_authorities l) (authorities_for l k)
       (ReplayCurrentAuthority.project q r (next_revision l k)))
    (scan_authorities l) (scan_allocations l).

Section RecordClaim.
Context `{RFC8785}.

Lemma find_claim_fresh q r (cs : list claim) :
  ReplayClaimRequest.replay_operation_id q ∉ map claim_operation cs -> find_claim q r cs = Ok None.
Proof.
  induction cs as [|[q' r'] cs IH]; cbn; [done|].
  rw not_elem_of_cons. intros [Hne Hn]. rw bool_decide_eq_false_2; [|done]. by apply IH.
Qed.

Lemma record_claim_fresh l q r l' :
  ReplayClaimRequest.replay_operation_id q ∉ map claim_operation (claims l) ->
  _record_replay_claim l q r = Ok l' ->
  ledger_valid l' /\ claim_pair_valid q r
  /\ fresh_candidate l (ReplayClaimResult.candidate r) /\ l' = claimed l q r.
Proof.
  intros Hf. unfold _record_replay_claim.
  rw bind_ok_unit ledger_ok bind_ok_unit claim_result_for_ok bind_ok find_claim_fresh //.
  intros (HV & Hp & o & [= <-] & Hr).
  rw bind_ok_unit raise_if_ok !orb_false_iff !eqb_false_iff Z.leb_gt in Hr.
  destruct Hr as ((((Hl & Ht) & Hd) & Hfe) & Hr). rw bind_ok_unit raise_if_ok in Hr.
  destruct Hr as [_ Hr]. rw bind_ok in Hr. destruct Hr as (cur & Hcur & Hr).
  apply current_create_ok in Hcur as (_ & _ & ->).
  rw bind_ok_unit ledger_ok Ok_inj_iff in Hr. destruct Hr as [HV' El].
  change (Make _ _ _ _ _ _ _ _ _) with (claimed l q r) in HV', El.
  split; [by rw -El|]. split; [done|]. split; [|done].
  constructor; try done. apply (cp_result _ _ Hp).
Qed.
End RecordClaim.

(** ** A claim of a fresh candidate that succeeds the current authority *)
Section ClaimOne.
Context `{RFC8785}.
Variables (l : t) (q : ReplayClaimRequest.t) (r : ReplayClaimResult.t).
Let c := ReplayClaimResult.candidate r.
Let k := ReplayClaimRequest.expire_operation_id q.
Hypothesis valid : ledger_valid l.
Hypothesis pair : claim_pair_valid q r.
Hypothesis fresh_id : ReplayClaimRequest.replay_operation_id q
  ∉ scan_operation_ids l ++ map claim_operation (claims l).
Hypothesis fresh : fresh_candidate l c.
Hypothesis succeeds : forall c', current_claim l k = Some c' -> ends_before (claim_candidate c') c.
Hypothesis bounded : Z.of_nat (length (claims_for l k)) < _MAX_SAFE_INTEGER.

Lemma claimed_claims : claims (claimed l q r) = claims l ++ [(q, r)].
Proof. apply combine_snoc, valid. Qed.

Lemma claimed_groups : claim_groups (claimed l q r) = setdefault_append k (q, r) (claim_groups l).
Proof. unfold claim_groups. rw claimed_claims. apply group_by_snoc. Qed.

Lemma claim_fences c' : c' ∈ claims l -> claim_fence c' < Candidate.candidate_fencing_token c.
Proof.
  intros Hc'. pose proof (fr_fence _ _ fresh) as Hf.
  assert (claim_candidate c' ∈ ledger_candidates l) as Hin.
  { rw (l_projection _ valid) elem_of_app. right. apply list_elem_of_fmap. eauto. }
  apply list_elem_of_fmap in Hin as (e & E & He).
  pose proof (l_bounded _ valid) as Hb. rw Forall_forall in Hb. specialize (Hb _ He). cbn in Hb.
  unfold entry_fence in Hb. rw -E in Hb. unfold claim_fence. lia.
Qed.

Lemma claims_sorted_snoc vs : Forall (fun c' => c' ∈ claims l) vs ->
  sorted_by claim_fence (vs ++ [(q, r)]) = sorted_by claim_fence vs ++ [(q, r)].
Proof.
  intros Hvs. apply sorted_by_snoc. eapply Forall_impl; [exact Hvs|].
  intros c' Hc'%claim_fences. apply Z.lt_le_incl, Hc'.
Qed.

Lemma claims_for_all : Forall (fun c' => c' ∈ claims l) (claims_for l k).
Proof. apply Forall_forall. by intros c' [? _]%claims_for_elem. Qed.

Lemma pointer_of_snoc vs : Forall (fun c' => c' ∈ claims l) vs -> pointer_of (vs ++ [(q, r)])
  = Some (ReplayCurrentAuthority.project q r (Z.of_nat (length vs) + 1)).
Proof.
  intros Hvs. unfold pointer_of. rw claims_sorted_snoc // last_snoc length_app Nat2Z.inj_add. done.
Qed.

(** the pointers after the claim, whether or not the operation had one before *)
Lemma claimed_currents : map Some (replay_current_authorities (claimed l q r))
  ≡ₚ map (fun kx => pointer_of kx.2) (claim_groups (claimed l q r)).
Proof.
  rw claimed_groups. unfold claimed, next_revision.
  cbn [replay_current_authorities]. fold k. rw (authorities_for_ok l valid k).
  pose proof (l_currents _ valid) as Hcur.
  destruct (current_claim l k) as [c0|] eqn:E.
  - pose proof (current_claim_elem _ _ _ E) as Hc0. pose proof (pointer_elem l valid k c0 E) as Hp.
    assert (k ∈ map claim_expire (claims l)) as Hk.
    { apply claims_for_elem in Hc0 as [? <-]. apply list_elem_of_fmap. eauto. }
    assert ((k, claims_for l k) ∈ claim_groups l) as Hg by by apply group_claims.
    apply list_elem_of_split in Hg as (g1 & g2 & Eg).
    assert (k ∉ map fst g1) as Hk1.
    { assert (NoDup (map fst (claim_groups l))) as Hn by apply group_by_spec.
      rw Eg map_app in Hn. apply NoDup_app in Hn as (_ & Hd & _). intros Hin.
      apply (Hd _ Hin). cbn. by left. }
    rw Eg setdefault_present //. cbn [put_authority].
    destruct (index_of_elem _ _ Hp) as [i Hi]. rw Hi. apply index_of_Some in Hi.
    rw Eg in Hcur. rewrite !map_app in Hcur |- *. cbn [map snd] in Hcur |- *.
    assert (pointer_of (claims_for l k) = Some (pointer l k c0)) as Ep.
    { unfold pointer_of. unfold current_claim in E. by rw E. }
    rw Ep in Hcur. rw (pointer_of_snoc _ claims_for_all).
    apply take_drop_middle in Hi as Es.
    assert (<[i := ReplayCurrentAuthority.project q r (ReplayCurrentAuthority.revision (pointer l k c0) + 1)]>
      (replay_current_authorities l) = take i (replay_current_authorities l)
        ++ ReplayCurrentAuthority.project q r (ReplayCurrentAuthority.revision (pointer l k c0) + 1)
        :: drop (S i) (replay_current_authorities l)) as ->.
    { apply insert_take_drop. by eapply lookup_lt_Some. }
    rewrite -Es in Hcur. rewrite !map_app in Hcur |- *. cbn [map] in Hcur |- *.
    rewrite -!Permutation_middle in Hcur |- *. apply Permutation_cons_inv in Hcur.
    by apply Permutation_skip.
  - pose proof E as Hk%current_claim_None.
    assert (k ∉ map fst (claim_groups l)) as Hk'.
    { destruct (group_by_spec claim_expire (claims l)) as (_ & Hiff & _). by rw Hiff. }
    rw setdefault_absent //. cbn [put_authority]. rw !map_app. apply Permutation_app; [done|].
    cbn. unfold pointer_of. cbn. done.
Qed.
Lemma next_revision_bound : 1 <= next_revision l k <= _MAX_SAFE_INTEGER.
Proof.
  unfold next_revision. rw (authorities_for_ok l valid k).
  destruct (current_claim l k); cbn; [|unfold _MAX_SAFE_INTEGER; lia].
  generalize (length (claims_for l k)), bounded. lia.
Qed.

Lemma claimed_revisions : Forall (fun a => ReplayCurrentAuthority.revision a <= _MAX_SAFE_INTEGER)
  (replay_current_authorities (claimed l q r)).
Proof.
  assert (ReplayCurrentAuthority.revision (ReplayCurrentAuthority.project q r (next_revision l k))
    <= _MAX_SAFE_INTEGER) as Hn by apply next_revision_bound. pose proof (l_revisions _ valid) as Hr.
  unfold claimed. cbn [replay_current_authorities]. fold k. revert Hn.
  generalize (ReplayCurrentAuthority.project q r (next_revision l k)). intros cur Hn.
  unfold put_authority. destruct (authorities_for l k) as [|old ?]; [apply Forall_app; split; [done|]; by apply Forall_singleton|].
  destruct (index_of old (replay_current_authorities l)); [|done]. by apply Forall_insert.
Qed.

Lemma claimed_disjoint : Forall (fun group => Sorted ends_before
  (sorted_by Candidate.candidate_fencing_token (map claim_candidate group.2)))
  (claim_groups (claimed l q r)).
Proof.
  apply Forall_forall. intros [k' vs] Hin. cbn [snd]. unfold claim_groups in Hin. rw claimed_claims in Hin.
  apply group_by_elem in Hin as [Hk' ->]. rw group_snoc -(sorted_by_map claim_candidate).
  change (claim_expire (q, r)) with k. change (group claim_expire k' (claims l)) with (claims_for l k').
  assert (Sorted ends_before (map claim_candidate (sorted_by claim_fence (claims_for l k')))) as Hs.
  { destruct (claims_for l k') as [|c0 cs] eqn:E; [constructor|]. rw -E.
    pose proof (l_disjoint _ valid) as Hd. rw Forall_forall in Hd.
    change (sorted_by claim_fence) with
      (sorted_by (fun a => Candidate.candidate_fencing_token (claim_candidate a))).
    rw sorted_by_map. apply (Hd (k', claims_for l k')), group_claims. split; [|done].
    assert (c0 ∈ claims_for l k') as [Hc <-]%claims_for_elem by (rw E; by left).
    apply list_elem_of_fmap. eauto. }
  case_bool_decide as E; [|by rw app_nil_r]. subst k'.
  change (sorted_by (fun a => Candidate.candidate_fencing_token (claim_candidate a)))
    with (sorted_by claim_fence).
  rw (claims_sorted_snoc _ claims_for_all) map_app. apply Sorted_snoc; [done|].
  intros b Hb. rw (fmap_last claim_candidate) in Hb.
  destruct (last (sorted_by claim_fence (claims_for l k))) as [c'|] eqn:El; [|done].
  injection Hb as <-. by apply succeeds.
Qed.

Lemma claimed_valid : ledger_valid (claimed l q r).
Proof.
  pose proof claimed_currents as Hcur. pose proof claimed_revisions as Hrev.
  pose proof claimed_disjoint as Hdis. destruct valid. pose proof (fr_fence _ _ fresh) as Hf.
  assert (ledger_candidates (claimed l q r) = ledger_candidates l ++ [c]) as Ec
    by (unfold ledger_candidates; cbn; by rw map_app).
  constructor; rw ?claimed_claims ?Ec; try done.
  - pose proof (c_fence _ (fr_valid _ _ fresh)). cbn. fold c. lia.
  - cbn. rw !length_app. cbn. lia.
  - apply Forall_app. split; [done|]. by apply Forall_singleton.
  - rw map_app app_assoc. cbn [map]. apply NoDup_snoc. done.
  - apply Forall_app. split; [done|]. apply Forall_singleton, fresh_entry_valid, fresh.
  - by apply fresh_fences.
  - apply Forall_app. split; [|by apply Forall_singleton].
    eapply Forall_impl; [exact l_bounded|]. intros e He. cbn in *. fold c. lia.
  - unfold entry_tokens. cbn [candidate_entries claimed]. rw flat_map_app. by apply fresh_tokens.
  - cbn. eapply Forall_impl; [exact l_provenance|]. intros a Ha. by apply (provenance_snoc l _ c).
  - rw l_projection map_app app_assoc. done.
Qed.

Lemma record_claim_complete : _record_replay_claim l q r = Ok (claimed l q r).
Proof.
  unfold _record_replay_claim.
  rw bind_ok_unit ledger_ok bind_ok_unit claim_result_for_ok.
  split; [done|]. split; [done|].
  rw find_claim_fresh; [|by intros ?; apply fresh_id; apply elem_of_app; right]. cbn [mbind result_bind].
  fold c k. destruct (fresh) as [Hc Hf Hl Ht].
  rw bind_ok_unit raise_if_ok. split.
  { rw (bool_decide_eq_false_2 _ Hl) (bool_decide_eq_false_2 _ Ht) bool_decide_eq_false_2; [|apply Hc].
    cbn. lia. }
  rw bind_ok_unit raise_if_ok. split.
  { rw (authorities_for_ok l valid k). by destruct (current_claim l k). }
  rw bind_ok. eexists. rw current_create_ok. split; [split; [done|]; split; [|done]|].
  { apply next_revision_bound. }
  rw bind_ok_unit ledger_ok. split; [apply claimed_valid|done].
Qed.
End ClaimOne.
