(* ===== verification/CasState.v ===== *)
(** * The compare-and-set snapshot and the three operations on it

    [ArtifactHoldExpiryCASState] of [artifact_hold.py], its validation, and the
    functions [apply_artifact_hold_expiry_scan],
    [apply_artifact_hold_expiry_replay_claim] and [apply_artifact_hold_expiry],
    which map a snapshot and a request to the next snapshot and the reply. *)
From S2P Require Import Prelude PyStr Sha256 Json Contract Scan Replay Expire Ledger.
Local Open Scope py_scope.
Local Open Scope Z_scope.

Module CASState.
Record t := Make {
  hold_state : HoldState.t;
  candidate_ledger : LedgerState.t;
  commits : list Commit.t;
  audit_records : list EventRecord.t;
  outbox_records : list EventRecord.t }.

#[global] Instance eq_dec : EqDecision t.
Proof. solve_decision. Defined.

Section Validate.
Context `{RFC8785}.

Definition commit_for (self : t) (expire_operation_id : pystr) : result (option Commit.t) :=
  _require_sha256 expire_operation_id "expire operation ID";;
  match List.filter (fun c => Commit.expire_operation_id c == expire_operation_id)
      (commits self) with
  | [] => Ok None
  | [c] => Ok (Some c)
  | _ => Err (conflict "duplicate expiry commit evidence")
  end.

(** the candidate is issued for the hold's current due tuple *)
Definition same_due_tuple (hold : HoldState.t) (candidate : Candidate.t) : bool :=
  (Candidate.artifact_id candidate == HoldState.artifact_id hold)
  && (Candidate.hold_id candidate == HoldState.hold_id hold)
  && (Candidate.expected_hold_digest candidate == HoldState.hold_digest hold)
  && (Candidate.expected_artifact_version candidate == HoldState.artifact_version hold)
  && (Some (Candidate.observed_expires_ms candidate) == HoldState.expires_ms hold).

(** an unconsumed candidate that no replay claim issued *)
Definition scan_candidate (ledger : LedgerState.t) (entry : LedgerEntry.t) : result bool :=
  if LedgerEntry.consumed entry then Ok false
  else replay ← LedgerState.is_replay_candidate ledger (LedgerEntry.candidate entry);
       Ok (negb replay).

Definition current_incarnation (self : t) (entry : LedgerEntry.t) : result bool :=
  scan ← scan_candidate (candidate_ledger self) entry;
  Ok (scan && same_due_tuple (hold_state self) (LedgerEntry.candidate entry)).

Definition latest (entries : list LedgerEntry.t) : option Candidate.t :=
  max_by Candidate.candidate_fencing_token (map LedgerEntry.candidate entries).

(** [validate]: the projection of an ACTIVE hold is its latest ledger candidate *)
Definition check_projection (self : t) : result unit :=
  if HoldState.hold_status (hold_state self) == ACTIVE then
    entries ← filterR (current_incarnation self)
      (LedgerState.candidate_entries (candidate_ledger self));
    raise_if (HoldState.candidate (hold_state self) != latest entries)
      (conflict "active hold candidate projection is not the latest ledger authority")
  else Ok tt.

Definition check_projected_entry (self : t) : result unit :=
  when_some (HoldState.candidate (hold_state self)) (fun candidate =>
    entry ← LedgerState.candidate_entry_for (candidate_ledger self)
      (Candidate.candidate_lease_id candidate);
    replay ← (if (LedgerEntry.candidate entry != candidate) || LedgerEntry.consumed entry
              then Ok true
              else LedgerState.is_replay_candidate (candidate_ledger self)
                     (LedgerEntry.candidate entry));
    raise_if replay (conflict "hold candidate projection contradicts authoritative ledger")).

(** [validate]: [commits_by_operation] and [results_by_operation] in one dictionary *)
Definition index_commit (d : list (pystr * (Commit.t * ExpiryResult.t))) (commit : Commit.t)
    : result (list (pystr * (Commit.t * ExpiryResult.t))) :=
  Commit.validate commit;;
  raise_if (dict_mem (Commit.expire_operation_id commit) d)
    (conflict "duplicate expiry commit evidence");;
  result ← ExpiryResult.from_canonical_json (Commit.result_json commit);
  Ok (d ++ [(Commit.expire_operation_id commit, (commit, result))]).

Definition index_commits (self : t)
    : result (list (pystr * (Commit.t * ExpiryResult.t))) :=
  foldM index_commit [] (commits self).

(** [validate]: each replay claim against the commit it replays *)
Definition check_claim (self : t) (by_operation : list (pystr * (Commit.t * ExpiryResult.t)))
    (c : LedgerState.claim) : result unit :=
  let '(claim_request, claim_result) := c in
  '(commit, committed_result) ←
    or_raise (dict_get (ReplayClaimRequest.expire_operation_id claim_request) by_operation)
      (conflict "replay claim has no committed expiry evidence");
  raise_if ((ReplayClaimRequest.base_commit_digest claim_request != Commit.commit_digest commit)
      || (ReplayClaimResult.base_commit_digest claim_result != Commit.commit_digest commit))
    (conflict "replay claim base commit digest is not persisted commit");;
  let candidate := ReplayClaimResult.candidate claim_result in
  raise_if ((Candidate.owner_principal_id candidate
               != Commit.authorized_reaper_principal_id commit)
      || (Candidate.artifact_id candidate != ExpiryResult.artifact_id committed_result)
      || (Candidate.hold_id candidate != ExpiryResult.hold_id committed_result)
      || (Candidate.expected_hold_digest candidate != Commit.expected_hold_digest commit)
      || (Candidate.expected_artifact_version candidate
            != Commit.previous_artifact_version commit)
      || (Some (Candidate.observed_expires_ms candidate)
            != HoldState.expires_ms (hold_state self))
      || (Candidate.candidate_fencing_token candidate
            <=? Commit.authorized_reaper_fencing_token commit)
      || (Candidate.issued_at_ms candidate <? Commit.committed_at_ms commit))
    (conflict "replay claim candidate contradicts committed expiry evidence");;
  raise_if ((HoldState.hold_status (hold_state self) != EXPIRED)
      || HoldState.due_indexed (hold_state self)
      || (HoldState.candidate (hold_state self) != None))
    (conflict "replay claim requires the committed terminal hold state").

(** [validate]: [consumed_by_operation] *)
Definition index_consumed (d : list (pystr * LedgerEntry.t)) (entry : LedgerEntry.t)
    : result (list (pystr * LedgerEntry.t)) :=
  match LedgerEntry.consumed_by_expire_operation_id entry with
  | None => Ok d
  | Some operation_id =>
    raise_if (dict_mem operation_id d)
      (conflict "candidate consumption is missing or duplicated");;
    Ok (d ++ [(operation_id, entry)])
  end.

(** [validate]: no newer unconsumed candidate for the expired incarnation *)
Definition check_later_entry (self : t) (candidate : Candidate.t) (later_entry : LedgerEntry.t)
    : result unit :=
  scan ← scan_candidate (candidate_ledger self) later_entry;
  let later := LedgerEntry.candidate later_entry in
  raise_if (scan
      && (Candidate.artifact_id later == Candidate.artifact_id candidate)
      && (Candidate.hold_id later == Candidate.hold_id candidate)
      && (Candidate.expected_hold_digest later == Candidate.expected_hold_digest candidate)
      && (Candidate.observed_expires_ms later == Candidate.observed_expires_ms candidate)
      && (Candidate.candidate_fencing_token candidate
            <? Candidate.candidate_fencing_token later))
    (conflict "terminal hold cannot carry a newer unconsumed candidate").

(** [validate]: a commit on the current resource against the hold state *)
Definition check_current_state (self : t) (commit : Commit.t) (result : ExpiryResult.t)
    (candidate : Candidate.t) : Prelude.result unit :=
  let hold := hold_state self in
  if (ExpiryResult.artifact_id result == HoldState.artifact_id hold)
     && (ExpiryResult.hold_id result == HoldState.hold_id hold)
  then
    raise_if (HoldState.hold_digest hold != Commit.expected_hold_digest commit)
      (conflict "current hold incarnation contradicts committed expiry");;
    raise_if (HoldState.expires_ms hold != Some (Candidate.observed_expires_ms candidate))
      (conflict "current hold expiry timestamp contradicts committed due tuple");;
    raise_if ((HoldState.hold_status hold != EXPIRED)
        || bool_decide (HoldState.hold_id hold ∈ HoldState.active_hold_ids hold)
        || HoldState.due_indexed hold
        || (HoldState.due_score_ms hold != None)
        || (HoldState.candidate hold != None)
        || (HoldState.artifact_version hold <? ExpiryResult.artifact_version result))
      (conflict "current state does not reflect the committed expiry");;
    if HoldState.artifact_version hold == ExpiryResult.artifact_version result then
      retention_locked ← HoldState.retention_locked_at hold (Commit.committed_at_ms commit);
      raise_if ((Commit.remaining_active_hold_count commit
                   != Z.of_nat (size (HoldState.active_hold_ids hold)))
          || (Commit.active_ref_count commit != HoldState.active_ref_count hold)
          || (Commit.minimum_delete_at_ms commit != HoldState.minimum_delete_at_ms hold)
          || (ExpiryResult.retention_locked result != retention_locked))
        (conflict "commit retention evidence contradicts final state")
    else Ok tt
  else Ok tt.

(** [validate]: a commit against the candidate it consumed and its event records *)
Definition check_commit (self : t) (consumed : list (pystr * LedgerEntry.t))
    (item : pystr * (Commit.t * ExpiryResult.t)) : result unit :=
  let '(operation_id, (commit, stored_result)) := item in
  entry ← or_raise (dict_get operation_id consumed) LedgerState.key_error;
  raise_if (LedgerEntry.consumed_at_ms entry != Some (Commit.committed_at_ms commit))
    (conflict "candidate tombstone timestamp contradicts commit");;
  let candidate := LedgerEntry.candidate entry in
  raise_if (Commit.authorized_reaper_fencing_token commit
      != Candidate.candidate_fencing_token candidate)
    (conflict "commit fence contradicts consumed candidate");;
  raise_if (Candidate.candidate_digest candidate != Commit.authorized_candidate_digest commit)
    (conflict "commit candidate digest contradicts consumed candidate");;
  raise_if (negb ((Candidate.issued_at_ms candidate <=? Commit.committed_at_ms commit)
      && (Commit.committed_at_ms commit <? Candidate.lease_until_ms candidate)))
    (conflict "commit time is outside candidate lease");;
  raise_if (Commit.committed_at_ms commit <? Candidate.observed_expires_ms candidate)
    (conflict "commit time precedes observed expiry");;
  request ← ExpireRequest.create candidate;
  result ← Commit._validate_result_for_request commit request
    (Candidate.owner_principal_id candidate) (Candidate.candidate_fencing_token candidate)
    ARTIFACT_HOLD_REAPER_COMPONENT_TYPE ARTIFACT_HOLD_EXPIRY_SUBJECT None;
  raise_if (result != stored_result) (conflict "commit result evidence drifted");;
  forM_ (check_later_entry self candidate)
    (LedgerState.candidate_entries (candidate_ledger self));;
  expected_audit ← EventRecord.create AUDIT commit;
  expected_outbox ← EventRecord.create OUTBOX commit;
  raise_if (count expected_audit (audit_records self) != 1%nat)
    (conflict "commit does not have exactly one bound audit record");;
  raise_if (count expected_outbox (outbox_records self) != 1%nat)
    (conflict "commit does not have exactly one bound outbox record");;
  check_current_state self commit result candidate.

Definition check_record (sink : ArtifactHoldExpiryEventSink) (message : string)
    (record : EventRecord.t) : result unit :=
  raise_if (EventRecord.sink record != sink) (conflict message);;
  EventRecord.validate record.

(** [validate]: the last part, the cardinalities and the records themselves *)
Definition check_records (self : t) : result unit :=
  raise_if (length (audit_records self) != length (commits self))
    (conflict "audit ledger cardinality mismatch");;
  raise_if (length (outbox_records self) != length (commits self))
    (conflict "outbox ledger cardinality mismatch");;
  forM_ (check_record AUDIT "audit ledger contains invalid record") (audit_records self);;
  forM_ (check_record OUTBOX "outbox ledger contains invalid record") (outbox_records self).

Definition validate (self : t) : result unit :=
  HoldState.validate (hold_state self);;
  LedgerState.validate (candidate_ledger self);;
  check_projection self;;
  check_projected_entry self;;
  by_operation ← index_commits self;
  forM_ (check_claim self by_operation) (LedgerState.claims (candidate_ledger self));;
  consumed ← foldM index_consumed []
    (LedgerState.candidate_entries (candidate_ledger self));
  raise_if (LedgerState.keys consumed != LedgerState.keys by_operation)
    (conflict "candidate tombstones and commit evidence are not atomic");;
  forM_ (check_commit self consumed) by_operation;;
  check_records self.

Definition create (hold_state : HoldState.t) (candidate_ledger : LedgerState.t) : result t :=
  let created := Make hold_state candidate_ledger [] [] [] in
  validate created;;
  Ok created.
End Validate.
End CASState.

(** ** [apply_artifact_hold_expiry_scan] *)
Section Scan.
Context `{RFC8785}.

(** What a loop that has used up the given random draws stands for: the source
    keeps drawing.  [draw_distinct_total] shows that one draw that differs from
    the lease identifier ends the loop. *)
Definition out_of_draws : exn := RuntimeError "random draws exhausted".

(** the [while candidate_token == candidate_lease_id] loop *)
Fixpoint draw_distinct (candidate_lease_id : pystr) (draws : list pybytes) : result pystr :=
  match draws with
  | [] => Err out_of_draws
  | random :: draws =>
    let candidate_token := _new_candidate_token random in
    if candidate_token == candidate_lease_id then draw_distinct candidate_lease_id draws
    else Ok candidate_token
  end.

(** [draws] are the results of the successive 32-byte reads of the State-side
    random source. *)
Definition _allocate_scan_candidate (draws : list pybytes) (request : ScanRequest.t)
    (state : CASState.t) (hold : HoldState.t) (server_now_ms : Z)
    (principal_id instance_id : pystr) : result ScanAllocation.t :=
  let previous_fence_high_water :=
    LedgerState.candidate_fence_high_water (CASState.candidate_ledger state) in
  let next_fence := previous_fence_high_water + 1 in
  let lease_until_ms := server_now_ms + ARTIFACT_HOLD_CANDIDATE_LEASE_MAX_MS in
  match draws with
  | [] => Err out_of_draws
  | random :: draws =>
    let candidate_lease_id := _new_candidate_token random in
    candidate_token ← draw_distinct candidate_lease_id draws;
    candidate ← Candidate.create (ScanRequest.scan_operation_id request) candidate_lease_id
      next_fence candidate_token principal_id instance_id server_now_ms lease_until_ms
      (HoldState.artifact_id hold) (HoldState.hold_id hold) (HoldState.hold_digest hold)
      (HoldState.artifact_version hold) (default 0 (HoldState.expires_ms hold));
    ScanAllocation._issue_scan_allocation request candidate previous_fence_high_water
  end.

(** the loop over the persisted scans: [Some r] replies with the stored result *)
Fixpoint stored_scan (request : ScanRequest.t) (principal_id instance_id : pystr)
    (stored : list (ScanRequest.t * ScanResult.t)) : result (option ScanResult.t) :=
  match stored with
  | [] => Ok None
  | (stored_request, stored_result) :: stored =>
    if ScanRequest.scan_operation_id stored_request != ScanRequest.scan_operation_id request
    then stored_scan request principal_id instance_id stored
    else
      raise_if (stored_request != request)
        (conflict "scan ID already has different persisted request or result");;
      raise_if (existsb (fun candidate =>
            (Candidate.owner_principal_id candidate != principal_id)
            || (Candidate.owner_instance_id candidate != instance_id))
          (ScanResult.candidates stored_result))
        (conflict "scan result candidate owner does not match authenticated reaper");;
      Ok (Some stored_result)
  end.

(** the checks on each allocated candidate *)
Definition check_scan_candidate (state : CASState.t) (hold : HoldState.t) (server_now_ms : Z)
    (principal_id instance_id : pystr) (candidate : Candidate.t) : result unit :=
  raise_if ((Candidate.owner_principal_id candidate != principal_id)
      || (Candidate.owner_instance_id candidate != instance_id))
    (conflict "scan candidate owner does not match authenticated reaper");;
  raise_if (negb ((Candidate.issued_at_ms candidate <=? server_now_ms)
      && (server_now_ms <? Candidate.lease_until_ms candidate)))
    (conflict "scan candidate lease is not live at server time");;
  raise_if (Candidate.issued_at_ms candidate <? Candidate.observed_expires_ms candidate)
    (conflict "scan candidate was issued before observed expiry");;
  raise_if (negb (CASState.same_due_tuple hold candidate))
    (conflict "scan candidate does not match current due tuple");;
  raise_if (Candidate.candidate_fencing_token candidate
      <=? LedgerState.candidate_fence_high_water (CASState.candidate_ledger state))
    (conflict "scan candidate fence is not above persisted high-water").

(** [latest_candidate] of the updated ledger *)
Definition latest_candidate (ledger : LedgerState.t) (hold : HoldState.t)
    : option Candidate.t :=
  CASState.latest (List.filter (fun entry => negb (LedgerEntry.consumed entry)
      && CASState.same_due_tuple hold (LedgerEntry.candidate entry))
    (LedgerState.candidate_entries ledger)).

(** the checks on the authenticated context *)
Definition check_scan_context (server_now_ms : Z)
    (principal_id instance_id component_type subject : pystr) : result unit :=
  require_integer server_now_ms "server_now_ms" 0;;
  _require_stable_text principal_id "authenticated reaper principal";;
  _require_stable_text instance_id "authenticated reaper instance";;
  _require_stable_text component_type "authenticated component type";;
  _require_stable_text subject "authenticated subject";;
  raise_if (component_type != ARTIFACT_HOLD_REAPER_COMPONENT_TYPE)
    (conflict "only artifact-hold-reaper may scan hold expiry");;
  raise_if (principal_id != ARTIFACT_HOLD_REAPER_PRINCIPAL_ID)
    (conflict "authenticated principal is not the configured artifact-hold-reaper");;
  raise_if (subject != ARTIFACT_HOLD_EXPIRY_SUBJECT)
    (conflict "hold expiry scan used a forbidden subject").

Definition apply_artifact_hold_expiry_scan (draws : list pybytes) (request : ScanRequest.t)
    (state : CASState.t) (server_now_ms : Z)
    (principal_id instance_id component_type subject : pystr)
    : result (CASState.t * ScanResult.t) :=
  ScanRequest.validate request;;
  CASState.validate state;;
  check_scan_context server_now_ms principal_id instance_id component_type subject;;
  stored ← stored_scan request principal_id instance_id
    (LedgerState.scans (CASState.candidate_ledger state));
  match stored with
  | Some stored_result => Ok (state, stored_result)
  | None =>
    let hold := CASState.hold_state state in
    raise_if (HoldState.hold_status hold != ACTIVE)
      (conflict "scan requires an ACTIVE hold");;
    due_score_ms ← or_raise
      (if (HoldState.expires_ms hold == None) || negb (HoldState.due_indexed hold)
       then None else HoldState.due_score_ms hold)
      (conflict "scan requires a persisted due hold");
    raise_if (server_now_ms <? due_score_ms)
      (conflict "scan server time precedes due score");;
    allocation ← _allocate_scan_candidate draws request state hold server_now_ms principal_id
      instance_id;
    result ← ScanResult.create request [ScanAllocation.candidate allocation];
    forM_ (check_scan_candidate state hold server_now_ms principal_id instance_id)
      (ScanResult.candidates result);;
    updated_ledger ← LedgerState._record_scan (CASState.candidate_ledger state) request result
      [allocation];
    let updated := CASState.Make
      (HoldState.with_candidate hold (latest_candidate updated_ledger hold))
      updated_ledger (CASState.commits state) (CASState.audit_records state)
      (CASState.outbox_records state) in
    CASState.validate updated;;
    Ok (updated, result)
  end.
End Scan.

(** ** [apply_artifact_hold_expiry_replay_claim] *)
Section ReplayClaim.
Context `{RFC8785}.

(** the loop over the persisted claims *)
Fixpoint stored_claim (request : ReplayClaimRequest.t) (principal_id instance_id : pystr)
    (stored : list LedgerState.claim) : result (option ReplayClaimResult.t) :=
  match stored with
  | [] => Ok None
  | (stored_request, stored_result) :: stored =>
    if ReplayClaimRequest.replay_operation_id stored_request
       != ReplayClaimRequest.replay_operation_id request
    then stored_claim request principal_id instance_id stored
    else
      raise_if (stored_request != request)
        (conflict "replay claim ID already has a different request");;
      let candidate := ReplayClaimResult.candidate stored_result in
      raise_if ((Candidate.owner_principal_id candidate != principal_id)
          || (Candidate.owner_instance_id candidate != instance_id))
        (conflict "persisted replay claim is not owned by authenticated reaper");;
      Ok (Some stored_result)
  end.

Definition check_claim_context (server_now_ms lease_until_ms : Z)
    (principal_id instance_id component_type subject : pystr) : result unit :=
  require_integer server_now_ms "server_now_ms" 0;;
  require_integer lease_until_ms "replay claim lease_until_ms" 0;;
  _require_stable_text principal_id "authenticated reaper principal";;
  _require_stable_text instance_id "authenticated reaper instance";;
  _require_stable_text component_type "authenticated component type";;
  _require_stable_text subject "authenticated subject";;
  raise_if (component_type != ARTIFACT_HOLD_REAPER_COMPONENT_TYPE)
    (conflict "only artifact-hold-reaper may claim expiry replay");;
  raise_if (subject != ARTIFACT_HOLD_EXPIRY_SUBJECT)
    (conflict "hold expiry replay claim used a forbidden subject").

(** the request against the committed expiry and the candidate it consumed *)
Definition check_claim_request (request : ReplayClaimRequest.t) (state : CASState.t)
    (commit : Commit.t) (principal_id : pystr) : result unit :=
  raise_if (ReplayClaimRequest.base_commit_digest request != Commit.commit_digest commit)
    (conflict "replay claim base commit digest does not match persisted commit");;
  committed_result ← ExpiryResult.from_canonical_json (Commit.result_json commit);
  original_candidate ←
    match List.filter (fun entry => LedgerEntry.consumed_by_expire_operation_id entry
        == Some (ReplayClaimRequest.expire_operation_id request))
      (LedgerState.candidate_entries (CASState.candidate_ledger state)) with
    | [entry] => Ok (LedgerEntry.candidate entry)
    | _ => Err (conflict "replay claim requires exactly one consumed expiry candidate")
    end;
  mismatch ←
    (if (ReplayClaimRequest.artifact_id request != Candidate.artifact_id original_candidate)
        || (ReplayClaimRequest.hold_id request != Candidate.hold_id original_candidate)
        || (ReplayClaimRequest.expected_hold_digest request
              != Candidate.expected_hold_digest original_candidate)
        || (ReplayClaimRequest.expected_artifact_version request
              != Candidate.expected_artifact_version original_candidate)
        || (ReplayClaimRequest.observed_expires_ms request
              != Candidate.observed_expires_ms original_candidate)
     then Ok true
     else
       operation_id ← artifact_hold_expiry_operation_id
         (Candidate.artifact_id original_candidate) (Candidate.hold_id original_candidate)
         (Candidate.expected_hold_digest original_candidate)
         (Candidate.expected_artifact_version original_candidate)
         (Candidate.observed_expires_ms original_candidate);
       Ok ((ReplayClaimRequest.expire_operation_id request != operation_id)
           || (ExpiryResult.artifact_id committed_result
                 != ReplayClaimRequest.artifact_id request)
           || (ExpiryResult.hold_id committed_result != ReplayClaimRequest.hold_id request)));
  raise_if mismatch (conflict "replay claim request does not match committed expiry");;
  raise_if (principal_id != Commit.authorized_reaper_principal_id commit)
    (conflict "replay claim principal does not own committed expiry");;
  let hold := CASState.hold_state state in
  raise_if ((HoldState.hold_status hold != EXPIRED)
      || (HoldState.artifact_id hold != ReplayClaimRequest.artifact_id request)
      || (HoldState.hold_id hold != ReplayClaimRequest.hold_id request)
      || (HoldState.hold_digest hold != ReplayClaimRequest.expected_hold_digest request)
      || (HoldState.expires_ms hold != Some (ReplayClaimRequest.observed_expires_ms request))
      || HoldState.due_indexed hold
      || (HoldState.candidate hold != None)
      || (HoldState.artifact_version hold <? ExpiryResult.artifact_version committed_result))
    (conflict "replay claim requires the committed terminal hold state").

(** a claim whose lease still runs blocks the next one *)
Definition check_current_lease (state : CASState.t) (expire_operation_id : pystr)
    (server_now_ms : Z) : result unit :=
  current ← LedgerState.current_replay_claim_for_expire_operation
    (CASState.candidate_ledger state) expire_operation_id;
  when_some current (fun c =>
    let current_candidate := LedgerState.claim_candidate c in
    raise_if (server_now_ms <? Candidate.issued_at_ms current_candidate)
      (conflict "server time predates current replay authority");;
    raise_if (server_now_ms <? Candidate.lease_until_ms current_candidate)
      (conflict "current replay authority lease is still live")).

Definition apply_artifact_hold_expiry_replay_claim (request : ReplayClaimRequest.t)
    (state : CASState.t) (server_now_ms lease_until_ms : Z)
    (principal_id instance_id component_type subject : pystr)
    : result (CASState.t * ReplayClaimResult.t) :=
  ReplayClaimRequest.validate request;;
  CASState.validate state;;
  check_claim_context server_now_ms lease_until_ms principal_id instance_id component_type
    subject;;
  stored ← stored_claim request principal_id instance_id
    (LedgerState.claims (CASState.candidate_ledger state));
  match stored with
  | Some stored_result => Ok (state, stored_result)
  | None =>
    raise_if (lease_until_ms <=? server_now_ms)
      (conflict "replay claim lease must be live");;
    commit ← CASState.commit_for state (ReplayClaimRequest.expire_operation_id request);
    commit ← or_raise commit
      (conflict "replay claim requires persisted expiry commit evidence");
    check_claim_request request state commit principal_id;;
    check_current_lease state (ReplayClaimRequest.expire_operation_id request) server_now_ms;;
    candidate ← Candidate.create (ReplayClaimRequest.replay_operation_id request)
      (ReplayClaimRequest.candidate_lease_id request)
      (LedgerState.candidate_fence_high_water (CASState.candidate_ledger state) + 1)
      (ReplayClaimRequest.candidate_token request) principal_id instance_id server_now_ms
      lease_until_ms (ReplayClaimRequest.artifact_id request)
      (ReplayClaimRequest.hold_id request) (ReplayClaimRequest.expected_hold_digest request)
      (ReplayClaimRequest.expected_artifact_version request)
      (ReplayClaimRequest.observed_expires_ms request);
    result ← ReplayClaimResult.create request candidate;
    updated_ledger ← LedgerState._record_replay_claim (CASState.candidate_ledger state)
      request result;
    let updated := CASState.Make (CASState.hold_state state) updated_ledger
      (CASState.commits state) (CASState.audit_records state)
      (CASState.outbox_records state) in
    CASState.validate updated;;
    Ok (updated, result)
  end.
End ReplayClaim.

(** ** [apply_artifact_hold_expiry] *)
Section Expire.
Context `{RFC8785}.

(** a request whose operation is already committed: the retry and the replay *)
Definition replay_committed (request : ExpireRequest.t) (state : CASState.t)
    (committed : Commit.t) (server_now_ms : Z) (principal_id instance_id : pystr)
    (fencing_token : Z) (component_type subject : pystr)
    : result (CASState.t * ExpiryResult.t) :=
  authority ← LedgerState.require_replay_authority (CASState.candidate_ledger state) request
    principal_id instance_id fencing_token server_now_ms;
  result ← Commit._validate_result_for_request committed request principal_id fencing_token
    component_type subject (Some authority);
  let hold := CASState.hold_state state in
  raise_if ((HoldState.artifact_id hold != ExpireRequest.artifact_id request)
      || (HoldState.hold_id hold != ExpireRequest.hold_id request))
    (conflict "committed expiry cannot replay for a different current resource");;
  raise_if (HoldState.hold_digest hold != Commit.expected_hold_digest committed)
    (conflict "committed expiry cannot replay for a different hold incarnation");;
  raise_if (HoldState.artifact_version hold <? ExpiryResult.artifact_version result)
    (conflict "current artifact version predates the committed expiry");;
  Ok (state, result).

(** a request that commits the expiry *)
Definition commit_expiry (request : ExpireRequest.t) (state : CASState.t) (server_now_ms : Z)
    (principal_id instance_id : pystr) (fencing_token : Z) (component_type subject : pystr)
    : result (CASState.t * ExpiryResult.t) :=
  entry ← LedgerState.candidate_entry_for (CASState.candidate_ledger state)
    (ExpireRequest.candidate_lease_id request);
  raise_if (LedgerEntry.consumed entry)
    (conflict "candidate authority was already consumed");;
  raise_if (HoldState.candidate (CASState.hold_state state)
      != Some (LedgerEntry.candidate entry))
    (conflict "current candidate projection is not authoritative");;
  '(updated_hold, result, commit) ← _project_artifact_hold_expiry request
    (CASState.hold_state state) server_now_ms principal_id instance_id fencing_token
    component_type subject;
  updated_ledger ← LedgerState.consume_candidate (CASState.candidate_ledger state) request
    server_now_ms;
  audit_record ← EventRecord.create AUDIT commit;
  outbox_record ← EventRecord.create OUTBOX commit;
  let updated := CASState.Make updated_hold updated_ledger
    (CASState.commits state ++ [commit]) (CASState.audit_records state ++ [audit_record])
    (CASState.outbox_records state ++ [outbox_record]) in
  CASState.validate updated;;
  Ok (updated, result).

Definition apply_artifact_hold_expiry (request : ExpireRequest.t) (state : CASState.t)
    (server_now_ms : Z) (principal_id instance_id : pystr) (fencing_token : Z)
    (component_type subject : pystr) : result (CASState.t * ExpiryResult.t) :=
  ExpireRequest.validate request;;
  check_expiry_context server_now_ms principal_id instance_id fencing_token
    component_type subject;;
  CASState.validate state;;
  committed ← CASState.commit_for state (ExpireRequest.expire_operation_id request);
  match committed with
  | Some committed =>
    replay_committed request state committed server_now_ms principal_id instance_id
      fencing_token component_type subject
  | None =>
    commit_expiry request state server_now_ms principal_id instance_id fencing_token
      component_type subject
  end.
End Expire.
