(* ===== verification/CasFacts.v ===== *)
(** * Well-formedness of the compare-and-set snapshot

    [cas_valid] is the invariant that ties the hold, the candidate ledger, the
    commits and the two event ledgers together; [CASState.validate] accepts
    exactly the snapshots that satisfy it ([cas_ok]). *)
From S2P Require Import Prelude ListFacts PyStr Sha256 Json Contract ContractFacts Scan ScanFacts.
From S2P Require Import Replay ReplayFacts Expire ExpireFacts Wire CommitFacts TransitionFacts.
From S2P Require Import Ledger LedgerFacts LedgerOps LedgerIssue LedgerClaims CasState.
Local Open Scope py_scope.
Local Open Scope Z_scope.
Import CASState.

Abbreviation entries s := (LedgerState.candidate_entries (candidate_ledger s)).

(** ** The invariant *)
(** an unconsumed entry that no replay claim issued *)
Definition live_scan (l : LedgerState.t) (e : LedgerEntry.t) : bool :=
  negb (LedgerEntry.consumed e)
  && negb (bool_decide (LedgerEntry.candidate e
             ∈ map LedgerState.claim_candidate (LedgerState.claims l))).

(** the candidate an ACTIVE hold projects: the live one of its incarnation with the greatest fence *)
Definition projected (s : CASState.t) : option Candidate.t :=
  latest (List.filter (fun e => live_scan (candidate_ledger s) e
    && same_due_tuple (hold_state s) (LedgerEntry.candidate e)) (entries s)).

(** the operations whose candidate is consumed *)
Definition consumed_operations (l : LedgerState.t) : list pystr :=
  omap LedgerEntry.consumed_by_expire_operation_id (LedgerState.candidate_entries l).

Definition no_decoded_result : ExpiryResult.t :=
  ExpiryResult.Make [] [] [] [] [] [] EXPIRED 0 false [] [] [].

Section Invariant.
Context `{RFC8785}.

(** the result a commit stores *)
Definition committed_result (k : Commit.t) : ExpiryResult.t :=
  match ExpiryResult.from_canonical_json (Commit.result_json k) with
  | Ok r => r
  | Err _ => no_decoded_result
  end.

(** a replay claim against the commit it replays *)
Record claim_committed (s : CASState.t) (k : Commit.t) (c : LedgerState.claim) : Prop := {
  cc_operation : Commit.expire_operation_id k = claim_expire c;
  cc_request : ReplayClaimRequest.base_commit_digest c.1 = Commit.commit_digest k;
  cc_result : ReplayClaimResult.base_commit_digest c.2 = Commit.commit_digest k;
  cc_principal : Candidate.owner_principal_id (LedgerState.claim_candidate c)
    = Commit.authorized_reaper_principal_id k;
  cc_artifact : Candidate.artifact_id (LedgerState.claim_candidate c)
    = ExpiryResult.artifact_id (committed_result k);
  cc_hold : Candidate.hold_id (LedgerState.claim_candidate c)
    = ExpiryResult.hold_id (committed_result k);
  cc_digest : Candidate.expected_hold_digest (LedgerState.claim_candidate c)
    = Commit.expected_hold_digest k;
  cc_version : Candidate.expected_artifact_version (LedgerState.claim_candidate c)
    = Commit.previous_artifact_version k;
  cc_expires : HoldState.expires_ms (hold_state s)
    = Some (Candidate.observed_expires_ms (LedgerState.claim_candidate c));
  cc_fence : Commit.authorized_reaper_fencing_token k < LedgerState.claim_fence c;
  cc_time : Commit.committed_at_ms k <= Candidate.issued_at_ms (LedgerState.claim_candidate c);
  cc_terminal : HoldState.hold_status (hold_state s) = EXPIRED
    /\ HoldState.due_indexed (hold_state s) = false /\ HoldState.candidate (hold_state s) = None }.

(** a later live candidate for the incarnation a commit expired *)
Definition supersedes (l : LedgerState.t) (c : Candidate.t) (e : LedgerEntry.t) : bool :=
  let c' := LedgerEntry.candidate e in
  live_scan l e
  && (Candidate.artifact_id c' == Candidate.artifact_id c)
  && (Candidate.hold_id c' == Candidate.hold_id c)
  && (Candidate.expected_hold_digest c' == Candidate.expected_hold_digest c)
  && (Candidate.observed_expires_ms c' == Candidate.observed_expires_ms c)
  && (Candidate.candidate_fencing_token c <? Candidate.candidate_fencing_token c').

(** the hold after a commit on it *)
Record reflects (h : HoldState.t) (k : Commit.t) (r : ExpiryResult.t) (c : Candidate.t) : Prop := {
  rf_digest : HoldState.hold_digest h = Commit.expected_hold_digest k;
  rf_expires : HoldState.expires_ms h = Some (Candidate.observed_expires_ms c);
  rf_status : HoldState.hold_status h = EXPIRED;
  rf_holds : HoldState.hold_id h ∉ HoldState.active_hold_ids h;
  rf_indexed : HoldState.due_indexed h = false;
  rf_score : HoldState.due_score_ms h = None;
  rf_candidate : HoldState.candidate h = None;
  rf_version : ExpiryResult.artifact_version r <= HoldState.artifact_version h;
  rf_retention : HoldState.artifact_version h = ExpiryResult.artifact_version r ->
    Commit.remaining_active_hold_count k = Z.of_nat (size (HoldState.active_hold_ids h))
    /\ Commit.active_ref_count k = HoldState.active_ref_count h
    /\ Commit.minimum_delete_at_ms k = HoldState.minimum_delete_at_ms h
    /\ ExpiryResult.retention_locked r = HoldState.retention_locked h (Commit.committed_at_ms k) }.

(** a commit against the entry it consumed *)
Record commit_evidence (s : CASState.t) (k : Commit.t) (e : LedgerEntry.t) : Prop := {
  ce_operation : LedgerEntry.consumed_by_expire_operation_id e = Some (Commit.expire_operation_id k);
  ce_time : LedgerEntry.consumed_at_ms e = Some (Commit.committed_at_ms k);
  ce_fence : Commit.authorized_reaper_fencing_token k = entry_fence e;
  ce_digest : Candidate.candidate_digest (LedgerEntry.candidate e)
    = Commit.authorized_candidate_digest k;
  ce_principal : Candidate.owner_principal_id (LedgerEntry.candidate e)
    = Commit.authorized_reaper_principal_id k;
  ce_lease : Candidate.issued_at_ms (LedgerEntry.candidate e) <= Commit.committed_at_ms k
    < Candidate.lease_until_ms (LedgerEntry.candidate e);
  ce_due : Candidate.observed_expires_ms (LedgerEntry.candidate e) <= Commit.committed_at_ms k;
  ce_request : exists q, expire_request_valid q /\ bound q (LedgerEntry.candidate e)
    /\ commit_for_request k q (committed_result k);
  ce_last : Forall (fun e' => supersedes (candidate_ledger s) (LedgerEntry.candidate e) e' = false)
    (entries s);
  ce_hold : ExpiryResult.artifact_id (committed_result k) = HoldState.artifact_id (hold_state s) ->
    ExpiryResult.hold_id (committed_result k) = HoldState.hold_id (hold_state s) ->
    reflects (hold_state s) k (committed_result k) (LedgerEntry.candidate e) }.

(** the records of one sink: those of the commits, one each, in some order *)
Definition recorded (sink : ArtifactHoldExpiryEventSink) (ks : list Commit.t)
    (records : list EventRecord.t) : Prop :=
  exists evs, Forall2 (fun k e => EventRecord.create sink k = Ok e) ks evs /\ records ≡ₚ evs.

Record cas_valid (s : CASState.t) : Prop := {
  s_hold : hold_valid (hold_state s);
  s_ledger : ledger_valid (candidate_ledger s);
  s_projection : HoldState.hold_status (hold_state s) = ACTIVE ->
    HoldState.candidate (hold_state s) = projected s;
  s_projected : forall c, HoldState.candidate (hold_state s) = Some c ->
    exists e, e ∈ entries s /\ LedgerEntry.candidate e = c /\ live_scan (candidate_ledger s) e = true;
  s_commits : Forall commit_valid (commits s);
  s_operations : NoDup (map Commit.expire_operation_id (commits s));
  s_claims : Forall (fun c => exists k, k ∈ commits s /\ claim_committed s k c)
    (LedgerState.claims (candidate_ledger s));
  s_consumed :
    consumed_operations (candidate_ledger s) ≡ₚ map Commit.expire_operation_id (commits s);
  s_evidence : Forall (fun k => exists e, e ∈ entries s /\ commit_evidence s k e) (commits s);
  s_audit : recorded AUDIT (commits s) (audit_records s);
  s_outbox : recorded OUTBOX (commits s) (outbox_records s) }.
End Invariant.

(** ** The loops of [validate] *)
Lemma filterR_total {A} (f : A -> result bool) (g : A -> bool) l :
  (forall a, f a = Ok (g a)) -> filterR f l = Ok (List.filter g l).
Proof.
  intros Hf. induction l as [|a l IH]; cbn; [done|]. rw Hf IH. cbn. by destruct (g a).
Qed.

(** consumption, as a dictionary from operations to entries *)
Definition consumption (es : list LedgerEntry.t) : list (pystr * LedgerEntry.t) :=
  omap (fun e => (fun o => (o, e)) <$> LedgerEntry.consumed_by_expire_operation_id e) es.

Lemma consumption_keys es :
  map fst (consumption es) = omap LedgerEntry.consumed_by_expire_operation_id es.
Proof.
  unfold consumption. induction es as [|e es IH]; cbn; [done|].
  destruct (LedgerEntry.consumed_by_expire_operation_id e); cbn; by rw IH.
Qed.

Lemma consumption_elem es o e : (o, e) ∈ consumption es <->
  e ∈ es /\ LedgerEntry.consumed_by_expire_operation_id e = Some o.
Proof.
  unfold consumption. rw list_elem_of_omap. split.
  - intros (e' & He' & Hm). destruct (LedgerEntry.consumed_by_expire_operation_id e') eqn:E; [|done].
    cbn in Hm. by injection Hm as -> ->.
  - intros [He E]. exists e. by rw E.
Qed.

Lemma index_consumed_ok d es d' : NoDup (map fst d) ->
  foldM index_consumed d es = Ok d' <->
  NoDup (map fst d ++ omap LedgerEntry.consumed_by_expire_operation_id es)
  /\ d' = d ++ consumption es.
Proof.
  revert d. induction es as [|e es IH]; intros d Hd; cbn [foldM].
  - cbn. rw !app_nil_r Ok_inj_iff. naive_solver.
  - rw bind_ok. unfold consumption. cbn [omap list_omap]. unfold index_consumed at 1.
    destruct (LedgerEntry.consumed_by_expire_operation_id e) as [o|] eqn:E; cbn [fmap option_fmap option_map].
    + assert (forall d1, (raise_if (dict_mem o d) (conflict "candidate consumption is missing or duplicated");;
        Ok (d ++ [(o, e)])) = Ok d1 <-> NoDup (map fst (d ++ [(o, e)])) /\ d1 = d ++ [(o, e)]) as H1.
      { intros d1. rw bind_ok_unit raise_if_ok Ok_inj_iff map_app NoDup_snoc. unfold dict_mem.
        rw eqb_false_iff. naive_solver. }
      setoid_rewrite H1. rw (cons_middle o) app_assoc. split.
      * intros (d1 & [Hn ->] & Hl). apply IH in Hl as [Hl ->]; [|done].
        rw map_app in Hl. split; [done|]. by rw -app_assoc.
      * intros [Hn ->]. pose proof Hn as [Hn1 _]%NoDup_app.
        eexists. rw map_app. split; [done|]. apply IH; [by rw map_app|]. rw map_app.
        split; [done|]. by rw -app_assoc.
    + split; [intros (d1 & [= <-] & Hl); by apply IH in Hl|].
      intros Hl. exists d. split; [done|]. by apply IH.
Qed.

Lemma NoDup_same_perm {A} (l l' : list A) : NoDup l' ->
  (NoDup l /\ (forall x, x ∈ l <-> x ∈ l')) <-> l ≡ₚ l'.
Proof.
  intros Hl'. split; [intros [? ?]; by apply NoDup_Permutation|].
  intros Hp. split; [by rw Hp|]. intros x. by rw Hp.
Qed.

Section Loops.
Context `{RFC8785} (s : CASState.t) (HL : ledger_valid (candidate_ledger s)).

Lemma scan_candidate_total e : scan_candidate (candidate_ledger s) e
  = Ok (live_scan (candidate_ledger s) e).
Proof.
  unfold scan_candidate, live_scan. destruct (LedgerEntry.consumed e); [done|]. cbn.
  rw (proj2 (is_replay_candidate_ok _ HL (LedgerEntry.candidate e) _) eq_refl). done.
Qed.

Lemma live_scan_iff l e : live_scan l e = true <->
  LedgerEntry.consumed e = false
  /\ LedgerEntry.candidate e ∉ map LedgerState.claim_candidate (LedgerState.claims l).
Proof. unfold live_scan. by rw andb_true_iff !negb_true_iff eqb_false_iff. Qed.

Lemma check_projection_ok x : check_projection s = Ok x <->
  (HoldState.hold_status (hold_state s) = ACTIVE -> HoldState.candidate (hold_state s) = projected s).
Proof.
  destruct x. unfold check_projection. case_bool_decide as E.
  - rw (filterR_total _ (fun e => live_scan (candidate_ledger s) e
      && same_due_tuple (hold_state s) (LedgerEntry.candidate e))).
    + cbn [mbind result_bind]. rw raise_if_ok neqb_false. unfold projected. naive_solver.
    + intros e. unfold current_incarnation. rw scan_candidate_total. done.
  - split; [by intros _ ?|done].
Qed.

Lemma check_projected_entry_ok x : check_projected_entry s = Ok x <->
  (forall c, HoldState.candidate (hold_state s) = Some c ->
    exists e, e ∈ entries s /\ LedgerEntry.candidate e = c /\ live_scan (candidate_ledger s) e = true).
Proof.
  unfold check_projected_entry. rw when_some_ok. apply forall_proper. intros c.
  assert (forall P Q R : Prop, (P -> (Q <-> R)) -> (P -> Q) <-> (P -> R)) as Himp by tauto.
  apply Himp. intros _. rw bind_ok. setoid_rewrite (candidate_entry_for_ok _ HL). split.
  - intros (e & [He El] & Hr). exists e. split; [done|].
    apply bind_ok in Hr as (b & Hb & ->%raise_if_ok).
    destruct (decide (LedgerEntry.candidate e = c)) as [Ec|Ec];
      [|by rw (bool_decide_eq_false_2 _ Ec) in Hb].
    rw (bool_decide_eq_true_2 _ Ec) in Hb. cbn in Hb. split; [done|]. apply live_scan_iff.
    destruct (LedgerEntry.consumed e); [done|]. split; [done|].
    apply is_replay_candidate_ok in Hb; [|done]. symmetry in Hb. by apply bool_decide_eq_false in Hb.
  - intros (e & He & <- & [Hc Hn]%live_scan_iff). exists e. split; [done|].
    rw (bool_decide_eq_true_2 (LedgerEntry.candidate e = _)) // Hc. cbn.
    rw (proj2 (is_replay_candidate_ok _ HL (LedgerEntry.candidate e) false)); [done|].
    symmetry. by apply bool_decide_eq_false.
Qed.

(** the commits by operation, with their decoded results *)
Definition commit_index (ks : list Commit.t) : list (pystr * (Commit.t * ExpiryResult.t)) :=
  map (fun k => (Commit.expire_operation_id k, (k, committed_result k))) ks.

Lemma index_commits_ok d : index_commits s = Ok d <->
  Forall commit_valid (commits s) /\ NoDup (map Commit.expire_operation_id (commits s))
  /\ d = commit_index (commits s).
Proof.
  assert (forall d0 k d', index_commit d0 k = Ok d' <-> commit_valid k
    /\ Commit.expire_operation_id k ∉ map fst d0
    /\ d' = d0 ++ [(Commit.expire_operation_id k, (k, committed_result k))]) as Hi.
  { intros d0 k d'. unfold index_commit, committed_result.
    rw bind_ok_unit commit_ok bind_ok_unit raise_if_ok bind_ok. unfold dict_mem. rw eqb_false_iff.
    split.
    - intros (Hk & Hn & r & Hr & [= <-]). by rw Hr.
    - intros (Hk & Hn & ->). do 2 (split; [done|]). destruct (k_result _ Hk) as [r Hr].
      exists r. by rw Hr. }
  unfold index_commits. rw (index_by_ok _ _ _ _ _ [] _ Hi NoDup_nil_2). done.
Qed.

Lemma commit_index_get ks o k r : NoDup (map Commit.expire_operation_id ks) ->
  dict_get o (commit_index ks) = Some (k, r) <->
  k ∈ ks /\ Commit.expire_operation_id k = o /\ r = committed_result k.
Proof.
  intros Hn. unfold commit_index. rw dict_get_elem; [|by rw map_map].
  rw list_elem_of_fmap. split.
  - intros (k' & [= -> -> ->] & Hk'). done.
  - intros (Hk & <- & ->). by exists k.
Qed.

Lemma check_claim_ok c x : NoDup (map Commit.expire_operation_id (commits s)) ->
  check_claim s (commit_index (commits s)) c = Ok x <->
  exists k, k ∈ commits s /\ claim_committed s k c.
Proof.
  intros Hn. destruct x, c as [q r]. unfold check_claim. rw bind_ok. split.
  - intros ([k kr] & Hk & Hc). apply or_raise_ok, commit_index_get in Hk as (Hk & Ho & ->); [|done].
    exists k. split; [done|].
    rw bind_ok_unit !raise_if_ok !orb_false_iff !neqb_false bind_ok_unit !raise_if_ok
      !orb_false_iff !neqb_false Z.leb_gt Z.ltb_ge in Hc.
    destruct Hc as ([? ?] & (((((((? & ?) & ?) & ?) & ?) & ?) & ?) & ?) & ((? & ?) & ?)).
    by constructor.
  - intros (k & Hk & []). exists (k, committed_result k).
    split; [by apply or_raise_ok, commit_index_get|].
    rw bind_ok_unit !raise_if_ok !orb_false_iff !neqb_false bind_ok_unit !raise_if_ok
      !orb_false_iff !neqb_false Z.leb_gt Z.ltb_ge.
    destruct cc_terminal0 as (? & ? & ?). done.
Qed.

Lemma check_later_ok c e x : check_later_entry s c e = Ok x <->
  supersedes (candidate_ledger s) c e = false.
Proof.
  destruct x. unfold check_later_entry. rw scan_candidate_total. cbn [mbind result_bind].
  by rw raise_if_ok.
Qed.

Lemma check_current_state_ok k r c x : 0 <= Commit.committed_at_ms k <= _MAX_SAFE_INTEGER ->
  check_current_state s k r c = Ok x <->
  (ExpiryResult.artifact_id r = HoldState.artifact_id (hold_state s) ->
   ExpiryResult.hold_id r = HoldState.hold_id (hold_state s) -> reflects (hold_state s) k r c).
Proof.
  intros Ht. destruct x. unfold check_current_state.
  destruct (decide (ExpiryResult.artifact_id r = HoldState.artifact_id (hold_state s))) as [Ea|Ea];
    [|rw (bool_decide_eq_false_2 _ Ea); cbn; naive_solver].
  destruct (decide (ExpiryResult.hold_id r = HoldState.hold_id (hold_state s))) as [Eh|Eh];
    [|rw (bool_decide_eq_false_2 _ Eh) andb_false_r; naive_solver].
  rw (bool_decide_eq_true_2 _ Ea) (bool_decide_eq_true_2 _ Eh). cbn [andb].
  rw bind_ok_unit raise_if_ok neqb_false bind_ok_unit raise_if_ok neqb_false bind_ok_unit raise_if_ok
    !orb_false_iff !neqb_false eqb_false_iff Z.ltb_ge.
  assert ((if HoldState.artifact_version (hold_state s) == ExpiryResult.artifact_version r then
      retention_locked ← HoldState.retention_locked_at (hold_state s) (Commit.committed_at_ms k);
      raise_if ((Commit.remaining_active_hold_count k
                   != Z.of_nat (size (HoldState.active_hold_ids (hold_state s))))
          || (Commit.active_ref_count k != HoldState.active_ref_count (hold_state s))
          || (Commit.minimum_delete_at_ms k != HoldState.minimum_delete_at_ms (hold_state s))
          || (ExpiryResult.retention_locked r != retention_locked))
        (conflict "commit retention evidence contradicts final state")
    else Ok tt) = Ok tt <->
    (HoldState.artifact_version (hold_state s) = ExpiryResult.artifact_version r ->
      Commit.remaining_active_hold_count k = Z.of_nat (size (HoldState.active_hold_ids (hold_state s)))
      /\ Commit.active_ref_count k = HoldState.active_ref_count (hold_state s)
      /\ Commit.minimum_delete_at_ms k = HoldState.minimum_delete_at_ms (hold_state s)
      /\ ExpiryResult.retention_locked r
         = HoldState.retention_locked (hold_state s) (Commit.committed_at_ms k))) as ->.
  { case_bool_decide as Ev; [|naive_solver]. unfold HoldState.retention_locked_at.
    rw (proj2 (require_integer_ok _ "server_now_ms" _ _ tt) Ht). cbn [mbind result_bind].
    rw raise_if_ok !orb_false_iff !neqb_false. naive_solver. }
  split.
  - intros (? & ? & (((((? & ?) & ?) & ?) & ?) & ?) & ?) _ _. by constructor.
  - intros Hr. destruct (Hr Ea Eh). done.
Qed.

(** the event record of a commit is in the sink exactly once *)
Definition recorded_once (sink : ArtifactHoldExpiryEventSink) (k : Commit.t)
    (records : list EventRecord.t) : Prop :=
  exists e, EventRecord.create sink k = Ok e /\ count e records = 1%nat.

Lemma check_commit_ok k x : commit_valid k -> NoDup (map fst (consumption (entries s))) ->
  check_commit s (consumption (entries s)) (Commit.expire_operation_id k, (k, committed_result k))
    = Ok x <->
  (exists e, e ∈ entries s /\ commit_evidence s k e)
  /\ recorded_once AUDIT k (audit_records s) /\ recorded_once OUTBOX k (outbox_records s).
Proof.
  intros Hk Hn. destruct x. unfold check_commit, recorded_once. rw bind_ok. split.
  - intros (e & He & Hc). apply or_raise_ok, dict_get_elem, consumption_elem in He as [He Eo]; [|done].
    rw bind_ok_unit raise_if_ok neqb_false bind_ok_unit raise_if_ok neqb_false bind_ok_unit
      raise_if_ok neqb_false bind_ok_unit raise_if_ok negb_false_iff andb_true_iff Z.leb_le Z.ltb_lt
      bind_ok_unit raise_if_ok Z.ltb_ge bind_ok in Hc.
    destruct Hc as (Et & Ef & Ed & El & Edue & q & (_ & Hq & Hb)%expire_request_create_ok & Hc).
    apply bind_ok in Hc as (r & (_ & _ & _ & _ & Ep & _ & _ & Hr & Hkq)%validate_result_ok & Hc).
    rw bind_ok_unit raise_if_ok neqb_false bind_ok_unit forM_ok bind_ok in Hc.
    destruct Hc as (-> & Hlast & ea & Hea & Hc). apply bind_ok in Hc as (eo & Heo & Hc).
    rw bind_ok_unit raise_if_ok neqb_false bind_ok_unit raise_if_ok neqb_false
      (check_current_state_ok _ _ _ _ (k_time _ Hk)) in Hc.
    destruct Hc as (Hca & Hco & Hh).
    split; [|split; [by exists ea|by exists eo]]. exists e. split; [done|]. constructor; try done.
    + exists q. split; [done|]. split; [done|exact Hkq].
    + eapply Forall_impl; [exact Hlast|]. intros e' He'. by apply check_later_ok in He'.
  - intros ((e & He & []) & (ea & Hea & Hca) & (eo & Heo & Hco)).
    exists e. split; [by apply or_raise_ok, dict_get_elem, consumption_elem|].
    rw bind_ok_unit raise_if_ok neqb_false bind_ok_unit raise_if_ok neqb_false bind_ok_unit
      raise_if_ok neqb_false bind_ok_unit raise_if_ok negb_false_iff andb_true_iff Z.leb_le Z.ltb_lt
      bind_ok_unit raise_if_ok Z.ltb_ge bind_ok.
    do 5 (split; [done|]). destruct ce_request0 as (q & Hq & Hb & Hkq).
    pose proof (e_candidate _ (entry_is_valid _ HL _ He)) as Hcv.
    exists q. split; [by apply expire_request_create_ok|]. apply bind_ok.
    exists (committed_result k). split.
    + apply validate_result_ok. split; [done|]. split; [done|].
      split. { constructor; [apply Hcv|apply Hcv|done..]. }
      split; [done|]. split; [done|]. unfold entry_fence in ce_fence0.
      split; [lia|]. split; [lia|]. split; [|done].
      unfold committed_result. by destruct (k_result _ Hk) as [r ->].
    + rw bind_ok_unit raise_if_ok neqb_false bind_ok_unit forM_ok bind_ok. split; [done|].
      split; [eapply Forall_impl; [exact ce_last0|]; intros e' He'; by apply check_later_ok|].
      exists ea. split; [done|]. apply bind_ok. exists eo. split; [done|].
      rw bind_ok_unit raise_if_ok neqb_false bind_ok_unit raise_if_ok neqb_false
        (check_current_state_ok _ _ _ _ (k_time _ Hk)). done.
Qed.
End Loops.

(** ** Event records *)
Section Records.
Context `{RFC8785}.

Lemma count_once {A} `{EqDecision A} (a : A) l : NoDup l -> a ∈ l -> count a l = 1%nat.
Proof.
  intros Hn Ha. unfold count. rw (filter_unique _ _ a); [done|done|done|by apply bool_decide_eq_true|].
  by intros b _ ?%bool_decide_eq_true.
Qed.

(** the records of distinct commits are distinct *)
Lemma events_nodup sink ks evs : NoDup (map Commit.expire_operation_id ks) ->
  Forall2 (fun k e => EventRecord.create sink k = Ok e) ks evs -> NoDup evs.
Proof.
  intros Hn H2. apply (NoDup_fmap_1 EventRecord.expire_operation_id).
  assert (map EventRecord.expire_operation_id evs = map Commit.expire_operation_id ks) as E.
  { clear Hn. induction H2 as [|k e ks evs Hk _ IH]; cbn; [done|]. rw IH. f_equal.
    apply event_create_ok in Hk as (_ & r & _ & []). done. }
  change (NoDup (map EventRecord.expire_operation_id evs)). by rw E.
Qed.

Lemma recorded_iff sink ks records message :
  Forall commit_valid ks -> NoDup (map Commit.expire_operation_id ks) ->
  (Forall (fun k => recorded_once sink k records) ks
   /\ length records = length ks
   /\ Forall (fun e => check_record sink message e = Ok tt) records)
  <-> recorded sink ks records.
Proof.
  intros Hv Hn. split.
  - intros (Ho & El & _).
    assert (exists evs, Forall2 (fun k e => EventRecord.create sink k = Ok e /\ e ∈ records) ks evs)
      as (evs & H2).
    { clear Hv Hn El. induction Ho as [|k ks (e & He & Hc) _ (evs & H2)]; [by exists []|].
      exists (e :: evs). constructor; [|done]. split; [done|]. apply count_elem. lia. }
    assert (Forall2 (fun k e => EventRecord.create sink k = Ok e) ks evs) as Hc
      by (eapply Forall2_impl; [exact H2|]; by intros k e [? _]).
    exists evs. split; [done|]. symmetry. apply submseteq_length_Permutation.
    + apply NoDup_submseteq; [by eapply events_nodup|]. intros e He.
      apply list_elem_of_lookup in He as [i Hi]. eapply Forall2_lookup_r in H2 as (k & _ & _ & He); done.
    + rw El. by rw (Forall2_length _ _ _ H2).
  - intros (evs & H2 & Hp). pose proof (events_nodup _ _ _ Hn H2) as Hne.
    assert (NoDup records) as Hnr by by rw Hp.
    split; [|split].
    + apply Forall_forall. intros k Hk. apply list_elem_of_lookup in Hk as [i Hi].
      destruct (Forall2_lookup_l _ _ _ _ _ H2 Hi) as (e & He & Hc). exists e. split; [done|].
      apply count_once; [done|]. rw Hp. by eapply list_elem_of_lookup_2.
    + rw Hp. by rw (Forall2_length _ _ _ H2).
    + apply Forall_forall. intros e He. rw Hp in He. apply list_elem_of_lookup in He as [i Hi].
      destruct (Forall2_lookup_r _ _ _ _ _ H2 Hi) as (k & _ & Hc).
      apply event_create_ok in Hc as (_ & r & _ & Hev). unfold check_record.
      rw bind_ok_unit raise_if_ok neqb_false event_ok. by destruct Hev.
Qed.
End Records.

(** ** [validate] *)
Section Validate.
Context `{RFC8785}.

(** the second half of [validate]: commits, claims, consumption, records *)
Lemma commits_ok s x : ledger_valid (candidate_ledger s) ->
  Forall commit_valid (commits s) -> NoDup (map Commit.expire_operation_id (commits s)) ->
  (consumed ← foldM index_consumed [] (entries s);
   raise_if (LedgerState.keys consumed != LedgerState.keys (commit_index (commits s)))
     (conflict "candidate tombstones and commit evidence are not atomic");;
   forM_ (check_commit s consumed) (commit_index (commits s));;
   check_records s) = Ok x <->
  consumed_operations (candidate_ledger s) ≡ₚ map Commit.expire_operation_id (commits s)
  /\ Forall (fun k => exists e, e ∈ entries s /\ commit_evidence s k e) (commits s)
  /\ recorded AUDIT (commits s) (audit_records s) /\ recorded OUTBOX (commits s) (outbox_records s).
Proof.
  intros HL Hcv Hcn. destruct x. rw bind_ok.
  assert (map fst (commit_index (commits s)) = map Commit.expire_operation_id (commits s)) as Ek
    by (unfold commit_index; by rw map_map).
  assert (forall sink m records, recorded sink (commits s) records <-> _) as Hrec
    by (intros sink m records; symmetry; apply (recorded_iff sink _ records m Hcv Hcn)).
  rw (Hrec AUDIT "audit ledger contains invalid record")
    (Hrec OUTBOX "outbox ledger contains invalid record"). clear Hrec.
  assert (NoDup (consumed_operations (candidate_ledger s)) ->
    forM_ (check_commit s (consumption (entries s))) (commit_index (commits s)) = Ok tt <->
    Forall (fun k => (exists e, e ∈ entries s /\ commit_evidence s k e)
      /\ recorded_once AUDIT k (audit_records s) /\ recorded_once OUTBOX k (outbox_records s))
      (commits s)) as Hck.
  { intros Hn. rw forM_ok. unfold commit_index at 1. rw Forall_map. apply Forall_iff_elem.
    intros k Hk. rw Forall_forall in Hcv. apply check_commit_ok; [done|by apply Hcv|].
    by rw consumption_keys. }
  rw -(NoDup_same_perm _ _ Hcn). unfold check_records. split.
  - intros (d & [Hn ->]%index_consumed_ok & Hr); [|constructor]. cbn [map app] in Hn, Hr.
    rw bind_ok_unit raise_if_ok neqb_false keys_eq consumption_keys Ek bind_ok_unit (Hck Hn)
      !Forall_and !bind_ok_unit !raise_if_ok !neqb_false !forM_ok in Hr. naive_solver.
  - intros ([Hn Hk] & He & (Ha & Hal & Hav) & (Ho & Hol & Hov)). exists (consumption (entries s)).
    split; [apply index_consumed_ok; [constructor|done]|].
    rw bind_ok_unit raise_if_ok neqb_false keys_eq consumption_keys Ek bind_ok_unit (Hck Hn)
      !Forall_and !bind_ok_unit !raise_if_ok !neqb_false !forM_ok. done.
Qed.

(** [validate] accepts exactly the well-formed snapshots *)
Lemma cas_ok s x : CASState.validate s = Ok x <-> cas_valid s.
Proof.
  destruct x. unfold CASState.validate.
  rw bind_ok_unit hold_ok bind_ok_unit ledger_ok. split.
  - intros (Hh & HL & Hr).
    rw bind_ok_unit check_projection_ok // bind_ok_unit check_projected_entry_ok // bind_ok in Hr.
    destruct Hr as (Hpj & Hpe & d & (Hcv & Hcn & ->)%index_commits_ok & Hr).
    rw bind_ok_unit forM_ok commits_ok // in Hr. destruct Hr as (Hcl & Hco & Hev & Ha & Ho).
    constructor; try done. eapply Forall_impl; [exact Hcl|]. intros c Hc.
    by apply check_claim_ok in Hc.
  - intros []. do 2 (split; [done|]).
    rw bind_ok_unit check_projection_ok // bind_ok_unit check_projected_entry_ok // bind_ok.
    do 2 (split; [done|]). exists (commit_index (commits s)). split; [by apply index_commits_ok|].
    rw bind_ok_unit forM_ok commits_ok //. split; [|done].
    eapply Forall_impl; [exact s_claims0|]. intros c Hc. by apply check_claim_ok.
Qed.
End Validate.

#[export] Hint Rewrite @cas_ok : ok_iff.
#[global] Opaque CASState.validate.
