(* ===== verification/ExpireOps.v ===== *)
(** * Expiry on the snapshot

    [apply_artifact_hold_expiry] on a request whose operation is not committed
    yet ([expire_first_ok]): when it succeeds, and the snapshot it returns.  The
    snapshot is well-formed again ([expired_cas_valid]), so the final [validate]
    of the operation refuses only a later live candidate of the same
    incarnation. *)
From S2P Require Import Prelude ListFacts PyStr Sha256 Json Contract ContractFacts Scan ScanFacts.
From S2P Require Import Replay ReplayFacts Expire ExpireFacts Wire CommitFacts TransitionFacts.
From S2P Require Import Ledger LedgerFacts LedgerOps LedgerIssue LedgerClaims CasState CasFacts.
Local Open Scope py_scope.
Local Open Scope Z_scope.
Import CASState.

Section Facts.
Context `{RFC8785}.

Lemma commit_for_ok s o k : cas_valid s -> commit_for s o = Ok k <->
  sha256_hex o /\ match k with
    | Some k => k ∈ commits s /\ Commit.expire_operation_id k = o
    | None => o ∉ map Commit.expire_operation_id (commits s)
    end.
Proof.
  intros HS. pose proof (s_operations _ HS) as Hn. unfold commit_for.
  rw bind_ok_unit require_sha256_ok.
  assert (NoDup (commits s)) as Hnd by by eapply (NoDup_fmap_1 Commit.expire_operation_id).
  assert (forall P Q R : Prop, (Q <-> R) -> P /\ Q <-> P /\ R) as Hcong by tauto. apply Hcong.
  destruct (List.filter (fun c => Commit.expire_operation_id c == o) (commits s)) as [|k0 ks] eqn:E.
  - assert (forall k', k' ∈ commits s -> Commit.expire_operation_id k' <> o) as Hno.
    { intros k' Hk' Ho. assert (k' ∈ []) as Hin; [|by apply elem_of_nil in Hin].
      rw -E filter_In. split; [done|by apply bool_decide_eq_true]. }
    destruct k as [k|]; split; [done| |intros _|done].
    + intros [Hk Ho]. by destruct (Hno k Hk).
    + intros (k' & E' & Hk')%list_elem_of_fmap. by destruct (Hno k' Hk').
  - assert (k0 ∈ commits s /\ Commit.expire_operation_id k0 = o) as [Hk0 Ho].
    { assert (k0 ∈ k0 :: ks) as Hin by by left. rw -E filter_In bool_decide_eq_true in Hin. done. }
    assert (forall k', k' ∈ commits s -> Commit.expire_operation_id k' = o -> k' = k0) as Hu.
    { intros k' Hk' Ho'. eapply NoDup_map_inj; [exact Hn|done|done|congruence]. }
    assert (List.filter (fun c => Commit.expire_operation_id c == o) (commits s) = [k0]) as E1.
    { apply filter_unique; [done|done|by apply bool_decide_eq_true|].
      intros k' Hk' ?%bool_decide_eq_true. by apply Hu. }
    rw E1 in E. injection E as <-. destruct k as [k|]; split.
    + by intros [= <-].
    + intros [Hk E]. by rw (Hu k Hk E).
    + done.
    + intros Hno. exfalso. apply Hno, list_elem_of_fmap. by exists k0.
Qed.

(** no replay claim exists while the hold is ACTIVE *)
Lemma active_no_claims s : cas_valid s -> HoldState.hold_status (hold_state s) = ACTIVE ->
  LedgerState.claims (candidate_ledger s) = [].
Proof.
  intros HS Ha. pose proof (s_claims _ HS) as Hc.
  destruct (LedgerState.claims (candidate_ledger s)) as [|c cs]; [done|].
  apply Forall_cons in Hc as [(k & _ & Hk) _]. destruct (cc_terminal _ _ _ Hk) as [? _]. congruence.
Qed.

(** no commit concerns the current resource while the hold is ACTIVE *)
Lemma active_no_commit s k : cas_valid s -> HoldState.hold_status (hold_state s) = ACTIVE ->
  k ∈ commits s -> ExpiryResult.artifact_id (committed_result k) = HoldState.artifact_id (hold_state s) ->
  ExpiryResult.hold_id (committed_result k) = HoldState.hold_id (hold_state s) -> False.
Proof.
  intros HS Ha Hk E1 E2. pose proof (s_evidence _ HS) as He. rw Forall_forall in He.
  destruct (He _ Hk) as (e & _ & Hev). destruct (ce_hold _ _ _ Hev E1 E2). congruence.
Qed.

Lemma recorded_snoc sink ks records k e : recorded sink ks records ->
  EventRecord.create sink k = Ok e -> recorded sink (ks ++ [k]) (records ++ [e]).
Proof.
  intros (evs & H2 & Hp) He. exists (evs ++ [e]). split; [|by apply Permutation_app].
  apply Forall2_app; [done|]. by constructor.
Qed.

Lemma omap_insert_perm {A B} (f : A -> option B) l i a a' b :
  l !! i = Some a -> f a = None -> f a' = Some b -> omap f (<[i := a']> l) ≡ₚ b :: omap f l.
Proof.
  revert i. induction l as [|x l IH]; intros [|i]; cbn; try done.
  - intros [= ->] -> ->. done.
  - intros Hi Ha Ha'. specialize (IH i Hi Ha Ha'). destruct (f x) as [y|]; [|done].
    etrans; [apply Permutation_skip, IH|constructor].
Qed.
End Facts.

(** ** The snapshot after an expiry *)
Definition expired_cas (s : CASState.t) (q : ExpireRequest.t) (j : nat) (e : LedgerEntry.t)
    (now : Z) (k : Commit.t) (audit outbox : EventRecord.t) : CASState.t :=
  Make (expired_state (hold_state s))
    (with_entries (candidate_ledger s)
       (<[j := LedgerEntry.consume e (ExpireRequest.expire_operation_id q) now]> (entries s)))
    (commits s ++ [k]) (audit_records s ++ [audit]) (outbox_records s ++ [outbox]).

Section Expired.
Context `{RFC8785} `{!RFC8785Spec}.
Variables (s : CASState.t) (q : ExpireRequest.t) (j : nat) (e : LedgerEntry.t) (now : Z)
  (p i : pystr) (f : Z) (r : ExpiryResult.t) (k : Commit.t) (audit outbox : EventRecord.t).
Let c := LedgerEntry.candidate e.
Let s' := expired_cas s q j e now k audit outbox.
Hypothesis valid : cas_valid s.
Hypothesis request_valid : expire_request_valid q.
Hypothesis uncommitted :
  ExpireRequest.expire_operation_id q ∉ map Commit.expire_operation_id (commits s).
Hypothesis entry_at : entries s !! j = Some e.
Hypothesis unconsumed : LedgerEntry.consumed e = false.
Hypothesis may : may_expire q (hold_state s) c now p i f.
Hypothesis time_ok : 0 <= now <= _MAX_SAFE_INTEGER.
Hypothesis version_ok : HoldState.artifact_version (hold_state s) + 1 <= _MAX_SAFE_INTEGER.
Hypothesis result : result_of q (hold_state s) now r.
Hypothesis commit : commit_of q (hold_state s) c now r k.
Hypothesis audit_ok : EventRecord.create AUDIT k = Ok audit.
Hypothesis outbox_ok : EventRecord.create OUTBOX k = Ok outbox.

Lemma expired_ledger : ledger_valid (candidate_ledger s').
Proof.
  apply consumed_valid; [apply valid|done| |done].
  by apply (operation_id_ok _ _ _ _ _ _ (er_expire _ request_valid)).
Qed.

Lemma expired_live e' : live_scan (candidate_ledger s') e' = live_scan (candidate_ledger s) e'.
Proof. done. Qed.

Lemma expired_entry : LedgerEntry.consume e (ExpireRequest.expire_operation_id q) now ∈ entries s'.
Proof. eapply list_elem_of_lookup_2, list_lookup_insert_eq, lookup_lt_Some, entry_at. Qed.

(** the entries besides the one that is consumed stay, and no other appears *)
Lemma expired_entries e' : e' ∈ entries s' ->
  e' = LedgerEntry.consume e (ExpireRequest.expire_operation_id q) now \/ e' ∈ entries s.
Proof.
  intros [n Hn]%list_elem_of_lookup. cbn in Hn. apply list_lookup_insert_Some in Hn as [(_ & <- & _)|[_ Hn]].
  - by left.
  - right. by eapply list_elem_of_lookup_2.
Qed.

Lemma expired_entries_old e' : e' ∈ entries s -> e' <> e -> e' ∈ entries s'.
Proof.
  intros [n Hn]%list_elem_of_lookup Hne. apply list_elem_of_lookup. exists n. cbn.
  rw list_lookup_insert_ne; [done|]. intros ->. congruence.
Qed.

Lemma expired_no_later c0 :
  Forall (fun e' => supersedes (candidate_ledger s) c0 e' = false) (entries s) ->
  Forall (fun e' => supersedes (candidate_ledger s') c0 e' = false) (entries s').
Proof.
  rw !Forall_forall. intros Hl e' [->|He']%expired_entries; [done|]. by apply Hl.
Qed.

Lemma committed_result_ok : committed_result k = r.
Proof.
  unfold committed_result. assert (ExpiryResult.from_canonical_json (Commit.result_json k) = Ok r) as ->;
    [|done]. apply expiry_result_wire. split; [apply result|apply commit].
Qed.

Lemma expired_commit_evidence :
  Forall (fun e' => supersedes (candidate_ledger s) c e' = false) (entries s) ->
  commit_evidence s' k (LedgerEntry.consume e (ExpireRequest.expire_operation_id q) now).
Proof.
  intros Hlast. pose proof (commit_retention _ _ _ _ _ _ commit) as Hret.
  pose proof committed_result_ok as Er. pose proof (m_bound _ _ _ _ _ _ _ may) as Hb.
  destruct commit, result, may. destruct m_bound.
  constructor; cbn; try (done || congruence).
  - by rw co_time.
  - rw co_time. fold c. by rw -b_expires.
  - exists q. split; [done|]. split; [done|]. rw Er. constructor; congruence.
  - by apply expired_no_later.
  - rw Er. intros _ _. constructor; cbn; try (done || congruence).
    + set_solver.
    + lia.
    + intros _. rw ro_retention co_time. done.
Qed.

Lemma expired_old_evidence k0 : k0 ∈ commits s -> exists e0, e0 ∈ entries s' /\ commit_evidence s' k0 e0.
Proof.
  intros Hk0. pose proof (s_evidence _ valid) as He. rw Forall_forall in He.
  destruct (He _ Hk0) as (e0 & He0 & Hev). exists e0.
  assert (e0 <> e) as Hne.
  { intros ->. pose proof (ce_operation _ _ _ Hev) as Ho. pose proof unconsumed as Hu. unfold LedgerEntry.consumed in Hu.
    by rw Ho in Hu. }
  split; [by apply expired_entries_old|]. pose proof (ce_hold _ _ _ Hev) as Hh. destruct Hev.
  constructor; try done; [by apply expired_no_later|]. intros E1 E2. exfalso.
  apply (active_no_commit s k0 valid); [apply may|done..].
Qed.

Lemma expired_cas_valid :
  Forall (fun e' => supersedes (candidate_ledger s) c e' = false) (entries s) -> cas_valid s'.
Proof.
  intros Hlast. pose proof (active_no_claims s valid (m_active _ _ _ _ _ _ _ may)) as Hcl.
  constructor; try done.
  - apply expired_valid; [apply valid|apply may|done].
  - apply expired_ledger.
  - apply Forall_app. split; [apply valid|]. by apply Forall_singleton, commit.
  - cbn. rw map_app. apply NoDup_snoc. split; [apply valid|].
    by rw (co_expire _ _ _ _ _ _ commit).
  - change (LedgerState.claims (candidate_ledger s')) with (LedgerState.claims (candidate_ledger s)).
    by rw Hcl.
  - unfold consumed_operations. cbn.
    rw (omap_insert_perm _ _ _ e _ (ExpireRequest.expire_operation_id q)) //.
    + rw map_app Permutation_app_comm. cbn. rw (co_expire _ _ _ _ _ _ commit).
      apply Permutation_skip, valid.
    + pose proof unconsumed as Hu. unfold LedgerEntry.consumed in Hu. by apply neqb_false in Hu.
  - apply Forall_app. split; [apply Forall_forall, expired_old_evidence|].
    apply Forall_singleton. eexists. split; [apply expired_entry|]. by apply expired_commit_evidence.
  - apply recorded_snoc; [apply valid|done].
  - apply recorded_snoc; [apply valid|done].
Qed.
End Expired.

(** ** The operation *)
(** what a successful first expiry did *)
Record expiry_step `{RFC8785} (q : ExpireRequest.t) (s : CASState.t) (now : Z) (p i : pystr) (f : Z)
    (s' : CASState.t) (r : ExpiryResult.t) (j : nat) (e : LedgerEntry.t) (k : Commit.t)
    (audit outbox : EventRecord.t) : Prop := {
  es_uncommitted : ExpireRequest.expire_operation_id q ∉ map Commit.expire_operation_id (commits s);
  es_entry : entries s !! j = Some e;
  es_unconsumed : LedgerEntry.consumed e = false;
  es_projected : HoldState.candidate (hold_state s) = Some (LedgerEntry.candidate e);
  es_may : may_expire q (hold_state s) (LedgerEntry.candidate e) now p i f;
  es_version : HoldState.artifact_version (hold_state s) + 1 <= _MAX_SAFE_INTEGER;
  es_last : Forall (fun e' => supersedes (candidate_ledger s) (LedgerEntry.candidate e) e' = false)
    (entries s);
  es_result : result_of q (hold_state s) now r;
  es_commit : commit_of q (hold_state s) (LedgerEntry.candidate e) now r k;
  es_audit : EventRecord.create AUDIT k = Ok audit;
  es_outbox : EventRecord.create OUTBOX k = Ok outbox;
  es_state : s' = expired_cas s q j e now k audit outbox }.

Section Operation.
Context `{RFC8785} `{!RFC8785Spec}.

(** the evidence of the last commit of a well-formed snapshot after an expiry *)
Lemma expired_last s q j e now k audit outbox :
  cas_valid (expired_cas s q j e now k audit outbox) ->
  ExpireRequest.expire_operation_id q ∉ map Commit.expire_operation_id (commits s) ->
  cas_valid s -> entries s !! j = Some e -> Commit.expire_operation_id k = ExpireRequest.expire_operation_id q ->
  Forall (fun e' => supersedes (candidate_ledger s) (LedgerEntry.candidate e) e' = false) (entries s).
Proof.
  intros HS' Hu HS Hj Ek. set (s' := expired_cas s q j e now k audit outbox) in *.
  pose proof (s_evidence _ HS') as He. rw Forall_forall in He.
  destruct (He k) as (e1 & He1 & Hev); [cbn; apply elem_of_app; right; by left|].
  pose proof (ce_operation _ _ _ Hev) as Ho. rw Ek in Ho.
  assert (e1 = LedgerEntry.consume e (ExpireRequest.expire_operation_id q) now) as ->.
  { apply (expired_entries s q j e now k audit outbox) in He1 as [->|He1]; [done|]. exfalso.
    apply Hu. rw -(s_consumed _ HS). apply list_elem_of_omap. by exists e1. }
  pose proof (ce_last _ _ _ Hev) as Hl. cbn in Hl. rw !Forall_forall in Hl |- *. intros e' He'.
  destruct (decide (e' = e)) as [->|Hne].
  - unfold supersedes. rw Z.ltb_irrefl. apply andb_false_r.
  - apply Hl. by apply (expired_entries_old s q j e now k audit outbox).
Qed.

Lemma commit_expiry_ok q s now p i f component subject s' r : cas_valid s ->
  expire_request_valid q -> expiry_context now p i f component subject ->
  ExpireRequest.expire_operation_id q ∉ map Commit.expire_operation_id (commits s) ->
  commit_expiry q s now p i f component subject = Ok (s', r) <->
  exists j e k audit outbox, expiry_step q s now p i f s' r j e k audit outbox.
Proof.
  intros HS Hq Hctx Hu. pose proof (s_ledger _ HS) as HL. unfold commit_expiry. rw bind_ok. split.
  - intros (e & [He El]%(candidate_entry_for_ok _ HL) & Hr).
    rw bind_ok_unit raise_if_ok bind_ok_unit raise_if_ok neqb_false bind_ok in Hr.
    destruct Hr as (Hc & Hp & [[h' r'] k] & Hproj & Hr).
    apply project_ok in Hproj as (_ & _ & _ & c & Hc' & _ & Hm & -> & Hh' & Hres & Hk).
    rw Hp in Hc'. injection Hc' as <-.
    apply bind_ok in Hr as (l' & Hl' & Hr).
    apply consume_candidate_ok in Hl' as (_ & _ & _ & j & e' & Hj & _ & Hb & ->).
    apply bind_ok in Hr as (audit & Ha & Hr). apply bind_ok in Hr as (outbox & Ho & Hr).
    rw bind_ok_unit cas_ok in Hr. destruct Hr as [HS' [= <- <-]].
    assert (e' = e) as ->.
    { apply (entry_by_lease _ HL); [by eapply list_elem_of_lookup_2|done|].
      rw El. symmetry. apply Hb. }
    exists j, e, k, audit, outbox. constructor; try done.
    + apply (h_version _ Hh').
    + eapply (expired_last s q j e now k audit outbox); try done. apply Hk.
  - intros (j & e & k & audit & outbox & []).
    assert (e ∈ entries s) as He by by eapply list_elem_of_lookup_2.
    exists e. split.
    { apply (candidate_entry_for_ok _ HL). split; [done|].
      by rw (b_lease_id _ _ (m_bound _ _ _ _ _ _ _ es_may0)). }
    rw bind_ok_unit raise_if_ok bind_ok_unit raise_if_ok neqb_false bind_ok.
    do 2 (split; [done|]). exists (expired_state (hold_state s), r, k). split.
    { apply project_ok. split; [done|]. split; [done|]. split; [apply HS|].
      exists (LedgerEntry.candidate e). split; [done|].
      split; [by apply (e_candidate _ (entry_is_valid _ HL _ He))|]. split; [done|]. split; [done|].
      split; [|done]. apply expired_valid; [apply HS|apply es_may0|done]. }
    apply bind_ok. eexists. split.
    { apply consume_candidate_ok. split; [done|]. split; [done|]. split; [apply Hctx|].
      exists j, e. split; [done|]. split; [done|]. split; [apply es_may0|done]. }
    apply bind_ok. exists audit. split; [done|]. apply bind_ok. exists outbox. split; [done|].
    rw bind_ok_unit cas_ok es_state0. split; [|done].
    eapply (expired_cas_valid s q j e now p i f r k audit outbox); try done. apply Hctx.
Qed.

(** [apply_artifact_hold_expiry] on an operation that is not committed yet *)
Lemma expire_first_ok q s now p i f component subject s' r :
  ExpireRequest.expire_operation_id q ∉ map Commit.expire_operation_id (commits s) ->
  apply_artifact_hold_expiry q s now p i f component subject = Ok (s', r) <->
  expire_request_valid q /\ expiry_context now p i f component subject /\ cas_valid s
  /\ exists j e k audit outbox, expiry_step q s now p i f s' r j e k audit outbox.
Proof.
  intros Hu. unfold apply_artifact_hold_expiry.
  rw bind_ok_unit expire_request_ok bind_ok_unit expiry_context_ok bind_ok_unit cas_ok bind_ok.
  assert (forall P Q R : Prop, (P -> (Q <-> R)) -> P /\ Q <-> P /\ R) as Himp by tauto.
  apply Himp. intros Hq. apply Himp. intros Hctx. apply Himp. intros HS. split.
  - intros ([k|] & [_ Hk]%commit_for_ok & Hr); [|done| |done].
    + destruct Hk as [Hk E]. exfalso. apply Hu. rw -E. apply list_elem_of_fmap. eauto.
    + by apply commit_expiry_ok in Hr.
  - intros Hs. exists None. split; [|by apply commit_expiry_ok]. apply commit_for_ok; [done|].
    split; [|done]. by apply (operation_id_ok _ _ _ _ _ _ (er_expire _ Hq)).
Qed.
End Operation.
