(* ===== verification/RetryOps.v ===== *)
(** * Retrying and replaying a committed expiry

    Which authority [require_replay_authority] accepts, and what
    [apply_artifact_hold_expiry] answers for an operation that is committed:
    the snapshot is returned unchanged with the stored result. *)
From S2P Require Import Prelude ListFacts PyStr Sha256 Json Contract ContractFacts Scan ScanFacts.
From S2P Require Import Replay ReplayFacts Expire ExpireFacts Wire CommitFacts TransitionFacts.
From S2P Require Import Ledger LedgerFacts LedgerOps LedgerIssue LedgerClaims CasState CasFacts ExpireOps.
Local Open Scope py_scope.
Local Open Scope Z_scope.

(** ** The authority of a replay *)
(** the committed candidate itself, as long as no claim superseded it *)
Record committed_replay (l : LedgerState.t) (q : ExpireRequest.t) (c : Candidate.t) (i : pystr)
    (f : Z) : Prop := {
  cr_lease : ExpireRequest.candidate_lease_id q = Candidate.candidate_lease_id c;
  cr_current : current_claim l (ExpireRequest.expire_operation_id q) = None;
  cr_bound : bound q c;
  cr_fence : f = Candidate.candidate_fencing_token c;
  cr_instance : i = Candidate.owner_instance_id c }.

(** the candidate of the current claim, under its live lease *)
Record claimed_replay (l : LedgerState.t) (q : ExpireRequest.t) (c : Candidate.t) (p i : pystr)
    (f now : Z) (cl : LedgerState.claim) : Prop := {
  kr_other : ExpireRequest.candidate_lease_id q <> Candidate.candidate_lease_id c;
  kr_current : current_claim l (ExpireRequest.expire_operation_id q) = Some cl;
  kr_unconsumed : exists e, e ∈ LedgerState.candidate_entries l
    /\ LedgerEntry.candidate e = LedgerState.claim_candidate cl /\ LedgerEntry.consumed e = false;
  kr_newer : Candidate.candidate_fencing_token c < LedgerState.claim_fence cl;
  kr_bound : bound q (LedgerState.claim_candidate cl);
  kr_principal : Candidate.owner_principal_id (LedgerState.claim_candidate cl) = p;
  kr_instance : Candidate.owner_instance_id (LedgerState.claim_candidate cl) = i;
  kr_fence : LedgerState.claim_fence cl = f;
  kr_live : Candidate.issued_at_ms (LedgerState.claim_candidate cl) <= now
    < Candidate.lease_until_ms (LedgerState.claim_candidate cl) }.

(** the business fields of a request against the committed candidate *)
Record same_business (q : ExpireRequest.t) (c : Candidate.t) : Prop := {
  sb_artifact : ExpireRequest.artifact_id q = Candidate.artifact_id c;
  sb_hold : ExpireRequest.hold_id q = Candidate.hold_id c;
  sb_digest : ExpireRequest.expected_hold_digest q = Candidate.expected_hold_digest c;
  sb_version : ExpireRequest.expected_artifact_version q = Candidate.expected_artifact_version c;
  sb_expires : ExpireRequest.observed_expires_ms q = Candidate.observed_expires_ms c }.

Section Authority.
Context `{RFC8785} (l : LedgerState.t) (HL : ledger_valid l).

Lemma committed_authority_ok q c o i f a :
  LedgerState.committed_authority q c o i f = Ok a <->
  o = None /\ bound q c /\ f = Candidate.candidate_fencing_token c
  /\ i = Candidate.owner_instance_id c /\ a = VerifiedReplayAuthority.Make c true.
Proof.
  unfold LedgerState.committed_authority.
  rw bind_ok_unit raise_if_ok bind_ok_unit binding_ok bind_ok_unit raise_if_ok Z.ltb_ge bind_ok_unit
    raise_if_ok Z.ltb_ge bind_ok_unit raise_if_ok neqb_false Ok_inj_iff.
  destruct o; split; try (intros (? & _); done).
  - intros (_ & ? & ? & ? & ? & ?). repeat (split; [done || lia|]). done.
  - intros (_ & ? & -> & ? & ?). repeat (split; [done || lia|]). done.
Qed.

Lemma claimed_authority_ok q c o p i f now a :
  (forall cl, o = Some cl -> cl ∈ LedgerState.claims l
    /\ claim_expire cl = ExpireRequest.expire_operation_id q) ->
  LedgerState.claimed_authority l q c o p i f now = Ok a <->
  exists cl e, o = Some cl /\ e ∈ LedgerState.candidate_entries l
    /\ LedgerEntry.candidate e = LedgerState.claim_candidate cl /\ LedgerEntry.consumed e = false
    /\ Candidate.candidate_fencing_token c < LedgerState.claim_fence cl
    /\ bound q (LedgerState.claim_candidate cl)
    /\ Candidate.owner_principal_id (LedgerState.claim_candidate cl) = p
    /\ Candidate.owner_instance_id (LedgerState.claim_candidate cl) = i
    /\ LedgerState.claim_fence cl = f
    /\ Candidate.issued_at_ms (LedgerState.claim_candidate cl) <= now
         < Candidate.lease_until_ms (LedgerState.claim_candidate cl)
    /\ a = VerifiedReplayAuthority.Make (LedgerState.claim_candidate cl) true.
Proof.
  intros Ho. unfold LedgerState.claimed_authority. rw bind_ok. split.
  - intros (e & [He El]%(candidate_entry_for_ok _ HL) & Hr).
    rw bind_ok_unit raise_if_ok bind_ok in Hr. destruct Hr as (Hc & oc & Hoc & Hr).
    apply (replay_claim_for_candidate_ok _ HL) in Hoc.
    apply bind_ok in Hr as ([cq cr] & Hq & Hr). apply or_raise_ok in Hq as ->.
    destruct Hoc as [Hin Ecand].
    rw bind_ok_unit bind_ok_unit raise_if_ok bind_ok_unit raise_if_ok orb_false_iff neqb_false Z.leb_gt
      bind_ok_unit binding_ok bind_ok_unit raise_if_ok !orb_false_iff !neqb_false bind_ok_unit
      raise_if_ok negb_false_iff andb_true_iff Z.leb_le Z.ltb_lt Ok_inj_iff in Hr.
    destruct Hr as (_ & Hcur & [Hop Hf] & Hb & [[Hp Hi] Hfe] & Hlive & Ha).
    destruct o as [[cq' cr']|]; [|done]. apply neqb_false in Hcur. subst cr'.
    destruct (Ho _ eq_refl) as [Hin' _].
    assert ((cq', cr) = (cq, cr)) as E by (by apply (claim_by_candidate _ HL)).
    injection E as ->. exists (cq, cr), e. rw -Ecand in Hf, Hb, Hp, Hi, Hfe, Hlive, Ha.
    by repeat (split; [done|]).
  - intros (cl & e & -> & He & Ec & Hu & Hf & Hb & Hp & Hi & Hfe & Hlive & ->).
    destruct (Ho _ eq_refl) as [Hin Hex]. exists e. split.
    { apply (candidate_entry_for_ok _ HL). split; [done|]. unfold entry_lease. rw Ec.
      symmetry. apply Hb. }
    rw bind_ok_unit raise_if_ok bind_ok. split; [done|]. exists (Some cl). split.
    { apply (replay_claim_for_candidate_ok _ HL). by rw Ec. }
    apply bind_ok. exists cl. split; [done|]. destruct cl as [cq cr].
    pose proof (claim_is_valid _ HL _ Hin) as Hpv. cbn in Hpv.
    rw bind_ok_unit claim_result_for_ok bind_ok_unit raise_if_ok neqb_false bind_ok_unit raise_if_ok
      orb_false_iff neqb_false Z.leb_gt
      bind_ok_unit binding_ok bind_ok_unit raise_if_ok !orb_false_iff !neqb_false bind_ok_unit
      raise_if_ok negb_false_iff andb_true_iff Z.leb_le Z.ltb_lt Ok_inj_iff Ec.
    do 2 (split; [done|]). split; [split; [|done]|].
    { cbn in Hex. by rw (cp_expire _ _ Hpv). }
    by repeat (split; [done|]).
Qed.

Lemma NoDup_omap_inj {A B} (g : A -> option B) (es : list A) a a' b :
  NoDup (omap g es) -> a ∈ es -> a' ∈ es -> g a = Some b -> g a' = Some b -> a = a'.
Proof.
  induction es as [|x es IH]; cbn; [by intros _ ?%elem_of_nil|].
  rw !elem_of_cons. intros Hn Ha Ha' Hb Hb'.
  assert (forall y, y ∈ es -> g x = Some b -> g y = Some b -> False) as Hx.
  { intros y Hy Ex Ey. rw Ex in Hn. apply NoDup_cons in Hn as [Hn _]. apply Hn.
    apply list_elem_of_omap. eauto. }
  destruct Ha as [->|Ha], Ha' as [->|Ha']; [done|by exfalso; eapply Hx|by exfalso; eapply Hx|].
  apply IH; try done. destruct (g x); [by apply NoDup_cons in Hn as [_ ?]|done].
Qed.

(** the entry an operation consumed *)
Lemma consumed_entry_ok o err c : NoDup (consumed_operations l) ->
  match List.filter (fun entry => LedgerEntry.consumed_by_expire_operation_id entry == Some o)
      (LedgerState.candidate_entries l) with
  | [entry] => Ok (LedgerEntry.candidate entry)
  | _ => Err err
  end = Ok c <->
  exists e, e ∈ LedgerState.candidate_entries l
    /\ LedgerEntry.consumed_by_expire_operation_id e = Some o /\ c = LedgerEntry.candidate e.
Proof.
  intros Hn. split.
  - destruct (List.filter _ _) as [|e [|? ?]] eqn:E; try done. intros [= <-].
    assert (e ∈ [e]) as Hin by by left. rw -E filter_In bool_decide_eq_true in Hin.
    exists e. by destruct Hin.
  - intros (e & He & Ho & ->). rw (filter_unique _ _ e); [done| |done|by apply bool_decide_eq_true|].
    + by apply entries_nodup.
    + intros e' He' Ho'%bool_decide_eq_true. by eapply NoDup_omap_inj.
Qed.

(** [require_replay_authority] *)
Lemma require_replay_authority_ok q p i f now a :
  NoDup (consumed_operations l) ->
  LedgerState.require_replay_authority l q p i f now = Ok a <->
  expire_request_valid q /\ stable_text p /\ stable_text i /\ 1 <= f <= _MAX_SAFE_INTEGER
  /\ 0 <= now <= _MAX_SAFE_INTEGER
  /\ exists e, e ∈ LedgerState.candidate_entries l
     /\ LedgerEntry.consumed_by_expire_operation_id e = Some (ExpireRequest.expire_operation_id q)
     /\ same_business q (LedgerEntry.candidate e)
     /\ p = Candidate.owner_principal_id (LedgerEntry.candidate e)
     /\ ((committed_replay l q (LedgerEntry.candidate e) i f
          /\ a = VerifiedReplayAuthority.Make (LedgerEntry.candidate e) true)
         \/ exists cl, claimed_replay l q (LedgerEntry.candidate e) p i f now cl
            /\ a = VerifiedReplayAuthority.Make (LedgerState.claim_candidate cl) true).
Proof.
  intros Hn. unfold LedgerState.require_replay_authority.
  rw bind_ok_unit ledger_ok bind_ok_unit expire_request_ok bind_ok_unit require_stable_text_ok
    bind_ok_unit require_stable_text_ok bind_ok_unit require_integer_ok bind_ok_unit
    require_integer_ok bind_ok.
  setoid_rewrite (consumed_entry_ok _ _ _ Hn).
  split.
  - intros (_ & Hq & Hp & Hi & Hf & Hnow & c & (e & He & Ho & ->) & Hr).
    rw bind_ok_unit raise_if_ok !orb_false_iff !neqb_false bind_ok_unit raise_if_ok neqb_false
      bind_ok in Hr.
    destruct Hr as ([[[[? ?] ?] ?] ?] & Hpr & o & [_ ->]%(current_replay_claim_ok _ HL) & Hr).
    do 5 (split; [done|]). exists e. do 2 (split; [done|]). split; [done|]. split; [done|].
    case_bool_decide as El.
    + left. apply committed_authority_ok in Hr as (? & ? & ? & ? & ->). done.
    + right. apply claimed_authority_ok in Hr as (cl & e' & Hcl & ? & ? & ? & ? & ? & ? & ? & ? & ? & ->).
      * exists cl. split; [|done]. constructor; try done. by exists e'.
      * intros cl Hcl. by apply current_claim_elem, claims_for_elem in Hcl.
  - intros (Hq & Hp & Hi & Hf & Hnow & e & He & Ho & [] & Hpr & Hr).
    do 6 (split; [done|]). exists (LedgerEntry.candidate e). split; [by exists e|].
    rw bind_ok_unit raise_if_ok !orb_false_iff !neqb_false bind_ok_unit raise_if_ok neqb_false
      bind_ok.
    do 2 (split; [done|]). exists (current_claim l (ExpireRequest.expire_operation_id q)). split.
    { apply (current_replay_claim_ok _ HL). split; [|done].
      by apply (operation_id_ok _ _ _ _ _ _ (er_expire _ Hq)). }
    destruct Hr as [[[] ->]|(cl & [] & ->)].
    + rw bool_decide_eq_true_2 //. by apply committed_authority_ok.
    + rw bool_decide_eq_false_2 //. apply claimed_authority_ok.
      * intros cl' Hcl. by apply current_claim_elem, claims_for_elem in Hcl.
      * destruct kr_unconsumed0 as (e' & ? & ? & ?). by exists cl, e'.
Qed.
End Authority.

(** ** Replies for a committed operation *)
(** the authority under which a committed expiry may be asked for again *)
Definition replay_authority (l : LedgerState.t) (q : ExpireRequest.t) (c : Candidate.t)
    (p i : pystr) (f now : Z) : Prop :=
  p = Candidate.owner_principal_id c /\ same_business q c
  /\ (committed_replay l q c i f \/ exists cl, claimed_replay l q c p i f now cl).

Section Committed.
Context `{RFC8785}.

Lemma bound_business q c : bound q c -> same_business q c.
Proof. intros []. by constructor. Qed.

(** the business fields determine the operation and the request digest *)
Lemma business_identity q q0 c : expire_request_valid q -> expire_request_valid q0 ->
  same_business q c -> same_business q0 c ->
  ExpireRequest.expire_operation_id q = ExpireRequest.expire_operation_id q0
  /\ ExpireRequest.request_digest q = ExpireRequest.request_digest q0.
Proof.
  intros V1 V2 B1 B2.
  assert (ExpireRequest.expire_operation_id q = ExpireRequest.expire_operation_id q0) as E.
  { pose proof (er_expire _ V1) as E1. pose proof (er_expire _ V2) as E2. destruct B1, B2. congruence. }
  split; [done|].
  assert (ExpireRequest.business_payload q = ExpireRequest.business_payload q0) as Ep.
  { destruct V1, V2, B1, B2. unfold ExpireRequest.business_payload. congruence. }
  pose proof (er_digest _ V1) as E1. pose proof (er_digest _ V2) as E2.
  unfold ExpireRequest.artifact_hold_expiry_request_digest in *. congruence.
Qed.

(** a commit stays the evidence of every request for the same business *)
Lemma commit_for_business s k e q : commit_evidence s k e -> expire_request_valid q ->
  same_business q (LedgerEntry.candidate e) -> commit_for_request k q (committed_result k).
Proof.
  intros Hev Hq Hs. destruct (ce_request _ _ _ Hev) as (q0 & Hq0 & Hb0 & []).
  destruct (business_identity q q0 _ Hq Hq0 Hs (bound_business _ _ Hb0)) as [Eo Ed].
  destruct Hs, Hb0. constructor; try done; congruence.
Qed.

(** the stored result is the answer under any of the two authorities *)
Lemma committed_validation s k e q a p i f now component subject : commit_evidence s k e ->
  commit_valid k -> expire_request_valid q -> same_business q (LedgerEntry.candidate e) ->
  expiry_context now p i f component subject ->
  p = Candidate.owner_principal_id (LedgerEntry.candidate e) ->
  VerifiedReplayAuthority.sealed a = true ->
  candidate_valid (VerifiedReplayAuthority.candidate a) ->
  (Candidate.candidate_fencing_token (VerifiedReplayAuthority.candidate a) = entry_fence e ->
    VerifiedReplayAuthority.candidate a = LedgerEntry.candidate e) ->
  entry_fence e <= f ->
  (entry_fence e < f -> bound q (VerifiedReplayAuthority.candidate a)
    /\ Candidate.owner_principal_id (VerifiedReplayAuthority.candidate a) = p
    /\ Candidate.candidate_fencing_token (VerifiedReplayAuthority.candidate a) = f) ->
  Commit._validate_result_for_request k q p f component subject (Some a) = Ok (committed_result k).
Proof.
  intros Hev Hk Hq Hsb Hctx Hp Ha Hc Hsame Hle Hlt. apply validate_result_ok.
  pose proof (commit_for_business s k e q Hev Hq Hsb) as Hkq. pose proof (ce_fence _ _ _ Hev) as Hfe. pose proof (ce_digest _ _ _ Hev). pose proof (ce_principal _ _ _ Hev).
  do 2 (split; [done|]). split; [apply Hctx|]. split.
  { intros a' [= <-]. split; [done|]. split; [done|]. intros E.
    rw Hsame; [done|congruence]. }
  split; [congruence|]. split; [by rw Hfe|]. split.
  { rw Hfe. intros ?. exists a. split; [done|by apply Hlt]. }
  split; [|done]. unfold committed_result. by destruct (k_result _ Hk) as [r ->].
Qed.

(** the reply for a committed operation *)
Lemma expire_committed_ok q s now p i f component subject s' r k : k ∈ CASState.commits s ->
  Commit.expire_operation_id k = ExpireRequest.expire_operation_id q ->
  apply_artifact_hold_expiry q s now p i f component subject = Ok (s', r) <->
  expire_request_valid q /\ expiry_context now p i f component subject /\ cas_valid s
  /\ (exists e, e ∈ entries s /\ commit_evidence s k e
        /\ replay_authority (CASState.candidate_ledger s) q (LedgerEntry.candidate e) p i f now)
  /\ HoldState.artifact_id (CASState.hold_state s) = ExpireRequest.artifact_id q
  /\ HoldState.hold_id (CASState.hold_state s) = ExpireRequest.hold_id q
  /\ s' = s /\ r = committed_result k.
Proof.
  intros Hk Ek. unfold apply_artifact_hold_expiry.
  rw bind_ok_unit expire_request_ok bind_ok_unit expiry_context_ok bind_ok_unit cas_ok bind_ok.
  assert (forall P Q R : Prop, (P -> (Q <-> R)) -> P /\ Q <-> P /\ R) as Himp by tauto.
  apply Himp. intros Hq. apply Himp. intros Hctx. apply Himp. intros HS.
  pose proof (s_ledger _ HS) as HL.
  assert (NoDup (consumed_operations (CASState.candidate_ledger s))) as Hn
    by (rw (s_consumed _ HS); apply HS).
  pose proof (s_evidence _ HS) as Hevs. rw Forall_forall in Hevs.
  destruct (Hevs _ Hk) as (e & He & Hev).
  assert (forall e', e' ∈ entries s -> LedgerEntry.consumed_by_expire_operation_id e'
    = Some (ExpireRequest.expire_operation_id q) -> e' = e) as Hue.
  { intros e' He' Ho. eapply NoDup_omap_inj; [exact Hn|done|done|done|]. rw -Ek. apply Hev. }
  split.
  - intros (o & [_ Ho]%commit_for_ok & Hr); [|done].
    destruct o as [k'|]; [|exfalso; apply Ho; rw -Ek; apply list_elem_of_fmap; by exists k].
    destruct Ho as [Hk' Ek']. assert (k' = k) as ->.
    { eapply NoDup_map_inj; [apply HS|done|done|congruence]. }
    unfold replay_committed in Hr. apply bind_ok in Hr as (a & Ha & Hr).
    apply (require_replay_authority_ok _ HL _ _ _ _ _ _ Hn) in Ha
      as (_ & _ & _ & _ & _ & e' & He' & Ho' & Hsb & Hp & Hau).
    rw (Hue _ He' Ho') in Hsb, Hp, Hau.
    apply bind_ok in Hr as (r' & Hv & Hr).
    apply validate_result_ok in Hv as (_ & _ & _ & _ & _ & _ & _ & Hj & _).
    rw bind_ok_unit raise_if_ok orb_false_iff !neqb_false bind_ok_unit raise_if_ok neqb_false
      bind_ok_unit raise_if_ok Ok_inj_iff in Hr.
    destruct Hr as ([Hha Hhh] & _ & _ & [= <- <-]).
    split; [|do 2 (split; [done|]); split; [done|]; unfold committed_result; by rw Hj].
    exists e. split; [done|]. split; [done|]. split; [done|]. split; [done|].
    destruct Hau as [[? _]|(cl & ? & _)]; [by left|right; by exists cl].
  - intros ((e' & He' & Hev' & Hp & Hsb & Hau) & Hha & Hhh & -> & ->).
    pose proof (ce_operation _ _ _ Hev') as Ho'. rw Ek in Ho'. rw (Hue _ He' Ho') in Hev', Hp, Hsb, Hau.
    clear e' He' Ho' Hev'. exists (Some k). split.
    { apply commit_for_ok; [done|]. split; [|done].
      by apply (operation_id_ok _ _ _ _ _ _ (er_expire _ Hq)). }
    unfold replay_committed.
    assert (exists a, LedgerState.require_replay_authority (CASState.candidate_ledger s) q p i f now = Ok a
      /\ Commit._validate_result_for_request k q p f component subject (Some a)
         = Ok (committed_result k)) as (a & Ha & Hv).
    { assert (forall c', (committed_replay (CASState.candidate_ledger s) q (LedgerEntry.candidate e) i f
            /\ c' = LedgerEntry.candidate e
          \/ exists cl, claimed_replay (CASState.candidate_ledger s) q (LedgerEntry.candidate e) p i f now cl
            /\ c' = LedgerState.claim_candidate cl) ->
        LedgerState.require_replay_authority (CASState.candidate_ledger s) q p i f now
          = Ok (VerifiedReplayAuthority.Make c' true)) as Hacc.
      { intros c' Hc'. apply require_replay_authority_ok; [done|done|]. destruct Hctx as [? [] ?].
        do 5 (split; [done|]). exists e. split; [done|].
        split; [rw -Ek; apply Hev|]. do 2 (split; [done|]).
        destruct Hc' as [[? ->]|(cl & ? & ->)]; [by left|right; by exists cl]. }
      pose proof (fun a => committed_validation s k e q a p i f now component subject Hev
        (proj1 (Forall_forall _ _) (s_commits _ HS) _ Hk) Hq Hsb Hctx Hp) as Hval.
      pose proof (e_candidate _ (entry_is_valid _ HL _ He)) as Hec.
      destruct Hau as [Hc|(cl & Hcl)].
      - eexists. split; [by apply Hacc; left|]. apply Hval; try done; cbn.
        + by rw (cr_fence _ _ _ _ _ Hc).
        + rw (cr_fence _ _ _ _ _ Hc). unfold entry_fence. lia.
      - destruct (Hcl). destruct kr_unconsumed0 as (e1 & He1 & E1 & _).
        eexists. split; [apply Hacc; right; by exists cl|]. apply Hval; try done; cbn.
        + by apply (e_candidate _ (entry_is_valid _ HL _ He1)).
        + intros Et. unfold LedgerState.claim_fence, entry_fence in *. rw -E1 in kr_newer0. lia.
        + unfold LedgerState.claim_fence, entry_fence in *. rw -E1 in kr_fence0, kr_newer0. lia.
        + intros _. rw E1. by do 2 (split; [done|]). }
    rw bind_ok. exists a. split; [done|]. rw bind_ok. exists (committed_result k). split; [done|].
    pose proof (commit_for_business s k e q Hev Hq Hsb) as [].
    destruct (ce_hold _ _ _ Hev) as []; [congruence|congruence|].
    rw bind_ok_unit raise_if_ok orb_false_iff !neqb_false bind_ok_unit raise_if_ok neqb_false
      bind_ok_unit raise_if_ok Z.ltb_ge. done.
Qed.
End Committed.
