(* ===== verification/ScanOps.v ===== *)
(** * Scanning a due hold

    What [apply_artifact_hold_expiry_scan] does on a well-formed snapshot: the
    bearer tokens it draws, the candidate it issues, the snapshot it returns,
    and the stored reply it repeats for a scan it has already recorded. *)
From S2P Require Import Prelude ListFacts PyStr Sha256 Json JsonFacts Contract ContractFacts WireFacts Scan.
From S2P Require Import ScanFacts Replay ReplayFacts Expire ExpireFacts Wire WireNested CommitFacts.
From S2P Require Import TransitionFacts Ledger LedgerFacts LedgerOps LedgerIssue LedgerClaims CasState.
From S2P Require Import CasFacts ExpireOps.
Local Open Scope py_scope.
Local Open Scope Z_scope.
Import CASState.

(** ** Drawing bearer tokens *)
(** [token] is the first draw after [rs] that differs from the lease identifier *)
Definition redrawn (lease : pystr) (draws : list pybytes) (token : pystr) : Prop :=
  exists rs r rest, draws = rs ++ r :: rest
    /\ Forall (fun x => _new_candidate_token x = lease) rs
    /\ token = _new_candidate_token r /\ token <> lease.

Definition drawn (draws : list pybytes) (lease token : pystr) : Prop :=
  exists r0 rest, draws = r0 :: rest /\ lease = _new_candidate_token r0 /\ redrawn lease rest token.

Lemma draw_distinct_ok lease draws token :
  draw_distinct lease draws = Ok token <-> redrawn lease draws token.
Proof.
  unfold redrawn. induction draws as [|x draws IH]; cbn.
  - split; [done|]. by intros ([|? ?] & ? & ? & ? & _).
  - case_bool_decide as E; rw ?IH ?Ok_inj_iff; split.
    + intros (rs & r & rest & -> & ? & ?). exists (x :: rs), r, rest. split; [done|].
      split; [by constructor|done].
    + intros ([|y rs] & r & rest & [= -> ->] & Hrs & -> & Hne); [done|].
      apply Forall_cons in Hrs as [_ Hrs]. by exists rs, r, rest.
    + intros <-. exists [], x, draws. by repeat constructor.
    + intros ([|y rs] & r & rest & [= -> ->] & Hrs & -> & Hne); [done|].
      by apply Forall_cons in Hrs as [? _].
Qed.

(** the loop ends as soon as one draw differs from the lease identifier *)
Lemma redrawn_exists lease draws : (exists token, redrawn lease draws token) <->
  Exists (fun x => _new_candidate_token x <> lease) draws.
Proof.
  split.
  - intros (t & rs & r & rest & -> & _ & -> & Hne). apply Exists_app. right. by left.
  - induction 1 as [x draws Hx|x draws _ (t & rs & r & rest & -> & Hrs & -> & Hne)].
    + exists (_new_candidate_token x), [], x, draws. by repeat constructor.
    + destruct (decide (_new_candidate_token x = lease)) as [E|E].
      * exists (_new_candidate_token r), (x :: rs), r, rest. split; [done|].
        split; [by constructor|done].
      * exists (_new_candidate_token x), [], x, (rs ++ r :: rest). by repeat constructor.
Qed.

(** ** Stored scans *)
(** every candidate of a stored result belongs to the caller *)
Definition owned (principal instance : pystr) (c : Candidate.t) : Prop :=
  Candidate.owner_principal_id c = principal /\ Candidate.owner_instance_id c = instance.

Lemma stored_scan_fresh q p i l :
  ScanRequest.scan_operation_id q ∉ map (fun x => ScanRequest.scan_operation_id x.1) l ->
  stored_scan q p i l = Ok None.
Proof.
  induction l as [|[q' r'] l IH]; cbn; [done|]. rw not_elem_of_cons. intros [Hne Hn].
  rw bool_decide_eq_false_2; [by apply IH|congruence].
Qed.

Lemma stored_scan_found q p i l q' r o :
  NoDup (map (fun x => ScanRequest.scan_operation_id x.1) l) -> (q', r) ∈ l ->
  ScanRequest.scan_operation_id q' = ScanRequest.scan_operation_id q ->
  stored_scan q p i l = Ok o <->
  q' = q /\ Forall (owned p i) (ScanResult.candidates r) /\ o = Some r.
Proof.
  induction l as [|[q0 r0] l IH]; cbn; [by intros _ ?%elem_of_nil|].
  intros [Hn Hnd]%NoDup_cons Hin E. apply elem_of_cons in Hin as [[= -> ->]|Hin].
  - rw (bool_decide_eq_true_2 (ScanRequest.scan_operation_id q0 = _)) //. cbn.
    rw bind_ok_unit raise_if_ok neqb_false bind_ok_unit raise_if_ok existsb_false_iff Ok_inj_iff.
    unfold owned. setoid_rewrite orb_false_iff. setoid_rewrite neqb_false. naive_solver.
  - rw bool_decide_eq_false_2; [by apply IH|]. intros E0. apply Hn. rw E0 -E.
    apply list_elem_of_fmap. by exists (q', r).
Qed.

(** ** The context *)
Record scan_context (now : Z) (principal instance component subject : pystr) : Prop := {
  xc_now : 0 <= now <= _MAX_SAFE_INTEGER;
  xc_principal : principal = ARTIFACT_HOLD_REAPER_PRINCIPAL_ID;
  xc_instance : stable_text instance;
  xc_component : component = ARTIFACT_HOLD_REAPER_COMPONENT_TYPE;
  xc_subject : subject = ARTIFACT_HOLD_EXPIRY_SUBJECT }.

Lemma principal_stable : stable_text ARTIFACT_HOLD_REAPER_PRINCIPAL_ID.
Proof. apply plain_stable_text; [done|]. by repeat constructor. Qed.

Lemma scan_context_ok now p i component subject x :
  check_scan_context now p i component subject = Ok x <-> scan_context now p i component subject.
Proof.
  destruct x. unfold check_scan_context. ok_goal. split.
  - intros. ok_split. by constructor.
  - intros []. subst. pose proof component_stable. pose proof subject_stable.
    pose proof principal_stable. done.
Qed.

(** ** Issuing a candidate *)
(** the candidate a scan of [s] issues at [now] *)
Record issued_by `{RFC8785} (q : ScanRequest.t) (s : CASState.t) (now : Z) (p i : pystr)
    (c : Candidate.t) : Prop := {
  ib_valid : candidate_valid c;
  ib_scan : Candidate.scan_operation_id c = ScanRequest.scan_operation_id q;
  ib_fence : Candidate.candidate_fencing_token c
    = LedgerState.candidate_fence_high_water (candidate_ledger s) + 1;
  ib_owned : owned p i c;
  ib_issued : Candidate.issued_at_ms c = now;
  ib_until : Candidate.lease_until_ms c = now + ARTIFACT_HOLD_CANDIDATE_LEASE_MAX_MS;
  ib_due : same_due_tuple (hold_state s) c = true }.

(** the proof of its allocation *)
Record allocated_by `{RFC8785} (q : ScanRequest.t) (s : CASState.t) (c : Candidate.t)
    (a : ScanAllocation.t) : Prop := {
  ab_valid : allocation_valid a;
  ab_of : allocated a = (q, c);
  ab_previous : ScanAllocation.previous_fence_high_water a
    = LedgerState.candidate_fence_high_water (candidate_ledger s) }.

Section Issue.
Context `{RFC8785}.

Lemma same_due_tuple_ok h c : same_due_tuple h c = true <->
  Candidate.artifact_id c = HoldState.artifact_id h /\ Candidate.hold_id c = HoldState.hold_id h
  /\ Candidate.expected_hold_digest c = HoldState.hold_digest h
  /\ Candidate.expected_artifact_version c = HoldState.artifact_version h
  /\ HoldState.expires_ms h = Some (Candidate.observed_expires_ms c).
Proof.
  unfold same_due_tuple. rw !andb_true_iff !bool_decide_eq_true. naive_solver.
Qed.

Lemma issue_ok q s c a : candidate_valid c -> scan_request_valid q ->
  Candidate.scan_operation_id c = ScanRequest.scan_operation_id q ->
  Candidate.candidate_fencing_token c
    = LedgerState.candidate_fence_high_water (candidate_ledger s) + 1 ->
  ScanAllocation._issue_scan_allocation q c
    (LedgerState.candidate_fence_high_water (candidate_ledger s)) = Ok a <-> allocated_by q s c a.
Proof.
  intros Hc Hq Hs Hf. rw issue_allocation_ok. split.
  - intros (_ & _ & Hp & d & -> & Hd). constructor; [|done|done]. constructor; cbn; try done. lia.
  - intros [[] E1 E2]. unfold allocated in E1. injection E1 as E3 E4.
    do 2 (split; [done|]). split; [congruence|].
    exists (ScanAllocation.allocation_digest a). split; [|done]. destruct a; cbn in *; congruence.
Qed.

Lemma allocate_ok draws q s now p i x a : scan_request_valid q ->
  HoldState.expires_ms (hold_state s) = Some x ->
  _allocate_scan_candidate draws q s (hold_state s) now p i = Ok a <->
  exists c, drawn draws (Candidate.candidate_lease_id c) (Candidate.candidate_token c)
    /\ issued_by q s now p i c /\ allocated_by q s c a.
Proof.
  intros Hq Hx. unfold _allocate_scan_candidate, drawn. rw Hx. cbn [default].
  destruct draws as [|r0 draws]; [split; [done|by intros (c & (? & ? & ? & _) & _)]|].
  rw bind_ok. setoid_rewrite draw_distinct_ok. split.
  - intros (t & Ht & Hr). apply bind_ok in Hr as (c & [Hc [d Ec]]%candidate_create_ok & Ha).
    exists c. apply issue_ok in Ha; try (done || by rw Ec). split; [exists r0, draws; by rw Ec|].
    split; [|done]. constructor; try (done || by rw Ec). apply same_due_tuple_ok. by rw Ec.
  - intros (c & (r & rest & [= <- <-] & E & Ht) & Hi & Ha). destruct (Hi).
    exists (Candidate.candidate_token c). rw -E. split; [done|]. apply bind_ok. exists c.
    split; [|by apply issue_ok]. apply candidate_create_ok. split; [done|].
    exists (Candidate.candidate_digest c). apply same_due_tuple_ok in ib_due0 as (? & ? & ? & ? & ?).
    destruct ib_owned0, ib_valid0, c; cbn in *; subst. congruence.
Qed.
End Issue.

(** ** The snapshot after a scan *)
Definition scanned_cas (s : CASState.t) (q : ScanRequest.t) (r : ScanResult.t) (c : Candidate.t)
    (a : ScanAllocation.t) : CASState.t :=
  Make (HoldState.with_candidate (hold_state s) (Some c))
    (scanned (candidate_ledger s) q r [a]) (commits s) (audit_records s) (outbox_records s).

Section Scanned.
Context `{RFC8785}.
Variables (s : CASState.t) (q : ScanRequest.t) (now : Z) (p i : pystr) (r : ScanResult.t)
  (c : Candidate.t) (a : ScanAllocation.t).
Let l := candidate_ledger s.
Hypothesis valid : cas_valid s.
Hypothesis active : HoldState.hold_status (hold_state s) = ACTIVE.
Hypothesis single : ScanResult.candidates r = [c].
Hypothesis by_scan : issued_by q s now p i c.

Lemma scanned_cas_entries : entries (scanned_cas s q r c a) = entries s ++ [LedgerEntry.fresh c].
Proof. cbn. by rw single. Qed.

(** the new candidate has the greatest fence of those selected *)
Lemma latest_fresh (f : LedgerEntry.t -> bool) : f (LedgerEntry.fresh c) = true ->
  latest (List.filter f (entries s ++ [LedgerEntry.fresh c])) = Some c.
Proof.
  intros Hf. unfold latest. rw List.filter_app. cbn. rw Hf map_app. cbn. apply max_by_last.
  apply Forall_forall. intros c' (e & -> & [He _]%filter_In)%list_elem_of_fmap.
  pose proof (l_bounded _ (s_ledger _ valid)) as Hb. rw Forall_forall in Hb. specialize (Hb _ He).
  pose proof (ib_fence _ _ _ _ _ _ by_scan). unfold entry_fence in Hb. cbn in Hb. lia.
Qed.

Lemma latest_candidate_scanned :
  latest_candidate (scanned l q r [a]) (hold_state s) = Some c.
Proof.
  unfold latest_candidate. unfold scanned. cbn [LedgerState.candidate_entries]. rw single. cbn [map].
  apply latest_fresh. cbn. apply (ib_due _ _ _ _ _ _ by_scan).
Qed.

Lemma scanned_fresh : ledger_valid (scanned l q r [a]) -> fresh_candidate l c.
Proof.
  intros HV. pose proof (ib_fence _ _ _ _ _ _ by_scan). pose proof (l_tokens _ HV) as Ht.
  unfold LedgerState.entry_tokens in Ht. unfold scanned in Ht. cbn [LedgerState.candidate_entries] in Ht.
  rw single flat_map_app in Ht. cbn [map flat_map LedgerEntry.tokens LedgerEntry.fresh
    LedgerEntry.candidate app] in Ht. apply NoDup_app in Ht as (_ & Hd & _).
  constructor; [apply by_scan|fold l in H0; lia|..]; intros Hin; apply (Hd _ Hin); set_solver.
Qed.

(** the allocation proof forces the high-water to be the last fence *)
Lemma scanned_tight : ledger_valid (scanned l q r [a]) -> allocated_by q s c a ->
  LedgerState.candidate_fence_high_water l = last_fence l.
Proof.
  intros HV [_ Ha Hp]. unfold allocated in Ha. injection Ha as _ Ea.
  pose proof (l_provenance _ HV) as Hpr. rw Forall_forall in Hpr.
  destruct (Hpr a) as (j & Hj & Hpj); [cbn; apply elem_of_app; right; by left|].
  assert (ledger_candidates (scanned l q r [a]) = ledger_candidates l ++ [c]) as E.
  { unfold ledger_candidates, scanned. cbn [LedgerState.candidate_entries]. by rw single map_app. }
  pose proof (ledger_candidates_nodup _ HV) as Hn. rw E in Hn, Hj, Hpj.
  assert (j = length (ledger_candidates l)) as ->.
  { eapply NoDup_lookup; [exact Hn|by rw Hj Ea|]. by rw lookup_app_r // Nat.sub_diag. }
  rw fence_before_app // fence_before_last in Hpj. unfold last_fence.
  rw -Hp Hpj. unfold ledger_candidates. by rw map_map.
Qed.

Lemma scanned_hold_valid : Candidate.observed_expires_ms c <= now ->
  hold_valid (HoldState.with_candidate (hold_state s) (Some c)).
Proof.
  intros Hdue. destruct (s_hold _ valid). constructor; try done. intros c' [= <-].
  split; [apply by_scan|]. pose proof (ib_due _ _ _ _ _ _ by_scan) as Hd.
  apply same_due_tuple_ok in Hd as (? & ? & ? & ? & ?).
  assert (HoldState.is_finite_active (HoldState.with_candidate (hold_state s) (Some c)) = true) as Hf.
  { unfold HoldState.is_finite_active. cbn. rw active. cbn. by destruct (HoldState.expires_ms (hold_state s)). }
  unfold HoldState.candidate_bound. rw Hf. unfold HoldState.with_candidate. cbn.
  change (HoldState.is_finite_active (hold_state s) = true) in Hf. rw h_due h_score Hf.
  rw !bool_decide_eq_true_2; congruence || done.
Qed.

(** the commits of other resources are not affected *)
Lemma scanned_evidence_cas k e : k ∈ commits s -> commit_evidence s k e ->
  commit_evidence (scanned_cas s q r c a) k e.
Proof.
  intros Hk Hev. pose proof (active_no_commit s k valid active Hk) as Hno. destruct (Hev).
  constructor; try done.
  - rw scanned_cas_entries. apply Forall_app. split; [exact ce_last|]. apply Forall_singleton.
    apply not_true_is_false. unfold supersedes.
    rw !andb_true_iff !bool_decide_eq_true. cbn. intros (((((_ & Ea) & Eh) & _) & _) & _).
    pose proof (ib_due _ _ _ _ _ _ by_scan) as (? & ? & _)%same_due_tuple_ok.
    destruct ce_request as (q0 & _ & [] & []). apply Hno; congruence.
  - intros E1 E2. exfalso. by apply Hno.
Qed.

Lemma scanned_cas_valid : ledger_valid (scanned l q r [a]) ->
  Candidate.observed_expires_ms c <= now -> cas_valid (scanned_cas s q r c a).
Proof.
  intros HV Hdue. pose proof (active_no_claims s valid active) as Hcl.
  assert (forall e, live_scan (scanned l q r [a]) e = negb (LedgerEntry.consumed e)) as Hlive.
  { intros e. unfold live_scan. change (LedgerState.claims (scanned l q r [a])) with (LedgerState.claims l).
    unfold l. rw Hcl. cbn. rw bool_decide_eq_false_2; [|by intros ?%elem_of_nil]. apply andb_true_r. }
  destruct (valid). constructor; try done.
  - by apply scanned_hold_valid.
  - intros _. unfold projected. rw scanned_cas_entries. symmetry. apply latest_fresh.
    change (candidate_ledger (scanned_cas s q r c a)) with (scanned l q r [a]). rw Hlive. cbn.
    apply (ib_due _ _ _ _ _ _ by_scan).
  - intros c' [= <-]. exists (LedgerEntry.fresh c). rw scanned_cas_entries.
    split; [apply elem_of_app; right; by left|]. split; [done|].
    change (candidate_ledger (scanned_cas s q r c a)) with (scanned l q r [a]). by rw Hlive.
  - change (LedgerState.claims (candidate_ledger (scanned_cas s q r c a))) with (LedgerState.claims l).
    unfold l. by rw Hcl.
  - unfold consumed_operations.
    change (LedgerState.candidate_entries (candidate_ledger (scanned_cas s q r c a)))
      with (entries (scanned_cas s q r c a)). rw scanned_cas_entries omap_app. cbn. by rw app_nil_r.
  - apply Forall_forall. intros k Hk. pose proof (proj1 (Forall_forall _ _) s_evidence k Hk) as (e & He & Hev). exists e. split; [|by apply scanned_evidence_cas].
    rw scanned_cas_entries. apply elem_of_app. by left.
Qed.
End Scanned.

(** ** Creation succeeds on well-formed arguments *)
Section Creation.
Context `{RFC8785}.

Lemma scan_result_create_ok q cs r :
  ScanResult.create q cs = Ok r <-> scan_pair_valid q r /\ ScanResult.candidates r = cs.
Proof.
  unfold ScanResult.create. ok_goal. split.
  - intros. ok_split. subst. done.
  - intros [Hp <-]. split; [apply Hp|]. split; [apply Hp|]. exists (ScanResult.result_digest r).
    destruct (Hp) as [_ [] E1 E2 _]. destruct r; cbn in *; subst. done.
Qed.

Context `{!RFC8785Spec}.

Lemma candidate_total so li f to p i ia lu ai hi hd av ox : sha256_hex so -> issued_token li ->
  issued_token to -> li <> to -> 1 <= f <= _MAX_SAFE_INTEGER -> stable_text p -> stable_text i ->
  lease_ok ia lu -> due_tuple ai hi hd av ox ->
  exists d, candidate_valid (Candidate.Make (u "1") so li f to p i ia lu ai hi hd av ox d).
Proof.
  intros Hso Hli Hto Hne Hf Hp Hi Hl Hd.
  destruct (canonical_digest_total (Candidate.payload
    (Candidate.Make (u "1") so li f to p i ia lu ai hi hd av ox []))) as (d & Hdd & _).
  { unfold lease_ok, due_tuple in *. ok_split. wire_object. }
  exists d. by constructor.
Qed.

(** a result of one candidate *)
Lemma scan_result_total q c : scan_request_valid q -> candidate_valid c ->
  Candidate.scan_operation_id c = ScanRequest.scan_operation_id q ->
  exists r, scan_pair_valid q r /\ ScanResult.candidates r = [c].
Proof.
  intros Hq Hc Hs. pose proof (canonical_digest_hex _ _ (sr_digest _ Hq)) as Hd.
  pose proof (sr_id _ Hq) as Hid.
  set (mk := ScanResult.Make (u "1") (ScanRequest.scan_operation_id q) (ScanRequest.request_digest q) [c]).
  destruct (canonical_digest_total (ScanResult.payload (mk []))) as (d & Hdd & _).
  { apply within_members; [vm_compute; reflexivity|].
    do 3 (apply Forall_cons; split; [split; [reflexivity|wire_atom]|]).
    apply Forall_singleton. split; [reflexivity|].
    apply within_arr, Forall_singleton, candidate_within, Hc. }
  exists (mk d). split; [|done]. destruct (Hc). constructor; try done; [|apply Hq].
  constructor; try done; cbn; try by apply Forall_singleton.
  - apply NoDup_cons. split; [by rw list_elem_of_singleton|]. apply NoDup_singleton.
  - apply NoDup_singleton.
Qed.

Lemma allocation_total q s c : scan_request_valid q -> candidate_valid c ->
  ledger_valid (candidate_ledger s) ->
  Candidate.scan_operation_id c = ScanRequest.scan_operation_id q ->
  Candidate.candidate_fencing_token c
    = LedgerState.candidate_fence_high_water (candidate_ledger s) + 1 ->
  exists a, allocated_by q s c a.
Proof.
  intros Hq Hc HL Hs Hf. pose proof (canonical_digest_hex _ _ (sr_digest _ Hq)).
  pose proof (canonical_digest_hex _ _ (c_digest _ Hc)). pose proof (sr_id _ Hq).
  pose proof (l_high_water _ HL).
  set (mk := fun d => ScanAllocation.Make q c
    (LedgerState.candidate_fence_high_water (candidate_ledger s)) d true).
  destruct (canonical_digest_total (ScanAllocation.payload (mk []))) as (d & Hdd & _);
    [subst mk; wire_object|].
  exists (mk d). constructor; [|done|done]. constructor; try done. cbn. lia.
Qed.
End Creation.

(** ** The operation *)
(** what a successful first scan did *)
Record scan_step `{RFC8785} (q : ScanRequest.t) (s : CASState.t) (now : Z) (p i : pystr)
    (draws : list pybytes) (s' : CASState.t) (r : ScanResult.t) (c : Candidate.t)
    (a : ScanAllocation.t) : Prop := {
  ss_active : HoldState.hold_status (hold_state s) = ACTIVE;
  ss_due : Candidate.observed_expires_ms c <= now;
  ss_drawn : drawn draws (Candidate.candidate_lease_id c) (Candidate.candidate_token c);
  ss_issued : issued_by q s now p i c;
  ss_authority : fresh_candidate (candidate_ledger s) c;
  ss_tight : LedgerState.candidate_fence_high_water (candidate_ledger s)
    = last_fence (candidate_ledger s);
  ss_allocated : allocated_by q s c a;
  ss_result : scan_pair_valid q r;
  ss_single : ScanResult.candidates r = [c];
  ss_state : s' = scanned_cas s q r c a }.

Section Operation.
Context `{RFC8785}.

Lemma due_score_ok h x : hold_valid h -> HoldState.hold_status h = ACTIVE ->
  (if (HoldState.expires_ms h == None) || negb (HoldState.due_indexed h)
   then None else HoldState.due_score_ms h) = Some x <-> HoldState.expires_ms h = Some x.
Proof.
  intros [] Ha. rw h_due h_score. unfold HoldState.is_finite_active. rw Ha. cbn.
  by destruct (HoldState.expires_ms h).
Qed.

Lemma scan_first_ok draws q s now p i component subject s' r :
  ScanRequest.scan_operation_id q ∉ scan_operation_ids (candidate_ledger s) ->
  apply_artifact_hold_expiry_scan draws q s now p i component subject = Ok (s', r) <->
  scan_request_valid q /\ cas_valid s /\ scan_context now p i component subject
  /\ exists c a, scan_step q s now p i draws s' r c a.
Proof.
  intros Hfresh. unfold apply_artifact_hold_expiry_scan.
  rw bind_ok_unit scan_request_ok bind_ok_unit cas_ok bind_ok_unit scan_context_ok
    stored_scan_fresh //. cbn [mbind result_bind].
  assert (forall P Q R : Prop, (P -> (Q <-> R)) -> P /\ Q <-> P /\ R) as Himp by tauto.
  apply Himp. intros Hq. apply Himp. intros HS. apply Himp. intros Hctx.
  rw bind_ok_unit raise_if_ok neqb_false.
  pose proof (s_ledger _ HS) as HL. split.
  - intros (Ha & Hr). apply bind_ok in Hr as (x & Hx%or_raise_ok & Hr).
    apply (due_score_ok _ _ (s_hold _ HS) Ha) in Hx.
    rw bind_ok_unit raise_if_ok Z.ltb_ge in Hr. destruct Hr as (Hdue & Hr).
    apply bind_ok in Hr as (a & Hal & Hr).
    apply (allocate_ok _ _ _ _ _ _ x) in Hal as (c & Hdr & Hib & Hab); [|done..].
    assert (ScanAllocation.candidate a = c) as Eac
      by (pose proof (ab_of _ _ _ _ Hab) as E; by injection E).
    apply bind_ok in Hr as (r' & [Hpair Hsingle]%scan_result_create_ok & Hr).
    rw Eac in Hsingle. rw bind_ok_unit in Hr. destruct Hr as [_ Hr].
    apply bind_ok in Hr as (l' & (HV & _ & _ & _ & ->)%record_scan_fresh & Hr); [|done].
    rw (latest_candidate_scanned _ _ _ _ _ _ _ a HS Hsingle Hib) in Hr.
    rw bind_ok_unit in Hr. destruct Hr as [_ [= <- <-]].
    assert (Candidate.observed_expires_ms c = x) as Ec.
    { pose proof (ib_due _ _ _ _ _ _ Hib) as Ex. apply same_due_tuple_ok in Ex as (_ & _ & _ & _ & Ex). congruence. }
    exists c, a. constructor; try done; [lia|by eapply scanned_fresh|by eapply scanned_tight].
  - intros (c & a & []). split; [done|].
    pose proof (ib_due _ _ _ _ _ _ ss_issued0) as Hd. pose proof Hd as (_ & _ & _ & _ & Hx)%same_due_tuple_ok.
    apply bind_ok. eexists. split; [apply or_raise_ok, due_score_ok; [apply HS|done|exact Hx]|].
    rw bind_ok_unit raise_if_ok Z.ltb_ge. split; [done|].
    apply bind_ok. exists a. split; [eapply allocate_ok; [done|exact Hx|by exists c]|].
    assert (ScanAllocation.candidate a = c) as Eac
      by (pose proof (ab_of _ _ _ _ ss_allocated0) as E; by injection E).
    apply bind_ok. exists r. split; [apply scan_result_create_ok; by rw Eac|].
    rw bind_ok_unit. split.
    { rw forM_ok ss_single0. apply Forall_singleton. unfold check_scan_candidate.
      destruct ss_issued0, ib_owned0. unfold check_scan_candidate. rw Hd.
      ok_goal. unfold ARTIFACT_HOLD_CANDIDATE_LEASE_MAX_MS in *. repeat (split; [done || lia|]). lia. }
    assert (scan_operation_ids (candidate_ledger s) ++ map claim_operation
      (LedgerState.claims (candidate_ledger s)) = scan_operation_ids (candidate_ledger s)) as Eid.
    { by rw (active_no_claims s HS ss_active0) app_nil_r. }
    apply bind_ok. exists (scanned (candidate_ledger s) q r [a]). split.
    { destruct ss_allocated0. apply (record_scan_complete _ _ _ c); try done. by rw Eid. }
    rw (latest_candidate_scanned _ _ _ _ _ _ _ a HS ss_single0 ss_issued0).
    rw bind_ok_unit cas_ok ss_state0. split; [|done].
    eapply scanned_cas_valid; try done. destruct ss_allocated0.
    apply (scanned_valid _ _ _ c); try done. by rw Eid.
Qed.

(** a scan that is already recorded *)
Lemma scan_retry_ok draws q s now p i component subject s' r q0 r0 :
  (q0, r0) ∈ LedgerState.scans (candidate_ledger s) ->
  ScanRequest.scan_operation_id q0 = ScanRequest.scan_operation_id q ->
  apply_artifact_hold_expiry_scan draws q s now p i component subject = Ok (s', r) <->
  scan_request_valid q /\ cas_valid s /\ scan_context now p i component subject
  /\ q0 = q /\ Forall (owned p i) (ScanResult.candidates r0) /\ s' = s /\ r = r0.
Proof.
  intros Hin E. unfold apply_artifact_hold_expiry_scan.
  rw bind_ok_unit scan_request_ok bind_ok_unit cas_ok bind_ok_unit scan_context_ok bind_ok.
  assert (forall P Q R : Prop, (P -> (Q <-> R)) -> P /\ Q <-> P /\ R) as Himp by tauto.
  apply Himp. intros Hq. apply Himp. intros HS. apply Himp. intros Hctx.
  assert (NoDup (scan_operation_ids (candidate_ledger s))) as Hn
    by by pose proof (l_operations _ (s_ledger _ HS)) as [? _]%NoDup_app.
  setoid_rewrite (stored_scan_found _ _ _ _ _ _ _ Hn Hin E). split.
  - intros (o & (-> & Ho & ->) & [= -> ->]). done.
  - intros (-> & Ho & -> & ->). by exists (Some r0).
Qed.

(** nothing else can make a first scan fail *)
Lemma scan_complete `{!RFC8785Spec} draws q s now p i component subject x lease token :
  scan_request_valid q -> cas_valid s -> scan_context now p i component subject ->
  ScanRequest.scan_operation_id q ∉ scan_operation_ids (candidate_ledger s) ->
  HoldState.hold_status (hold_state s) = ACTIVE ->
  HoldState.expires_ms (hold_state s) = Some x -> x <= now ->
  now + ARTIFACT_HOLD_CANDIDATE_LEASE_MAX_MS <= _MAX_SAFE_INTEGER ->
  LedgerState.candidate_fence_high_water (candidate_ledger s) < _MAX_SAFE_INTEGER ->
  LedgerState.candidate_fence_high_water (candidate_ledger s) = last_fence (candidate_ledger s) ->
  drawn draws lease token -> issued_token lease -> issued_token token ->
  lease ∉ LedgerState.entry_tokens (candidate_ledger s) -> token ∉ LedgerState.entry_tokens (candidate_ledger s) ->
  exists s' r c a, apply_artifact_hold_expiry_scan draws q s now p i component subject = Ok (s', r)
    /\ scan_step q s now p i draws s' r c a.
Proof.
  intros Hq HS Hctx Hfresh Ha Hx Hdue Hnow Hw Ht Hdr Hl1 Hl2 Hn1 Hn2.
  pose proof (s_ledger _ HS) as HL. pose proof (l_high_water _ HL). destruct (s_hold _ HS), Hctx.
  destruct (candidate_total (ScanRequest.scan_operation_id q) lease
    (LedgerState.candidate_fence_high_water (candidate_ledger s) + 1) token p i now
    (now + ARTIFACT_HOLD_CANDIDATE_LEASE_MAX_MS) (HoldState.artifact_id (hold_state s))
    (HoldState.hold_id (hold_state s)) (HoldState.hold_digest (hold_state s))
    (HoldState.artifact_version (hold_state s)) x) as [d Hc]; try done; try lia.
  - apply Hq.
  - intros ->. by destruct Hdr as (? & ? & _ & _ & ? & ? & ? & _ & _ & _ & ?).
  - subst p. apply principal_stable.
  - unfold lease_ok. unfold ARTIFACT_HOLD_CANDIDATE_LEASE_MAX_MS in *. lia.
  - unfold due_tuple. do 4 (split; [done|]). by apply h_expires.
  - set (c := Candidate.Make _ _ _ _ _ _ _ _ _ _ _ _ _ _ _) in Hc.
    destruct (scan_result_total q c) as (r & Hr & Hs); [done..|].
    destruct (allocation_total q s c) as [a Hab]; [done..|].
    assert (scan_step q s now p i draws (scanned_cas s q r c a) r c a) as Hst.
    { constructor; try done.
      - constructor; try done. by apply same_due_tuple_ok.
      - constructor; try done. cbn. lia. }
    exists (scanned_cas s q r c a), r, c, a. split; [|done]. apply scan_first_ok; [done|].
    split; [done|]. split; [done|]. split; [by constructor|]. by exists c, a.
Qed.
End Operation.
