(* ===== verification/ClaimOps.v ===== *)
(** * Claiming the replay of a committed expiry

    What [apply_artifact_hold_expiry_replay_claim] does on a well-formed
    snapshot: who may claim, the candidate the claim issues, the snapshot it
    returns, and the stored reply it repeats. *)
From S2P Require Import Prelude ListFacts PyStr Sha256 Json JsonFacts Contract ContractFacts WireFacts Scan.
From S2P Require Import ScanFacts Replay ReplayFacts Expire ExpireFacts Wire WireNested CommitFacts.
From S2P Require Import TransitionFacts Ledger LedgerFacts LedgerOps LedgerIssue LedgerClaims CasState.
From S2P Require Import CasFacts ExpireOps RetryOps ScanOps.
Local Open Scope py_scope.
Local Open Scope Z_scope.
Import CASState.

(** ** Stored claims *)
Lemma stored_claim_fresh q p i l :
  ReplayClaimRequest.replay_operation_id q ∉ map claim_operation l -> stored_claim q p i l = Ok None.
Proof.
  induction l as [|[q' r'] l IH]; cbn; [done|]. rw not_elem_of_cons. intros [Hne Hn].
  rw bool_decide_eq_false_2; [by apply IH|unfold claim_operation in Hne; cbn in Hne; congruence].
Qed.

Lemma stored_claim_found q p i l q' r o : NoDup (map claim_operation l) -> (q', r) ∈ l ->
  ReplayClaimRequest.replay_operation_id q' = ReplayClaimRequest.replay_operation_id q ->
  stored_claim q p i l = Ok o <->
  q' = q /\ owned p i (ReplayClaimResult.candidate r) /\ o = Some r.
Proof.
  induction l as [|[q0 r0] l IH]; cbn; [by intros _ ?%elem_of_nil|].
  intros [Hn Hnd]%NoDup_cons Hin E. apply elem_of_cons in Hin as [[= -> ->]|Hin].
  - rw (bool_decide_eq_true_2 (ReplayClaimRequest.replay_operation_id q0 = _)) //. cbn.
    rw bind_ok_unit raise_if_ok neqb_false bind_ok_unit raise_if_ok orb_false_iff !neqb_false
      Ok_inj_iff. unfold owned. naive_solver.
  - rw bool_decide_eq_false_2; [by apply IH|]. intros E0. apply Hn.
    apply list_elem_of_fmap. exists (q', r). unfold claim_operation. cbn. split; [congruence|done].
Qed.

(** ** The context *)
Record claim_context (now until : Z) (principal instance component subject : pystr) : Prop := {
  kc_now : 0 <= now <= _MAX_SAFE_INTEGER;
  kc_until : 0 <= until <= _MAX_SAFE_INTEGER;
  kc_principal : stable_text principal;
  kc_instance : stable_text instance;
  kc_component : component = ARTIFACT_HOLD_REAPER_COMPONENT_TYPE;
  kc_subject : subject = ARTIFACT_HOLD_EXPIRY_SUBJECT }.

Lemma claim_context_ok now until p i component subject x :
  check_claim_context now until p i component subject = Ok x <->
  claim_context now until p i component subject.
Proof.
  destruct x. unfold check_claim_context. ok_goal. split.
  - intros. ok_split. by constructor.
  - intros []. subst. pose proof component_stable. pose proof subject_stable. done.
Qed.

(** ** Who may claim *)
(** the claim names the committed expiry [k], the candidate it consumed and the current resource *)
Record may_claim (q : ReplayClaimRequest.t) (s : CASState.t) (k : Commit.t) (c : Candidate.t)
    (p : pystr) : Prop := {
  mc_base : ReplayClaimRequest.base_commit_digest q = Commit.commit_digest k;
  mc_artifact : ReplayClaimRequest.artifact_id q = Candidate.artifact_id c;
  mc_hold : ReplayClaimRequest.hold_id q = Candidate.hold_id c;
  mc_digest : ReplayClaimRequest.expected_hold_digest q = Candidate.expected_hold_digest c;
  mc_version : ReplayClaimRequest.expected_artifact_version q
    = Candidate.expected_artifact_version c;
  mc_expires : ReplayClaimRequest.observed_expires_ms q = Candidate.observed_expires_ms c;
  mc_principal : p = Commit.authorized_reaper_principal_id k;
  mc_current_artifact : HoldState.artifact_id (hold_state s) = ReplayClaimRequest.artifact_id q;
  mc_current_hold : HoldState.hold_id (hold_state s) = ReplayClaimRequest.hold_id q }.

Section Checks.
Context `{RFC8785}.

(** the hold of the resource a commit expired *)
Lemma committed_hold s k e : commit_evidence s k e ->
  HoldState.artifact_id (hold_state s) = Candidate.artifact_id (LedgerEntry.candidate e) ->
  HoldState.hold_id (hold_state s) = Candidate.hold_id (LedgerEntry.candidate e) ->
  ExpiryResult.artifact_id (committed_result k) = Candidate.artifact_id (LedgerEntry.candidate e)
  /\ ExpiryResult.hold_id (committed_result k) = Candidate.hold_id (LedgerEntry.candidate e)
  /\ Commit.expected_hold_digest k = Candidate.expected_hold_digest (LedgerEntry.candidate e)
  /\ Commit.previous_artifact_version k
     = Candidate.expected_artifact_version (LedgerEntry.candidate e)
  /\ reflects (hold_state s) k (committed_result k) (LedgerEntry.candidate e).
Proof.
  intros Hev E1 E2. destruct (ce_request _ _ _ Hev) as (q0 & _ & [] & []).
  assert (ExpiryResult.artifact_id (committed_result k)
    = Candidate.artifact_id (LedgerEntry.candidate e)) as Ea by congruence.
  assert (ExpiryResult.hold_id (committed_result k)
    = Candidate.hold_id (LedgerEntry.candidate e)) as Eh by congruence.
  do 2 (split; [done|]). do 2 (split; [congruence|]). apply (ce_hold _ _ _ Hev); congruence.
Qed.

Lemma check_claim_request_ok q s k e p x : cas_valid s -> claim_request_valid q ->
  k ∈ commits s -> Commit.expire_operation_id k = ReplayClaimRequest.expire_operation_id q ->
  e ∈ entries s -> commit_evidence s k e ->
  check_claim_request q s k p = Ok x <-> may_claim q s k (LedgerEntry.candidate e) p.
Proof.
  intros HS Hq Hk Ek He Hev. destruct x. pose proof (s_ledger _ HS) as HL.
  assert (NoDup (consumed_operations (candidate_ledger s))) as Hn
    by (rw (s_consumed _ HS); apply HS).
  assert (LedgerEntry.consumed_by_expire_operation_id e
    = Some (ReplayClaimRequest.expire_operation_id q)) as Eo by (rw -Ek; apply Hev).
  unfold check_claim_request. rw bind_ok_unit raise_if_ok neqb_false bind_ok. split.
  - intros (Hb & r & Hr & Hc).
    apply bind_ok in Hc as (c & (e' & He' & Eo' & ->)%(consumed_entry_ok _ HL _ _ _ Hn) & Hc).
    assert (e' = e) as -> by by eapply NoDup_omap_inj.
    apply bind_ok in Hc as (b & Hm & Hc). rw bind_ok_unit raise_if_ok in Hc. destruct Hc as [-> Hc].
    match type of Hm with (if ?b then _ else _) = _ => destruct b eqn:E; [done|] end.
    apply bind_ok in Hm as (id & _ & [= Hm]). rw !orb_false_iff !neqb_false in E, Hm.
    rw bind_ok_unit raise_if_ok neqb_false raise_if_ok !orb_false_iff !neqb_false in Hc.
    destruct E as ((((? & ?) & ?) & ?) & ?), Hc as (? & (((((((_ & ?) & ?) & _) & _) & _) & _) & _)).
    by constructor.
  - intros []. destruct (committed_hold s k e Hev) as (Ea & Eh & Ed & Ev & []); [congruence..|].
    pose proof (s_commits _ HS) as Hcs. rw Forall_forall in Hcs.
    destruct (k_result _ (Hcs _ Hk)) as [r Hr].
    assert (committed_result k = r) as Er by (unfold committed_result; by rw Hr). rw -Er in Hr.
    split; [done|]. exists (committed_result k). split; [done|]. apply bind_ok.
    exists (LedgerEntry.candidate e). split; [apply consumed_entry_ok; [done..|]; by exists e|].
    apply bind_ok. exists false. split.
    { rw !bool_decide_eq_true_2; try congruence. cbn.
      rw -mc_artifact0 -mc_hold0 -mc_digest0 -mc_version0 -mc_expires0 (cr_expire _ Hq). cbn.
      by rw bool_decide_eq_true_2. }
    rw bind_ok_unit raise_if_ok bind_ok_unit raise_if_ok neqb_false raise_if_ok !orb_false_iff
      !neqb_false Z.ltb_ge.
    split; [done|]. split; [done|]. repeat split; done || congruence.
Qed.

(** a claim may follow the current one once its lease has ended *)
Lemma check_current_lease_ok s k now x : ledger_valid (candidate_ledger s) -> sha256_hex k ->
  check_current_lease s k now = Ok x <->
  forall cl, current_claim (candidate_ledger s) k = Some cl ->
    Candidate.lease_until_ms (LedgerState.claim_candidate cl) <= now.
Proof.
  intros HL Hk. unfold check_current_lease. rw bind_ok.
  setoid_rewrite (current_replay_claim_ok _ HL). split.
  - intros (o & [_ ->] & Ho) cl Hcl. rw when_some_ok in Ho. specialize (Ho cl Hcl).
    rw bind_ok_unit !raise_if_ok !Z.ltb_ge in Ho. lia.
  - intros Hcl. eexists. split; [done|]. rw when_some_ok. intros cl E. specialize (Hcl cl E).
    rw bind_ok_unit !raise_if_ok !Z.ltb_ge. split; [|done].
    apply current_claim_elem, claims_for_elem in E as [Hin _].
    pose proof (cres_candidate _ (cp_result _ _ (claim_is_valid _ HL _ Hin))) as Hc.
    destruct (c_lease _ Hc) as (_ & ? & _). unfold LedgerState.claim_candidate in *. lia.
Qed.
End Checks.

(** ** The snapshot after a claim *)
Definition claimed_cas (s : CASState.t) (q : ReplayClaimRequest.t) (r : ReplayClaimResult.t)
    : CASState.t :=
  Make (hold_state s) (claimed (candidate_ledger s) q r) (commits s) (audit_records s)
    (outbox_records s).

(** what a successful first claim did *)
Record claim_step `{RFC8785} (q : ReplayClaimRequest.t) (s : CASState.t) (now until : Z)
    (p i : pystr) (s' : CASState.t) (r : ReplayClaimResult.t) (k : Commit.t) (e : LedgerEntry.t)
    : Prop := {
  cs_commit : k ∈ commits s;
  cs_operation : Commit.expire_operation_id k = ReplayClaimRequest.expire_operation_id q;
  cs_entry : e ∈ entries s;
  cs_evidence : commit_evidence s k e;
  cs_may : may_claim q s k (LedgerEntry.candidate e) p;
  cs_unscanned : ReplayClaimRequest.replay_operation_id q
    ∉ scan_operation_ids (candidate_ledger s);
  cs_lease : now < until;
  cs_current : forall cl,
    current_claim (candidate_ledger s) (ReplayClaimRequest.expire_operation_id q) = Some cl ->
    Candidate.lease_until_ms (LedgerState.claim_candidate cl) <= now;
  cs_revisions : Z.of_nat (length (claims_for (candidate_ledger s)
    (ReplayClaimRequest.expire_operation_id q))) < _MAX_SAFE_INTEGER;
  cs_time : Commit.committed_at_ms k <= now;
  cs_pair : claim_pair_valid q r;
  cs_owned : owned p i (ReplayClaimResult.candidate r);
  cs_issued : Candidate.issued_at_ms (ReplayClaimResult.candidate r) = now;
  cs_until : Candidate.lease_until_ms (ReplayClaimResult.candidate r) = until;
  cs_fence : Candidate.candidate_fencing_token (ReplayClaimResult.candidate r)
    = LedgerState.candidate_fence_high_water (candidate_ledger s) + 1;
  cs_authority : fresh_candidate (candidate_ledger s) (ReplayClaimResult.candidate r);
  cs_state : s' = claimed_cas s q r }.

Section Claimed.
Context `{RFC8785}.
Variables (q : ReplayClaimRequest.t) (s : CASState.t) (now until : Z) (p i : pystr)
  (r : ReplayClaimResult.t) (k : Commit.t) (e : LedgerEntry.t).
Let l := candidate_ledger s.
Let s' := claimed_cas s q r.
Hypothesis valid : cas_valid s.
Hypothesis unclaimed : ReplayClaimRequest.replay_operation_id q ∉ map claim_operation (LedgerState.claims l).
Hypothesis step : claim_step q s now until p i s' r k e.

Lemma claimed_complete : LedgerState._record_replay_claim l q r = Ok (claimed l q r)
  /\ ledger_valid (claimed l q r).
Proof.
  destruct step. pose proof (s_ledger _ valid) as HL.
  assert (ReplayClaimRequest.replay_operation_id q
    ∉ scan_operation_ids l ++ map claim_operation (LedgerState.claims l)) as Hn.
  { rw elem_of_app. by intros [?|?]. }
  assert (forall c', current_claim l (ReplayClaimRequest.expire_operation_id q) = Some c' ->
    ends_before (LedgerState.claim_candidate c') (ReplayClaimResult.candidate r)) as Hs.
  { intros c' Hc'. unfold ends_before. rw cs_issued0. by apply cs_current0. }
  split; [by apply record_claim_complete|by apply claimed_valid].
Qed.

Lemma claimed_live e' : live_scan (claimed l q r) e' = true -> live_scan l e' = true.
Proof.
  rw !live_scan_iff (claimed_claims l q r (s_ledger _ valid)) map_app elem_of_app.
  intros [? Hn]. split; [done|]. intros ?. apply Hn. by left.
Qed.

Lemma claimed_not_live : live_scan (claimed l q r)
  (LedgerEntry.fresh (ReplayClaimResult.candidate r)) = false.
Proof.
  apply not_true_is_false. rw live_scan_iff (claimed_claims l q r (s_ledger _ valid)) map_app elem_of_app.
  intros [_ Hn]. apply Hn. right. cbn. by left.
Qed.

Lemma claimed_evidence k0 e0 : commit_evidence s k0 e0 -> commit_evidence s' k0 e0.
Proof.
  intros []. constructor; try done. cbn. apply Forall_app. split.
  - eapply Forall_impl; [exact ce_last|]. intros e' He'. apply not_true_is_false. intros Ht.
    apply not_true_iff_false in He'. apply He'. unfold supersedes in *.
    do 5 (apply andb_true_iff in Ht as [Ht ?]; apply andb_true_iff; split; [|done]).
    by apply claimed_live.
  - apply Forall_singleton. unfold supersedes. fold l. by rw claimed_not_live.
Qed.

Lemma claimed_committed : claim_committed s' k (q, r).
Proof.
  destruct step as [? ? ? Hev [] ? ? ? ? ? [] [] ? ? ? ? _].
  destruct (committed_hold s k e Hev) as (Ea & Eh & Ed & Ev & []); [congruence..|].
  constructor; cbn; unfold LedgerState.claim_candidate, LedgerState.claim_fence, claim_expire; cbn;
    try (done || congruence).
  rw cs_fence0 (ce_fence _ _ _ Hev).
  pose proof (l_bounded _ (s_ledger _ valid)) as Hb. rw Forall_forall in Hb.
  specialize (Hb _ cs_entry0). cbn in Hb. lia.
Qed.

Lemma claimed_cas_valid : cas_valid s'.
Proof.
  pose proof claimed_complete as [_ HV]. pose proof claimed_committed as Hk.
  destruct (cc_terminal _ _ _ Hk) as (Hst & _ & Hno). cbn in Hst, Hno.
  destruct valid. constructor; try done.
  - cbn. congruence.
  - cbn. congruence.
  - change (LedgerState.claims (candidate_ledger s')) with (LedgerState.claims (claimed l q r)).
    rw (claimed_claims l q r s_ledger). apply Forall_app. split.
    + eapply Forall_impl; [exact s_claims|]. intros cl (k' & Hk' & []). exists k'. done.
    + apply Forall_singleton. exists k. split; [apply step|done].
  - unfold consumed_operations. cbn. rw omap_app. cbn. by rw app_nil_r.
  - eapply Forall_impl; [exact s_evidence|]. intros k' (e' & He' & Hev').
    exists e'. split; [cbn; apply elem_of_app; by left|]. by apply claimed_evidence.
Qed.
End Claimed.

(** ** The operation *)
Section Operation.
Context `{RFC8785}.

(** what a recorded claim shows of the ledger it was recorded on *)
Lemma claimed_facts l q r : ledger_valid l -> ledger_valid (claimed l q r) ->
  ReplayClaimRequest.replay_operation_id q ∉ scan_operation_ids l
  /\ Z.of_nat (length (claims_for l (ReplayClaimRequest.expire_operation_id q))) < _MAX_SAFE_INTEGER.
Proof.
  intros HL HV. pose proof (claimed_claims l q r HL) as Hcl. split.
  - pose proof (l_operations _ HV) as Ho. rw Hcl map_app in Ho.
    apply NoDup_app in Ho as (_ & Hd & _). intros Hin. apply (Hd _ Hin).
    apply elem_of_app. right. by left.
  - set (k := ReplayClaimRequest.expire_operation_id q).
    assert (claims_for (claimed l q r) k = claims_for l k ++ [(q, r)]) as Ec.
    { unfold claims_for. rw Hcl group_snoc. unfold claim_expire at 2. cbn. by rw bool_decide_eq_true_2. }
    destruct (current_claim (claimed l q r) k) as [c|] eqn:E.
    + pose proof (pointer_elem _ HV _ _ E) as Hp. pose proof (l_revisions _ HV) as Hr.
      rw Forall_forall in Hr. specialize (Hr _ Hp).
      change (Z.of_nat (length (claims_for (claimed l q r) k)) <= _MAX_SAFE_INTEGER) in Hr.
      rw Ec length_app in Hr. cbn [length] in Hr. lia.
    + apply current_claim_None, claims_for_nil in E. rw Ec in E. by destruct (claims_for l k).
Qed.

Lemma claim_first_ok q s now until p i component subject s' r :
  ReplayClaimRequest.replay_operation_id q
    ∉ map claim_operation (LedgerState.claims (candidate_ledger s)) ->
  apply_artifact_hold_expiry_replay_claim q s now until p i component subject = Ok (s', r) <->
  claim_request_valid q /\ cas_valid s /\ claim_context now until p i component subject
  /\ exists k e, claim_step q s now until p i s' r k e.
Proof.
  intros Hfresh. unfold apply_artifact_hold_expiry_replay_claim.
  rw bind_ok_unit claim_request_ok bind_ok_unit cas_ok bind_ok_unit claim_context_ok
    stored_claim_fresh //. cbn [mbind result_bind].
  assert (forall P Q R : Prop, (P -> (Q <-> R)) -> P /\ Q <-> P /\ R) as Himp by tauto.
  apply Himp. intros Hq. apply Himp. intros HS. apply Himp. intros Hctx.
  pose proof (s_ledger _ HS) as HL.
  destruct (operation_id_ok _ _ _ _ _ _ (cr_expire _ Hq)) as [_ Hop].
  rw bind_ok_unit raise_if_ok Z.leb_gt bind_ok. setoid_rewrite (commit_for_ok s _ _ HS).
  split.
  - intros (Hlt & o & [_ Ho] & Hr). apply bind_ok in Hr as (k & ->%or_raise_ok & Hr).
    destruct Ho as [Hk Ek]. pose proof (s_evidence _ HS) as Hevs. rw Forall_forall in Hevs.
    destruct (Hevs _ Hk) as (e & He & Hev).
    rw bind_ok_unit (check_claim_request_ok q s k e) // bind_ok_unit check_current_lease_ok // in Hr.
    destruct Hr as (Hmc & Hcur & Hr).
    apply bind_ok in Hr as (c & [Hc [d Ec]]%candidate_create_ok & Hr).
    apply bind_ok in Hr as (r' & [Hpair Er]%claim_result_create_ok & Hr).
    apply bind_ok in Hr as (l' & (HV & _ & Hfr & ->)%record_claim_fresh & Hr); [|done].
    rw bind_ok_unit cas_ok in Hr. destruct Hr as [HS' [= <- <-]].
    destruct (claimed_facts _ _ _ HL HV) as [Hun Hrev].
    assert (Commit.committed_at_ms k <= now) as Hnow.
    { pose proof (s_claims _ HS') as Hcl.
      change (LedgerState.claims (candidate_ledger (Make (hold_state s)
        (claimed (candidate_ledger s) q r') (commits s) (audit_records s) (outbox_records s))))
        with (LedgerState.claims (claimed (candidate_ledger s) q r')) in Hcl.
      rw (claimed_claims _ q r' HL) in Hcl. apply Forall_app in Hcl as [_ Hcl].
      apply Forall_singleton in Hcl as (k' & Hk' & Hcc).
      assert (k' = k) as ->.
      { eapply NoDup_map_inj; [apply HS|done|done|]. by rw Ek (cc_operation _ _ _ Hcc). }
      pose proof (cc_time _ _ _ Hcc) as Ht. unfold LedgerState.claim_candidate in Ht. cbn in Ht.
      by rw Er Ec in Ht. }
    exists k, e. constructor; try done; by rw Er Ec.
  - intros (k & e & Hst). assert (s' = claimed_cas s q r) as -> by apply Hst. pose proof (claimed_complete _ _ _ _ _ _ _ _ _ HS Hfresh Hst) as [Hrec _].
    pose proof (claimed_cas_valid _ _ _ _ _ _ _ _ _ HS Hfresh Hst) as HS'. destruct Hst.
    split; [done|]. exists (Some k). split; [done|]. apply bind_ok. exists k. split; [done|].
    rw bind_ok_unit (check_claim_request_ok q s k e) // bind_ok_unit check_current_lease_ok //.
    do 2 (split; [done|]). apply bind_ok. exists (ReplayClaimResult.candidate r). split.
    { apply candidate_create_ok. pose proof (cres_candidate _ (cp_result _ _ cs_pair0)) as Hcv.
      split; [done|]. exists (Candidate.candidate_digest (ReplayClaimResult.candidate r)).
      pose proof (cres_operation _ (cp_result _ _ cs_pair0)) as Eop. rw (cp_replay _ _ cs_pair0) in Eop.
      destruct cs_pair0 as [_ _ _ _ _ _ E1 E2 E3 E4 E5 E6 E7], cs_owned0 as [E8 E9].
      rw -Eop -E1 -E2 -E3 -E4 -E5 -E6 -E7 -E8 -E9 -cs_fence0 -cs_until0 -cs_issued0 -(c_schema _ Hcv).
      by destruct (ReplayClaimResult.candidate r). }
    apply bind_ok. exists r. split; [by apply claim_result_create_ok|].
    apply bind_ok. exists (claimed (candidate_ledger s) q r). split; [done|].
    by rw bind_ok_unit cas_ok.
Qed.

(** a claim that is already recorded *)
Lemma claim_retry_ok q s now until p i component subject s' r q0 r0 :
  (q0, r0) ∈ LedgerState.claims (candidate_ledger s) ->
  ReplayClaimRequest.replay_operation_id q0 = ReplayClaimRequest.replay_operation_id q ->
  apply_artifact_hold_expiry_replay_claim q s now until p i component subject = Ok (s', r) <->
  claim_request_valid q /\ cas_valid s /\ claim_context now until p i component subject
  /\ q0 = q /\ owned p i (ReplayClaimResult.candidate r0) /\ s' = s /\ r = r0.
Proof.
  intros Hin E. unfold apply_artifact_hold_expiry_replay_claim.
  rw bind_ok_unit claim_request_ok bind_ok_unit cas_ok bind_ok_unit claim_context_ok bind_ok.
  assert (forall P Q R : Prop, (P -> (Q <-> R)) -> P /\ Q <-> P /\ R) as Himp by tauto.
  apply Himp. intros Hq. apply Himp. intros HS. apply Himp. intros Hctx.
  pose proof (claim_operations_nodup _ (s_ledger _ HS)) as Hn.
  setoid_rewrite (stored_claim_found _ _ _ _ _ _ _ Hn Hin E). split.
  - intros (o & (-> & Ho & ->) & [= -> ->]). done.
  - intros (-> & Ho & -> & ->). by exists (Some r0).
Qed.

(** nothing else can make a first claim fail *)
Lemma claim_complete `{!RFC8785Spec} q s now until p i component subject k e :
  claim_request_valid q -> cas_valid s -> claim_context now until p i component subject ->
  ReplayClaimRequest.replay_operation_id q
    ∉ map claim_operation (LedgerState.claims (candidate_ledger s)) ->
  k ∈ commits s -> Commit.expire_operation_id k = ReplayClaimRequest.expire_operation_id q ->
  e ∈ entries s -> commit_evidence s k e -> may_claim q s k (LedgerEntry.candidate e) p ->
  ReplayClaimRequest.replay_operation_id q ∉ scan_operation_ids (candidate_ledger s) ->
  now < until <= now + ARTIFACT_HOLD_CANDIDATE_LEASE_MAX_MS ->
  (forall cl,
    current_claim (candidate_ledger s) (ReplayClaimRequest.expire_operation_id q) = Some cl ->
    Candidate.lease_until_ms (LedgerState.claim_candidate cl) <= now) ->
  Z.of_nat (length (claims_for (candidate_ledger s) (ReplayClaimRequest.expire_operation_id q)))
    < _MAX_SAFE_INTEGER ->
  Commit.committed_at_ms k <= now ->
  LedgerState.candidate_fence_high_water (candidate_ledger s) < _MAX_SAFE_INTEGER ->
  ReplayClaimRequest.candidate_lease_id q ∉ LedgerState.entry_tokens (candidate_ledger s) ->
  ReplayClaimRequest.candidate_token q ∉ LedgerState.entry_tokens (candidate_ledger s) ->
  exists s' r, apply_artifact_hold_expiry_replay_claim q s now until p i component subject = Ok (s', r)
    /\ claim_step q s now until p i s' r k e.
Proof.
  intros Hq HS Hctx Hfresh Hk Ek He Hev Hmc Hun Hlt Hcur Hrev Ht Hw Hn1 Hn2.
  pose proof (l_high_water _ (s_ledger _ HS)).
  destruct (operation_id_ok _ _ _ _ _ _ (cr_expire _ Hq)) as [Hd Hop].
  destruct (claim_operation_id_ok _ _ _ (cr_replay _ Hq)) as (_ & _ & Hrop).
  destruct (Hctx). destruct (candidate_total (ReplayClaimRequest.replay_operation_id q)
    (ReplayClaimRequest.candidate_lease_id q)
    (LedgerState.candidate_fence_high_water (candidate_ledger s) + 1)
    (ReplayClaimRequest.candidate_token q) p i now until (ReplayClaimRequest.artifact_id q)
    (ReplayClaimRequest.hold_id q) (ReplayClaimRequest.expected_hold_digest q)
    (ReplayClaimRequest.expected_artifact_version q) (ReplayClaimRequest.observed_expires_ms q))
    as [d Hc]; try (apply Hq || done || lia).
  { unfold lease_ok. lia. }
  set (c := Candidate.Make _ _ _ _ _ _ _ _ _ _ _ _ _ _ _) in Hc.
  pose proof (canonical_digest_hex _ _ (cr_digest _ Hq)) as Hqd. pose proof (cr_commit _ Hq).
  set (mk := ReplayClaimResult.Make (u "1") (ReplayClaimRequest.replay_operation_id q)
    (ReplayClaimRequest.expire_operation_id q) (ReplayClaimRequest.base_commit_digest q)
    (ReplayClaimRequest.request_digest q) (u "CLAIMED") c).
  destruct (canonical_digest_total (ReplayClaimResult.payload (mk []))) as (rd & Hrd & _).
  { pose proof (candidate_within 14 c Hc) as Hcj. apply within_members; [vm_compute; reflexivity|].
    repeat (apply Forall_cons; split; [split; [reflexivity|first [exact Hcj|wire_atom]]|]). constructor. }
  assert (claim_pair_valid q (mk rd)) as Hp by by (constructor; try done; constructor).
  assert (claim_step q s now until p i (claimed_cas s q (mk rd)) (mk rd) k e) as Hst.
  { constructor; try (done || lia). constructor; try done. cbn. lia. }
  exists (claimed_cas s q (mk rd)), (mk rd). split; [|done]. apply claim_first_ok; [done|].
  do 3 (split; [done|]). by exists k, e.
Qed.
End Operation.
