(* ===== verification/Reachability.v ===== *)
(** * Histories: sequences of operations on one snapshot

    The step relation of the contract, labelled with the server time and the
    authenticated caller, and what every history preserves: well-formedness,
    the identity of the hold, and all that is recorded. *)
From stdpp Require Import relations.
From S2P Require Import Prelude ListFacts PyStr Sha256 Json Contract ContractFacts WireFacts Scan.
From S2P Require Import ScanFacts Replay ReplayFacts Expire ExpireFacts Wire WireNested CommitFacts.
From S2P Require Import TransitionFacts Ledger LedgerFacts LedgerOps LedgerIssue LedgerClaims CasState.
From S2P Require Import CasFacts ExpireOps RetryOps ScanOps ClaimOps.
Local Open Scope py_scope.
Local Open Scope Z_scope.
Import CASState.

(** ** The step relation *)
Section Steps.
Context `{RFC8785}.

(** one successful call by [principal]/[instance] at server time [now] *)
Inductive step (now : Z) (principal instance : pystr) (s : CASState.t) : CASState.t -> Prop :=
| did_scan draws q component subject s' r :
    apply_artifact_hold_expiry_scan draws q s now principal instance component subject = Ok (s', r) ->
    step now principal instance s s'
| did_expire q fence component subject s' r :
    apply_artifact_hold_expiry q s now principal instance fence component subject = Ok (s', r) ->
    step now principal instance s s'
| did_claim q until component subject s' r :
    apply_artifact_hold_expiry_replay_claim q s now until principal instance component subject
      = Ok (s', r) ->
    step now principal instance s s'.

Definition moves (s s' : CASState.t) : Prop := exists now p i, step now p i s s'.
End Steps.

(** ** What one step does *)
Section Cases.
Context `{RFC8785} `{!RFC8785Spec}.

(** the four effects of a step: a stored reply, a scan, an expiry, a claim *)
Inductive effect (now : Z) (p i : pystr) (s s' : CASState.t) : Prop :=
| replied : s' = s -> effect now p i s s'
| scanned_by q draws r c a : scan_step q s now p i draws s' r c a -> effect now p i s s'
| expired_by q f r j e k audit outbox :
    expiry_step q s now p i f s' r j e k audit outbox -> effect now p i s s'
| claimed_by q until r k e : claim_step q s now until p i s' r k e ->
    effect now p i s s'.

Lemma scan_outcome draws q s now p i component subject s' r :
  apply_artifact_hold_expiry_scan draws q s now p i component subject = Ok (s', r) ->
  cas_valid s /\ cas_valid s' /\ effect now p i s s'
  /\ scan_request_valid q /\ scan_context now p i component subject
  /\ (q, r) ∈ LedgerState.scans (candidate_ledger s')
  /\ Forall (owned p i) (ScanResult.candidates r).
Proof.
  intros Hr. destruct (decide (ScanRequest.scan_operation_id q
    ∈ scan_operation_ids (candidate_ledger s))) as [Hin|Hn].
  - apply list_elem_of_fmap in Hin as ([q0 r0] & E & Hin).
    pose proof (proj1 (scan_retry_ok _ _ _ _ _ _ _ _ _ _ q0 r0 Hin (eq_sym E)) Hr)
      as (Hq & HS & Hc & E1 & Ho & E2 & E3).
    subst q0 s' r0.
    do 2 (split; [done|]). split; [by apply replied|]. done.
  - pose proof Hr as Hr'. apply scan_first_ok in Hr as (Hq & HS & Hc & c & a & Hst); [|done].
    split; [done|]. pose proof Hst as [Ha ? ? Hib ? ? [] ? Hs ->].
    assert (ledger_valid (scanned (candidate_ledger s) q r [a])) as HV.
    { eapply scanned_valid; try done; [apply HS|].
      by rw (active_no_claims s HS Ha) app_nil_r. }
    split; [by eapply scanned_cas_valid|]. split; [by eapply scanned_by|]. do 2 (split; [done|]). split.
    + cbn [scanned_cas candidate_ledger].
      assert (LedgerState.scans (scanned (candidate_ledger s) q r [a])
        = LedgerState.scans (candidate_ledger s) ++ [(q, r)]) as ->
        by (apply combine_snoc, HS).
      apply elem_of_app. right. by left.
    + rw Hs. apply Forall_singleton. by destruct Hib.
Qed.

Lemma claim_outcome q s now until p i component subject s' r :
  apply_artifact_hold_expiry_replay_claim q s now until p i component subject = Ok (s', r) ->
  cas_valid s /\ cas_valid s' /\ effect now p i s s'
  /\ claim_request_valid q /\ claim_context now until p i component subject
  /\ (q, r) ∈ LedgerState.claims (candidate_ledger s')
  /\ owned p i (ReplayClaimResult.candidate r).
Proof.
  intros Hr. destruct (decide (ReplayClaimRequest.replay_operation_id q
    ∈ map claim_operation (LedgerState.claims (candidate_ledger s)))) as [Hin|Hn].
  - apply list_elem_of_fmap in Hin as ([q0 r0] & E & Hin).
    pose proof (proj1 (claim_retry_ok _ _ _ _ _ _ _ _ _ _ q0 r0 Hin (eq_sym E)) Hr)
      as (Hq & HS & Hc & E1 & Ho & E2 & E3).
    subst q0 s' r0.
    do 2 (split; [done|]). split; [by apply replied|]. done.
  - apply claim_first_ok in Hr as (Hq & HS & Hc & k & e & Hst); [|done].
    split; [done|]. assert (s' = claimed_cas s q r) as -> by apply Hst.
    split; [by eapply claimed_cas_valid|]. split; [by eapply claimed_by|].
    do 2 (split; [done|]). split; [|apply Hst].
    cbn [claimed_cas candidate_ledger]. rw (claimed_claims _ q r (s_ledger _ HS)).
    apply elem_of_app. right. by left.
Qed.

Lemma expire_outcome q s now p i f component subject s' r :
  apply_artifact_hold_expiry q s now p i f component subject = Ok (s', r) ->
  cas_valid s /\ cas_valid s' /\ effect now p i s s'
  /\ expire_request_valid q /\ expiry_context now p i f component subject
  /\ exists k, k ∈ commits s'
       /\ Commit.expire_operation_id k = ExpireRequest.expire_operation_id q
       /\ committed_result k = r.
Proof.
  intros Hr. destruct (decide (ExpireRequest.expire_operation_id q
    ∈ map Commit.expire_operation_id (commits s))) as [Hin|Hn].
  - apply list_elem_of_fmap in Hin as (k & E & Hin).
    pose proof (proj1 (expire_committed_ok _ _ _ _ _ _ _ _ _ _ k Hin (eq_sym E)) Hr)
      as (Hq & Hc & HS & _ & _ & _ & -> & ->).
    do 2 (split; [done|]). split; [by apply replied|]. do 2 (split; [done|]). by exists k.
  - apply expire_first_ok in Hr as (Hq & Hc & HS & j & e & k & audit & outbox & Hst); [|done].
    split; [done|]. assert (s' = expired_cas s q j e now k audit outbox) as -> by apply Hst. split.
    { destruct Hst. apply (expired_cas_valid s q j e now p i f r k audit outbox); try done. apply Hc. }
    split; [by eapply expired_by|]. do 2 (split; [done|]). exists k.
    split; [cbn; apply elem_of_app; right; by left|].
    split; [apply (es_commit _ _ _ _ _ _ _ _ _ _ _ _ _ Hst)|].
    eapply committed_result_ok; apply Hst.
Qed.

Lemma step_effect now p i s s' : step now p i s s' ->
  cas_valid s /\ cas_valid s' /\ effect now p i s s'.
Proof.
  intros [draws q component subject s1 r Hr|q f component subject s1 r Hr|q until component subject s1 r Hr].
  - by apply scan_outcome in Hr as (? & ? & ? & _).
  - by apply expire_outcome in Hr as (? & ? & ? & _).
  - by apply claim_outcome in Hr as (? & ? & ? & _).
Qed.
End Cases.

(** ** What is never undone *)
Record extends (s s' : CASState.t) : Prop := {
  x_artifact : HoldState.artifact_id (hold_state s') = HoldState.artifact_id (hold_state s);
  x_hold : HoldState.hold_id (hold_state s') = HoldState.hold_id (hold_state s);
  x_digest : HoldState.hold_digest (hold_state s') = HoldState.hold_digest (hold_state s);
  x_expires : HoldState.expires_ms (hold_state s') = HoldState.expires_ms (hold_state s);
  x_version : HoldState.artifact_version (hold_state s) <= HoldState.artifact_version (hold_state s');
  x_high_water : LedgerState.candidate_fence_high_water (candidate_ledger s)
    <= LedgerState.candidate_fence_high_water (candidate_ledger s');
  x_scans : LedgerState.scans (candidate_ledger s) `prefix_of` LedgerState.scans (candidate_ledger s');
  x_claims : LedgerState.claims (candidate_ledger s)
    `prefix_of` LedgerState.claims (candidate_ledger s');
  x_candidates : ledger_candidates (candidate_ledger s)
    `prefix_of` ledger_candidates (candidate_ledger s');
  x_consumed : forall e, e ∈ entries s -> LedgerEntry.consumed e = true -> e ∈ entries s';
  x_commits : commits s `prefix_of` commits s';
  x_audit : audit_records s `prefix_of` audit_records s';
  x_outbox : outbox_records s `prefix_of` outbox_records s' }.

#[global] Instance extends_preorder : PreOrder extends.
Proof.
  split.
  - intros s. constructor; done || lia.
  - intros s1 s2 s3 [] []. constructor; try congruence || lia; try (by etrans).
    intros e He Hc. by apply x_consumed1, Hc; apply x_consumed0.
Qed.

Section Histories.
Context `{RFC8785} `{!RFC8785Spec}.

Lemma scan_extends q s now p i draws s' r c a : cas_valid s ->
  scan_step q s now p i draws s' r c a -> extends s s'.
Proof.
  intros HS [? ? ? [] ? ? ? ? Hs ->].
  assert (ledger_candidates (candidate_ledger (scanned_cas s q r c a))
    = ledger_candidates (candidate_ledger s) ++ [c]) as Ec.
  { unfold ledger_candidates. cbn. by rw Hs map_app. }
  constructor; cbn [scanned_cas hold_state commits audit_records outbox_records]; try done.
  - cbn. rw Hs. cbn. lia.
  - cbn [scanned_cas candidate_ledger]. assert (LedgerState.scans (scanned (candidate_ledger s) q r [a])
        = LedgerState.scans (candidate_ledger s) ++ [(q, r)]) as ->
        by (apply combine_snoc, HS). by apply prefix_app_r.
  - rw Ec. by apply prefix_app_r.
  - intros e He _. cbn. apply elem_of_app. by left.
Qed.

Lemma claim_extends q s now until p i s' r k e : cas_valid s ->
  claim_step q s now until p i s' r k e -> extends s s'.
Proof.
  intros HS Hst. assert (s' = claimed_cas s q r) as -> by apply Hst.
  pose proof (cs_fence _ _ _ _ _ _ _ _ _ _ Hst) as Hf.
  constructor; cbn [claimed_cas hold_state commits audit_records outbox_records]; try done.
  - cbn. lia.
  - cbn [claimed_cas candidate_ledger]. rw (claimed_claims _ q r (s_ledger _ HS)). by apply prefix_app_r.
  - unfold ledger_candidates. cbn. rw map_app. by apply prefix_app_r.
  - intros e' He _. cbn. apply elem_of_app. by left.
Qed.

Lemma expiry_extends q s now p i f s' r j e k audit outbox :
  expiry_step q s now p i f s' r j e k audit outbox -> extends s s'.
Proof.
  intros []. subst s'. constructor; cbn [expired_cas hold_state commits audit_records outbox_records];
    try done; try by apply prefix_app_r.
  - cbn. lia.
  - unfold ledger_candidates. cbn. by rw (map_insert_same _ _ _ e).
  - intros e' He Hc. eapply expired_entries_old; [done|done|]. congruence.
Qed.

Lemma effect_extends now p i s s' : cas_valid s -> effect now p i s s' -> extends s s'.
Proof.
  intros HS [->|q draws r c a Hst|q f r j e k audit outbox Hst|q until r k e Hst]; [done|..].
  - by eapply scan_extends.
  - by eapply expiry_extends.
  - by eapply claim_extends.
Qed.

Lemma history s s' : rtc moves s s' -> cas_valid s -> cas_valid s' /\ extends s s'.
Proof.
  induction 1 as [s|s s1 s' (now & p & i & Hst) _ IH]; [done|]. intros HS.
  apply step_effect in Hst as (_ & HS1 & He). apply effect_extends in He; [|done].
  destruct (IH HS1). split; [done|]. by etrans.
Qed.

(** ** The hold expires at most once *)
Lemma effect_expired now p i s s' : cas_valid s -> effect now p i s s' ->
  HoldState.hold_status (hold_state s) <> ACTIVE ->
  hold_state s' = hold_state s /\ commits s' = commits s.
Proof.
  intros HS [->|q draws r c a []|q f r j e k audit outbox []|q until r k e []] Hn; try done.
  - by destruct Hn, es_may.
  - by subst s'.
Qed.

Lemma history_expired s s' : rtc moves s s' -> HoldState.hold_status (hold_state s) <> ACTIVE ->
  hold_state s' = hold_state s /\ commits s' = commits s.
Proof.
  induction 1 as [s|s s1 s' (now & p & i & Hst) _ IH]; [done|]. intros Hn.
  apply step_effect in Hst as (HS & _ & He). destruct (effect_expired _ _ _ _ _ HS He Hn) as [E1 E2].
  rw -E1 in Hn. destruct (IH Hn). split; congruence.
Qed.

(** one expiry of the hold *)
Definition expired_once (s s' : CASState.t) : Prop :=
  HoldState.hold_status (hold_state s) = ACTIVE
  /\ HoldState.hold_status (hold_state s') = EXPIRED
  /\ HoldState.artifact_version (hold_state s') = HoldState.artifact_version (hold_state s) + 1
  /\ exists k, commits s' = commits s ++ [k].

Lemma effect_once now p i s s' : cas_valid s -> effect now p i s s' ->
  (HoldState.hold_status (hold_state s') = HoldState.hold_status (hold_state s)
   /\ HoldState.artifact_version (hold_state s') = HoldState.artifact_version (hold_state s)
   /\ commits s' = commits s)
  \/ expired_once s s'.
Proof.
  intros HS [->|q draws r c a []|q f r j e k audit outbox []|q until r k e []]; subst; try by left.
  right. split; [apply es_may|]. split; [done|]. split; [done|]. by exists k.
Qed.

Lemma history_once s s' : rtc moves s s' ->
  (HoldState.hold_status (hold_state s') = HoldState.hold_status (hold_state s)
   /\ HoldState.artifact_version (hold_state s') = HoldState.artifact_version (hold_state s)
   /\ commits s' = commits s)
  \/ expired_once s s'.
Proof.
  induction 1 as [s|s s1 s' (now & p & i & Hst) Hrest IH]; [by left|].
  apply step_effect in Hst as (HS & _ & He). apply effect_once in He as [(E1 & E2 & E3)|(Ha & Hx & Hv & Hk)]; [| |done].
  - unfold expired_once in *. by rw E1 E2 E3 in IH.
  - right. destruct (history_expired _ _ Hrest) as [E1 E2]; [by rw Hx|].
    unfold expired_once. by rw E1 E2.
Qed.

(** ** The high-water stays the last fence *)
Definition tight (s : CASState.t) : Prop :=
  LedgerState.candidate_fence_high_water (candidate_ledger s) = last_fence (candidate_ledger s).

Lemma effect_tight now p i s s' : effect now p i s s' -> tight s -> tight s'.
Proof.
  unfold tight, last_fence.
  intros [->|q draws r c a []|q f r j e k audit outbox []|q until r k e []] Ht; subst; cbn.
  - done.
  - rw ss_single map_app last_snoc. done.
  - by rw (map_insert_same _ _ _ e).
  - by rw map_app last_snoc.
Qed.

Lemma history_tight s s' : rtc moves s s' -> tight s -> tight s'.
Proof.
  induction 1 as [s|s s1 s' (now & p & i & Hst) _ IH]; [done|]. intros Ht.
  apply step_effect in Hst as (_ & _ & He). by eapply IH, effect_tight.
Qed.
End Histories.

(** ** Histories from a created snapshot *)
(** every candidate the ledger issued is for the hold's current due tuple *)
Definition uniform (s : CASState.t) : Prop := HoldState.hold_status (hold_state s) = ACTIVE ->
  commits s = [] /\ Forall (fun e => same_due_tuple (hold_state s) (LedgerEntry.candidate e) = true) (entries s).

Section Created.
Context `{RFC8785} `{!RFC8785Spec}.

Lemma effect_uniform now p i s s' : cas_valid s -> effect now p i s s' -> uniform s -> uniform s'.
Proof.
  unfold uniform.
  intros HS [->|q draws r c a Hst|q f r j e k audit outbox Hst|q until r k e Hst] Hu Ha'; [by apply Hu|..].
  - destruct Hst as [Ha _ _ Hib _ _ _ _ Hs ->]. destruct (Hu Ha) as [Hk He].
    split; [done|]. rw scanned_cas_entries //. apply Forall_app. split; [exact He|].
    apply Forall_singleton. apply (ib_due _ _ _ _ _ _ Hib).
  - rw (es_state _ _ _ _ _ _ _ _ _ _ _ _ _ Hst) in Ha'. done.
  - pose proof (cs_state _ _ _ _ _ _ _ _ _ _ Hst) as E. subst s'.
    pose proof (claimed_committed q s now until p i r k e HS Hst) as Hcc.
    destruct (cc_terminal _ _ _ Hcc) as (Hx & _ & _). congruence.
Qed.

Lemma history_uniform s s' : rtc moves s s' -> uniform s -> uniform s'.
Proof.
  induction 1 as [s|s s1 s' (now & p & i & Hst) _ IH]; [done|]. intros Hu.
  apply step_effect in Hst as (HS & _ & He). by eapply IH, effect_uniform.
Qed.

Lemma created_ok h s : CASState.create h LedgerState.empty = Ok s ->
  cas_valid s /\ tight s /\ uniform s /\ s = Make h LedgerState.empty [] [] [].
Proof.
  unfold CASState.create. rw bind_ok_unit cas_ok. intros [HS [= <-]]. done.
Qed.

(** the projected candidate of a uniform snapshot is superseded by none *)
Lemma uniform_last s c : cas_valid s -> uniform s -> HoldState.hold_status (hold_state s) = ACTIVE ->
  HoldState.candidate (hold_state s) = Some c ->
  Forall (fun e => supersedes (candidate_ledger s) c e = false) (entries s).
Proof.
  intros HS Hu Ha Hc. destruct (Hu Ha) as [_ Hall]. rw !Forall_forall in Hall |- *. intros e He.
  apply not_true_is_false. unfold supersedes. intros Ht.
  apply andb_true_iff in Ht as [Ht Hlt%Z.ltb_lt]. do 4 apply andb_true_iff in Ht as [Ht _].
  rw (s_projection _ HS Ha) in Hc. unfold projected, latest in Hc. apply max_by_spec in Hc as [_ Hm].
  rw Forall_forall in Hm. specialize (Hm (LedgerEntry.candidate e)). cbn in Hm.
  assert (Candidate.candidate_fencing_token (LedgerEntry.candidate e)
    <= Candidate.candidate_fencing_token c); [|lia].
  apply Hm, list_elem_of_fmap. exists e. split; [done|]. apply filter_In. split; [done|].
  apply andb_true_iff. split; [done|]. by apply Hall.
Qed.
End Created.
