(* ===== verification/Refinement.v ===== *)
(** * The snapshot as a fenced lease

    [LeaseSpec] is what the contract promises about one hold, without records,
    digests or ledgers: at any time at most one party holds the authority to
    expire it, each grant raises the fence, the hold expires once, and after
    that an authority to ask for the result again passes on only when the
    previous one has run out.  Every successful call of the contract is a step
    of this machine. *)
From stdpp Require Import relations.
From S2P Require Import Prelude ListFacts PyStr Sha256 Json Contract ContractFacts WireFacts Scan.
From S2P Require Import ScanFacts Replay ReplayFacts Expire ExpireFacts Wire WireNested CommitFacts.
From S2P Require Import TransitionFacts Ledger LedgerFacts LedgerOps LedgerIssue LedgerClaims CasState.
From S2P Require Import CasFacts ExpireOps RetryOps ScanOps ClaimOps Reachability.
Local Open Scope py_scope.
Local Open Scope Z_scope.
Import CASState.

(** ** The specification *)
Module LeaseSpec.
Record lease := Lease {
  principal : pystr;
  instance : pystr;
  fence : Z;
  since : Z;
  until : Z }.

Inductive phase :=
| Idle
| Held (holder : lease)
| Done (replayer : option lease)
| Closed.

Record t := Make {
  high_water : Z;
  current : phase }.

Definition live (l : lease) (now : Z) : Prop := since l <= now < until l.

(** a call by [p]/[i] at time [now] *)
Inductive step (now : Z) (p i : pystr) : t -> t -> Prop :=
| stutter a : step now p i a a
| grant hw ph : (forall o, ph <> Done o) -> ph <> Closed ->
    step now p i (Make hw ph)
      (Make (hw + 1) (Held (Lease p i (hw + 1) now (now + ARTIFACT_HOLD_CANDIDATE_LEASE_MAX_MS))))
| expire hw l : principal l = p -> instance l = i -> live l now ->
    step now p i (Make hw (Held l)) (Make hw (Done None))
| take_over hw o u : (forall l, o = Some l -> until l <= now) ->
    now < u <= now + ARTIFACT_HOLD_CANDIDATE_LEASE_MAX_MS ->
    step now p i (Make hw (Done o)) (Make (hw + 1) (Done (Some (Lease p i (hw + 1) now u))))
| elsewhere hw o : step now p i (Make hw (Done o)) (Make (hw + 1) (Done o)).
End LeaseSpec.

(** ** The abstraction *)
Definition lease_of (c : Candidate.t) : LeaseSpec.lease :=
  LeaseSpec.Lease (Candidate.owner_principal_id c) (Candidate.owner_instance_id c)
    (Candidate.candidate_fencing_token c) (Candidate.issued_at_ms c) (Candidate.lease_until_ms c).

(** the machine seen from the expiry operation [operation] *)
Definition abstraction (operation : pystr) (s : CASState.t) : LeaseSpec.t :=
  LeaseSpec.Make (LedgerState.candidate_fence_high_water (candidate_ledger s))
    (match HoldState.hold_status (hold_state s) with
     | ACTIVE => match HoldState.candidate (hold_state s) with
                 | Some c => LeaseSpec.Held (lease_of c)
                 | None => LeaseSpec.Idle
                 end
     | EXPIRED => LeaseSpec.Done (lease_of ∘ LedgerState.claim_candidate
                    <$> current_claim (candidate_ledger s) operation)
     | RELEASED => LeaseSpec.Closed
     end).

Section Refines.
Context `{RFC8785} `{!RFC8785Spec}.

Lemma current_claim_claimed q s now until p i s' r k e o : cas_valid s ->
  claim_step q s now until p i s' r k e ->
  current_claim (claimed (candidate_ledger s) q r) o =
  if ReplayClaimRequest.expire_operation_id q == o then Some (q, r)
  else current_claim (candidate_ledger s) o.
Proof.
  intros HS Hst. pose proof (s_ledger _ HS) as HL. unfold current_claim, claims_for.
  rw (claimed_claims _ q r HL) group_snoc.
  change (claim_expire (q, r)) with (ReplayClaimRequest.expire_operation_id q).
  case_bool_decide as E; [|by rw app_nil_r].
  rw (claims_sorted_snoc (candidate_ledger s) q r HL (cs_authority _ _ _ _ _ _ _ _ _ _ Hst)).
  - apply last_snoc.
  - apply Forall_forall. by intros c [? _]%filter_In.
Qed.

Lemma effect_refines o now p i s s' : cas_valid s -> effect now p i s s' ->
  LeaseSpec.step now p i (abstraction o s) (abstraction o s').
Proof.
  intros HS [->|q draws r c a Hst|q f r j e k audit outbox Hst|q until r k e Hst].
  - constructor.
  - destruct Hst as [Ha _ _ [Hc _ Hf [Hp Hi] Hn Hu _] _ _ _ _ Hs ->]. unfold abstraction. cbn.
    rw Ha Hs. cbn. unfold lease_of. rw Hp Hi Hf Hn Hu.
    apply LeaseSpec.grant; by destruct (HoldState.candidate (hold_state s)).
  - destruct Hst. destruct es_may. subst s'.
    assert (current_claim (candidate_ledger (expired_cas s q j e now k audit outbox)) o = None) as Ec.
    { unfold current_claim, claims_for.
      change (LedgerState.claims (candidate_ledger (expired_cas s q j e now k audit outbox)))
        with (LedgerState.claims (candidate_ledger s)). by rw (active_no_claims s HS m_active). }
    unfold abstraction. rw Ec m_active es_projected. by apply LeaseSpec.expire.
  - assert (s' = claimed_cas s q r) as -> by apply Hst.
    pose proof (claimed_committed q s now until p i r k e HS Hst) as Hcc.
    destruct (cc_terminal _ _ _ Hcc) as (Hx & _ & _). cbn in Hx. unfold abstraction.
    change (candidate_ledger (claimed_cas s q r)) with (claimed (candidate_ledger s) q r).
    change (hold_state (claimed_cas s q r)) with (hold_state s).
    change (LedgerState.candidate_fence_high_water (claimed (candidate_ledger s) q r))
      with (Candidate.candidate_fencing_token (ReplayClaimResult.candidate r)). rw Hx.
    rw (current_claim_claimed q s now until p i _ r k e o HS Hst).
    pose proof (cs_fence _ _ _ _ _ _ _ _ _ _ Hst) as Hf. rw Hf.
    case_bool_decide as E; [|apply LeaseSpec.elsewhere]. cbn [fmap option_fmap option_map compose]. unfold lease_of, LedgerState.claim_candidate.
    cbn [compose snd]. destruct (cs_owned _ _ _ _ _ _ _ _ _ _ Hst) as [-> ->].
    rw Hf (cs_issued _ _ _ _ _ _ _ _ _ _ Hst) (cs_until _ _ _ _ _ _ _ _ _ _ Hst).
    apply LeaseSpec.take_over.
    + intros l' Hl'. destruct (current_claim (candidate_ledger s) o) as [cl|] eqn:Ec; [|done].
      injection Hl' as <-. cbn. apply (cs_current _ _ _ _ _ _ _ _ _ _ Hst). by rw E.
    + split; [apply Hst|]. destruct (c_lease _ (cres_candidate _ (cp_result _ _
        (cs_pair _ _ _ _ _ _ _ _ _ _ Hst)))) as (_ & _ & Hl).
      rw (cs_issued _ _ _ _ _ _ _ _ _ _ Hst) (cs_until _ _ _ _ _ _ _ _ _ _ Hst) in Hl. lia.
Qed.
End Refines.
