(* ===== verification/Availability.v ===== *)
(** * Availability and stability of replies

    When a call must succeed, and that a reply once given is given again by
    every later snapshot of the same history. *)
From stdpp Require Import relations.
From S2P Require Import Prelude ListFacts PyStr Sha256 Json Contract ContractFacts WireFacts Scan.
From S2P Require Import ScanFacts Replay ReplayFacts Expire ExpireFacts Wire WireNested CommitFacts.
From S2P Require Import TransitionFacts Ledger LedgerFacts LedgerOps LedgerIssue LedgerClaims CasState.
From S2P Require Import CasFacts ExpireOps RetryOps ScanOps ClaimOps Reachability.
Local Open Scope py_scope.
Local Open Scope Z_scope.
Import CASState.

Section Available.
Context `{RFC8785} `{!RFC8785Spec}.

(** the conditions an expiry through the projected candidate still has to meet *)
Record timely (s : CASState.t) (c : Candidate.t) (now : Z) : Prop := {
  ti_candidate : HoldState.candidate (hold_state s) = Some c;
  ti_lifecycle : HoldState.artifact_status (hold_state s) <> DELETING
    /\ HoldState.artifact_status (hold_state s) <> DELETED;
  ti_due : Candidate.observed_expires_ms c <= now;
  ti_lease : Candidate.issued_at_ms c <= now < Candidate.lease_until_ms c;
  ti_version : HoldState.artifact_version (hold_state s) + 1 <= _MAX_SAFE_INTEGER;
  ti_holds : Z.of_nat (size (HoldState.active_hold_ids (hold_state s))) <= _MAX_SAFE_INTEGER }.

(** a projected candidate belongs to a finite ACTIVE hold in the due index *)
Lemma projected_bound h c : hold_valid h -> HoldState.candidate h = Some c ->
  candidate_valid c /\ same_due_tuple h c = true /\ HoldState.hold_status h = ACTIVE
  /\ HoldState.due_indexed h = true /\ HoldState.due_score_ms h = HoldState.expires_ms h.
Proof.
  intros Hh Hc. destruct (h_candidate _ Hh _ Hc) as [Hv Hb]. split; [done|].
  unfold HoldState.candidate_bound in Hb.
  rw !andb_true_iff !bool_decide_eq_true in Hb. destruct Hb as (((((((Ea & Eh) & Ed) & Ev) & Ex) & Hf) & Hi) & Hs).
  split; [by apply same_due_tuple_ok|]. split; [|by rw Hi Hs].
  apply Hf.
Qed.

Lemma timely_may_expire q s c now : cas_valid s -> timely s c now -> bound q c ->
  may_expire q (hold_state s) c now (Candidate.owner_principal_id c)
    (Candidate.owner_instance_id c) (Candidate.candidate_fencing_token c).
Proof.
  intros HS [] Hb. destruct (projected_bound _ _ (s_hold _ HS) ti_candidate0)
    as (Hv & (? & ? & ? & ? & ?)%same_due_tuple_ok & Ha & Hi & Hsc).
  constructor; try done; try congruence.
  - by apply (h_member _ (s_hold _ HS)).
  - by rw (b_expires _ _ Hb).
Qed.

Lemma expire_complete q s now component subject c : cas_valid s ->
  ExpireRequest.create c = Ok q -> timely s c now -> 0 <= now <= _MAX_SAFE_INTEGER ->
  component = ARTIFACT_HOLD_REAPER_COMPONENT_TYPE -> subject = ARTIFACT_HOLD_EXPIRY_SUBJECT ->
  ExpireRequest.expire_operation_id q ∉ map Commit.expire_operation_id (commits s) ->
  Forall (fun e => supersedes (candidate_ledger s) c e = false) (entries s) ->
  exists s' r j e k audit outbox,
    expiry_step q s now (Candidate.owner_principal_id c) (Candidate.owner_instance_id c)
      (Candidate.candidate_fencing_token c) s' r j e k audit outbox
    /\ apply_artifact_hold_expiry q s now (Candidate.owner_principal_id c)
         (Candidate.owner_instance_id c) (Candidate.candidate_fencing_token c) component subject
       = Ok (s', r).
Proof.
  intros HS (Hc & Hq & Hb)%expire_request_create_ok Hti Hnow Hcomp Hsubj Hu Hl.
  pose proof (timely_may_expire q s c now HS Hti Hb) as Hm. destruct (Hti).
  destruct (s_projected _ HS _ ti_candidate0) as (e & He & Ee & [Huc _]%live_scan_iff).
  apply list_elem_of_lookup in He as [j Hj].
  destruct (result_of_total q (hold_state s) now Hq (s_hold _ HS) ti_version0) as [r Hr].
  destruct (commit_of_total q (hold_state s) c now _ _ _ r Hq (s_hold _ HS) Hc Hm Hnow ti_holds0 Hr)
    as [k Hk].
  destruct (event_create_total AUDIT k (co_valid _ _ _ _ _ _ Hk)) as [audit Ha].
  destruct (event_create_total OUTBOX k (co_valid _ _ _ _ _ _ Hk)) as [outbox Ho].
  exists (expired_cas s q j e now k audit outbox), r, j, e, k, audit, outbox.
  assert (expiry_step q s now (Candidate.owner_principal_id c) (Candidate.owner_instance_id c)
    (Candidate.candidate_fencing_token c) (expired_cas s q j e now k audit outbox) r j e k audit
    outbox) as Hst by (constructor; rw ?Ee; done).
  split; [done|]. apply expire_first_ok; [done|]. split; [done|]. split.
  { constructor; [done| |apply Hc]. constructor; [apply Hc|apply Hc|done..]. }
  split; [done|]. by exists j, e, k, audit, outbox.
Qed.
End Available.

(** ** Stability *)
Section Stable.
Context `{RFC8785} `{!RFC8785Spec}.

(** after a first expiry the same caller gets the same reply until a claim takes over *)
Lemma expiry_step_stable q s now p i f s1 r j e k audit outbox s2 now' component subject :
  cas_valid s -> expire_request_valid q -> expiry_context now p i f component subject ->
  expiry_step q s now p i f s1 r j e k audit outbox -> rtc moves s1 s2 ->
  0 <= now' <= _MAX_SAFE_INTEGER ->
  current_claim (candidate_ledger s2) (ExpireRequest.expire_operation_id q) = None ->
  apply_artifact_hold_expiry q s2 now' p i f component subject = Ok (s2, r).
Proof.
  intros HS Hq Hctx Hst Hrtc Hnow Hcl.
  assert (s1 = expired_cas s q j e now k audit outbox) as -> by apply Hst.
  set (s1 := expired_cas s q j e now k audit outbox) in *.
  assert (cas_valid s1) as HS1.
  { destruct Hst. apply (expired_cas_valid s q j e now p i f r k audit outbox); try done. apply Hctx. }
  destruct (history _ _ Hrtc HS1) as [HS2 Hx].
  assert (k ∈ commits s1) as Hk1 by (apply elem_of_app; right; by left).
  assert (k ∈ commits s2) as Hk.
  { eapply elem_of_prefix; [exact Hk1|apply Hx]. }
  pose proof (co_expire _ _ _ _ _ _ (es_commit _ _ _ _ _ _ _ _ _ _ _ _ _ Hst)) as Ek.
  set (e1 := LedgerEntry.consume e (ExpireRequest.expire_operation_id q) now).
  assert (e1 ∈ entries s2) as He1.
  { apply (x_consumed _ _ Hx); [|done]. eapply expired_entry, Hst. }
  pose proof (s_evidence _ HS2) as Hevs. rw Forall_forall in Hevs.
  destruct (Hevs _ Hk) as (e2 & He2 & Hev2).
  assert (e2 = e1) as ->.
  { assert (NoDup (consumed_operations (candidate_ledger s2))) as Hn
      by (rw (s_consumed _ HS2); apply HS2).
    eapply NoDup_omap_inj; [exact Hn|done|done|apply Hev2|]. cbn. by rw Ek. }
  apply (expire_committed_ok q s2 now' p i f component subject s2 r k Hk Ek).
  destruct Hst. destruct es_may, Hx, Hctx.
  split; [done|]. split; [by constructor|]. split; [done|]. split.
  - exists e1. do 2 (split; [done|]). split; [done|]. split; [by apply bound_business|]. left.
    constructor; try done. apply m_bound.
  - split; [by rw x_artifact m_artifact; destruct m_bound|].
    split; [by rw x_hold m_hold; destruct m_bound|]. split; [done|]. symmetry.
    by eapply committed_result_ok.
Qed.

(** the candidate that committed loses its authority to the first claim *)
Lemma superseded_fails q s now p i f component subject k e cl s' r : cas_valid s ->
  k ∈ commits s -> Commit.expire_operation_id k = ExpireRequest.expire_operation_id q ->
  e ∈ entries s -> LedgerEntry.consumed_by_expire_operation_id e = Some (Commit.expire_operation_id k) ->
  ExpireRequest.candidate_lease_id q = Candidate.candidate_lease_id (LedgerEntry.candidate e) ->
  current_claim (candidate_ledger s) (ExpireRequest.expire_operation_id q) = Some cl ->
  apply_artifact_hold_expiry q s now p i f component subject = Ok (s', r) -> False.
Proof.
  intros HS Hk Ek He Eo El Hcl Hr.
  apply (expire_committed_ok _ _ _ _ _ _ _ _ _ _ k Hk Ek) in Hr
    as (_ & _ & _ & (e' & He' & Hev & _ & _ & Hau) & _).
  assert (e' = e) as ->.
  { assert (NoDup (consumed_operations (candidate_ledger s))) as Hn
      by (rw (s_consumed _ HS); apply HS).
    eapply NoDup_omap_inj; [exact Hn|done|done|apply Hev|done]. }
  destruct Hau as [[]|(? & [])]; congruence.
Qed.

(** at any time one authority may ask for the result of an operation *)
Lemma authority_unique l q1 q2 c p1 p2 i1 i2 f1 f2 now :
  ExpireRequest.expire_operation_id q1 = ExpireRequest.expire_operation_id q2 ->
  replay_authority l q1 c p1 i1 f1 now -> replay_authority l q2 c p2 i2 f2 now ->
  p1 = p2 /\ i1 = i2 /\ f1 = f2.
Proof.
  intros E (-> & _ & H1) (-> & _ & H2). split; [done|].
  destruct H1 as [[]|(cl1 & [])], H2 as [[]|(cl2 & [])]; rw ?E; split; congruence.
Qed.
End Stable.
