(* ===== verification/Scenario.v ===== *)
(** * A concrete run of the contract

    One hold that is scanned, expired, retried and replayed, with the reference
    serialiser.  The first part recomputes the repository's golden vectors
    ([tests/fixtures/state_contracts/artifact_hold_expiry_v1.json]); the states
    of the run are the inputs at which the theorems are instantiated. *)
From S2P Require Import Prelude PyStr Sha256 Json Rfc8785Reference Contract Scan Replay Expire.
From S2P Require Import Ledger CasState.
Local Open Scope Z_scope.

(** ** Golden vectors *)
Definition digest_a : pystr := replicate 64 97%N.
Definition scan_id : pystr := replicate 64 49%N.
Definition token_a : pystr := replicate 43 65%N.
Definition token_b : pystr := replicate 42 66%N ++ [65%N].
Definition principal : pystr := ARTIFACT_HOLD_REAPER_PRINCIPAL_ID.
Definition instance : pystr := u "hold-reaper-01".

Definition ok_or {A} (d : A) (m : result A) : A := match m with Ok a => a | Err _ => d end.

Definition golden_candidate : result Candidate.t :=
  Candidate.create scan_id token_a 7 token_b principal instance 1000 1200
    (u "artifact-01") (u "hold-01") digest_a 4 1000.

Example golden_candidate_digest : Candidate.candidate_digest <$> golden_candidate
  = Ok (u "dd942c58d565795e117a3f49e0ca71df147ee78c05a9e68f9e2956b45b69a924").
Proof. vm_compute. reflexivity. Qed.

Example golden_preimage :
  hex <$> artifact_hold_expiry_preimage (u "artifact-01") (u "hold-01") digest_a 4 1000
  = Ok (u "6132616d6573682d61727469666163742d686f6c642d6578706972652d76310061727469666163742d303100686f6c642d3031006161616161616161616161616161616161616161616161616161616161616161616161616161616161616161616161616161616161616161616161616161616100340031303030").
Proof. vm_compute. reflexivity. Qed.

Example golden_request :
  (r ← golden_candidate ≫= ExpireRequest.create;
   Ok (ExpireRequest.expire_operation_id r, ExpireRequest.request_digest r))
  = Ok (u "360448cbe1f1e0665d66ce1cbf408100fb908be3b49a3bc1dcae05acbac0f80e",
        u "e8b7fd8fab0bcf5b244a8bd7b80c247db863aa7e21d51f269b4e6e9f3e2c1958").
Proof. vm_compute. reflexivity. Qed.

Definition golden_hold : result HoldState.t :=
  c ← golden_candidate;
  Ok (HoldState.Make (u "artifact-01") 4 AVAILABLE (u "hold-01") digest_a ACTIVE (Some 1000)
        {[ u "hold-01"; u "hold-legal" ]} 2 None true (Some 1000) (Some c)).

Example golden_commit :
  (h ← golden_hold; c ← golden_candidate; r ← ExpireRequest.create c;
   '(_, result, commit) ← _project_artifact_hold_expiry r h 1000 principal instance 7
     ARTIFACT_HOLD_REAPER_COMPONENT_TYPE ARTIFACT_HOLD_EXPIRY_SUBJECT;
   Ok (ExpiryResult.result_digest result, Commit.commit_digest commit))
  = Ok (u "5314d792861d7c2702e57cf38bf94ebf0c0e7e4c5b93e059f5b675296eb5efbb",
        u "d5516963f6553cf4402e4fd72892268ceb09fb51a3345950a95641cbe355d7e2").
Proof. vm_compute. reflexivity. Qed.

(** ** The run *)
Definition hold0 : HoldState.t :=
  HoldState.Make (u "artifact-01") 4 AVAILABLE (u "hold-01") digest_a ACTIVE (Some 1000)
    {[ u "hold-01"; u "hold-legal" ]} 2 None true (Some 1000) None.
Definition state0 : CASState.t := CASState.Make hold0 LedgerState.empty [] [] [].

Definition scan_request : ScanRequest.t := Eval vm_compute in
  ok_or (ScanRequest.Make [] SCAN [] 0 [] []) (ScanRequest.create scan_id 10).
(** the first draw repeats itself: the second token is drawn again *)
Definition draws : list pybytes :=
  [replicate 32 0%N; replicate 32 0%N; replicate 32 7%N].

Definition run_scan := apply_artifact_hold_expiry_scan draws scan_request state0 1000
  principal instance ARTIFACT_HOLD_REAPER_COMPONENT_TYPE ARTIFACT_HOLD_EXPIRY_SUBJECT.
Definition state1 : CASState.t := Eval vm_compute in ok_or state0 (fst <$> run_scan).
Definition scan_result : ScanResult.t := Eval vm_compute in
  ok_or (ScanResult.Make [] [] [] [] []) (snd <$> run_scan).
Lemma run_scan_ok : run_scan = Ok (state1, scan_result).
Proof. vm_compute. reflexivity. Qed.

Definition no_candidate : Candidate.t :=
  Candidate.Make [] [] [] 0 [] [] [] 0 0 [] [] [] 0 0 [].
Definition candidate1 : Candidate.t := Eval vm_compute in
  hd no_candidate (ScanResult.candidates scan_result).
Definition no_request : ExpireRequest.t :=
  ExpireRequest.Make [] EXPIRE [] [] [] [] 0 0 [] [] 0 [] [] [].
Definition expire_request : ExpireRequest.t := Eval vm_compute in
  ok_or no_request (ExpireRequest.create candidate1).

Definition run_expire (state : CASState.t) (now : Z) :=
  apply_artifact_hold_expiry expire_request state now principal instance 1
    ARTIFACT_HOLD_REAPER_COMPONENT_TYPE ARTIFACT_HOLD_EXPIRY_SUBJECT.
Definition state2 : CASState.t := Eval vm_compute in ok_or state0 (fst <$> run_expire state1 1100).
Definition no_result : ExpiryResult.t := ExpiryResult.Make [] [] [] [] [] [] EXPIRED 0 false [] [] [].
Definition expire_result : ExpiryResult.t := Eval vm_compute in
  ok_or no_result (snd <$> run_expire state1 1100).
Lemma run_expire_ok : run_expire state1 1100 = Ok (state2, expire_result).
Proof. vm_compute. reflexivity. Qed.

(** a replay claim on the committed expiry, with an authority of its own *)
Definition commit2 : Commit.t := Eval vm_compute in
  hd (Commit.Make [] [] [] [] [] [] 0 0 0 0 None 0 [] []) (CASState.commits state2).
Definition lease2 : pystr := Eval vm_compute in token_urlsafe (replicate 32 9%N).
Definition token2 : pystr := Eval vm_compute in token_urlsafe (replicate 32 11%N).
Definition no_claim : ReplayClaimRequest.t :=
  ReplayClaimRequest.Make [] REPLAY_CLAIM [] [] [] [] [] [] 0 0 [] [] [] [].
Definition claim_request : ReplayClaimRequest.t := Eval vm_compute in ok_or no_claim (
  replay_id ← artifact_hold_expiry_replay_claim_operation_id
    (ExpireRequest.expire_operation_id expire_request) lease2;
  ReplayClaimRequest.create replay_id (ExpireRequest.expire_operation_id expire_request)
    (Commit.commit_digest commit2) (u "artifact-01") (u "hold-01") digest_a 4 1000 lease2 token2).
Definition run_claim := apply_artifact_hold_expiry_replay_claim claim_request state2 1150 2000
  principal (u "hold-reaper-02") ARTIFACT_HOLD_REAPER_COMPONENT_TYPE ARTIFACT_HOLD_EXPIRY_SUBJECT.
Definition state3 : CASState.t := Eval vm_compute in ok_or state0 (fst <$> run_claim).
Definition claim_result : ReplayClaimResult.t := Eval vm_compute in
  ok_or (ReplayClaimResult.Make [] [] [] [] [] [] no_candidate []) (snd <$> run_claim).
Lemma run_claim_ok : run_claim = Ok (state3, claim_result).
Proof. vm_compute. reflexivity. Qed.

(** a second claim, once the lease of the first has ended *)
Definition lease3 : pystr := Eval vm_compute in token_urlsafe (replicate 32 13%N).
Definition token3 : pystr := Eval vm_compute in token_urlsafe (replicate 32 15%N).
Definition claim_request3 : ReplayClaimRequest.t := Eval vm_compute in ok_or no_claim (
  replay_id ← artifact_hold_expiry_replay_claim_operation_id
    (ExpireRequest.expire_operation_id expire_request) lease3;
  ReplayClaimRequest.create replay_id (ExpireRequest.expire_operation_id expire_request)
    (Commit.commit_digest commit2) (u "artifact-01") (u "hold-01") digest_a 4 1000 lease3 token3).
Definition run_claim3 := apply_artifact_hold_expiry_replay_claim claim_request3 state3 2000 3000
  principal (u "hold-reaper-03") ARTIFACT_HOLD_REAPER_COMPONENT_TYPE ARTIFACT_HOLD_EXPIRY_SUBJECT.
Definition state4 : CASState.t := Eval vm_compute in ok_or state0 (fst <$> run_claim3).
Definition claim_result3 : ReplayClaimResult.t := Eval vm_compute in
  ok_or claim_result (snd <$> run_claim3).
Lemma run_claim3_ok : run_claim3 = Ok (state4, claim_result3).
Proof. vm_compute. reflexivity. Qed.
