(* ===== verification/CasTheorems.v ===== *)
(** * Theorems on the compare-and-set snapshot

    The three operations of the contract, the histories they make, and the
    abstract machine they implement.  The witnesses apply each theorem to the
    run of [Scenario.v] with the reference serialiser. *)
From stdpp Require Import relations.
From S2P Require Import Prelude ListFacts PyStr Sha256 Json Rfc8785Reference Contract ContractFacts.
From S2P Require Import Scan ScanFacts Replay ReplayFacts Expire ExpireFacts CommitFacts.
From S2P Require Import TransitionFacts Ledger LedgerFacts LedgerOps LedgerIssue LedgerClaims CasState.
From S2P Require Import CasFacts ExpireOps RetryOps ScanOps ClaimOps Reachability Refinement.
From S2P Require Import Availability Scenario.
Local Open Scope py_scope.
Local Open Scope Z_scope.
Import CASState.

(** ** The run of the scenario as a history *)
Abbreviation COMPONENT := ARTIFACT_HOLD_REAPER_COMPONENT_TYPE.
Abbreviation SUBJECT := ARTIFACT_HOLD_EXPIRY_SUBJECT.
Abbreviation instance2 := (u "hold-reaper-02").
Lemma scan_run : apply_artifact_hold_expiry_scan draws scan_request state0 1000 principal instance
  COMPONENT SUBJECT = Ok (state1, scan_result).
Proof. pose proof run_scan_ok as E. unfold run_scan in E. exact E. Qed.
Lemma expire_run : apply_artifact_hold_expiry expire_request state1 1100 principal instance 1
  COMPONENT SUBJECT = Ok (state2, expire_result).
Proof. pose proof run_expire_ok as E. unfold run_expire in E. exact E. Qed.
Lemma claim_run : apply_artifact_hold_expiry_replay_claim claim_request state2 1150 2000 principal
  instance2 COMPONENT SUBJECT = Ok (state3, claim_result).
Proof. pose proof run_claim_ok as E. unfold run_claim in E. exact E. Qed.
Lemma expire_step : step 1100 principal instance state1 state2.
Proof. exact (did_expire _ _ _ _ _ _ _ _ _ _ expire_run). Qed.
Lemma scan_moves : moves state0 state1.
Proof. exists 1000, principal, instance. exact (did_scan _ _ _ _ _ _ _ _ _ _ scan_run). Qed.
Lemma expire_moves : moves state1 state2.
Proof. exists 1100, principal, instance. exact expire_step. Qed.
Lemma claim_moves : moves state2 state3.
Proof. exists 1150, principal, instance2. exact (did_claim _ _ _ _ _ _ _ _ _ _ claim_run). Qed.
Lemma scan_history : rtc moves state0 state1.
Proof. eapply rtc_l; [apply scan_moves|apply rtc_refl]. Defined.
Lemma expire_history : rtc moves state0 state2.
Proof. eapply rtc_l; [apply scan_moves|]. eapply rtc_l; [apply expire_moves|apply rtc_refl]. Defined.
Lemma claim_history : rtc moves state2 state3.
Proof. eapply rtc_l; [apply claim_moves|apply rtc_refl]. Defined.
Lemma validate_ok s : CASState.validate s = Ok tt -> cas_valid s.
Proof. apply cas_ok. Qed.
Lemma state0_valid : cas_valid state0.
Proof. apply validate_ok. vm_compute. reflexivity. Qed.
Lemma state1_valid : cas_valid state1.
Proof. apply validate_ok. vm_compute. reflexivity. Qed.
Lemma state2_valid : cas_valid state2.
Proof. apply validate_ok. vm_compute. reflexivity. Qed.
Lemma state3_valid : cas_valid state3.
Proof. apply validate_ok. vm_compute. reflexivity. Qed.

(** ** The abstract machine *)
(** C1: every successful call of the contract is a step of the fenced-lease machine
    [LeaseSpec]: a stored reply is a stutter, a scan a grant under a new fence, an expiry an
    expiry by the live lease, a replay claim a take-over of an ended one. *)
Theorem operations_refine `{RFC8785} `{!RFC8785Spec} operation now principal instance s s' :
  step now principal instance s s' ->
  LeaseSpec.step now principal instance (abstraction operation s) (abstraction operation s').
Proof. intros (HS & _ & He)%step_effect. by apply effect_refines. Qed.
Lemma operations_refine_witness :
  LeaseSpec.step 1100 principal instance
    (abstraction (ExpireRequest.expire_operation_id expire_request) state1)
    (abstraction (ExpireRequest.expire_operation_id expire_request) state2).
Proof. apply operations_refine, expire_step. Defined.

(** ** Expiry *)
(** C2: a history expires its hold at most once: from an ACTIVE hold it either leaves status,
    artifact version and commits alone or performs one expiry (one more commit, the version
    one up); once the hold is not ACTIVE neither the hold nor the commits ever change. *)
Theorem expires_at_most_once `{RFC8785} `{!RFC8785Spec} s s' : rtc moves s s' ->
  (HoldState.hold_status (hold_state s) = ACTIVE ->
    (HoldState.hold_status (hold_state s') = ACTIVE
     /\ HoldState.artifact_version (hold_state s') = HoldState.artifact_version (hold_state s)
     /\ commits s' = commits s)
    \/ expired_once s s')
  /\ (HoldState.hold_status (hold_state s) <> ACTIVE ->
      hold_state s' = hold_state s /\ commits s' = commits s).
Proof.
  intros Hr. split; [|by apply history_expired]. intros Ha.
  destruct (history_once _ _ Hr) as [(E & ? & ?)|?]; [left|by right]. by rw E.
Qed.
Lemma expires_at_most_once_witness :
  (HoldState.hold_status (hold_state state0) = ACTIVE ->
    (HoldState.hold_status (hold_state state2) = ACTIVE
     /\ HoldState.artifact_version (hold_state state2) = HoldState.artifact_version (hold_state state0)
     /\ commits state2 = commits state0)
    \/ expired_once state0 state2)
  /\ (HoldState.hold_status (hold_state state0) <> ACTIVE ->
      hold_state state2 = hold_state state0 /\ commits state2 = commits state0).
Proof. apply expires_at_most_once, expire_history. Defined.

(** C3: [apply_artifact_hold_expiry] on an operation that is not committed succeeds exactly on a
    well-formed request, context and snapshot for which [expiry_step] holds: the request's
    candidate is the unconsumed, projected, live authority of a due ACTIVE hold and the caller
    owns it; then it expires the hold, consumes the entry, and appends one commit and one
    audit and one outbox record of it, and changes nothing else. *)
Theorem expire_exact `{RFC8785} `{!RFC8785Spec} q s now p i f component subject s' r :
  ExpireRequest.expire_operation_id q ∉ map Commit.expire_operation_id (commits s) ->
  apply_artifact_hold_expiry q s now p i f component subject = Ok (s', r) <->
  ExpireRequest.validate q = Ok tt /\ expiry_context now p i f component subject
  /\ CASState.validate s = Ok tt
  /\ exists j e k audit outbox, expiry_step q s now p i f s' r j e k audit outbox.
Proof. rw expire_request_ok cas_ok. apply expire_first_ok. Qed.
Lemma expire_exact_witness :
  ExpireRequest.validate expire_request = Ok tt
  /\ expiry_context 1100 principal instance 1 ARTIFACT_HOLD_REAPER_COMPONENT_TYPE
       ARTIFACT_HOLD_EXPIRY_SUBJECT
  /\ CASState.validate state1 = Ok tt
  /\ exists j e k audit outbox, expiry_step expire_request state1 1100 principal instance 1 state2
       expire_result j e k audit outbox.
Proof. apply expire_exact; [by apply not_elem_of_nil|exact expire_run]. Defined.

(** C4: in every history from a created snapshot with an empty ledger, a due hold can be expired
    through its projected candidate for as long as that candidate's lease lasts: the call by
    the candidate's owner returns a result, whatever happened before. *)
Theorem expire_available `{RFC8785} `{!RFC8785Spec} h s0 s c q now component subject :
  CASState.create h LedgerState.empty = Ok s0 -> rtc moves s0 s -> timely s c now ->
  ExpireRequest.create c = Ok q -> 0 <= now <= _MAX_SAFE_INTEGER ->
  component = ARTIFACT_HOLD_REAPER_COMPONENT_TYPE -> subject = ARTIFACT_HOLD_EXPIRY_SUBJECT ->
  exists s' r, apply_artifact_hold_expiry q s now (Candidate.owner_principal_id c)
    (Candidate.owner_instance_id c) (Candidate.candidate_fencing_token c) component subject
    = Ok (s', r) /\ HoldState.hold_status (hold_state s') = EXPIRED.
Proof.
  intros (HS0 & _ & Hu0 & ->)%created_ok Hr Hti Hq Hnow Hc Hs.
  destruct (history _ _ Hr HS0) as [HS _]. pose proof (history_uniform _ _ Hr Hu0) as Hu.
  pose proof (ti_candidate _ _ _ Hti) as Hcand.
  destruct (projected_bound _ _ (s_hold _ HS) Hcand) as (_ & _ & Ha & _).
  destruct (expire_complete q s now component subject c) as (s' & r & j & e & k & ea & eo & Hst & Hok);
    try done.
  - destruct (Hu Ha) as [-> _]. by apply not_elem_of_nil.
  - by apply uniform_last.
  - exists s', r. split; [done|]. by rw (es_state _ _ _ _ _ _ _ _ _ _ _ _ _ Hst).
Qed.
Lemma candidate1_timely : timely state1 candidate1 1100.
Proof.
  constructor; try (vm_compute; done || lia); split; vm_compute; done.
Qed.
Lemma expire_available_witness : exists s' r,
  apply_artifact_hold_expiry expire_request state1 1100 (Candidate.owner_principal_id candidate1)
    (Candidate.owner_instance_id candidate1) (Candidate.candidate_fencing_token candidate1)
    ARTIFACT_HOLD_REAPER_COMPONENT_TYPE ARTIFACT_HOLD_EXPIRY_SUBJECT = Ok (s', r)
  /\ HoldState.hold_status (hold_state s') = EXPIRED.
Proof.
  apply (expire_available hold0 state0); [vm_compute; reflexivity|apply scan_history|
    apply candidate1_timely|vm_compute; reflexivity|vm_compute; split; discriminate|reflexivity|reflexivity].
Defined.

(** ** Asking again *)
(** C5: [apply_artifact_hold_expiry] on a committed operation changes nothing and answers with
    the stored result, for exactly the callers [replay_authority] describes: the one that
    committed, until a replay claim supersedes it, or the live current claim. *)
Theorem expire_again_exact `{RFC8785} q s now p i f component subject s' r k :
  k ∈ commits s -> Commit.expire_operation_id k = ExpireRequest.expire_operation_id q ->
  apply_artifact_hold_expiry q s now p i f component subject = Ok (s', r) <->
  ExpireRequest.validate q = Ok tt /\ expiry_context now p i f component subject
  /\ CASState.validate s = Ok tt
  /\ (exists e, e ∈ entries s /\ commit_evidence s k e
        /\ replay_authority (candidate_ledger s) q (LedgerEntry.candidate e) p i f now)
  /\ HoldState.artifact_id (hold_state s) = ExpireRequest.artifact_id q
  /\ HoldState.hold_id (hold_state s) = ExpireRequest.hold_id q
  /\ s' = s /\ ExpiryResult.from_canonical_json (Commit.result_json k) = Ok r.
Proof.
  intros Hk Ek. rw expire_committed_ok // expire_request_ok cas_ok. unfold committed_result.
  split; intros (Hq & Hc & HS & He & Ha & Hh & -> & Hr); repeat (split; [done|]).
  - pose proof (s_commits _ HS) as Hcs. rw Forall_forall in Hcs.
    destruct (k_result _ (Hcs _ Hk)) as [r' Hr']. by rw Hr' in Hr |- *; subst.
  - by rw Hr.
Qed.
Lemma expire_again_run : apply_artifact_hold_expiry expire_request state2 1199 principal instance 1
  COMPONENT SUBJECT = Ok (state2, expire_result).
Proof. vm_compute. reflexivity. Qed.
Lemma expire_again_exact_witness :
  ExpireRequest.validate expire_request = Ok tt
  /\ expiry_context 1199 principal instance 1 COMPONENT SUBJECT
  /\ CASState.validate state2 = Ok tt
  /\ (exists e, e ∈ entries state2 /\ commit_evidence state2 commit2 e
        /\ replay_authority (candidate_ledger state2) expire_request (LedgerEntry.candidate e)
             principal instance 1 1199)
  /\ HoldState.artifact_id (hold_state state2) = ExpireRequest.artifact_id expire_request
  /\ HoldState.hold_id (hold_state state2) = ExpireRequest.hold_id expire_request
  /\ state2 = state2
  /\ ExpiryResult.from_canonical_json (Commit.result_json commit2) = Ok expire_result.
Proof. apply expire_again_exact; [by left|reflexivity|exact expire_again_run]. Defined.

(** C6: the reply to a first expiry is stable: in every later snapshot of the history in which no
    replay claim names the operation, the same call at any server time returns the same result
    and leaves the snapshot as it is, also after the candidate's lease has ended. *)
Theorem expire_retry_stable `{RFC8785} `{!RFC8785Spec} q s now p i f component subject s1 r s2 now' :
  apply_artifact_hold_expiry q s now p i f component subject = Ok (s1, r) ->
  ExpireRequest.expire_operation_id q ∉ map Commit.expire_operation_id (commits s) ->
  rtc moves s1 s2 -> 0 <= now' <= _MAX_SAFE_INTEGER ->
  ExpireRequest.expire_operation_id q
    ∉ map claim_expire (LedgerState.claims (candidate_ledger s2)) ->
  apply_artifact_hold_expiry q s2 now' p i f component subject = Ok (s2, r).
Proof.
  intros Hr Hu Hm Hn Hcl. apply expire_first_ok in Hr as (Hq & Hc & HS & j & e & k & ea & eo & Hst);
    [|done]. eapply expiry_step_stable; try done. by apply current_claim_None.
Qed.
Lemma expire_retry_stable_witness :
  apply_artifact_hold_expiry expire_request state2 999999 principal instance 1 COMPONENT SUBJECT
  = Ok (state2, expire_result).
Proof.
  apply (expire_retry_stable expire_request state1 1100 principal instance 1 _ _ state2);
    [exact expire_run|by apply not_elem_of_nil|apply rtc_refl|vm_compute; split; discriminate
    |by apply not_elem_of_nil].
Defined.

(** C7: once a replay claim names a committed operation, the candidate that committed it has lost
    its authority: its retry is refused at every time and for every caller. *)
Theorem superseded_refused `{RFC8785} q s now p i f component subject k e :
  CASState.validate s = Ok tt -> k ∈ commits s ->
  Commit.expire_operation_id k = ExpireRequest.expire_operation_id q ->
  e ∈ entries s -> LedgerEntry.consumed_by_expire_operation_id e = Some (Commit.expire_operation_id k) ->
  ExpireRequest.candidate_lease_id q = Candidate.candidate_lease_id (LedgerEntry.candidate e) ->
  ExpireRequest.expire_operation_id q ∈ map claim_expire (LedgerState.claims (candidate_ledger s)) ->
  is_ok (apply_artifact_hold_expiry q s now p i f component subject) = false.
Proof.
  intros HS%cas_ok Hk Ek He Eo El Hcl.
  destruct (apply_artifact_hold_expiry q s now p i f component subject) as [[s' r]|] eqn:Hr; [|done].
  destruct (current_claim (candidate_ledger s) (ExpireRequest.expire_operation_id q)) as [cl|] eqn:E.
  - by destruct (superseded_fails q s now p i f component subject k e cl s' r).
  - by apply current_claim_None in E.
Qed.
Lemma superseded_refused_witness :
  is_ok (apply_artifact_hold_expiry expire_request state3 1160 principal instance 1 COMPONENT SUBJECT)
  = false.
Proof.
  apply (superseded_refused expire_request state3 1160 principal instance 1 _ _ commit2
    (LedgerEntry.consume (LedgerEntry.fresh candidate1)
       (ExpireRequest.expire_operation_id expire_request) 1100));
    [vm_compute; reflexivity|by left|reflexivity|by left|reflexivity|reflexivity|by left].
Defined.

(** C8: at any time a committed operation has one authority: two calls that are both answered at
    the same time on the same snapshot come from the same principal and instance and carry the
    same fencing token, whichever candidate each of them presents. *)
Theorem replay_authority_exclusive `{RFC8785} q1 q2 s now p1 p2 i1 i2 f1 f2 component subject r1 r2 k :
  k ∈ commits s -> Commit.expire_operation_id k = ExpireRequest.expire_operation_id q1 ->
  Commit.expire_operation_id k = ExpireRequest.expire_operation_id q2 ->
  apply_artifact_hold_expiry q1 s now p1 i1 f1 component subject = Ok r1 ->
  apply_artifact_hold_expiry q2 s now p2 i2 f2 component subject = Ok r2 ->
  p1 = p2 /\ i1 = i2 /\ f1 = f2 /\ r1 = r2.
Proof.
  destruct r1 as [s1 r1], r2 as [s2 r2]. intros Hk E1 E2 H1 H2.
  apply (expire_committed_ok _ _ _ _ _ _ _ _ _ _ k Hk E1) in H1
    as (_ & _ & HS & (e1 & He1 & Hev1 & Ha1) & _ & _ & -> & ->).
  apply (expire_committed_ok _ _ _ _ _ _ _ _ _ _ k Hk E2) in H2
    as (_ & _ & _ & (e2 & He2 & Hev2 & Ha2) & _ & _ & -> & ->).
  assert (e1 = e2) as ->.
  { assert (NoDup (consumed_operations (candidate_ledger s))) as Hn
      by (rw (s_consumed _ HS); apply HS).
    eapply NoDup_omap_inj; [exact Hn|done|done|apply Hev1|apply Hev2]. }
  destruct (authority_unique _ q1 q2 _ _ _ _ _ _ _ _ (eq_trans (eq_sym E1) E2) Ha1 Ha2) as (-> & -> & ->).
  done.
Qed.
Lemma replay_authority_exclusive_witness :
  principal = principal /\ instance = instance /\ 1 = 1
  /\ (state2, expire_result) = (state2, expire_result).
Proof.
  apply (replay_authority_exclusive expire_request expire_request state2 1199 principal principal
    instance instance 1 1 COMPONENT SUBJECT _ _ commit2);
    [by left|reflexivity|reflexivity|exact expire_again_run|exact expire_again_run].
Defined.

(** ** Scanning *)
(** C9: [apply_artifact_hold_expiry_scan] with a new scan identifier succeeds exactly on a
    well-formed request, context and snapshot for which [scan_step] holds: it draws a lease
    identifier and the first different token, issues one candidate for the due ACTIVE hold under
    the next fence, projects it, and appends the scan, its entry, seal and allocation proof. *)
Theorem scan_exact `{RFC8785} draws q s now p i component subject s' r :
  ScanRequest.scan_operation_id q ∉ scan_operation_ids (candidate_ledger s) ->
  apply_artifact_hold_expiry_scan draws q s now p i component subject = Ok (s', r) <->
  ScanRequest.validate q = Ok tt /\ CASState.validate s = Ok tt
  /\ scan_context now p i component subject
  /\ exists c a, scan_step q s now p i draws s' r c a.
Proof. rw scan_request_ok cas_ok. apply scan_first_ok. Qed.
Lemma scan_exact_witness :
  ScanRequest.validate scan_request = Ok tt /\ CASState.validate state0 = Ok tt
  /\ scan_context 1000 principal instance COMPONENT SUBJECT
  /\ exists c a, scan_step scan_request state0 1000 principal instance draws state1 scan_result c a.
Proof. apply scan_exact; [by apply not_elem_of_nil|exact scan_run]. Defined.

(** In every history from a created snapshot with an empty ledger, a due ACTIVE hold can be
    scanned: a scan with a new identifier succeeds whenever its draws give two tokens the ledger
    does not know yet and neither the clock nor the fence is at its bound. *)
Lemma scan_available `{RFC8785} `{!RFC8785Spec} h s0 s draws q now p i component subject x lease token :
  CASState.create h LedgerState.empty = Ok s0 -> rtc moves s0 s ->
  ScanRequest.validate q = Ok tt -> scan_context now p i component subject ->
  ScanRequest.scan_operation_id q ∉ scan_operation_ids (candidate_ledger s) ->
  HoldState.hold_status (hold_state s) = ACTIVE ->
  HoldState.expires_ms (hold_state s) = Some x -> x <= now ->
  now + ARTIFACT_HOLD_CANDIDATE_LEASE_MAX_MS <= _MAX_SAFE_INTEGER ->
  LedgerState.candidate_fence_high_water (candidate_ledger s) < _MAX_SAFE_INTEGER ->
  drawn draws lease token -> issued_token lease -> issued_token token ->
  lease ∉ LedgerState.entry_tokens (candidate_ledger s) ->
  token ∉ LedgerState.entry_tokens (candidate_ledger s) ->
  exists s' r c, apply_artifact_hold_expiry_scan draws q s now p i component subject = Ok (s', r)
    /\ ScanResult.candidates r = [c] /\ HoldState.candidate (hold_state s') = Some c
    /\ Candidate.candidate_lease_id c = lease /\ Candidate.candidate_token c = token.
Proof.
  intros (HS0 & Ht0 & _ & ->)%created_ok Hr Hq%scan_request_ok Hctx Hf Ha Hx Hdue Hnow Hw Hd Hl Ht Hn1 Hn2.
  destruct (history _ _ Hr HS0) as [HS _]. pose proof (history_tight _ _ Hr Ht0) as Htight.
  destruct (scan_complete draws q s now p i component subject x lease token)
    as (s' & r & c & a & Hok & Hst); try done.
  exists s', r, c. split; [done|]. destruct Hst. subst s'. split; [done|]. split; [done|].
  destruct Hd as (r0 & rest & -> & El & Ht1), ss_drawn as (r0' & rest' & [= <- <-] & El' & Ht2).
  split; [congruence|]. apply draw_distinct_ok in Ht1, Ht2. rw El' -El Ht1 in Ht2. by injection Ht2.
Qed.
Definition first_lease : pystr := _new_candidate_token (replicate 32 0%N).
Definition first_token : pystr := _new_candidate_token (replicate 32 7%N).
Lemma issued_replicate n : (n < 256)%N -> issued_token (_new_candidate_token (replicate 32 n)).
Proof.
  intros Hn. exists (replicate 32 n). split; [done|]. split; [|done].
  apply Forall_forall. by intros y [-> _]%elem_of_replicate.
Qed.
Lemma draws_drawn : drawn draws first_lease first_token.
Proof.
  exists (replicate 32 0%N), (tail draws). split; [reflexivity|]. split; [reflexivity|].
  apply draw_distinct_ok. vm_compute. reflexivity.
Qed.
Lemma scan_available_witness : exists s' r c,
  apply_artifact_hold_expiry_scan draws scan_request state0 2000 principal instance COMPONENT SUBJECT
    = Ok (s', r)
  /\ ScanResult.candidates r = [c] /\ HoldState.candidate (hold_state s') = Some c
  /\ Candidate.candidate_lease_id c = first_lease /\ Candidate.candidate_token c = first_token.
Proof.
  apply (scan_available hold0 state0 state0 draws scan_request 2000 principal instance COMPONENT SUBJECT
    1000); [vm_compute; reflexivity|apply rtc_refl|vm_compute; reflexivity| |by apply not_elem_of_nil
    |reflexivity|reflexivity|lia|vm_compute; discriminate|vm_compute; reflexivity|apply draws_drawn
    |by apply issued_replicate|by apply issued_replicate|by apply not_elem_of_nil|by apply not_elem_of_nil].
  apply (scan_context_ok _ _ _ _ _ tt). vm_compute. reflexivity.
Defined.

(** The reply to a scan is stable: in every later snapshot of the history, at any server time
    and whatever the random source would return, the same call by the same reaper returns the
    stored result and issues nothing. *)
Lemma scan_retry_stable `{RFC8785} `{!RFC8785Spec} draws q s now p i component subject s1 r draws' s2 now' :
  apply_artifact_hold_expiry_scan draws q s now p i component subject = Ok (s1, r) ->
  rtc moves s1 s2 -> 0 <= now' <= _MAX_SAFE_INTEGER ->
  apply_artifact_hold_expiry_scan draws' q s2 now' p i component subject = Ok (s2, r).
Proof.
  intros (_ & HS1 & _ & Hq & [] & Hin & Ho)%scan_outcome Hm Hn. destruct (history _ _ Hm HS1) as [HS2 Hx].
  apply (scan_retry_ok draws' q s2 now' p i component subject s2 r q r); [|done|].
  - eapply elem_of_prefix; [exact Hin|apply Hx].
  - do 2 (split; [done|]). by split; [constructor|].
Qed.
Lemma scan_retry_stable_witness :
  apply_artifact_hold_expiry_scan [] scan_request state2 5000000 principal instance COMPONENT SUBJECT
  = Ok (state2, scan_result).
Proof.
  apply (scan_retry_stable draws scan_request state0 1000 principal instance _ _ state1);
    [exact scan_run| |vm_compute; split; discriminate].
  eapply rtc_l; [apply expire_moves|apply rtc_refl].
Defined.

(** a stored scan is private to the reaper it was issued to: the same request from another
    instance is refused with the contract's owner conflict. *)
Lemma scan_foreign_refused `{RFC8785} draws q s now p i component subject r c :
  CASState.validate s = Ok tt -> ScanRequest.validate q = Ok tt ->
  scan_context now p i component subject -> (q, r) ∈ LedgerState.scans (candidate_ledger s) ->
  c ∈ ScanResult.candidates r -> ~ owned p i c ->
  apply_artifact_hold_expiry_scan draws q s now p i component subject
  = Err (conflict "scan result candidate owner does not match authenticated reaper").
Proof.
  intros HS Hq Hctx Hin Hc Ho. apply (scan_context_ok _ _ _ _ _ tt) in Hctx. pose proof HS as HS'. apply cas_ok in HS'.
  unfold apply_artifact_hold_expiry_scan. rw Hq HS Hctx. cbn [mbind result_bind].
  assert (stored_scan q p i (LedgerState.scans (candidate_ledger s)) = Err
    (conflict "scan result candidate owner does not match authenticated reaper")) as ->; [|done].
  assert (NoDup (scan_operation_ids (candidate_ledger s))) as Hn
    by by pose proof (l_operations _ (s_ledger _ HS')) as [? _]%NoDup_app.
  unfold scan_operation_ids in Hn. clear -Hn Hin Hc Ho.
  induction (LedgerState.scans (candidate_ledger s)) as [|[q0 r0] l IH]; [by apply elem_of_nil in Hin|].
  cbn in *. apply NoDup_cons in Hn as [Hn0 Hn]. apply elem_of_cons in Hin as [[= -> ->]|Hin].
  - rw !bool_decide_eq_true_2 //. cbn.
    assert (existsb (fun candidate => negb (bool_decide (Candidate.owner_principal_id candidate = p))
      || negb (bool_decide (Candidate.owner_instance_id candidate = i))) (ScanResult.candidates r0) = true) as ->;
      [|done].
    apply existsb_exists. exists c. split; [by apply list_elem_of_In|]. apply not_false_iff_true.
    rw orb_false_iff !neqb_false. exact Ho.
  - rw bool_decide_eq_false_2; [by apply IH|]. intros E. apply Hn0. rw E. apply list_elem_of_fmap.
    by exists (q, r).
Qed.
Lemma scan_foreign_refused_witness :
  apply_artifact_hold_expiry_scan draws scan_request state1 1001 principal instance2 COMPONENT SUBJECT
  = Err (conflict "scan result candidate owner does not match authenticated reaper").
Proof.
  apply (scan_foreign_refused draws scan_request state1 1001 principal instance2 COMPONENT SUBJECT
    scan_result candidate1); [vm_compute; reflexivity|vm_compute; reflexivity| |by left|by left|].
  - apply (scan_context_ok _ _ _ _ _ tt). vm_compute. reflexivity.
  - intros [_ E]. vm_compute in E. discriminate E.
Defined.

(** ** Claiming a replay *)
(** C10: [apply_artifact_hold_expiry_replay_claim] with a new claim identifier succeeds exactly on
    a well-formed request, context and snapshot for which [claim_step] holds: the claim names a
    committed expiry of the current resource by its digest and its candidate's due tuple, the
    caller is the principal that committed it, no earlier claim's lease still runs; then it
    issues one candidate under the next fence and moves the operation's authority to it. *)
Theorem claim_exact `{RFC8785} q s now until p i component subject s' r :
  ReplayClaimRequest.replay_operation_id q
    ∉ map claim_operation (LedgerState.claims (candidate_ledger s)) ->
  apply_artifact_hold_expiry_replay_claim q s now until p i component subject = Ok (s', r) <->
  ReplayClaimRequest.validate q = Ok tt /\ CASState.validate s = Ok tt
  /\ claim_context now until p i component subject
  /\ exists k e, claim_step q s now until p i s' r k e.
Proof. rw claim_request_ok cas_ok. apply claim_first_ok. Qed.
Lemma claim_exact_witness :
  ReplayClaimRequest.validate claim_request = Ok tt /\ CASState.validate state2 = Ok tt
  /\ claim_context 1150 2000 principal instance2 COMPONENT SUBJECT
  /\ exists k e, claim_step claim_request state2 1150 2000 principal instance2 state3 claim_result k e.
Proof. apply claim_exact; [by apply not_elem_of_nil|exact claim_run]. Defined.

(** A committed expiry of the current resource can always be claimed again: the principal that
    committed it obtains a claim with fresh tokens, under a lease within the maximum, as soon as
    the current claim's lease has ended. *)
Lemma claim_available `{RFC8785} `{!RFC8785Spec} q s now until p i component subject k e :
  CASState.validate s = Ok tt -> ReplayClaimRequest.validate q = Ok tt ->
  claim_context now until p i component subject ->
  ReplayClaimRequest.replay_operation_id q
    ∉ scan_operation_ids (candidate_ledger s) ++ map claim_operation (LedgerState.claims (candidate_ledger s)) ->
  k ∈ commits s -> Commit.expire_operation_id k = ReplayClaimRequest.expire_operation_id q ->
  e ∈ entries s -> LedgerEntry.consumed_by_expire_operation_id e = Some (Commit.expire_operation_id k) ->
  may_claim q s k (LedgerEntry.candidate e) p ->
  now < until <= now + ARTIFACT_HOLD_CANDIDATE_LEASE_MAX_MS ->
  (forall cl, cl ∈ LedgerState.claims (candidate_ledger s) ->
    claim_expire cl = ReplayClaimRequest.expire_operation_id q ->
    Candidate.lease_until_ms (LedgerState.claim_candidate cl) <= now) ->
  Z.of_nat (length (LedgerState.claims (candidate_ledger s))) < _MAX_SAFE_INTEGER ->
  Commit.committed_at_ms k <= now ->
  LedgerState.candidate_fence_high_water (candidate_ledger s) < _MAX_SAFE_INTEGER ->
  ReplayClaimRequest.candidate_lease_id q ∉ LedgerState.entry_tokens (candidate_ledger s) ->
  ReplayClaimRequest.candidate_token q ∉ LedgerState.entry_tokens (candidate_ledger s) ->
  exists s' r, apply_artifact_hold_expiry_replay_claim q s now until p i component subject = Ok (s', r)
    /\ current_claim (candidate_ledger s') (ReplayClaimRequest.expire_operation_id q) = Some (q, r).
Proof.
  intros HS%cas_ok Hq%claim_request_ok Hctx Hid Hk Ek He Eo Hmc Hlt Hcl Hlen Hnow Hw Hn1 Hn2.
  rw not_elem_of_app in Hid. destruct Hid as [Hid1 Hid2].
  pose proof (s_evidence _ HS) as Hevs. rw Forall_forall in Hevs.
  destruct (Hevs _ Hk) as (e' & He' & Hev). assert (e' = e) as ->.
  { assert (NoDup (consumed_operations (candidate_ledger s))) as Hn
      by (rw (s_consumed _ HS); apply HS).
    eapply NoDup_omap_inj; [exact Hn|done|done|apply Hev|done]. }
  destruct (claim_complete q s now until p i component subject k e) as (s' & r & Hok & Hst); try done.
  - intros cl [? ?]%current_claim_elem%claims_for_elem. by apply Hcl.
  - assert (length (claims_for (candidate_ledger s) (ReplayClaimRequest.expire_operation_id q))
      <= length (LedgerState.claims (candidate_ledger s)))%nat; [|lia].
    apply sublist_length, filter_sublist.
  - exists s', r. split; [done|]. assert (s' = claimed_cas s q r) as -> by apply Hst.
    change (candidate_ledger (claimed_cas s q r)) with (claimed (candidate_ledger s) q r).
    rw (current_claim_claimed q s now until p i _ r k e _ HS Hst). by rw bool_decide_eq_true_2.
Qed.
Definition entry2 : LedgerEntry.t := LedgerEntry.consume (LedgerEntry.fresh candidate1)
  (ExpireRequest.expire_operation_id expire_request) 1100.
Lemma issued_token_check x : _require_candidate_token x "" = Ok tt -> issued_token x.
Proof. apply require_candidate_token_ok. Qed.
Lemma claim_available_witness : exists s' r,
  apply_artifact_hold_expiry_replay_claim claim_request state2 9000 9500 principal instance2
    COMPONENT SUBJECT = Ok (s', r)
  /\ current_claim (candidate_ledger s') (ReplayClaimRequest.expire_operation_id claim_request)
     = Some (claim_request, r).
Proof.
  apply (claim_available claim_request state2 9000 9500 principal instance2 COMPONENT SUBJECT commit2
    entry2).
  all: try (vm_compute; reflexivity).
  - apply (claim_context_ok _ _ _ _ _ _ tt). vm_compute. reflexivity.
  - intros Hin. vm_compute in Hin. apply list_elem_of_In in Hin as [E|[]]. discriminate E.
  - by left.
  - by left.
  - constructor; vm_compute; reflexivity.
  - vm_compute. split; [reflexivity|discriminate].
  - intros cl Hin. apply list_elem_of_In in Hin. destruct Hin.
  - vm_compute. discriminate.
  - intros Hin. vm_compute in Hin. apply list_elem_of_In in Hin as [E|[E|[]]]; discriminate E.
  - intros Hin. vm_compute in Hin. apply list_elem_of_In in Hin as [E|[E|[]]]; discriminate E.
Defined.

(** The reply to a replay claim is stable: in every later snapshot of the history the same call
    by the same caller returns the stored result and issues nothing, also after the claim's
    lease has ended or another claim has succeeded it. *)
Lemma claim_retry_stable `{RFC8785} `{!RFC8785Spec} q s now until p i component subject s1 r s2 now' until' :
  apply_artifact_hold_expiry_replay_claim q s now until p i component subject = Ok (s1, r) ->
  rtc moves s1 s2 -> 0 <= now' <= _MAX_SAFE_INTEGER -> 0 <= until' <= _MAX_SAFE_INTEGER ->
  apply_artifact_hold_expiry_replay_claim q s2 now' until' p i component subject = Ok (s2, r).
Proof.
  intros (_ & HS1 & _ & Hq & [] & Hin & Ho)%claim_outcome Hm Hn Hu.
  destruct (history _ _ Hm HS1) as [HS2 Hx].
  apply (claim_retry_ok q s2 now' until' p i component subject s2 r q r); [|done|].
  - eapply elem_of_prefix; [exact Hin|apply Hx].
  - do 2 (split; [done|]). by split; [constructor|].
Qed.
Lemma claim_retry_stable_witness :
  apply_artifact_hold_expiry_replay_claim claim_request state3 70000 0 principal instance2 COMPONENT SUBJECT
  = Ok (state3, claim_result).
Proof.
  apply (claim_retry_stable claim_request state2 1150 2000 principal instance2 _ _ state3);
    [exact claim_run|apply rtc_refl|vm_compute; split; discriminate|vm_compute; split; discriminate].
Defined.

(** ** A burned fence *)
(** a snapshot whose high-water went up without a candidate *)
Definition burned : CASState.t :=
  CASState.Make hold0 (LedgerState.Make 5 [] [] [] [] [] [] [] []) [] [] [].

(** it is valid, but nothing can be issued any more: the allocation proof of a new candidate names a
    high-water that is no candidate's fence *)
Lemma burned_fence_blocks_scan : CASState.validate burned = Ok tt
  /\ snd <$> apply_artifact_hold_expiry_scan draws scan_request burned 1000 principal instance
       ARTIFACT_HOLD_REAPER_COMPONENT_TYPE ARTIFACT_HOLD_EXPIRY_SUBJECT
     = Err (conflict "scan allocation previous high-water is not persisted provenance").
Proof. split; vm_compute; reflexivity. Qed.
