(* ===== verification/LedgerTheorems.v ===== *)
(** * Theorems on the invariants of the snapshot and its ledger *)
From stdpp Require Import relations.
From S2P Require Import Prelude ListFacts PyStr Sha256 Json Rfc8785Reference Contract ContractFacts.
From S2P Require Import Scan ScanFacts Replay ReplayFacts Expire ExpireFacts CommitFacts.
From S2P Require Import TransitionFacts Ledger LedgerFacts LedgerOps LedgerIssue LedgerClaims CasState.
From S2P Require Import CasFacts ExpireOps RetryOps ScanOps ClaimOps Reachability Availability Scenario.
Local Open Scope py_scope.
Local Open Scope Z_scope.
Import CASState.

(** ** Auxiliary facts *)
Lemma ends_before_sorted `{RFC8785} l : Forall candidate_valid l -> Sorted ends_before l ->
  StronglySorted ends_before l.
Proof.
  intros Hv Hs. induction Hs as [|c l Hs IH Hd]; [constructor|].
  apply Forall_cons in Hv as [Hc Hv]. specialize (IH Hv). constructor; [done|].
  destruct Hd as [|c' l Hcc]; [constructor|]. constructor; [done|].
  apply StronglySorted_inv in IH as [_ Ha]. apply Forall_cons in Hv as [Hc' _].
  eapply Forall_impl; [exact Ha|]. unfold ends_before in *.
  destruct (c_lease _ Hc') as (_ & ? & _). intros c2 ?. lia.
Qed.

(** in a list sorted by a key, a smaller key comes first *)
Lemma sorted_related {A} (key : A -> Z) (R : A -> A -> Prop) l a b :
  StronglySorted R l -> key_sorted key l -> a ∈ l -> b ∈ l -> key a < key b -> R a b.
Proof.
  unfold key_sorted. induction l as [|c l IH]; [by intros _ _ ?%elem_of_nil|].
  intros [Hs Hc]%StronglySorted_inv [Hk Hkc]%StronglySorted_inv.
  rw Forall_forall in Hc. rw Forall_forall in Hkc. intros [->|Ha]%elem_of_cons [->|Hb]%elem_of_cons Hlt.
  - lia.
  - by apply Hc.
  - specialize (Hkc _ Ha). cbn in Hkc. lia.
  - by apply IH.
Qed.

Lemma consumed_distinct `{RFC8785} s : cas_valid s -> NoDup (consumed_operations (candidate_ledger s)).
Proof. intros HS. rw (s_consumed _ HS). apply HS. Qed.

Lemma claims_disjoint `{RFC8785} l c1 c2 : ledger_valid l ->
  c1 ∈ LedgerState.claims l -> c2 ∈ LedgerState.claims l ->
  claim_expire c1 = claim_expire c2 -> LedgerState.claim_fence c1 < LedgerState.claim_fence c2 ->
  ends_before (LedgerState.claim_candidate c1) (LedgerState.claim_candidate c2).
Proof.
  intros HL H1 H2 E Hlt. set (k := claim_expire c1).
  assert ((k, claims_for l k) ∈ claim_groups l) as Hg.
  { apply group_claims. split; [|done]. apply list_elem_of_fmap. by exists c1. }
  pose proof (l_disjoint _ HL) as Hd. rw Forall_forall in Hd. specialize (Hd _ Hg). cbn [snd] in Hd.
  assert (forall c, c ∈ claims_for l k -> candidate_valid (LedgerState.claim_candidate c)) as Hv.
  { intros c [Hc _]%claims_for_elem. apply (cres_candidate _ (cp_result _ _ (claim_is_valid _ HL _ Hc))). }
  apply ends_before_sorted in Hd.
  - apply (sorted_related Candidate.candidate_fencing_token _ _ _ _ Hd (sorted_by_sorted _ _));
      [..|exact Hlt]; rw sorted_by_perm; apply list_elem_of_fmap; eexists; (split; [done|]);
      by apply claims_for_elem.
  - rw sorted_by_perm. apply Forall_forall. intros c (cl & -> & Hc)%list_elem_of_fmap. by apply Hv.
Qed.

(** ** Validation *)
(** C30: [ArtifactHoldExpiryCASState.validate] accepts exactly the snapshots of [cas_valid]: all its
    loops and dictionaries amount to the listed relations between hold, ledger, commits and the
    two event ledgers. *)
Theorem cas_validate_exact `{RFC8785} s : CASState.validate s = Ok tt <-> cas_valid s.
Proof. apply cas_ok. Qed.

(** C31: [ArtifactHoldExpiryLedgerState.validate] accepts exactly the ledgers of [ledger_valid]:
    the eight loops and their indices amount to permutations between the stored scans, claims,
    seals, allocation proofs and entries, and strictly ascending fences. *)
Theorem ledger_validate_exact `{RFC8785} l : LedgerState.validate l = Ok tt <-> ledger_valid l.
Proof. apply ledger_ok. Qed.

(** C32: every history keeps the snapshot well-formed and only appends: identity and expiry of the
    hold stay, artifact version and fence high-water never fall, the stored scans, claims,
    issued candidates, commits and event records of the past are prefixes of the later ones, and
    a consumed entry stays. *)
Theorem history_preserved `{RFC8785} `{!RFC8785Spec} s s' : rtc moves s s' ->
  CASState.validate s = Ok tt -> CASState.validate s' = Ok tt /\ extends s s'.
Proof. rw !cas_ok. apply history. Qed.
Lemma run_history : rtc moves state0 state1.
Proof.
  eapply rtc_l; [|apply rtc_refl]. exists 1000, principal, instance.
  pose proof run_scan_ok as E. unfold run_scan in E. exact (did_scan _ _ _ _ _ _ _ _ _ _ E).
Qed.
Lemma history_preserved_witness : CASState.validate state1 = Ok tt /\ extends state0 state1.
Proof. apply history_preserved; [apply run_history|vm_compute; reflexivity]. Defined.

(** ** Authorities *)
(** C33: in a valid ledger the leases of two replay claims on the same operation never overlap: the
    one with the smaller fence has ended before the other is issued. *)
Theorem claim_leases_disjoint `{RFC8785} l c1 c2 : LedgerState.validate l = Ok tt ->
  c1 ∈ LedgerState.claims l -> c2 ∈ LedgerState.claims l ->
  ReplayClaimRequest.expire_operation_id c1.1 = ReplayClaimRequest.expire_operation_id c2.1 ->
  LedgerState.claim_fence c1 < LedgerState.claim_fence c2 ->
  Candidate.lease_until_ms (LedgerState.claim_candidate c1)
    <= Candidate.issued_at_ms (LedgerState.claim_candidate c2).
Proof. intros HL%ledger_ok H1 H2 E Hlt. exact (claims_disjoint l c1 c2 HL H1 H2 E Hlt). Qed.
Lemma claim_leases_disjoint_witness :
  Candidate.lease_until_ms (ReplayClaimResult.candidate claim_result)
    <= Candidate.issued_at_ms (ReplayClaimResult.candidate claim_result3).
Proof.
  apply (claim_leases_disjoint (candidate_ledger state4) (claim_request, claim_result)
    (claim_request3, claim_result3));
    [vm_compute; reflexivity|by left|by right; left|reflexivity|vm_compute; reflexivity].
Defined.

(** In a valid ledger an authority is identified by any of its secrets or its fence: two entries
    that share a bearer token, in whatever role, or a fencing token are the same entry; fences
    ascend strictly and none exceeds the high-water. *)
Lemma ledger_authorities_unique `{RFC8785} l : LedgerState.validate l = Ok tt ->
  (forall e1 e2 x, e1 ∈ LedgerState.candidate_entries l -> e2 ∈ LedgerState.candidate_entries l ->
    x ∈ LedgerEntry.tokens e1 -> x ∈ LedgerEntry.tokens e2 -> e1 = e2)
  /\ StronglySorted Z.lt (0 :: map entry_fence (LedgerState.candidate_entries l))
  /\ Forall (fun e => entry_fence e <= LedgerState.candidate_fence_high_water l)
       (LedgerState.candidate_entries l).
Proof.
  intros HL%ledger_ok. split; [|by split; apply HL].
  pose proof (l_tokens _ HL) as Hn. unfold LedgerState.entry_tokens in Hn. revert Hn.
  induction (LedgerState.candidate_entries l) as [|e es IH]; cbn [flat_map]; intros Hn e1 e2 x.
  - by intros ?%elem_of_nil.
  - apply NoDup_app in Hn as (_ & Hd & Hn).
    assert (forall e', e' ∈ es -> x ∈ LedgerEntry.tokens e -> x ∈ LedgerEntry.tokens e' -> False) as Hx.
    { intros e' He' H1 H2. apply (Hd _ H1). apply list_elem_of_In, in_flat_map. exists e'.
      split; by apply list_elem_of_In. }
    intros [->|H1]%elem_of_cons [->|H2]%elem_of_cons Hx1 Hx2; [done|..].
    + by destruct (Hx e2).
    + by destruct (Hx e1).
    + by apply (IH Hn e1 e2 x).
Qed.
Lemma ledger_authorities_unique_witness :
  (forall e1 e2 x, e1 ∈ entries state3 -> e2 ∈ entries state3 ->
    x ∈ LedgerEntry.tokens e1 -> x ∈ LedgerEntry.tokens e2 -> e1 = e2)
  /\ StronglySorted Z.lt (0 :: map entry_fence (entries state3))
  /\ Forall (fun e => entry_fence e <= LedgerState.candidate_fence_high_water (candidate_ledger state3))
       (entries state3).
Proof. apply (ledger_authorities_unique (candidate_ledger state3)). vm_compute. reflexivity. Defined.

(** ** Evidence *)
(** In a valid snapshot commits and consumed candidates determine each other: a commit has
    consumed exactly one entry, at its own time and under the fence, digest and principal it
    records; and every consumed entry has its commit. *)
Lemma commit_consumes_one `{RFC8785} s : CASState.validate s = Ok tt ->
  (forall k, k ∈ commits s -> exists e, e ∈ entries s
    /\ LedgerEntry.consumed_by_expire_operation_id e = Some (Commit.expire_operation_id k)
    /\ LedgerEntry.consumed_at_ms e = Some (Commit.committed_at_ms k)
    /\ entry_fence e = Commit.authorized_reaper_fencing_token k
    /\ Candidate.candidate_digest (LedgerEntry.candidate e) = Commit.authorized_candidate_digest k
    /\ Candidate.owner_principal_id (LedgerEntry.candidate e)
       = Commit.authorized_reaper_principal_id k
    /\ forall e', e' ∈ entries s ->
       LedgerEntry.consumed_by_expire_operation_id e' = Some (Commit.expire_operation_id k) -> e' = e)
  /\ (forall e, e ∈ entries s -> LedgerEntry.consumed e = true ->
      exists k, k ∈ commits s
        /\ LedgerEntry.consumed_by_expire_operation_id e = Some (Commit.expire_operation_id k)).
Proof.
  intros HS%cas_ok. pose proof (consumed_distinct s HS) as Hn. split.
  - intros k Hk. pose proof (s_evidence _ HS) as Hevs. rw Forall_forall in Hevs.
    destruct (Hevs _ Hk) as (e & He & []). exists e. repeat (split; [done|]).
    intros e' He' Ho. by eapply NoDup_omap_inj.
  - intros e He Hc. unfold LedgerEntry.consumed in Hc. apply neqb_true in Hc.
    destruct (LedgerEntry.consumed_by_expire_operation_id e) as [o|] eqn:Eo; [|done].
    assert (o ∈ map Commit.expire_operation_id (commits s)) as (k & -> & Hk)%list_elem_of_fmap.
    { rw -(s_consumed _ HS). apply list_elem_of_omap. by exists e. }
    by exists k.
Qed.
Lemma commit_consumes_one_witness :
  (forall k, k ∈ commits state3 -> exists e, e ∈ entries state3
    /\ LedgerEntry.consumed_by_expire_operation_id e = Some (Commit.expire_operation_id k)
    /\ LedgerEntry.consumed_at_ms e = Some (Commit.committed_at_ms k)
    /\ entry_fence e = Commit.authorized_reaper_fencing_token k
    /\ Candidate.candidate_digest (LedgerEntry.candidate e) = Commit.authorized_candidate_digest k
    /\ Candidate.owner_principal_id (LedgerEntry.candidate e)
       = Commit.authorized_reaper_principal_id k
    /\ forall e', e' ∈ entries state3 ->
       LedgerEntry.consumed_by_expire_operation_id e' = Some (Commit.expire_operation_id k) -> e' = e)
  /\ (forall e, e ∈ entries state3 -> LedgerEntry.consumed e = true ->
      exists k, k ∈ commits state3
        /\ LedgerEntry.consumed_by_expire_operation_id e = Some (Commit.expire_operation_id k)).
Proof. apply (commit_consumes_one state3). vm_compute. reflexivity. Defined.

(** In a valid snapshot the audit ledger and the outbox ledger each hold exactly one record per
    commit, in some order, with the commit's operation, digest, time and result. *)
Lemma one_record_per_commit `{RFC8785} s : CASState.validate s = Ok tt ->
  let record (e : EventRecord.t) := (EventRecord.expire_operation_id e, EventRecord.commit_digest e,
    EventRecord.recorded_at_ms e, EventRecord.result_digest e) in
  let evidence k := (Commit.expire_operation_id k, Commit.commit_digest k,
    Commit.committed_at_ms k, ExpiryResult.result_digest (committed_result k)) in
  map record (audit_records s) ≡ₚ map evidence (commits s)
  /\ map record (outbox_records s) ≡ₚ map evidence (commits s)
  /\ NoDup (map Commit.expire_operation_id (commits s)).
Proof.
  intros HS%cas_ok record evidence.
  assert (forall sink records, recorded sink (commits s) records ->
    map record records ≡ₚ map evidence (commits s)) as Hr.
  { intros sink records (evs & H2 & Hp). rw Hp.
    assert (map record evs = map evidence (commits s)) as ->; [|done]. clear Hp.
    induction H2 as [|k e ks evs Hk _ IH]; cbn [map]; [done|]. rw IH. f_equal.
    apply event_create_ok in Hk as (_ & r & Hj & []). unfold record, evidence, committed_result.
    rw Hj. congruence. }
  split; [by eapply Hr, HS|]. split; [by eapply Hr, HS|]. apply HS.
Qed.
Lemma one_record_per_commit_witness :
  let record (e : EventRecord.t) := (EventRecord.expire_operation_id e, EventRecord.commit_digest e,
    EventRecord.recorded_at_ms e, EventRecord.result_digest e) in
  let evidence k := (Commit.expire_operation_id k, Commit.commit_digest k,
    Commit.committed_at_ms k, ExpiryResult.result_digest (committed_result k)) in
  map record (audit_records state2) ≡ₚ map evidence (commits state2)
  /\ map record (outbox_records state2) ≡ₚ map evidence (commits state2)
  /\ NoDup (map Commit.expire_operation_id (commits state2)).
Proof. apply (one_record_per_commit state2). vm_compute. reflexivity. Defined.

(** ** Single operations *)
(** [consume_candidate] succeeds exactly when the ledger and the request are well-formed and
    the request is bound to an unconsumed entry; it marks that entry with the operation and the
    time and changes nothing else. *)
Lemma consume_candidate_exact `{RFC8785} l q now l' :
  LedgerState.consume_candidate l q now = Ok l' <->
  LedgerState.validate l = Ok tt /\ ExpireRequest.validate q = Ok tt /\ 0 <= now <= _MAX_SAFE_INTEGER
  /\ exists i e, LedgerState.candidate_entries l !! i = Some e /\ LedgerEntry.consumed e = false
       /\ bound q (LedgerEntry.candidate e)
       /\ l' = with_entries l (<[i :=
            LedgerEntry.consume e (ExpireRequest.expire_operation_id q) now]>
              (LedgerState.candidate_entries l)).
Proof. rw ledger_ok expire_request_ok. apply consume_candidate_ok. Qed.

(** The token loop of a scan ends exactly when some draw differs from the lease identifier, and
    then returns the first such draw: repeated draws only delay it. *)
Lemma draw_distinct_terminates lease draws :
  (is_ok (draw_distinct lease draws) = true
    <-> Exists (fun random => _new_candidate_token random <> lease) draws)
  /\ (forall token, draw_distinct lease draws = Ok token <-> redrawn lease draws token).
Proof.
  split; [|apply draw_distinct_ok]. rw -redrawn_exists. setoid_rewrite <- draw_distinct_ok.
  destruct (draw_distinct lease draws); cbn; naive_solver.
Qed.

(** The retention decision of a committed expiry: the artifact stays locked exactly when another
    hold remains active, a reference remains, or its minimum retention has not passed. *)
Lemma expiry_retention `{RFC8785} `{!RFC8785Spec} q s now p i f component subject s' r :
  ExpireRequest.expire_operation_id q ∉ map Commit.expire_operation_id (commits s) ->
  apply_artifact_hold_expiry q s now p i f component subject = Ok (s', r) ->
  ExpiryResult.retention_locked r = true <->
  (exists x, x ∈ HoldState.active_hold_ids (hold_state s) /\ x <> HoldState.hold_id (hold_state s))
  \/ 0 < HoldState.active_ref_count (hold_state s)
  \/ exists m, HoldState.minimum_delete_at_ms (hold_state s) = Some m /\ now < m.
Proof.
  intros Hu Hr. apply expire_first_ok in Hr as (_ & _ & _ & j & e & k & ea & eo & []); [|done].
  rw (ro_retention _ _ _ _ es_result). unfold HoldState.retention_locked. cbn.
  rw !orb_true_iff negb_true_iff eqb_false_iff Z.ltb_lt -or_assoc. apply Morphisms_Prop.or_iff_morphism.
  - split.
    + intros Hne. apply set_choose_L in Hne as [x Hx]. exists x. set_solver.
    + intros (x & Hx & Hne) E. set_solver.
  - apply Morphisms_Prop.or_iff_morphism; [done|]. destruct (HoldState.minimum_delete_at_ms (hold_state s)); [|naive_solver].
    rw Z.ltb_lt. naive_solver.
Qed.
Lemma expiry_retention_witness :
  ExpiryResult.retention_locked expire_result = true <->
  (exists x, x ∈ HoldState.active_hold_ids (hold_state state1)
     /\ x <> HoldState.hold_id (hold_state state1))
  \/ 0 < HoldState.active_ref_count (hold_state state1)
  \/ exists m, HoldState.minimum_delete_at_ms (hold_state state1) = Some m /\ 1100 < m.
Proof.
  pose proof run_expire_ok as E. unfold run_expire in E.
  apply (expiry_retention expire_request state1 1100 principal instance 1 _ _ state2 expire_result)
    in E; [exact E|by apply not_elem_of_nil].
Defined.
