(* ===== verification/WireTheorems.v ===== *)
(** * Theorems on operation identities and wire forms

    The identity of an operation determines the operation, the two kinds of
    operation never share a preimage, and every wire codec is the exact inverse
    of canonical serialisation.  The witnesses are the records of the run in
    [Scenario.v], with the reference serialiser. *)
From S2P Require Import Prelude PyStr Sha256 Json Rfc8785Reference Contract ContractFacts.
From S2P Require Import JsonFacts JsonTermination WireFacts.
From S2P Require Import Scan ScanFacts Replay ReplayFacts Expire ExpireFacts Wire.
From S2P Require Import WireNested Ledger CasState Scenario.
Local Open Scope Z_scope.

(** ** Bearer tokens *)
(** [_require_candidate_token] accepts exactly the strings [secrets.token_urlsafe(32)] can
    return: the unpadded URL-safe base64 of 32 bytes, in its canonical spelling. *)
Lemma candidate_token_exact value label : _require_candidate_token value label = Ok tt <->
  exists random, length random = 32%nat /\ Forall (fun x => (x < 256)%N) random
    /\ value = _new_candidate_token random.
Proof. apply require_candidate_token_ok. Qed.

(** ** Preimages *)
(** the domains separate the identities *)
Lemma preimages_disjoint a h d v e o l p :
  artifact_hold_expiry_preimage a h d v e = Ok p -> replay_claim_preimage o l = Ok p -> False.
Proof.
  intros [_ (ab & hb & _ & _ & ->)]%preimage_iff (_ & _ & E)%replay_preimage_iff.
  cbn [join_sep] in E. apply app_sep_inj in E as [E _]; [done|by repeat constructor..].
Qed.

(** Two expiry operations with the same preimage are the same operation: the
    zero-separated encoding of the due tuple is injective on the tuples the function accepts.  And
    no replay claim has that preimage, whatever its fields: the domains keep the two kinds apart. *)
Lemma expire_preimage_injective a1 h1 d1 v1 e1 a2 h2 d2 v2 e2 p :
  artifact_hold_expiry_preimage a1 h1 d1 v1 e1 = Ok p ->
  artifact_hold_expiry_preimage a2 h2 d2 v2 e2 = Ok p ->
  (a1, h1, d1, v1, e1) = (a2, h2, d2, v2, e2)
  /\ forall o l, replay_claim_preimage o l <> Ok p.
Proof.
  intros H1 H2. split; [|intros o l Hc; exact (preimages_disjoint _ _ _ _ _ _ _ _ H1 Hc)].
  revert H1 H2.
  intros [(Ha1 & Hh1 & Hd1 & Hv1 & He1) (ab1 & hb1 & Ea1 & Eh1 & ->)]%preimage_iff.
  intros [(Ha2 & Hh2 & Hd2 & Hv2 & He2) (ab2 & hb2 & Ea2 & Eh2 & E)]%preimage_iff.
  destruct (stable_text_encode _ Ha1) as (? & Ea1' & Na1), (stable_text_encode _ Hh1) as (? & Eh1' & Nh1),
    (stable_text_encode _ Ha2) as (? & Ea2' & Na2), (stable_text_encode _ Hh2) as (? & Eh2' & Nh2).
  rw Ea1 in Ea1'. rw Eh1 in Eh1'. rw Ea2 in Ea2'. rw Eh2 in Eh2'.
  injection Ea1' as <-. injection Eh1' as <-. injection Ea2' as <-. injection Eh2' as <-.
  apply join_sep_inj in E; [|done|..].
  - injection E as Ea Eh Ed Ev Ee. subst.
    apply py_str_int_inj in Ev; [|lia..]. apply py_str_int_inj in Ee; [|lia..].
    by rw (encode_utf8_inj _ _ _ Ea1 Ea2) (encode_utf8_inj _ _ _ Eh1 Eh2) Ev Ee.
  - repeat (apply Forall_cons; split); try apply Forall_nil_2; try done; try apply int_nonzero.
    by apply plain_nonzero, sha256_hex_plain.
  - repeat (apply Forall_cons; split); try apply Forall_nil_2; try done; try apply int_nonzero.
    by apply plain_nonzero, sha256_hex_plain.
Qed.
Lemma expire_preimage_injective_witness :
  (u "artifact-01", u "hold-01", digest_a, 4, 1000) = (u "artifact-01", u "hold-01", digest_a, 4, 1000).
Proof.
  destruct (artifact_hold_expiry_preimage (u "artifact-01") (u "hold-01") digest_a 4 1000)
    as [p|e] eqn:E; [exact (proj1 (expire_preimage_injective _ _ _ _ _ _ _ _ _ _ p E E))|].
  exfalso. vm_compute in E. discriminate E.
Defined.

(** ** The canonical parser *)
#[local] Transparent _parse_canonical_object.

(** what [json.loads] raises beside a [JSONDecodeError] and the parser's own conflicts *)
Definition digit_limit : exn :=
  ValueError "Exceeds the limit (4300 digits) for integer string conversion".

(** the errors of reading a text *)
Lemma read_errs nesting label konst s e :
  (forall c, exists msg, konst c = conflict msg) ->
  json_loads (reject_duplicates label) (raising konst) nesting s = Err e ->
  e = JSONDecodeError \/ (exists msg, e = conflict msg) \/ e = digit_limit
  \/ e = RecursionError /\ (nesting < openings s)%nat.
Proof.
  intros Hk He. pattern e. eapply loads_allowed; [by left|by right; right; left| | | |exact He].
  - intros kvs e' Hd%reject_duplicates_err. by right; left.
  - intros c. destruct (Hk c) as [msg ->]. right. left. by exists msg.
  - intros Hn. by do 3 right.
Qed.

(** the errors of writing the object that was read *)
Lemma canonical_errs `{RFC8785} `{!RFC8785Spec} kvs (wire : pybytes) m1 m2 e :
  (canonical ← except (rfc8785_dumps (JObj kvs))
     (fun e => match e with
               | CanonicalizationError | TypeError | ValueError _ | UnicodeError => true
               | _ => false end) (conflict m1);
   raise_if (canonical != wire)%py (conflict m2);; Ok kvs) = Err e ->
  (exists msg, e = conflict msg) \/ e = RecursionError /\ (dumps_nesting < depth_of (JObj kvs))%nat.
Proof.
  destruct (rfc8785_dumps (JObj kvs)) as [b|e'] eqn:E; cbn.
  - destruct (negb _); cbn; [|done]. intros [= <-]. left. by eexists.
  - destruct (dumps_fails _ _ E) as [->|[-> Hn]]; intros [= <-]; [left; by eexists|by right].
Qed.

(** C40: the canonical parser ends on every input and fails closed: whatever bytes it is given, it
    returns an object, or it raises the contract's own conflict.  Two exceptions of the interpreter
    escape it: the [ValueError] on an integer literal of more than 4300 digits, and the
    [RecursionError] on a text that opens more arrays and objects than the interpreter has levels
    for the decoder or the serialiser.  On opening brackets alone that happens exactly beyond the
    decoder's levels. *)
Theorem parse_fails_closed `{RFC8785} `{!RFC8785Spec} wire label :
  (forall e, _parse_canonical_object wire label = Err e ->
     (exists msg, e = conflict msg) \/ e = digit_limit
     \/ e = RecursionError /\ exists s, decode_utf8 wire = Ok s
          /\ (loads_nesting `min` dumps_nesting < openings s)%nat)
  /\ (forall n, wire = replicate n 91%N -> _parse_canonical_object wire label
      = Err (if Nat.ltb loads_nesting n then RecursionError
             else conflict (label <+> " is not valid UTF-8 JSON")%py)).
Proof.
  split.
  - intros e. unfold _parse_canonical_object. destruct (decode_utf8 wire) as [s|e'] eqn:Ed; cbn [mbind result_bind].
    2:{ rewrite (decode_utf8_err _ _ Ed). intros [= <-]. left. by eexists. }
    set (konst := fun value : pystr => _). intros Hr.
    destruct (json_loads (reject_duplicates label) (raising konst) loads_nesting s) as [v|e'] eqn:El.
    + destruct v; try (injection Hr as <-; left; by eexists).
      cbn [mbind result_bind] in Hr. apply canonical_errs in Hr as [?|[-> Hn]]; [by left|]. right. right. split; [done|].
      exists s. split; [done|]. apply loads_depth in El; [lia|].
      by intros ? ? [-> _]%reject_duplicates_ok.
    + apply read_errs in El as [->|[[msg ->]|[->|[-> Hn]]]]; [..|by intros c; eexists];
        injection Hr as <-; [left; by eexists|left; by eexists|by right; left|].
      right. right. split; [done|]. exists s. split; [done|lia].
  - intros n ->. unfold _parse_canonical_object.
    rewrite (decode_encode_utf8 _ _ (encode_utf8_ascii (replicate n 91%N) _)).
    + cbn [mbind result_bind]. rewrite loads_brackets. by destruct (Nat.ltb _ _).
    + apply Forall_replicate. lia.
Qed.
Lemma parse_fails_closed_witness :
  _parse_canonical_object (replicate 65 91%N) "expiry request" = Err RecursionError.
Proof. exact (proj2 (parse_fails_closed (replicate 65 91%N) "expiry request") 65%nat eq_refl). Defined.

(** the exception the parser lets through *)
Lemma long_integer_escapes :
  _parse_canonical_object ([123; 34; 97; 34; 58] ++ replicate 4301 49 ++ [125])%N "expiry request"
  = Err digit_limit.
Proof. vm_compute. reflexivity. Qed.

(** ** Codecs *)
Section Codecs.
Context `{RFC8785} `{!RFC8785Spec}.

(** the expiry request codec: [from_canonical_json] accepts exactly the canonical bytes of
    the requests [validate] accepts, and returns that request. *)
Lemma expire_request_codec w r : ExpireRequest.from_canonical_json w = Ok r <->
  ExpireRequest.validate r = Ok tt /\ ExpireRequest.canonical_json r = Ok w.
Proof. rw expire_request_ok. apply expire_request_wire. Qed.

(** The expiry result codec: [from_canonical_json] reads the bytes in which a commit stores its
    result exactly when they are the canonical bytes of a result [validate] accepts, and returns
    that result. *)
Lemma expiry_result_codec w r : ExpiryResult.from_canonical_json w = Ok r <->
  ExpiryResult.validate r = Ok tt /\ ExpiryResult.canonical_json r = Ok w.
Proof. rw expiry_result_ok. apply expiry_result_wire. Qed.

(** the scan request codec. *)
Lemma scan_request_codec w r : ScanRequest.from_canonical_json w = Ok r <->
  ScanRequest.validate r = Ok tt /\ ScanRequest.canonical_json r = Ok w.
Proof. rw scan_request_ok. apply scan_request_wire. Qed.

(** the candidate codec. *)
Lemma candidate_codec w c : Candidate.from_canonical_json w = Ok c <->
  Candidate.validate c = Ok tt /\ Candidate.canonical_json c = Ok w.
Proof. rw candidate_ok. apply candidate_wire. Qed.

(** the scan result codec: [from_canonical_json] accepts exactly the canonical bytes of the
    results [validate] accepts, every nested candidate validated, and returns that result with its
    candidates in order. *)
Lemma scan_result_codec w r : ScanResult.from_canonical_json w = Ok r <->
  ScanResult.validate r = Ok tt /\ ScanResult.canonical_json r = Ok w.
Proof. rw scan_result_ok. apply scan_result_wire. Qed.

(** the replay claim request codec. *)
Lemma claim_request_codec w r : ReplayClaimRequest.from_canonical_json w = Ok r <->
  ReplayClaimRequest.validate r = Ok tt /\ ReplayClaimRequest.canonical_json r = Ok w.
Proof. rw claim_request_ok. apply claim_request_wire. Qed.

(** the replay claim result codec, with its nested candidate. *)
Lemma claim_result_codec w r : ReplayClaimResult.from_canonical_json w = Ok r <->
  ReplayClaimResult.validate r = Ok tt /\ ReplayClaimResult.canonical_json r = Ok w.
Proof. rw claim_result_ok. apply claim_result_wire. Qed.
End Codecs.

Definition no_bytes : pybytes := [].
Lemma expire_request_codec_witness :
  ExpireRequest.from_canonical_json (ok_or no_bytes (ExpireRequest.canonical_json expire_request))
  = Ok expire_request.
Proof. apply expire_request_codec. split; vm_compute; reflexivity. Defined.
Lemma expiry_result_codec_witness :
  ExpiryResult.from_canonical_json (ok_or no_bytes (ExpiryResult.canonical_json expire_result))
  = Ok expire_result.
Proof. apply expiry_result_codec. split; vm_compute; reflexivity. Defined.
Lemma scan_request_codec_witness :
  ScanRequest.from_canonical_json (ok_or no_bytes (ScanRequest.canonical_json scan_request))
  = Ok scan_request.
Proof. apply scan_request_codec. split; vm_compute; reflexivity. Defined.
Lemma candidate_codec_witness :
  Candidate.from_canonical_json (ok_or no_bytes (Candidate.canonical_json candidate1))
  = Ok candidate1.
Proof. apply candidate_codec. split; vm_compute; reflexivity. Defined.
Lemma scan_result_codec_witness :
  ScanResult.from_canonical_json (ok_or no_bytes (ScanResult.canonical_json scan_result))
  = Ok scan_result.
Proof. apply scan_result_codec. split; vm_compute; reflexivity. Defined.
Lemma claim_request_codec_witness :
  ReplayClaimRequest.from_canonical_json
    (ok_or no_bytes (ReplayClaimRequest.canonical_json claim_request)) = Ok claim_request.
Proof. apply claim_request_codec. split; vm_compute; reflexivity. Defined.
Lemma claim_result_codec_witness :
  ReplayClaimResult.from_canonical_json
    (ok_or no_bytes (ReplayClaimResult.canonical_json claim_result)) = Ok claim_result.
Proof. apply claim_result_codec. split; vm_compute; reflexivity. Defined.
