(* ===== verification/TaskState.v ===== *)
(** * The task state machine

    [src/a2amesh/protocol/state_machine.py]: the table of legal transitions
    between the official A2A task states and its checks.  The numbers of the
    states are those of the protobuf enumeration of the [a2a] SDK, a
    parameter; all that is relied on is that they differ ([TaskStatesSpec]). *)
From S2P Require Import Prelude PyStr Json.
Local Open Scope py_scope.
Local Open Scope Z_scope.

(** ** The enumeration of the SDK *)
Class TaskStates := {
  TASK_STATE_SUBMITTED : Z;
  TASK_STATE_WORKING : Z;
  TASK_STATE_COMPLETED : Z;
  TASK_STATE_FAILED : Z;
  TASK_STATE_CANCELED : Z;
  TASK_STATE_INPUT_REQUIRED : Z;
  TASK_STATE_REJECTED : Z;
  TASK_STATE_AUTH_REQUIRED : Z }.

Definition all_states `{TaskStates} : list Z := [TASK_STATE_SUBMITTED; TASK_STATE_WORKING;
  TASK_STATE_COMPLETED; TASK_STATE_FAILED; TASK_STATE_CANCELED; TASK_STATE_INPUT_REQUIRED;
  TASK_STATE_REJECTED; TASK_STATE_AUTH_REQUIRED].
Class TaskStatesSpec `{TaskStates} : Prop := states_distinct : NoDup all_states.

(** ** The module *)
Section Machine.
Context `{TaskStates}.

Definition TERMINAL_TASK_STATES : gset Z :=
  {[ TASK_STATE_COMPLETED; TASK_STATE_FAILED; TASK_STATE_CANCELED; TASK_STATE_REJECTED ]}.

Definition _KNOWN_TASK_STATES : gset Z :=
  {[ TASK_STATE_SUBMITTED; TASK_STATE_WORKING; TASK_STATE_COMPLETED; TASK_STATE_FAILED;
     TASK_STATE_CANCELED; TASK_STATE_INPUT_REQUIRED; TASK_STATE_REJECTED;
     TASK_STATE_AUTH_REQUIRED ]}.

(** a dict display: a later entry replaces an earlier one with the same key *)
Definition dict_of {V} (entries : list (Z * V)) : gmap Z V :=
  fold_left (fun d '(k, v) => <[k := v]> d) entries ∅.

Definition TASK_STATE_TRANSITIONS : gmap Z (gset Z) := dict_of [
  (TASK_STATE_SUBMITTED, {[ TASK_STATE_WORKING; TASK_STATE_CANCELED; TASK_STATE_FAILED;
     TASK_STATE_REJECTED ]});
  (TASK_STATE_WORKING, {[ TASK_STATE_INPUT_REQUIRED; TASK_STATE_AUTH_REQUIRED;
     TASK_STATE_COMPLETED; TASK_STATE_FAILED; TASK_STATE_CANCELED; TASK_STATE_REJECTED ]});
  (TASK_STATE_INPUT_REQUIRED, {[ TASK_STATE_WORKING; TASK_STATE_COMPLETED; TASK_STATE_FAILED;
     TASK_STATE_CANCELED; TASK_STATE_REJECTED ]});
  (TASK_STATE_AUTH_REQUIRED, {[ TASK_STATE_WORKING; TASK_STATE_COMPLETED; TASK_STATE_FAILED;
     TASK_STATE_CANCELED; TASK_STATE_REJECTED ]});
  (TASK_STATE_COMPLETED, ∅);
  (TASK_STATE_FAILED, ∅);
  (TASK_STATE_CANCELED, ∅);
  (TASK_STATE_REJECTED, ∅)].

(** [type(state) is int]: the arguments are Python values, of which [JInt] are
    the ones whose type is [int] ([bool] is another type) *)
Definition is_terminal_task_state (state : json) : bool :=
  match state with JInt z => bool_decide (z ∈ TERMINAL_TASK_STATES) | _ => false end.

Definition _validate_known_state (state : json) (label : string) : result Z :=
  let unknown := InvalidParamsError (label <+> " TaskState is invalid or unspecified") in
  match state with
  | JInt z => raise_if (negb (bool_decide (z ∈ _KNOWN_TASK_STATES))) unknown;; Ok z
  | _ => Err unknown
  end.

(** [TASK_STATE_TRANSITIONS[state]] *)
Definition transitions_of (state : Z) : result (gset Z) :=
  or_raise (TASK_STATE_TRANSITIONS !! state) (RuntimeError "KeyError").

Definition legal_task_state_transitions (state : json) : result (gset Z) :=
  current ← _validate_known_state state "current";
  transitions_of current.

Definition ascii_repr (z : Z) : string :=
  String.string_of_list_ascii (map Ascii.ascii_of_N (py_str_int z)).

Definition validate_task_state_transition (current target : json) : result unit :=
  current ← _validate_known_state current "current";
  target ← _validate_known_state target "target";
  legal ← transitions_of current;
  raise_if (negb (bool_decide (target ∈ legal)))
    (InvalidParamsError ("TaskState transition " <+> ascii_repr current <+> " -> "
       <+> ascii_repr target <+> " is not permitted")).
End Machine.

(** ** The states as a closed type *)
Inductive task := Submitted | Working | Completed | Failed | Canceled | InputRequired | Rejected
  | AuthRequired.

#[global] Instance task_eq_dec : EqDecision task.
Proof. solve_decision. Defined.

Definition number `{TaskStates} (t : task) : Z :=
  match t with
  | Submitted => TASK_STATE_SUBMITTED
  | Working => TASK_STATE_WORKING
  | Completed => TASK_STATE_COMPLETED
  | Failed => TASK_STATE_FAILED
  | Canceled => TASK_STATE_CANCELED
  | InputRequired => TASK_STATE_INPUT_REQUIRED
  | Rejected => TASK_STATE_REJECTED
  | AuthRequired => TASK_STATE_AUTH_REQUIRED
  end.

Definition terminal (t : task) : bool :=
  match t with Completed | Failed | Canceled | Rejected => true | _ => false end.

(** waiting for somebody outside *)
Definition interrupted (t : task) : bool :=
  match t with InputRequired | AuthRequired => true | _ => false end.

(** The lifecycle: a task leaves a state that is not terminal for another one, never for
    SUBMITTED; before it has worked it can only start or end without completing; an
    interruption ends before the next one. *)
Definition may_follow (t t' : task) : bool :=
  negb (terminal t) && negb (bool_decide (t' = t)) && negb (bool_decide (t' = Submitted))
  && (if bool_decide (t = Submitted) then negb (interrupted t' || bool_decide (t' = Completed)) else true)
  && negb (interrupted t && interrupted t').

Section Facts.
Context `{TaskStatesSpec}.

Lemma number_inj t t' : number t = number t' -> t = t'.
Proof.
  pose proof states_distinct as Hn. unfold all_states in Hn. rewrite !NoDup_cons in Hn.
  repeat setoid_rewrite not_elem_of_cons in Hn. destruct_and!.
  destruct t, t'; cbn [number]; intros E; congruence.
Qed.

Lemma number_eq t t' : number t = number t' <-> t = t'.
Proof. split; [apply number_inj|by intros ->]. Qed.

Lemma known_ok z : z ∈ _KNOWN_TASK_STATES <-> exists t, z = number t.
Proof.
  unfold _KNOWN_TASK_STATES. split.
  - intros Hz. rewrite !elem_of_union !elem_of_singleton in Hz.
    repeat destruct Hz as [Hz|Hz]; subst z;
      [exists Submitted|exists Working|exists Completed|exists Failed|exists Canceled
      |exists InputRequired|exists Rejected|exists AuthRequired]; done.
  - intros [[] ->]; cbn [number]; set_solver.
Qed.

Lemma terminal_ok t : bool_decide (number t ∈ TERMINAL_TASK_STATES) = terminal t.
Proof.
  destruct (terminal t) eqn:E.
  - apply bool_decide_eq_true. destruct t; try done; cbn [number]; set_solver.
  - apply bool_decide_eq_false. unfold TERMINAL_TASK_STATES. rewrite !elem_of_union !elem_of_singleton.
    change TASK_STATE_COMPLETED with (number Completed). change TASK_STATE_FAILED with (number Failed).
    change TASK_STATE_CANCELED with (number Canceled). change TASK_STATE_REJECTED with (number Rejected).
    rewrite !number_eq. intros Ht. by repeat destruct Ht as [Ht|Ht]; subst t.
Qed.

(** the row of the table of each state *)
Definition row (t : task) : list task :=
  match t with
  | Submitted => [Working; Canceled; Failed; Rejected]
  | Working => [InputRequired; AuthRequired; Completed; Failed; Canceled; Rejected]
  | InputRequired | AuthRequired => [Working; Completed; Failed; Canceled; Rejected]
  | _ => []
  end.

Lemma table_row t : exists s, TASK_STATE_TRANSITIONS !! number t = Some s
  /\ forall z, z ∈ s <-> z ∈ map number (row t).
Proof.
  assert (forall a b (d : gmap Z (gset Z)) s, a <> b -> <[number a := s]> d !! number b = d !! number b)
    as Hne by (intros a b d s Hab; apply lookup_insert_ne; by rewrite number_eq).
  assert (forall a (d : gmap Z (gset Z)) s, <[number a := s]> d !! number a = Some s) as Heq
    by (intros; apply lookup_insert_eq).
  unfold TASK_STATE_TRANSITIONS, dict_of. cbn [fold_left].
  change TASK_STATE_SUBMITTED with (number Submitted). change TASK_STATE_WORKING with (number Working).
  change TASK_STATE_COMPLETED with (number Completed). change TASK_STATE_FAILED with (number Failed).
  change TASK_STATE_CANCELED with (number Canceled). change TASK_STATE_REJECTED with (number Rejected).
  change TASK_STATE_INPUT_REQUIRED with (number InputRequired).
  change TASK_STATE_AUTH_REQUIRED with (number AuthRequired).
  destruct t; repeat (rewrite Hne; [|done]); rewrite Heq; eexists; (split; [done|]);
    intros z; cbn [row map]; set_solver.
Qed.

Lemma row_ok t t' : number t' ∈ map number (row t) <-> may_follow t t' = true.
Proof.
  rewrite list_elem_of_fmap. split.
  - intros (t2 & E%number_inj & Hin). subst t2. revert Hin.
    destruct t; cbn [row]; intros Hin; repeat (apply elem_of_cons in Hin as [->|Hin]); try reflexivity;
      by apply elem_of_nil in Hin.
  - intros Hm. exists t'. split; [done|]. destruct t, t'; try (vm_compute in Hm; discriminate Hm);
      cbn [row]; set_solver.
Qed.

(** the argument is the number of a state *)
Lemma known_state_ok v label z : _validate_known_state v label = Ok z <->
  exists t, v = JInt (number t) /\ z = number t.
Proof.
  unfold _validate_known_state. destruct v; try (split; [done|by intros (? & ? & _)]).
  rewrite bind_ok_unit raise_if_ok negb_false_iff bool_decide_eq_true known_ok Ok_inj_iff. naive_solver.
Qed.

Lemma transitions_of_ok t s : transitions_of (number t) = Ok s <->
  TASK_STATE_TRANSITIONS !! number t = Some s.
Proof. apply or_raise_ok. Qed.

Lemma transition_ok v v' x : validate_task_state_transition v v' = Ok x <->
  exists t t', v = JInt (number t) /\ v' = JInt (number t') /\ may_follow t t' = true.
Proof.
  destruct x. unfold validate_task_state_transition. rewrite bind_ok. setoid_rewrite bind_ok. 
  setoid_rewrite known_state_ok. split.
  - intros (z & (t & -> & ->) & z' & (t' & -> & ->) & Hr). exists t, t'. do 2 (split; [done|]).
    apply bind_ok in Hr as (s & Hs%transitions_of_ok & Hr%raise_if_ok).
    apply negb_false_iff, bool_decide_eq_true in Hr. destruct (table_row t) as (s' & Hs' & Hin).
    rewrite Hs in Hs'. injection Hs' as <-. by apply row_ok, Hin.
  - intros (t & t' & -> & -> & Hm). exists (number t). split; [by exists t|].
    exists (number t'). split; [by exists t'|]. destruct (table_row t) as (s & Hs & Hin).
    apply bind_ok. exists s. split; [by apply transitions_of_ok|].
    apply raise_if_ok, negb_false_iff, bool_decide_eq_true. by apply Hin, row_ok.
Qed.

(** every refusal is an [InvalidParamsError] *)
Lemma transition_err v v' e : validate_task_state_transition v v' = Err e ->
  exists msg, e = InvalidParamsError msg.
Proof.
  assert (forall w label e, _validate_known_state w label = Err e -> exists msg, e = InvalidParamsError msg)
    as Hk.
  { intros w label e'. unfold _validate_known_state. destruct w; cbn; try (intros [= <-]; by eexists).
    destruct (negb _); cbn; [intros [= <-]; by eexists|done]. }
  unfold validate_task_state_transition.
  destruct (_validate_known_state v _) as [z|e1] eqn:E; cbn; [|intros [= ->]; by eapply Hk].
  destruct (_validate_known_state v' _) as [z'|e1] eqn:E'; cbn; [|intros [= ->]; by eapply Hk].
  apply known_state_ok in E as (t & _ & ->). destruct (table_row t) as (s & Hs & _).
  rewrite (proj2 (transitions_of_ok t s) Hs). cbn. destruct (negb _); cbn; [|done].
  intros [= <-]. by eexists.
Qed.

(** the step before a state of a history *)
Lemma history_before (ts : list task) i t : ts !! i = Some t -> is_Some ((Submitted :: ts) !! i).
Proof. intros Hi%lookup_lt_Some. apply lookup_lt_is_Some. cbn. lia. Qed.

Lemma steps_sorted {A} (R : A -> A -> Prop) a l :
  (forall i x y, (a :: l) !! i = Some x -> l !! i = Some y -> R x y) -> Sorted R (a :: l).
Proof.
  revert a. induction l as [|b l IH]; intros a Hs; [by repeat constructor|].
  constructor; [|constructor; by apply (Hs 0%nat)]. apply IH. intros i x y Hx Hy. by apply (Hs (S i)).
Qed.

(** a task that completes has worked *)
Lemma path_worked ts t : Sorted (fun a b => may_follow a b = true) (Submitted :: ts) ->
  last ts = Some t -> (t = Completed \/ interrupted t = true) -> Working ∈ ts.
Proof.
  destruct ts as [|t1 ts]; [done|]. intros Hs Hl Ht.
  apply Sorted_inv in Hs as [Hs Hd]. inversion Hd as [|? ? Hm]; subst.
  destruct t1; try (vm_compute in Hm; discriminate Hm); [by left|..];
    (destruct ts as [|t2 ts]; [injection Hl as <-; by destruct Ht|]);
    apply Sorted_inv in Hs as [_ Hd2]; inversion Hd2 as [|? ? Hm2]; subst; destruct t2; done.
Qed.
End Facts.
