(* ===== verification/Reconciliation.v ===== *)
(** * Identities of reconciliation operations

    [src/a2amesh/state_contracts/reconciliation.py]: the preimages and hashes
    that identify due operations and claims, with the dynamic checks of their
    arguments.  An argument is a Python value, given as a [json] value: [JStr]
    is a [str], [JInt] an [int] that is not a [bool], [JNull] is [None]. *)
From S2P Require Import Prelude PyStr Sha256 Json Contract ContractFacts.
Local Open Scope py_scope.
Local Open Scope Z_scope.

Module Reconciliation.
Definition _DUE_DOMAIN : pybytes := u "a2amesh-recon-due-operation-v1".
Definition _CLAIM_DOMAIN : pybytes := u "a2amesh-recon-claim-operation-v1".
Definition _CLAIM_PREFIX : pybytes := _CLAIM_DOMAIN ++ [_SEPARATOR].

Inductive ReconciliationDueKind := CLAIM_EXPIRE | ESCALATE.
Inductive ReconciliationClaimOperation :=
| OP_ACQUIRE | OP_RENEW | OP_RELEASE | OP_EXPIRE | OP_ESCALATE.
#[global] Instance due_kind_eq_dec : EqDecision ReconciliationDueKind.
Proof. solve_decision. Defined.

(** the members of the enumerations, by value *)
Definition due_kind_value (k : ReconciliationDueKind) : pystr :=
  match k with CLAIM_EXPIRE => u "CLAIM_EXPIRE" | ESCALATE => u "ESCALATE" end.
Definition claim_operation_value (o : ReconciliationClaimOperation) : pystr :=
  match o with
  | OP_ACQUIRE => u "ACQUIRE" | OP_RENEW => u "RENEW" | OP_RELEASE => u "RELEASE"
  | OP_EXPIRE => u "EXPIRE" | OP_ESCALATE => u "ESCALATE"
  end.
Definition due_kinds : list ReconciliationDueKind := [CLAIM_EXPIRE; ESCALATE].
Definition claim_operations : list ReconciliationClaimOperation :=
  [OP_ACQUIRE; OP_RENEW; OP_RELEASE; OP_EXPIRE; OP_ESCALATE].

Record SystemClaimIdentity := MakeIdentity {
  due_operation_id : pystr;
  idempotency_key : pystr;
  claim_operation_id : pystr }.

(** ** Checks of the arguments *)
Definition number_string (z : Z) : string :=
  String.string_of_list_ascii (map Ascii.ascii_of_N (py_str_int z)).

Definition _stable_text (value : json) (label : string) : result pystr :=
  match value with
  | JStr text =>
    raise_if ((text == []) || (text != strip text))
      (ValueError (label <+> " must be a non-empty trimmed string"));;
    raise_if (existsb (fun c => (c =? 0)%N) text
        || existsb (fun c => (c <? 0x20)%N || (c =? 0x7F)%N) text)
      (ValueError (label <+> " contains a forbidden control character"));;
    encode_utf8 text;;
    Ok text
  | _ => Err (ValueError (label <+> " must be a non-empty trimmed string"))
  end.

Definition _safe_integer (value : json) (label : string) (minimum : Z) : result Z :=
  match value with
  | JInt z =>
    raise_if (negb ((minimum <=? z) && (z <=? _MAX_SAFE_INTEGER)))
      (ValueError (label <+> " must be between " <+> number_string minimum <+> " and "
         <+> number_string _MAX_SAFE_INTEGER));;
    Ok z
  | _ => Err (ValueError (label <+> " must be an integer"))
  end.

Definition _lower_sha256 (value : json) (label : string) : result pystr :=
  text ← _stable_text value label;
  raise_if (negb (sha256_re text)) (ValueError (label <+> " must be lowercase SHA-256 hex"));;
  Ok text.

(** [enum_type(value)]: the member with this value *)
Definition _enum_value {E} (members : list E) (value_of : E -> pystr) (value : json)
    (label : string) : result E :=
  or_raise
    (match value with
     | JStr text => List.find (fun member => value_of member == text) members
     | _ => None
     end)
    (ValueError (label <+> " is not in the closed enum")).

(** ** Due operations *)
Definition token_bytes (kind : ReconciliationDueKind) (observed_claim_fencing_token : json)
    : result pybytes :=
  match kind with
  | CLAIM_EXPIRE =>
    token ← _safe_integer observed_claim_fencing_token "observed_claim_fencing_token" 1;
    encode_ascii (py_str_int token)
  | ESCALATE =>
    match observed_claim_fencing_token with
    | JNull => Ok (u "null")
    | _ => Err (ValueError "ESCALATE requires a null observed claim fencing token")
    end
  end.

Definition reconciliation_due_operation_preimage
    (due_kind case_id observed_revision observed_due_ms observed_claim_fencing_token : json)
    : result pybytes :=
  kind ← _enum_value due_kinds due_kind_value due_kind "due_kind";
  case_ ← _stable_text case_id "case_id";
  revision ← _safe_integer observed_revision "observed_revision" 1;
  due_ms ← _safe_integer observed_due_ms "observed_due_ms" 0;
  token ← token_bytes kind observed_claim_fencing_token;
  kind_bytes ← encode_utf8 (due_kind_value kind);
  case_bytes ← encode_utf8 case_;
  revision_bytes ← encode_ascii (py_str_int revision);
  due_bytes ← encode_ascii (py_str_int due_ms);
  Ok (join_sep _SEPARATOR
        [_DUE_DOMAIN; kind_bytes; case_bytes; revision_bytes; due_bytes; token]).

Definition reconciliation_due_operation_id
    (due_kind case_id observed_revision observed_due_ms observed_claim_fencing_token : json)
    : result pystr :=
  preimage ← reconciliation_due_operation_preimage due_kind case_id observed_revision
    observed_due_ms observed_claim_fencing_token;
  Ok (sha256_hexdigest preimage).

(** ** Claims *)
Definition reconciliation_claim_scope_bytes
    (case_id operation operator_principal_hash idempotency_key : json) : result pybytes :=
  case_ ← _stable_text case_id "case_id";
  operation_ ← _enum_value claim_operations claim_operation_value operation "operation";
  principal_hash ← _lower_sha256 operator_principal_hash "operator_principal_hash";
  key ← _stable_text idempotency_key "idempotency_key";
  case_bytes ← encode_utf8 case_;
  operation_bytes ← encode_utf8 (claim_operation_value operation_);
  hash_bytes ← encode_ascii principal_hash;
  key_bytes ← encode_utf8 key;
  Ok (join_sep _SEPARATOR [case_bytes; operation_bytes; hash_bytes; key_bytes]).

Definition reconciliation_claim_operation_id
    (case_id operation operator_principal_hash idempotency_key : json) : result pystr :=
  scope ← reconciliation_claim_scope_bytes case_id operation operator_principal_hash
    idempotency_key;
  Ok (sha256_hexdigest (_CLAIM_PREFIX ++ scope)).

(** the claim the system itself makes for a due operation *)
Definition system_operation (kind : ReconciliationDueKind) : ReconciliationClaimOperation :=
  match kind with CLAIM_EXPIRE => OP_EXPIRE | ESCALATE => OP_ESCALATE end.

Definition system_claim_identity (due_kind case_id observed_revision observed_due_ms
    observed_claim_fencing_token operator_principal_hash : json) : result SystemClaimIdentity :=
  kind ← _enum_value due_kinds due_kind_value due_kind "due_kind";
  due_id ← reconciliation_due_operation_id (JStr (due_kind_value kind)) case_id observed_revision
    observed_due_ms observed_claim_fencing_token;
  claim_id ← reconciliation_claim_operation_id case_id
    (JStr (claim_operation_value (system_operation kind))) operator_principal_hash (JStr due_id);
  raise_if (claim_id == due_id)
    (RuntimeError "claim and due operation domains unexpectedly collided");;
  Ok (MakeIdentity due_id due_id claim_id).
End Reconciliation.
Import Reconciliation.

(** ** The arguments the functions accept *)
Lemma stable_text_arg_ok v label s : _stable_text v label = Ok s <-> v = JStr s /\ stable_text s.
Proof.
  unfold _stable_text. destruct v as [| | | |t| |]; try (split; [done|by intros [? _]]).
  rw bind_ok_unit raise_if_ok orb_false_iff neqb_false eqb_false_iff bind_ok_unit raise_if_ok
    orb_false_iff !existsb_false_iff bind_ok. unfold stable_text. split.
  - intros ((? & ?) & (_ & Hc) & b & Hb & [= ->]). split; [done|]. split; [done|]. split; [done|].
    split; [exact Hc|]. by eapply encode_utf8_ok_inv.
  - intros ([= ->] & ? & ? & Hc & Hs). split; [done|]. destruct (encode_utf8_ok s Hs) as [b Hb].
    split; [|by exists b]. split; [|exact Hc]. eapply Forall_impl; [exact Hc|]. unfold control. cbn. lia.
Qed.

Lemma safe_integer_ok v label m z : _safe_integer v label m = Ok z <->
  v = JInt z /\ m <= z <= _MAX_SAFE_INTEGER.
Proof.
  unfold _safe_integer. destruct v as [| |x| | | |]; try (split; [done|by intros [? _]]).
  rw bind_ok_unit raise_if_ok Ok_inj_iff. split.
  - intros [? ->]. split; [done|lia].
  - intros [[= ->] ?]. split; [lia|done].
Qed.

Lemma lower_sha256_ok v label s : _lower_sha256 v label = Ok s <-> v = JStr s /\ sha256_hex s.
Proof.
  unfold _lower_sha256. rw bind_ok. setoid_rewrite stable_text_arg_ok. split.
  - intros (t & [-> _] & Hr). rw bind_ok_unit raise_if_ok negb_false_iff Ok_inj_iff in Hr.
    destruct Hr as [Hr ->]. unfold sha256_re in Hr. rw andb_true_iff bool_decide_eq_true forallb_iff in Hr.
    done.
  - intros [-> Hs]. exists s. split; [split; [done|by apply sha256_hex_stable]|].
    rw bind_ok_unit raise_if_ok negb_false_iff Ok_inj_iff. split; [|done]. destruct Hs.
    unfold sha256_re. by rw andb_true_iff bool_decide_eq_true forallb_iff.
Qed.

Lemma due_kind_ok v label k : _enum_value due_kinds due_kind_value v label = Ok k <->
  v = JStr (due_kind_value k).
Proof.
  unfold _enum_value. rw or_raise_ok. destruct v as [| | | |t| |]; try done. split.
  - intros [_ E]%find_some. apply bool_decide_eq_true in E. by rw E.
  - intros [= ->]. by destruct k.
Qed.

Lemma claim_operation_ok v label o :
  _enum_value claim_operations claim_operation_value v label = Ok o <->
  v = JStr (claim_operation_value o).
Proof.
  unfold _enum_value. rw or_raise_ok. destruct v as [| | | |t| |]; try done. split.
  - intros [_ E]%find_some. apply bool_decide_eq_true in E. by rw E.
  - intros [= ->]. by destruct o.
Qed.

(** the observed fence: one for an expiring claim, none for an escalation *)
Definition observed_token (kind : ReconciliationDueKind) (token : option Z) : Prop :=
  match kind, token with
  | CLAIM_EXPIRE, Some z => 1 <= z <= _MAX_SAFE_INTEGER
  | ESCALATE, None => True
  | _, _ => False
  end.
Definition token_value (token : option Z) : json :=
  match token with Some z => JInt z | None => JNull end.
Definition token_text (token : option Z) : pybytes :=
  match token with Some z => py_str_int z | None => u "null" end.

Lemma token_bytes_ok k v b : token_bytes k v = Ok b <->
  exists o, observed_token k o /\ v = token_value o /\ b = token_text o.
Proof.
  unfold token_bytes. destruct k.
  - rw bind_ok. setoid_rewrite safe_integer_ok. setoid_rewrite encode_ascii_int. split.
    + intros (z & [-> ?] & [= <-]). by exists (Some z).
    + intros ([z|] & Ho & -> & ->); [|done]. by exists z.
  - split.
    + destruct v; intros [= <-]. by exists None.
    + intros ([z|] & Ho & -> & ->); done.
Qed.

(** the due tuple of an operation *)
Record due_case (kind : ReconciliationDueKind) (c : pystr) (revision due_ms : Z)
    (token : option Z) : Prop := {
  dc_case : stable_text c;
  dc_revision : 1 <= revision <= _MAX_SAFE_INTEGER;
  dc_due : 0 <= due_ms <= _MAX_SAFE_INTEGER;
  dc_token : observed_token kind token }.

Lemma due_preimage_ok k c r d t p :
  reconciliation_due_operation_preimage k c r d t = Ok p <->
  exists kind case_ revision due_ms token cb, due_case kind case_ revision due_ms token
    /\ k = JStr (due_kind_value kind) /\ c = JStr case_ /\ r = JInt revision /\ d = JInt due_ms
    /\ t = token_value token /\ encode_utf8 case_ = Ok cb
    /\ p = join_sep _SEPARATOR [_DUE_DOMAIN; due_kind_value kind; cb; py_str_int revision;
             py_str_int due_ms; token_text token].
Proof.
  assert (forall kind, encode_utf8 (due_kind_value kind) = Ok (due_kind_value kind)) as Hkind
    by by intros [].
  unfold reconciliation_due_operation_preimage. rw bind_ok. setoid_rewrite due_kind_ok. split.
  - intros (kind & -> & Hr). apply bind_ok in Hr as (case_ & [-> Hc]%stable_text_arg_ok & Hr).
    apply bind_ok in Hr as (rev & [-> Hrev]%safe_integer_ok & Hr).
    apply bind_ok in Hr as (due & [-> Hdue]%safe_integer_ok & Hr).
    apply bind_ok in Hr as (tb & (o & Ho & -> & ->)%token_bytes_ok & Hr).
    rw Hkind in Hr. cbn [mbind result_bind] in Hr.
    apply bind_ok in Hr as (cb & Hcb & Hr). rw !encode_ascii_int in Hr. injection Hr as <-.
    by exists kind, case_, rev, due, o, cb.
  - intros (kind & case_ & rev & due & o & cb & [] & -> & -> & -> & -> & -> & Hcb & ->).
    exists kind. split; [done|]. apply bind_ok. exists case_. split; [by apply stable_text_arg_ok|].
    apply bind_ok. exists rev. split; [by apply safe_integer_ok|].
    apply bind_ok. exists due. split; [by apply safe_integer_ok|].
    apply bind_ok. exists (token_text o). split; [apply token_bytes_ok; by exists o|].
    by rw Hkind Hcb !encode_ascii_int.
Qed.

(** the claim of an operator on a case *)
Lemma claim_scope_ok c o h i p : reconciliation_claim_scope_bytes c o h i = Ok p <->
  exists case_ op hash key cb kb, stable_text case_ /\ sha256_hex hash /\ stable_text key
    /\ c = JStr case_ /\ o = JStr (claim_operation_value op) /\ h = JStr hash /\ i = JStr key
    /\ encode_utf8 case_ = Ok cb /\ encode_utf8 key = Ok kb
    /\ p = join_sep _SEPARATOR [cb; claim_operation_value op; hash; kb].
Proof.
  assert (forall op, encode_utf8 (claim_operation_value op) = Ok (claim_operation_value op)) as Hop
    by by intros [].
  unfold reconciliation_claim_scope_bytes. rw bind_ok. split.
  - intros (case_ & [-> Hc]%stable_text_arg_ok & Hr). apply bind_ok in Hr as (op & ->%claim_operation_ok & Hr).
    apply bind_ok in Hr as (hash & [-> Hh]%lower_sha256_ok & Hr).
    apply bind_ok in Hr as (key & [-> Hk]%stable_text_arg_ok & Hr).
    apply bind_ok in Hr as (cb & Hcb & Hr). rw Hop in Hr. cbn [mbind result_bind] in Hr.
    rw (plain_ascii _ (sha256_hex_plain _ Hh)) in Hr. cbn [mbind result_bind] in Hr.
    apply bind_ok in Hr as (kb & Hkb & [= <-]).
    by exists case_, op, hash, key, cb, kb.
  - intros (case_ & op & hash & key & cb & kb & Hc & Hh & Hk & -> & -> & -> & -> & Hcb & Hkb & ->).
    exists case_. split; [by apply stable_text_arg_ok|]. apply bind_ok. exists op. split; [by apply claim_operation_ok|].
    apply bind_ok. exists hash. split; [by apply lower_sha256_ok|].
    apply bind_ok. exists key. split; [by apply stable_text_arg_ok|].
    rw Hcb. cbn [mbind result_bind]. rw Hop. cbn [mbind result_bind].
    rw (plain_ascii _ (sha256_hex_plain _ Hh)). cbn [mbind result_bind]. by rw Hkb.
Qed.

(** ** The parts of the preimages *)
Lemma due_kind_value_inj k k' : due_kind_value k = due_kind_value k' -> k = k'.
Proof. by destruct k, k'. Qed.

Lemma claim_operation_value_inj o o' : claim_operation_value o = claim_operation_value o' -> o = o'.
Proof. by destruct o, o'. Qed.

Lemma token_text_inj k o o' : observed_token k o -> observed_token k o' ->
  token_text o = token_text o' -> o = o'.
Proof.
  destruct k, o as [z|], o' as [z'|]; try done. cbn. intros ? ? E%py_str_int_inj; [by subst|lia..].
Qed.

Lemma stable_encoded_nonzero s b : stable_text s -> encode_utf8 s = Ok b -> nonzero b.
Proof. intros (b' & E & Hn)%stable_text_encode. rw E. by intros [= <-]. Qed.

Lemma due_parts_nonzero k c r d o b : due_case k c r d o -> encode_utf8 c = Ok b ->
  Forall nonzero [_DUE_DOMAIN; due_kind_value k; b; py_str_int r; py_str_int d; token_text o].
Proof.
  intros [] Hb.
  apply Forall_cons; split; [by repeat constructor|].
  apply Forall_cons; split; [destruct k; by repeat constructor|].
  apply Forall_cons; split; [by eapply stable_encoded_nonzero|].
  do 2 (apply Forall_cons; split; [apply int_nonzero|]).
  apply Forall_singleton. destruct o; [apply int_nonzero|by repeat constructor].
Qed.

Lemma claim_parts_nonzero c o h i cb ib : stable_text c -> sha256_hex h -> stable_text i ->
  encode_utf8 c = Ok cb -> encode_utf8 i = Ok ib ->
  Forall nonzero [cb; claim_operation_value o; h; ib].
Proof.
  intros Hc Hh Hi Hcb Hib.
  apply Forall_cons; split; [exact (stable_encoded_nonzero _ _ Hc Hcb)|].
  apply Forall_cons; split; [destruct o; by repeat constructor|].
  apply Forall_cons; split; [by apply plain_nonzero, sha256_hex_plain|].
  apply Forall_singleton. exact (stable_encoded_nonzero _ _ Hi Hib).
Qed.
