(* ===== verification/Stream.v ===== *)
(** * Stream sessions of the NATS binding

    [src/a2amesh/bindings/nats_v1/stream.py]: the frames of a live stream, the
    cursor that admits them one after the other, and the response that opens a
    session.  The constructors take Python values, given as [json] values, and
    return a record when [__post_init__] raises nothing.  The protobuf messages
    of the [a2a] SDK and their ProtoJSON codec are the operations of the class
    [StreamProtobuf], the serialiser [rfc8785] is the class of [Json.v]. *)
From S2P Require Import Prelude PyStr Sha256 Json Contract TaskState.
Local Open Scope py_scope.
Local Open Scope Z_scope.

(** ** The protobuf runtime *)
(** what the code reads of the [oneof] field [payload] of a [StreamResponse];
    [NoPayload] when it is not set *)
Inductive payload :=
| PTask (id : pystr) (state : Z)
| PMessage
| PStatusUpdate (task_id : pystr) (state : Z)
| PArtifactUpdate (task_id : pystr)
| NoPayload.

(** a Python [dict] as the assignments that make it, in order *)
Definition assignments := list (json * json).

Class StreamProtobuf := {
  ProtobufMessage : Type;
  is_stream_response : ProtobufMessage -> bool;
  payload_of : ProtobufMessage -> payload;
  MessageToDict : ProtobufMessage -> result dict;
  ParseDict : assignments -> result ProtobufMessage }.

(** one element of the iterable a [dict] is made from: a key that can be hashed and a value *)
Definition dict_item (element : json) : result (json * json) :=
  '(key, value) ←
    (match element with
     | JArr [key; value] => Ok (key, value)
     | JStr [c1; c2] => Ok (JStr [c1], JStr [c2])
     | JObj [(k1, _); (k2, _)] => Ok (JStr k1, JStr k2)
     | JArr _ | JStr _ | JObj _ =>
       Err (ValueError "dictionary update sequence element has the wrong length; 2 is required")
     | _ => Err TypeError
     end);
  match key with JArr _ | JObj _ => Err TypeError | _ => Ok (key, value) end.

(** [dict(data)] *)
Definition dict_of_value (data : json) : result assignments :=
  match data with
  | JObj members => Ok (map (fun '(k, v) => (JStr k, v)) members)
  | JArr elements => mapR dict_item elements
  | JStr text => mapR (fun c => dict_item (JStr [c])) text
  | _ => Err TypeError
  end.

(** [protocol.to_protojson_dict] *)
Definition to_protojson_dict `{StreamProtobuf} (message : ProtobufMessage) : result dict :=
  MessageToDict message.

(** [protocol.from_protojson(data, protocol.StreamResponse)] *)
Definition from_protojson `{StreamProtobuf} (data : json) : result ProtobufMessage :=
  items ← dict_of_value data; ParseDict items.

(** ** Checks *)
Definition STREAM_SCHEMA_VERSION : pystr := u "1.0".
Definition binding (msg : string) : exn := BindingValidationError msg.

(** [_SAFE_TOKEN.fullmatch] *)
Definition safe_token_re (s : pystr) : bool :=
  (1 <=? Z.of_nat (length s)) && (Z.of_nat (length s) <=? 128) && forallb is_b64 s.
(** [_DIGEST.fullmatch] *)
Definition digest_re (s : pystr) : bool := bool_decide (length s = 64%nat) && forallb is_lower_hex s.

Definition require_token (value : json) (msg : string) : result pystr :=
  match value with
  | JStr s => raise_if (negb (safe_token_re s)) (binding msg);; Ok s
  | _ => Err (binding msg)
  end.
Definition require_safe_integer (value : json) (msg : string) : result Z :=
  match value with
  | JInt z => raise_if (negb ((0 <=? z) && (z <=? 9007199254740991))) (binding msg);; Ok z
  | _ => Err (binding msg)
  end.
Definition require_bool (value : json) (msg : string) : result bool :=
  match value with JBool b => Ok b | _ => Err (binding msg) end.
Definition require_digest (value : json) (msg : string) : result pystr :=
  match value with
  | JStr s => raise_if (negb (digest_re s)) (binding msg);; Ok s
  | _ => Err (binding msg)
  end.

(** ** Canonical bytes *)
Definition _rfc8785_bytes `{RFC8785} (data : dict) : result pybytes :=
  except (rfc8785_dumps (JObj data))
    (fun e => match e with CanonicalizationError | TypeError | UnicodeError => true | _ => false end)
    (binding "stream object cannot be RFC 8785 canonicalized").

Definition _sha256_rfc8785 `{RFC8785} (data : dict) : result pystr :=
  b ← _rfc8785_bytes data; Ok (sha256_hexdigest b).

Definition _frame_core_dict `{StreamProtobuf}
    (stream_session_id stream_open_id sequence event_seq final : json)
    (canonical_stream_response : ProtobufMessage) : result dict :=
  response ← except (to_protojson_dict canonical_stream_response)
    (fun e => match e with SerializeToJsonError => true | _ => false end)
    (binding "StreamResponse is not valid ProtoJSON");
  Ok [(u "schemaVersion", JStr STREAM_SCHEMA_VERSION);
      (u "streamSessionId", stream_session_id);
      (u "streamOpenId", stream_open_id);
      (u "sequence", sequence);
      (u "eventSeq", event_seq);
      (u "final", final);
      (u "canonicalStreamResponse", JObj response)].

(** ** Frames *)
Module StreamSessionFrameV1.
Section Frame.
Context `{StreamProtobuf}.

Record t := make {
  stream_session_id : pystr;
  stream_open_id : pystr;
  sequence : Z;
  event_seq : Z;
  final : bool;
  canonical_stream_response : ProtobufMessage;
  payload_digest : pystr }.

Context `{RFC8785}.

Definition core_dict (self : t) : result dict :=
  _frame_core_dict (JStr (stream_session_id self)) (JStr (stream_open_id self))
    (JInt (sequence self)) (JInt (event_seq self)) (JBool (final self))
    (canonical_stream_response self).

Definition compute_payload_digest (self : t) : result pystr :=
  core ← core_dict self; _sha256_rfc8785 core.

(** the constructor with its [__post_init__] *)
Definition init (stream_session_id stream_open_id sequence event_seq final : json)
    (canonical_stream_response : ProtobufMessage) (payload_digest : json) : result t :=
  stream_session_id ← require_token stream_session_id "streamSessionId is not a safe token";
  stream_open_id ← require_token stream_open_id "streamOpenId is not a safe token";
  sequence ← require_safe_integer sequence "sequence is outside JSON safe integer range";
  event_seq ← require_safe_integer event_seq "eventSeq is outside JSON safe integer range";
  final ← require_bool final "final must be boolean";
  raise_if (negb (is_stream_response canonical_stream_response))
    (binding "canonicalStreamResponse must be official StreamResponse");;
  payload_digest ← require_digest payload_digest "payloadDigest must be lowercase SHA-256 hex";
  let self := make stream_session_id stream_open_id sequence event_seq final
    canonical_stream_response payload_digest in
  computed ← compute_payload_digest self;
  raise_if (payload_digest != computed)
    (binding "payloadDigest does not match canonical frame");;
  Ok self.

Definition create (stream_session_id stream_open_id sequence event_seq final : json)
    (canonical_stream_response : ProtobufMessage) : result t :=
  core ← _frame_core_dict stream_session_id stream_open_id sequence event_seq final
    canonical_stream_response;
  payload_digest ← _sha256_rfc8785 core;
  init stream_session_id stream_open_id sequence event_seq final canonical_stream_response
    (JStr payload_digest).

Definition to_dict (self : t) : result dict :=
  data ← core_dict self;
  Ok (data ++ [(u "payloadDigest", JStr (payload_digest self))]).

Definition canonical_bytes (self : t) : result pybytes :=
  data ← to_dict self; _rfc8785_bytes data.

Definition _FRAME_FIELDS : gset pystr := list_to_set (map u ["schemaVersion"; "streamSessionId";
  "streamOpenId"; "sequence"; "eventSeq"; "final"; "canonicalStreamResponse"; "payloadDigest"]).

(** [data[key]] where [key] is one of the fields just compared *)
Definition field (data : dict) (key : string) : result json :=
  or_raise (obj_get (u key) data) (RuntimeError "KeyError").

(** the message of the first error leaves out the two lists of names *)
Definition from_dict (data : dict) : result t :=
  raise_if (dict_keys data != _FRAME_FIELDS) (binding "stream frame fields mismatch");;
  schema_version ← field data "schemaVersion";
  raise_if (match schema_version with JStr s => s != STREAM_SCHEMA_VERSION | _ => true end)
    (binding "unsupported stream frame schemaVersion");;
  payload ← field data "canonicalStreamResponse";
  response ← except (from_protojson payload)
    (fun e => match e with
              | ParseError | TypeError | ValueError _ | UnicodeError | JSONDecodeError => true
              | _ => false
              end)
    (binding "invalid official StreamResponse payload");
  session ← field data "streamSessionId";
  open_ ← field data "streamOpenId";
  sequence_ ← field data "sequence";
  event_seq_ ← field data "eventSeq";
  final_ ← field data "final";
  digest ← field data "payloadDigest";
  init session open_ sequence_ event_seq_ final_ response digest.
End Frame.
#[global] Arguments t {_}.
End StreamSessionFrameV1.

(** [_live_event_identity] *)
Definition _live_event_identity `{StreamProtobuf} `{TaskStates} (frame : StreamSessionFrameV1.t)
    : result (pystr * bool) :=
  match payload_of (StreamSessionFrameV1.canonical_stream_response frame) with
  | PStatusUpdate task_id state => Ok (task_id, is_terminal_task_state (JInt state))
  | PArtifactUpdate task_id => Ok (task_id, false)
  | _ => Err (binding "live frame must contain committed statusUpdate or artifactUpdate")
  end.

(** ** The cursor *)
Inductive StreamFrameDisposition := NEW | REDELIVERY.

Module StreamFrameCursorV1.
Record t := make {
  stream_session_id : pystr;
  stream_open_id : pystr;
  task_id : pystr;
  snapshot_event_seq : Z;
  last_sequence : Z;
  last_event_seq : option Z;
  last_payload_digest : option pystr;
  final : bool }.

(** the constructor with its [__post_init__] *)
Definition init (stream_session_id stream_open_id task_id snapshot_event_seq last_sequence
    last_event_seq last_payload_digest final : json) : result t :=
  stream_session_id ← require_token stream_session_id "streamSessionId is not a safe token";
  stream_open_id ← require_token stream_open_id "streamOpenId is not a safe token";
  task_id ← require_token task_id "taskId is not a safe token";
  snapshot_event_seq ← require_safe_integer snapshot_event_seq
    "snapshotEventSeq is outside JSON safe integer range";
  last_sequence ← require_safe_integer last_sequence
    "lastSequence is outside JSON safe integer range";
  last_event_seq ←
    (match last_event_seq with
     | JNull => Ok snapshot_event_seq
     | value => require_safe_integer value "lastEventSeq is outside JSON safe integer range"
     end);
  final ← require_bool final "cursor final must be boolean";
  if last_sequence =? 0 then
    raise_if (negb (last_event_seq =? snapshot_event_seq))
      (binding "empty cursor lastEventSeq must equal snapshotEventSeq");;
    raise_if (negb (match last_payload_digest with JNull => true | _ => false end) || final)
      (binding "empty cursor cannot have a payload digest or final state");;
    Ok (make stream_session_id stream_open_id task_id snapshot_event_seq last_sequence
          (Some last_event_seq) None final)
  else
    raise_if (last_event_seq <=? snapshot_event_seq)
      (binding "advanced cursor lastEventSeq must exceed snapshotEventSeq");;
    digest ← require_digest last_payload_digest
      "advanced cursor requires a lowercase SHA-256 payload digest";
    Ok (make stream_session_id stream_open_id task_id snapshot_event_seq last_sequence
          (Some last_event_seq) (Some digest) final).

Section Accept.
Context `{StreamProtobuf} `{TaskStates}.

Definition accept (self : t) (frame : StreamSessionFrameV1.t)
    : result (t * StreamFrameDisposition) :=
  raise_if (StreamSessionFrameV1.stream_session_id frame != stream_session_id self)
    (binding "live frame streamSessionId mismatch");;
  raise_if (StreamSessionFrameV1.stream_open_id frame != stream_open_id self)
    (binding "live frame streamOpenId mismatch");;
  '(event_task_id, terminal) ← _live_event_identity frame;
  raise_if (event_task_id != task_id self) (binding "live frame Task ID mismatch");;
  raise_if (StreamSessionFrameV1.final frame != terminal)
    (binding "live frame final does not match committed Task terminal state");;
  if (StreamSessionFrameV1.sequence frame =? last_sequence self) && (0 <? last_sequence self) then
    if (Some (StreamSessionFrameV1.event_seq frame) == last_event_seq self)
      && (Some (StreamSessionFrameV1.payload_digest frame) == last_payload_digest self)
      && (StreamSessionFrameV1.final frame == final self)
    then Ok (self, REDELIVERY)
    else Err (binding "conflicting live frame redelivery")
  else
  raise_if (final self) (binding "no new sequence is allowed after final frame");;
  raise_if (negb (StreamSessionFrameV1.sequence frame =? last_sequence self + 1))
    (binding "live frame sequence must increase by exactly one");;
  raise_if (StreamSessionFrameV1.event_seq frame <=? snapshot_event_seq self)
    (binding "live frame eventSeq must exceed snapshotEventSeq");;
  raise_if (match last_event_seq self with
            | Some z => StreamSessionFrameV1.event_seq frame <=? z
            | None => false
            end)
    (binding "live frame eventSeq must strictly increase");;
  cursor ← init (JStr (stream_session_id self)) (JStr (stream_open_id self))
    (JStr (task_id self)) (JInt (snapshot_event_seq self))
    (JInt (StreamSessionFrameV1.sequence frame)) (JInt (StreamSessionFrameV1.event_seq frame))
    (JStr (StreamSessionFrameV1.payload_digest frame)) (JBool (StreamSessionFrameV1.final frame));
  Ok (cursor, NEW).
End Accept.
End StreamFrameCursorV1.

(** ** The opened session *)
Inductive Operation :=
| SEND_MESSAGE | SEND_STREAMING_MESSAGE | GET_TASK | LIST_TASKS | CANCEL_TASK | SUBSCRIBE_TO_TASK
| CREATE_TASK_PUSH_NOTIFICATION_CONFIG | GET_TASK_PUSH_NOTIFICATION_CONFIG
| LIST_TASK_PUSH_NOTIFICATION_CONFIGS | DELETE_TASK_PUSH_NOTIFICATION_CONFIG
| GET_EXTENDED_AGENT_CARD.

Definition streaming (o : Operation) : bool :=
  match o with SEND_STREAMING_MESSAGE | SUBSCRIBE_TO_TASK => true | _ => false end.

(** a [datetime]: its wall clock in microseconds, and the offset of its time
    zone when it has one *)
Record datetime := { wall_clock_us : Z; utcoffset_us : option Z }.

(** [value.split(".")], never empty *)
Fixpoint split_dots (s : pystr) : list pystr :=
  match s with
  | [] => [[]]
  | c :: r =>
    match split_dots r with
    | [] => [[c]]
    | part :: parts => if (c =? 46)%N then [] :: part :: parts else (c :: part) :: parts
    end
  end.

(** [_DELIVERY_SUBJECT.fullmatch]: no character class of the pattern contains
    the dot, so it matches the six parts one by one *)
Definition delivery_subject_re (s : pystr) : bool :=
  match split_dots s with
  | [deliver; mesh; stream; p1; p2; p3] =>
    (deliver == u "_DELIVER") && (mesh == u "a2amesh") && (stream == u "stream")
    && forallb (fun p => (p != []) && forallb is_b64 p) [p1; p2; p3]
  | _ => false
  end.

(** [value.rsplit(".", 1)[-1]] *)
Definition after_last_dot (s : pystr) : pystr := default [] (last (split_dots s)).

Module StreamSessionOpenedV1.
Section Opened.
Context `{StreamProtobuf} `{TaskStates}.

Record t := make {
  stream_session_id : pystr;
  stream_open_id : pystr;
  task_id : pystr;
  operation : Operation;
  caller_delivery_subject : pystr;
  snapshot_event_seq : Z;
  expires_at : datetime;
  initial_frame : StreamSessionFrameV1.t }.

(** the constructor with its [__post_init__]; [operation], [expires_at] and
    [initial_frame] have the types its [isinstance] checks ask for *)
Definition init (stream_session_id stream_open_id task_id : json) (operation : Operation)
    (caller_delivery_subject snapshot_event_seq : json) (expires_at : datetime)
    (frame : StreamSessionFrameV1.t) : result t :=
  stream_session_id ← require_token stream_session_id "streamSessionId is not a safe token";
  stream_open_id ← require_token stream_open_id "streamOpenId is not a safe token";
  task_id ← require_token task_id "taskId is not a safe token";
  raise_if (negb (streaming operation)) (binding "stream session operation must be streaming");;
  caller_delivery_subject ←
    (match caller_delivery_subject with
     | JStr s => raise_if (negb (delivery_subject_re s)) (binding "callerDeliverySubject is invalid");; Ok s
     | _ => Err (binding "callerDeliverySubject is invalid")
     end);
  raise_if (after_last_dot caller_delivery_subject != stream_open_id)
    (binding "callerDeliverySubject is not bound to streamOpenId");;
  snapshot_event_seq ← require_safe_integer snapshot_event_seq
    "snapshotEventSeq is outside JSON safe integer range";
  raise_if (utcoffset_us expires_at == None) (binding "expiresAt must be timezone-aware");;
  raise_if (StreamSessionFrameV1.stream_session_id frame != stream_session_id)
    (binding "initialFrame streamSessionId mismatch");;
  raise_if (StreamSessionFrameV1.stream_open_id frame != stream_open_id)
    (binding "initialFrame streamOpenId mismatch");;
  raise_if (negb (StreamSessionFrameV1.sequence frame =? 0))
    (binding "initialFrame sequence must be zero");;
  raise_if (negb (StreamSessionFrameV1.event_seq frame =? snapshot_event_seq))
    (binding "initialFrame eventSeq must equal snapshotEventSeq");;
  '(id, state) ←
    (match payload_of (StreamSessionFrameV1.canonical_stream_response frame) with
     | PTask id state => Ok (id, state)
     | _ => Err (binding "initialFrame must contain an official Task snapshot")
     end);
  raise_if (id != task_id) (binding "initialFrame Task ID mismatch");;
  let terminal := is_terminal_task_state (JInt state) in
  raise_if (StreamSessionFrameV1.final frame != terminal)
    (binding "initialFrame final does not match Task terminal state");;
  Ok (make stream_session_id stream_open_id task_id operation caller_delivery_subject
        snapshot_event_seq expires_at frame).
End Opened.
End StreamSessionOpenedV1.
