(* ===== verification/StreamFacts.v ===== *)
(** * Stream sessions: facts

    What the constructors of [Stream.v] accept, as records of conditions; the
    step of the cursor; and what a caller gets from a cursor to which it offers
    frames that are repeated, reordered or not of the stream. *)
From S2P Require Import Prelude ListFacts PyStr Sha256 Json JsonFacts Contract ContractFacts.
From S2P Require Import TaskState Stream.
Local Open Scope py_scope.
Local Open Scope Z_scope.

(** ** The checks *)
Definition safe_token (s : pystr) : Prop :=
  1 <= Z.of_nat (length s) <= 128 /\ Forall (fun c => is_b64 c = true) s.
Definition safe_integer (z : Z) : Prop := 0 <= z <= 9007199254740991.

Lemma require_token_ok v msg s : require_token v msg = Ok s <-> v = JStr s /\ safe_token s.
Proof.
  unfold require_token. destruct v as [| | | |t| |]; try (split; [done|by intros [? _]]).
  rw bind_ok_unit raise_if_ok negb_false_iff Ok_inj_iff. unfold safe_token_re, safe_token.
  rw !andb_true_iff forallb_iff !Z.leb_le. split.
  - by intros [? ->].
  - by intros [[= ->] ?].
Qed.

Lemma require_safe_integer_ok v msg z :
  require_safe_integer v msg = Ok z <-> v = JInt z /\ safe_integer z.
Proof.
  unfold require_safe_integer. destruct v as [| |x| | | |]; try (split; [done|by intros [? _]]).
  rw bind_ok_unit raise_if_ok Ok_inj_iff. unfold safe_integer. split.
  - intros [? ->]. split; [done|lia].
  - intros [[= ->] ?]. split; [lia|done].
Qed.

Lemma require_bool_ok v msg b : require_bool v msg = Ok b <-> v = JBool b.
Proof. destruct v; cbn; naive_solver. Qed.

Lemma require_digest_ok v msg s : require_digest v msg = Ok s <-> v = JStr s /\ sha256_hex s.
Proof.
  unfold require_digest. destruct v as [| | | |t| |]; try (split; [done|by intros [? _]]).
  rw bind_ok_unit raise_if_ok negb_false_iff Ok_inj_iff. unfold digest_re, sha256_hex.
  rw andb_true_iff bool_decide_eq_true forallb_iff. split.
  - by intros [? ->].
  - by intros [[= ->] ?].
Qed.

(** the checks on arguments they accept *)
Lemma require_token_run s msg : safe_token s -> require_token (JStr s) msg = Ok s.
Proof. intros ?. by apply require_token_ok. Qed.
Lemma require_safe_integer_run z msg : safe_integer z -> require_safe_integer (JInt z) msg = Ok z.
Proof. intros ?. by apply require_safe_integer_ok. Qed.
Lemma require_digest_run s msg : sha256_hex s -> require_digest (JStr s) msg = Ok s.
Proof. intros ?. by apply require_digest_ok. Qed.

(** runs the next checks of a constructor *)
Ltac run_checks := repeat (first
  [rw require_token_run; [|done] | rw require_safe_integer_run; [|done]
  |rw require_digest_run; [|done] | progress cbn [mbind result_bind require_bool]]).

Section Frames.
Context `{StreamProtobuf} `{RFC8785}.
Import StreamSessionFrameV1.

(** a frame the constructor returns *)
Record frame_ok (f : t) : Prop := {
  fo_session : safe_token (stream_session_id f);
  fo_open : safe_token (stream_open_id f);
  fo_sequence : safe_integer (sequence f);
  fo_event_seq : safe_integer (event_seq f);
  fo_response : is_stream_response (canonical_stream_response f) = true;
  fo_hex : sha256_hex (payload_digest f);
  fo_digest : compute_payload_digest f = Ok (payload_digest f) }.

Lemma frame_init_ok s o n e b m d f : init s o n e b m d = Ok f <-> frame_ok f
  /\ s = JStr (stream_session_id f) /\ o = JStr (stream_open_id f) /\ n = JInt (sequence f)
  /\ e = JInt (event_seq f) /\ b = JBool (final f) /\ m = canonical_stream_response f
  /\ d = JStr (payload_digest f).
Proof.
  unfold init. split.
  - intros Hr. apply bind_ok in Hr as (s' & [-> ?]%require_token_ok & Hr).
    apply bind_ok in Hr as (o' & [-> ?]%require_token_ok & Hr).
    apply bind_ok in Hr as (n' & [-> ?]%require_safe_integer_ok & Hr).
    apply bind_ok in Hr as (e' & [-> ?]%require_safe_integer_ok & Hr).
    apply bind_ok in Hr as (b' & ->%require_bool_ok & Hr).
    apply bind_ok_unit in Hr as [Hm%raise_if_ok%negb_false_iff Hr].
    apply bind_ok in Hr as (d' & [-> ?]%require_digest_ok & Hr).
    apply bind_ok in Hr as (c & Hc & Hr). apply bind_ok_unit in Hr as [Hd%raise_if_ok%neqb_false Hr].
    injection Hr as <-. subst c. done.
  - intros ([? ? ? ? Hm ? Hd] & -> & -> & -> & -> & -> & -> & ->). run_checks. rw Hm.
    destruct f; cbn [raise_if negb mbind result_bind]. run_checks. cbn in Hd |- *. rw Hd. cbn.
    by rw bool_decide_eq_true_2.
Qed.

(** [create] computes the digest the constructor asks for *)
Lemma frame_create_ok s o n e b m f : create s o n e b m = Ok f <-> frame_ok f
  /\ s = JStr (stream_session_id f) /\ o = JStr (stream_open_id f) /\ n = JInt (sequence f)
  /\ e = JInt (event_seq f) /\ b = JBool (final f) /\ m = canonical_stream_response f.
Proof.
  unfold create. split.
  - by intros (core & _ & (d & _ & (? & ? & ? & ? & ? & ? & ? & _)%frame_init_ok)%bind_ok)%bind_ok.
  - intros (Hf & -> & -> & -> & -> & -> & ->). pose proof (fo_digest f Hf) as Hd.
    unfold compute_payload_digest in Hd. apply bind_ok in Hd as (core & Hcore & Hd).
    apply bind_ok. exists core. split; [exact Hcore|]. apply bind_ok. exists (payload_digest f).
    split; [done|]. by apply frame_init_ok.
Qed.
End Frames.

(** ** The cursor *)
Section Cursor.
Context `{StreamProtobuf} `{RFC8785} `{TaskStates}.
#[local] Abbreviation frame := StreamSessionFrameV1.t.
#[local] Abbreviation sequence := StreamSessionFrameV1.sequence.
#[local] Abbreviation event_seq := StreamSessionFrameV1.event_seq.
Import StreamFrameCursorV1.

(** a cursor the constructor returns *)
Record cursor_ok (c : t) : Prop := {
  co_session : safe_token (stream_session_id c);
  co_open : safe_token (stream_open_id c);
  co_task : safe_token (task_id c);
  co_snapshot : safe_integer (snapshot_event_seq c);
  co_sequence : safe_integer (last_sequence c);
  co_event : exists e, last_event_seq c = Some e /\ safe_integer e
    /\ (if last_sequence c =? 0 then e = snapshot_event_seq c else snapshot_event_seq c < e);
  co_digest : match last_payload_digest c with
    | None => last_sequence c = 0 /\ final c = false
    | Some d => last_sequence c <> 0 /\ sha256_hex d
    end }.

Definition opt_int (o : option Z) : json := match o with Some z => JInt z | None => JNull end.
Definition opt_str (o : option pystr) : json := match o with Some s => JStr s | None => JNull end.

Lemma cursor_init_sound s o k n q e d b c : init s o k n q e d b = Ok c -> cursor_ok c
  /\ s = JStr (stream_session_id c) /\ o = JStr (stream_open_id c) /\ k = JStr (task_id c)
  /\ n = JInt (snapshot_event_seq c) /\ q = JInt (last_sequence c)
  /\ (e = opt_int (last_event_seq c) \/ e = JNull /\ last_event_seq c = Some (snapshot_event_seq c))
  /\ d = opt_str (last_payload_digest c) /\ b = JBool (final c).
Proof.
  unfold init. intros Hr. 
  apply bind_ok in Hr as (s' & [-> Hs]%require_token_ok & Hr).
  apply bind_ok in Hr as (o' & [-> Ho]%require_token_ok & Hr).
  apply bind_ok in Hr as (k' & [-> Hk]%require_token_ok & Hr).
  apply bind_ok in Hr as (n' & [-> Hn]%require_safe_integer_ok & Hr).
  apply bind_ok in Hr as (q' & [-> Hq]%require_safe_integer_ok & Hr).
  apply bind_ok in Hr as (e' & He & Hr).
  apply bind_ok in Hr as (b' & ->%require_bool_ok & Hr).
  assert (safe_integer e' /\ (e = JInt e' \/ e = JNull /\ e' = n')) as [Hse He'].
  { destruct e; try (apply require_safe_integer_ok in He as [[= ->] ?]; by split; [|left]); try done.
    injection He as <-. split; [done|by right]. }
  destruct (q' =? 0) eqn:E.
  - apply bind_ok_unit in Hr as [Hen%raise_if_ok Hr]. apply bind_ok_unit in Hr as [Hd%raise_if_ok Hr].
    injection Hr as <-. apply orb_false_iff in Hd as [Hd ->]. destruct d; try done.
    split; [|naive_solver]. constructor; cbn; try done; [|lia]. exists e'. rw E. split; [done|]. split; [done|lia].
  - apply bind_ok_unit in Hr as [Hen%raise_if_ok Hr].
    apply bind_ok in Hr as (d' & [-> Hd]%require_digest_ok & Hr). injection Hr as <-.
    split; [|naive_solver]. constructor; cbn; try done; [|split; [lia|done]].
    exists e'. rw E. split; [done|]. split; [done|lia].
Qed.

Lemma cursor_init_complete c e : cursor_ok c ->
  (e = opt_int (last_event_seq c) \/ e = JNull /\ last_event_seq c = Some (snapshot_event_seq c)) ->
  init (JStr (stream_session_id c)) (JStr (stream_open_id c)) (JStr (task_id c))
    (JInt (snapshot_event_seq c)) (JInt (last_sequence c)) e (opt_str (last_payload_digest c))
    (JBool (final c)) = Ok c.
Proof.
  intros [Hs Ho Hk Hn Hq (z & Hz & Hsz & Hif) Hd] He. unfold init.
  run_checks.
  assert ((match e with
           | JNull => Ok (snapshot_event_seq c)
           | _ => require_safe_integer e "lastEventSeq is outside JSON safe integer range"
           end) = Ok z) as ->.
  { destruct He as [->|[-> He]]; [|by rw He in Hz; injection Hz as ->].
    rw Hz. by apply require_safe_integer_ok. }
  cbn [mbind result_bind require_bool]. destruct c as [s o k n q le ld b]; cbn in *. subst le.
  destruct ld as [d|]; cbn [opt_str] in *.
  - destruct Hd as [Hq0 Hd]. destruct (q =? 0) eqn:E; [lia|].
    assert ((z <=? n) = false) as -> by lia. cbn [raise_if]. by run_checks.
  - destruct Hd as [-> ->]. rw Z.eqb_refl in Hif. subst z. cbn. by rw Z.eqb_refl.
Qed.
End Cursor.

(** ** The step of the cursor *)
Section Accept.
Context `{StreamProtobuf} `{RFC8785} `{TaskStates}.
#[local] Abbreviation frame := StreamSessionFrameV1.t.
#[local] Abbreviation sequence := StreamSessionFrameV1.sequence.
#[local] Abbreviation event_seq := StreamSessionFrameV1.event_seq.
Import StreamFrameCursorV1.

(** the frame is of the cursor's stream, and is marked final exactly when its task is over *)
Definition addressed (c : t) (f : frame) : Prop :=
  StreamSessionFrameV1.stream_session_id f = stream_session_id c
  /\ StreamSessionFrameV1.stream_open_id f = stream_open_id c
  /\ _live_event_identity f = Ok (task_id c, StreamSessionFrameV1.final f).

(** where the cursor stands among the events of the task *)
Definition position (c : t) : Z := default (snapshot_event_seq c) (last_event_seq c).

Record next_frame (c : t) (f : frame) : Prop := {
  nf_open : final c = false;
  nf_sequence : sequence f = last_sequence c + 1;
  nf_event : position c < event_seq f }.

(** the frame the cursor admitted last *)
Record admitted_last (c : t) (f : frame) : Prop := {
  al_advanced : 0 < last_sequence c;
  al_sequence : sequence f = last_sequence c;
  al_event : Some (event_seq f) = last_event_seq c;
  al_digest : Some (StreamSessionFrameV1.payload_digest f) = last_payload_digest c;
  al_final : StreamSessionFrameV1.final f = final c }.

Definition advance (c : t) (f : frame) : t :=
  make (stream_session_id c) (stream_open_id c) (task_id c) (snapshot_event_seq c) (sequence f)
    (Some (event_seq f)) (Some (StreamSessionFrameV1.payload_digest f))
    (StreamSessionFrameV1.final f).

Lemma position_spec c : cursor_ok c -> last_event_seq c = Some (position c)
  /\ snapshot_event_seq c <= position c.
Proof.
  intros []. destruct co_event0 as (e & E & _ & Hif). unfold position. rw E. split; [done|].
  cbn. destruct (last_sequence c =? 0); lia.
Qed.

Lemma advance_cursor_ok c f : cursor_ok c -> frame_ok f -> next_frame c f -> cursor_ok (advance c f).
Proof.
  intros Hc [] []. destruct (position_spec c Hc) as [_ Hp]. destruct Hc. unfold safe_integer in *.
  constructor; cbn; try done.
  - exists (event_seq f). split; [done|]. split; [done|].
    destruct (sequence f =? 0) eqn:E; lia.
  - split; [lia|done].
Qed.

Lemma accept_ok c f c' d : cursor_ok c -> frame_ok f ->
  accept c f = Ok (c', d) <-> addressed c f
    /\ (admitted_last c f /\ c' = c /\ d = REDELIVERY \/ next_frame c f /\ c' = advance c f /\ d = NEW).
Proof.
  intros Hc Hf. destruct (position_spec c Hc) as [Hp Hsnap].
  assert (next_frame c f -> init (JStr (stream_session_id c)) (JStr (stream_open_id c))
    (JStr (task_id c)) (JInt (snapshot_event_seq c)) (JInt (sequence f)) (JInt (event_seq f))
    (JStr (StreamSessionFrameV1.payload_digest f)) (JBool (StreamSessionFrameV1.final f))
    = Ok (advance c f)) as Hinit.
  { intros Hn. apply (cursor_init_complete (advance c f)); [by apply advance_cursor_ok|by left]. }
  unfold accept, addressed. split.
  - intros Hr. apply bind_ok_unit in Hr as [Hs%raise_if_ok%neqb_false Hr].
    apply bind_ok_unit in Hr as [Ho%raise_if_ok%neqb_false Hr].
    apply bind_ok in Hr as ([id terminal] & Hid & Hr). cbn beta iota in Hr.
    apply bind_ok_unit in Hr as [->%raise_if_ok%neqb_false Hr].
    apply bind_ok_unit in Hr as [<-%raise_if_ok%neqb_false Hr].
    split; [done|]. destruct ((sequence f =? last_sequence c) && _) eqn:E.
    + left. apply andb_true_iff in E as [E1 E2].
      destruct (bool_decide (Some (event_seq f) = _) && _ && _) eqn:E; [|done].
      apply andb_true_iff in E as [[E3 E4]%andb_true_iff E5]. injection Hr as <- <-.
      apply bool_decide_eq_true in E3, E4, E5. split; [constructor; try done; lia|done].
    + right. apply bind_ok_unit in Hr as [Hfin%raise_if_ok Hr].
      apply bind_ok_unit in Hr as [Hseq%raise_if_ok Hr].
      apply bind_ok_unit in Hr as [_ Hr]. apply bind_ok_unit in Hr as [Hev%raise_if_ok Hr].
      rw Hp in Hev. assert (next_frame c f) as Hn by (constructor; [done|lia..]).
      rw (Hinit Hn) in Hr. by injection Hr as <- <-.
  - intros [(Hs & Ho & Hid) Hr].
    apply bind_ok_unit. split; [by apply raise_if_ok, neqb_false|].
    apply bind_ok_unit. split; [by apply raise_if_ok, neqb_false|].
    apply bind_ok. exists (task_id c, StreamSessionFrameV1.final f). split; [done|]. cbn beta iota.
    apply bind_ok_unit. split; [by apply raise_if_ok, neqb_false|].
    apply bind_ok_unit. split; [by apply raise_if_ok, neqb_false|].
    destruct Hr as [([P1 P2 P3 P4 P5] & -> & ->)|(Hn & -> & ->)].
    + assert ((sequence f =? last_sequence c) && (0 <? last_sequence c) = true) as -> by lia.
      by rw P3 P4 P5 !bool_decide_eq_true_2.
    + rw (Hinit Hn). destruct Hn as [Hfin Hseq Hev]. rw Hfin Hp.
      assert ((sequence f =? last_sequence c) && (0 <? last_sequence c) = false) as -> by lia.
      assert ((event_seq f <=? position c) = false) as -> by lia.
      assert ((event_seq f <=? snapshot_event_seq c) = false) as -> by lia.
      assert (negb (sequence f =? last_sequence c + 1) = false) as -> by lia. done.
Qed.

(** ** Delivery *)
(** [accept] is called by the program's users, one frame at a time: it returns the next cursor, or
    raises.  The theorems on a whole stream are about a caller that keeps the cursor it has when a
    frame is refused or repeated, and goes on with the next one.  [deliver] and [deliver_all] are
    that caller, a device of the specification: no function of the program contains this loop. *)
Definition deliver (c : t) (f : frame) : t * list frame :=
  match accept c f with
  | Ok (c', NEW) => (c', [f])
  | _ => (c, [])
  end.
Fixpoint deliver_all (c : t) (l : list frame) : t * list frame :=
  match l with
  | [] => (c, [])
  | f :: l =>
    let '(c, out) := deliver c f in
    let '(c, outs) := deliver_all c l in
    (c, out ++ outs)
  end.

(** frames that can be admitted one after the other *)
Fixpoint legal (c : t) (fs : list frame) : Prop :=
  match fs with
  | [] => True
  | f :: fs => addressed c f /\ next_frame c f /\ legal (advance c f) fs
  end.

Lemma deliver_spec c f : cursor_ok c -> frame_ok f ->
  (addressed c f /\ next_frame c f) /\ deliver c f = (advance c f, [f])
  \/ ~ (addressed c f /\ next_frame c f) /\ deliver c f = (c, []).
Proof.
  intros Hc Hf. unfold deliver. destruct (accept c f) as [[c' d]|e] eqn:E.
  - apply (accept_ok c f c' d Hc Hf) in E as [Ha [(Hl & -> & ->)|(Hn & -> & ->)]]; [|by left].
    right. split; [|done]. intros [_ Hn]. destruct Hl, Hn. lia.
  - right. split; [|done]. intros [Ha Hn].
    assert (accept c f = Ok (advance c f, NEW)) as E'.
    { apply accept_ok; [done..|]. split; [done|by right]. }
    by rw E in E'.
Qed.

Lemma deliver_all_sound l : forall c, cursor_ok c -> Forall frame_ok l ->
  exists out, deliver_all c l = (fold_left advance out c, out) /\ legal c out /\ out `sublist_of` l.
Proof.
  induction l as [|f l IH]; intros c Hc Hl; [by exists []|].
  apply Forall_cons in Hl as [Hf Hl]. cbn [deliver_all].
  destruct (deliver_spec c f Hc Hf) as [[[Ha Hn] ->]|[_ ->]].
  - destruct (IH (advance c f)) as (out & -> & Hlegal & Hsub); [by apply advance_cursor_ok|done|].
    exists (f :: out). split; [done|]. split; [done|by constructor].
  - destruct (IH c Hc Hl) as (out & -> & Hlegal & Hsub). exists out. split; [done|].
    split; [done|by constructor].
Qed.
End Accept.

(** ** The shape of a legal stream *)
Section Shape.
Context `{StreamProtobuf} `{RFC8785} `{TaskStates}.
#[local] Abbreviation frame := StreamSessionFrameV1.t.
#[local] Abbreviation sequence := StreamSessionFrameV1.sequence.
#[local] Abbreviation event_seq := StreamSessionFrameV1.event_seq.
Import StreamFrameCursorV1.

Lemma legal_app fs gs : forall c, legal c (fs ++ gs) <-> legal c fs /\ legal (fold_left advance fs c) gs.
Proof.
  induction fs as [|f fs IH]; intros c; cbn [app legal fold_left]; [naive_solver|]. rw IH. naive_solver.
Qed.

Lemma legal_cursor_ok fs : forall c, cursor_ok c -> Forall frame_ok fs -> legal c fs ->
  cursor_ok (fold_left advance fs c).
Proof.
  induction fs as [|f fs IH]; intros c Hc; [done|].
  intros [Hf Hfs]%Forall_cons (_ & Hn & Hl). apply IH; [by apply advance_cursor_ok|done..].
Qed.

(** the sequence numbers are consecutive *)
Lemma legal_sequence fs : forall c, legal c fs ->
  map sequence fs = seqZ (last_sequence c + 1) (Z.of_nat (length fs)).
Proof.
  induction fs as [|f fs IH]; intros c; [done|]. intros (_ & [_ Hs _] & Hl).
  cbn [map length]. rw seqZ_cons; [|lia]. f_equal; [done|]. rw (IH _ Hl). cbn. f_equal; lia.
Qed.

Lemma legal_lookup fs c i f : legal c fs -> fs !! i = Some f ->
  sequence f = last_sequence c + 1 + Z.of_nat i.
Proof.
  intros Hl%legal_sequence Hi. assert (map sequence fs !! i = Some (sequence f)) as Hm
    by by rewrite list_lookup_fmap Hi.
  rw Hl in Hm. apply lookup_seqZ in Hm. lia.
Qed.

Lemma legal_last_sequence fs : forall c, legal c fs ->
  last_sequence (fold_left advance fs c) = last_sequence c + Z.of_nat (length fs).
Proof.
  induction fs as [|f fs IH]; intros c; cbn [fold_left length]; [lia|].
  intros (_ & [_ Hs _] & Hl). rw (IH _ Hl). cbn. lia.
Qed.

(** the numbers of the events ascend from the snapshot *)
Lemma legal_events fs : forall c, legal c fs ->
  StronglySorted Z.lt (position c :: map event_seq fs).
Proof.
  induction fs as [|f fs IH]; intros c; [by repeat constructor|]. intros (_ & [_ _ He] & Hl).
  cbn [map]. pose proof (IH _ Hl) as Hs. change (position (advance c f)) with (event_seq f) in Hs.
  constructor; [done|]. apply StronglySorted_inv in Hs as [_ Hs]. constructor; [done|].
  eapply Forall_impl; [exact Hs|]. cbn. lia.
Qed.

(** nothing follows a final frame *)
Lemma legal_final fs c i f : legal c fs -> fs !! i = Some f -> StreamSessionFrameV1.final f = true ->
  S i = length fs.
Proof.
  intros Hl Hi Hf. apply list_elem_of_split_length in Hi as (fs1 & fs2 & -> & ->).
  apply legal_app in Hl as (_ & _ & _ & Hl). rw length_app. destruct fs2 as [|g fs2]; [cbn; lia|].
  destruct Hl as (_ & [Ho _ _] & _). cbn in Ho. congruence.
Qed.

(** every frame is one of the cursor's stream *)
Lemma legal_addressed fs : forall c, legal c fs -> Forall (addressed c) fs.
Proof.
  induction fs as [|f fs IH]; intros c; [done|]. intros (Ha & _ & Hl). constructor; [done|].
  by apply (IH (advance c f)).
Qed.

(** nothing is lost for good: every frame of a legal stream arrives, each after the one before it,
    among any repetitions *)
Lemma deliver_all_complete c fs : cursor_ok c -> Forall frame_ok fs -> legal c fs ->
  forall l p q, fs = p ++ q -> Forall (fun f => f ∈ fs) l -> q `sublist_of` l ->
  deliver_all (fold_left advance p c) l = (fold_left advance fs c, q).
Proof.
  intros Hc Hfs Hl l. induction l as [|f l IH]; intros p q Hpq Hin Hsub.
  { apply sublist_nil_r in Hsub as ->. rw app_nil_r in Hpq. by subst. }
  apply Forall_cons in Hin as [Hf Hin]. cbn [deliver_all].
  assert (legal c p /\ legal (fold_left advance p c) q) as [Hlp Hlq] by (apply legal_app; congruence).
  assert (frame_ok f) as Hok by (by eapply Forall_forall in Hfs).
  assert (cursor_ok (fold_left advance p c)) as Hcp.
  { apply legal_cursor_ok; [done| |done]. by rewrite Hpq Forall_app in Hfs; destruct Hfs. }
  destruct (deliver_spec (fold_left advance p c) f Hcp Hok) as [[[Ha Hn] ->]|[Hno ->]].
  - apply list_elem_of_lookup in Hf as [i Hi]. pose proof (legal_lookup _ _ _ _ Hl Hi) as Hs.
    destruct Hn as [_ Hs' _]. rw (legal_last_sequence _ _ Hlp) in Hs'.
    assert (i = length p) as -> by lia. rewrite Hpq lookup_app_r ?Nat.sub_diag in Hi; [|done].
    destruct q as [|g q]; [done|]. injection Hi as ->.
    assert (q `sublist_of` l) as Hq.
    { apply sublist_cons_r in Hsub as [Hsub|(q' & [= <-] & Hsub)]; [|done].
      etransitivity; [|exact Hsub]. by apply sublist_cons. }
    pose proof (IH (p ++ [f]) q) as Hrec. rw fold_left_app in Hrec. cbn [fold_left] in Hrec.
    rw Hrec; [done| |done..]. by rw -app_assoc.
  - assert (q `sublist_of` l) as Hq.
    { apply sublist_cons_r in Hsub as [Hs|(q' & -> & Hs)]; [done|].
      destruct Hno. by destruct Hlq as (? & ? & _). }
    by rw (IH p q Hpq Hin Hq).
Qed.
End Shape.

(** ** The codec of frames *)
(** the ProtoJSON form of a message is parsed back to it *)
Class StreamProtobufSpec `{StreamProtobuf} : Prop := protojson_roundtrip m r :
  is_stream_response m = true -> MessageToDict m = Ok r ->
  ParseDict (map (fun '(k, v) => (JStr k, v)) r) = Ok m.

Section Codec.
Context `{StreamProtobuf} `{RFC8785}.
Import StreamSessionFrameV1.

Lemma frame_to_dict_ok f : frame_ok f -> exists r, MessageToDict (canonical_stream_response f) = Ok r
  /\ to_dict f = Ok [(u "schemaVersion", JStr STREAM_SCHEMA_VERSION);
      (u "streamSessionId", JStr (stream_session_id f));
      (u "streamOpenId", JStr (stream_open_id f)); (u "sequence", JInt (sequence f));
      (u "eventSeq", JInt (event_seq f)); (u "final", JBool (final f));
      (u "canonicalStreamResponse", JObj r); (u "payloadDigest", JStr (payload_digest f))].
Proof.
  intros Hf. pose proof (fo_digest f Hf) as Hd. unfold compute_payload_digest in Hd.
  apply bind_ok in Hd as (core & Hcore & _). unfold to_dict. rw Hcore.
  unfold core_dict, _frame_core_dict in Hcore. apply bind_ok in Hcore as (r & Hr%except_ok & Hcore).
  exists r. split; [exact Hr|]. by injection Hcore as <-.
Qed.

Lemma frame_codec `{!StreamProtobufSpec} f : frame_ok f ->
  exists d, to_dict f = Ok d /\ from_dict d = Ok f.
Proof.
  intros Hf. destruct (frame_to_dict_ok f Hf) as (r & Hr & ->). eexists. split; [done|].
  assert (init (JStr (stream_session_id f)) (JStr (stream_open_id f)) (JInt (sequence f))
    (JInt (event_seq f)) (JBool (final f)) (canonical_stream_response f) (JStr (payload_digest f)) = Ok f)
    as Hinit by (by apply frame_init_ok).
  pose proof (protojson_roundtrip _ _ (fo_response f Hf) Hr) as Hp.
  unfold from_dict. apply bind_ok_unit. split; [by apply raise_if_ok, neqb_false|].
  do 2 (apply bind_ok; eexists; split; [reflexivity|]).
  apply bind_ok. eexists. split; [reflexivity|].
  apply bind_ok. eexists. split; [apply except_ok; exact Hp|].
  do 6 (apply bind_ok; eexists; split; [reflexivity|]). exact Hinit.
Qed.

(** whatever data a frame is read from, it is a frame the constructor returns *)
Lemma from_dict_ok data f : from_dict data = Ok f -> frame_ok f.
Proof.
  unfold from_dict. intros (_ & (? & _ & (_ & (? & _ & (? & _ & Hr)%bind_ok)%bind_ok)%bind_ok_unit)
    %bind_ok)%bind_ok_unit.
  do 6 apply bind_ok in Hr as (? & _ & Hr).
  apply frame_init_ok in Hr as [? _]. done.
Qed.
End Codec.

(** ** The opened session *)
Lemma split_dots_join s : join_sep 46 (split_dots s) = s.
Proof.
  induction s as [|c s IH]; [done|]. cbn [split_dots]. destruct (split_dots s) as [|p ps] eqn:E.
  - destruct s as [|x s]; [done|]. cbn in E. destruct (split_dots s); [done|].
    by destruct (x =? 46)%N.
  - destruct (c =? 46)%N eqn:Ec.
    + apply N.eqb_eq in Ec as ->. change (join_sep 46 ([] :: p :: ps)) with (46%N :: join_sep 46 (p :: ps)).
      by rw IH.
    + destruct ps; cbn in IH |- *; by rw IH.
Qed.

Definition dotless (p : pystr) : Prop := Forall (fun c => c <> 46%N) p.

Lemma split_dots_dotless p : dotless p -> split_dots p = [p].
Proof.
  induction 1 as [|c p Hc _ IH]; [done|]. cbn. rw IH. by destruct (N.eqb_spec c 46).
Qed.

Lemma split_dots_app p s : dotless p -> split_dots (p ++ 46%N :: s) = p :: split_dots s.
Proof.
  induction 1 as [|c p Hc _ IH]; cbn.
  - destruct (split_dots s) eqn:E; [|done]. destruct s as [|x s]; [done|]. cbn in E.
    destruct (split_dots s); [done|]. by destruct (x =? 46)%N.
  - rw IH. by destruct (N.eqb_spec c 46).
Qed.

Definition subject_token (p : pystr) : Prop := p <> [] /\ Forall (fun c => is_b64 c = true) p.

Lemma subject_token_dotless p : subject_token p -> dotless p.
Proof. intros [_ H]. eapply Forall_impl; [exact H|]. by intros c Hc ->. Qed.

Lemma safe_token_subject p : safe_token p -> subject_token p.
Proof. intros [Hl Hp]. split; [|done]. intros ->. cbn in Hl. lia. Qed.

(** the delivery subject of an opened stream: two tokens and the stream's open id *)
Lemma delivery_subject_ok s o : delivery_subject_re s = true /\ after_last_dot s = o <->
  exists p1 p2, Forall subject_token [p1; p2; o]
    /\ s = u "_DELIVER.a2amesh.stream." ++ p1 ++ [46%N] ++ p2 ++ [46%N] ++ o.
Proof.
  unfold delivery_subject_re, after_last_dot. split.
  - intros [Hr <-]. pose proof (split_dots_join s) as Hj.
    destruct (split_dots s) as [|d [|m [|st [|p1 [|p2 [|p3 [|]]]]]]]; try done.
    cbn [default last]. exists p1, p2. cbn [join_sep] in Hj.
    apply andb_true_iff in Hr as [[[->%bool_decide_eq_true ->%bool_decide_eq_true]%andb_true_iff
      ->%bool_decide_eq_true]%andb_true_iff Hp]. split; [|by subst s].
    apply forallb_iff in Hp. eapply Forall_impl; [exact Hp|]. cbn.
    intros p [Hp1%neqb_true Hp2%forallb_iff]%andb_true_iff. done.
  - intros (p1 & p2 & Ht & ->). apply Forall_cons in Ht as [H1 Ht]. apply Forall_cons in Ht as [H2 Ht].
    apply Forall_cons in Ht as [H3 _].
    assert (split_dots (u "_DELIVER.a2amesh.stream." ++ p1 ++ [46%N] ++ p2 ++ [46%N] ++ o)
      = [u "_DELIVER"; u "a2amesh"; u "stream"; p1; p2; o]) as ->.
    { change (u "_DELIVER.a2amesh.stream.")
        with (u "_DELIVER" ++ 46%N :: u "a2amesh" ++ 46%N :: u "stream" ++ [46%N]).
      rw -!app_assoc. cbn [app]. rw -!app_assoc. cbn [app]. rw -!app_assoc. cbn [app].
      rw !split_dots_app; try (by apply subject_token_dotless); try by repeat constructor.
      by rw (split_dots_dotless o (subject_token_dotless o H3)). }
    split; [|done]. rw !bool_decide_eq_true_2; [|done..]. cbn [andb]. apply forallb_iff.
    repeat constructor; apply andb_true_iff; rw neqb_true forallb_iff; done.
Qed.

Section Opened.
Context `{StreamProtobuf} `{TaskStates}.
Import StreamSessionOpenedV1.

Record opened_ok (s : t) : Prop := {
  oo_session : safe_token (stream_session_id s);
  oo_open : safe_token (stream_open_id s);
  oo_task : safe_token (task_id s);
  oo_operation : streaming (operation s) = true;
  oo_subject : exists p1 p2, subject_token p1 /\ subject_token p2 /\ caller_delivery_subject s
    = u "_DELIVER.a2amesh.stream." ++ p1 ++ [46%N] ++ p2 ++ [46%N] ++ stream_open_id s;
  oo_snapshot : safe_integer (snapshot_event_seq s);
  oo_expires : is_Some (utcoffset_us (expires_at s));
  oo_frame_session : StreamSessionFrameV1.stream_session_id (initial_frame s) = stream_session_id s;
  oo_frame_open : StreamSessionFrameV1.stream_open_id (initial_frame s) = stream_open_id s;
  oo_frame_sequence : StreamSessionFrameV1.sequence (initial_frame s) = 0;
  oo_frame_event : StreamSessionFrameV1.event_seq (initial_frame s) = snapshot_event_seq s;
  oo_frame_task : exists state,
    payload_of (StreamSessionFrameV1.canonical_stream_response (initial_frame s))
      = PTask (task_id s) state
    /\ StreamSessionFrameV1.final (initial_frame s) = is_terminal_task_state (JInt state) }.

Lemma opened_init_ok s o k op d n x f y : init s o k op d n x f = Ok y <-> opened_ok y
  /\ s = JStr (stream_session_id y) /\ o = JStr (stream_open_id y) /\ k = JStr (task_id y)
  /\ op = operation y /\ d = JStr (caller_delivery_subject y) /\ n = JInt (snapshot_event_seq y)
  /\ x = expires_at y /\ f = initial_frame y.
Proof.
  unfold init. split.
  - intros Hr. apply bind_ok in Hr as (s' & [-> ?]%require_token_ok & Hr).
    apply bind_ok in Hr as (o' & [-> Ho]%require_token_ok & Hr).
    apply bind_ok in Hr as (k' & [-> ?]%require_token_ok & Hr).
    apply bind_ok_unit in Hr as [?%raise_if_ok%negb_false_iff Hr].
    apply bind_ok in Hr as (d' & Hd & Hr).
    apply bind_ok_unit in Hr as [Hdo%raise_if_ok%neqb_false Hr].
    assert (d = JStr d' /\ delivery_subject_re d' = true) as [-> Hre].
    { destruct d; try done. by apply bind_ok_unit in Hd as [?%raise_if_ok%negb_false_iff [= <-]]. }
    pose proof (proj1 (delivery_subject_ok d' o') (conj Hre Hdo)) as (p1 & p2 & Hp & Hsub).
    apply Forall_cons in Hp as [Hp1 Hp]. apply Forall_cons in Hp as [Hp2 _].
    apply bind_ok in Hr as (n' & [-> ?]%require_safe_integer_ok & Hr).
    apply bind_ok_unit in Hr as [Hx%raise_if_ok%bool_decide_eq_false Hr].
    do 2 (apply bind_ok_unit in Hr as [?%raise_if_ok%neqb_false Hr]).
    do 2 (apply bind_ok_unit in Hr as [?%raise_if_ok Hr]).
    apply bind_ok in Hr as ([id state] & Hpay & Hr). cbn beta iota in Hr.
    do 2 (apply bind_ok_unit in Hr as [?%raise_if_ok%neqb_false Hr]). injection Hr as <-. subst id.
    destruct (payload_of _) eqn:Epay; try done. injection Hpay as -> ->.
    split; [|done]. constructor; cbn; try done; try lia.
    + by exists p1, p2.
    + by apply not_eq_None_Some.
    + eexists. split; [exact Epay|done].
  - intros ([? ? ? Hop (p1 & p2 & Hp1 & Hp2 & Hsub) ? Hx Hs Ho Hn He (state & Hpay & Hfin)]
      & -> & -> & -> & -> & -> & -> & -> & ->). run_checks. rw Hop. cbn [negb raise_if]. run_checks.
    destruct (proj2 (delivery_subject_ok (caller_delivery_subject y) (stream_open_id y))) as [Hre Hdo].
    { exists p1, p2. split; [|done]. do 2 (apply Forall_cons; split; [done|]).
      apply Forall_singleton. by apply safe_token_subject. }
    rw Hre. cbn [negb raise_if]. run_checks.
    apply bind_ok_unit. split; [by apply raise_if_ok, neqb_false|]. run_checks.
    apply bind_ok_unit. split; [apply raise_if_ok, bool_decide_eq_false; by apply not_eq_None_Some|].
    do 2 (apply bind_ok_unit; split; [by apply raise_if_ok, neqb_false|]).
    do 2 (apply bind_ok_unit; split; [apply raise_if_ok; lia|]).
    apply bind_ok. exists (task_id y, state). split; [by rw Hpay|]. cbn beta iota.
    do 2 (apply bind_ok_unit; split; [by apply raise_if_ok, neqb_false|]). by destruct y.
Qed.

(** the cursor of an opened session *)
Lemma opened_cursor y : opened_ok y -> exists c,
  StreamFrameCursorV1.init (JStr (stream_session_id y)) (JStr (stream_open_id y)) (JStr (task_id y))
    (JInt (snapshot_event_seq y)) (JInt 0) JNull JNull (JBool false) = Ok c
  /\ cursor_ok c /\ position c = snapshot_event_seq y.
Proof.
  intros []. exists (StreamFrameCursorV1.make (stream_session_id y) (stream_open_id y) (task_id y)
    (snapshot_event_seq y) 0 (Some (snapshot_event_seq y)) None false).
  assert (cursor_ok (StreamFrameCursorV1.make (stream_session_id y) (stream_open_id y) (task_id y)
    (snapshot_event_seq y) 0 (Some (snapshot_event_seq y)) None false)) as Hok.
  { constructor; try done. by exists (snapshot_event_seq y). }
  split; [|done]. by apply (cursor_init_complete _ JNull Hok); right.
Qed.
End Opened.
