(* ===== verification/ProtocolTheorems.v ===== *)
(** * Theorems on the protocol contracts

    The lifecycle of a task, the identities of reconciliation operations, and
    stream sessions.  The witnesses use the numbers of the official
    enumeration, a small ProtoJSON codec and the reference serialiser. *)
From S2P Require Import Prelude PyStr Sha256 Json Rfc8785Reference Contract ContractFacts.
From S2P Require Import TaskState Reconciliation Stream StreamFacts.
Import Reconciliation.
Local Open Scope Z_scope.

(** ** The lifecycle of a task *)
(** [validate_task_state_transition] accepts a pair of Python values exactly when both are
    numbers of task states and the second state may follow the first: the first is not terminal
    and differs from the second, nothing returns to SUBMITTED, a submitted task neither completes
    nor is interrupted before it has worked, and one interruption does not follow another.
    Everything else raises [InvalidParamsError]. *)
Lemma task_transition_exact `{TaskStatesSpec} v v' :
  (validate_task_state_transition v v' = Ok tt /\ (exists t t', v = JInt (number t)
     /\ v' = JInt (number t') /\ may_follow t t' = true))
  \/ (exists msg, validate_task_state_transition v v' = Err (InvalidParamsError msg))
     /\ ~ (exists t t', v = JInt (number t) /\ v' = JInt (number t') /\ may_follow t t' = true).
Proof.
  destruct (validate_task_state_transition v v') as [[]|e] eqn:E.
  - left. split; [done|]. by apply transition_ok in E.
  - right. split; [|by intros Ht%(transition_ok v v' tt); rewrite Ht in E].
    destruct (transition_err v v' e E) as [msg ->]. by exists msg.
Qed.

#[local] Instance official_states : TaskStates := {|
  TASK_STATE_SUBMITTED := 1; TASK_STATE_WORKING := 2; TASK_STATE_COMPLETED := 3;
  TASK_STATE_FAILED := 4; TASK_STATE_CANCELED := 5; TASK_STATE_INPUT_REQUIRED := 6;
  TASK_STATE_REJECTED := 7; TASK_STATE_AUTH_REQUIRED := 8 |}.
#[local] Instance official_states_spec : TaskStatesSpec.
Proof. unfold TaskStatesSpec. by apply (bool_decide_unpack _). Qed.

Lemma task_transition_exact_witness : validate_task_state_transition (JInt 6) (JInt 3) = Ok tt.
Proof.
  destruct (task_transition_exact (JInt 6) (JInt 3)) as [[E _]|[_ Hno]]; [exact E|].
  exfalso. apply Hno. exists InputRequired, Completed. repeat split.
Defined.

(** C36: the history of a task.  When every step of a sequence of states from SUBMITTED is accepted,
    then a terminal state is the last one, SUBMITTED does not come back, and a task that ends up
    completed or interrupted has worked. *)
Theorem task_history `{TaskStatesSpec} ts :
  (forall i t t', (Submitted :: ts) !! i = Some t -> ts !! i = Some t' ->
     validate_task_state_transition (JInt (number t)) (JInt (number t')) = Ok tt) ->
  Submitted ∉ ts
  /\ (forall i t, ts !! i = Some t -> terminal t = true -> S i = length ts)
  /\ (forall t, last ts = Some t -> t = Completed \/ interrupted t = true -> Working ∈ ts).
Proof.
  intros Hsteps. assert (forall i t t', (Submitted :: ts) !! i = Some t -> ts !! i = Some t' ->
    may_follow t t' = true) as Hf.
  { intros i t t' Ht Ht'. pose proof (Hsteps i t t' Ht Ht') as Hr.
    apply transition_ok in Hr as (t1 & t2 & [= E1%number_inj] & [= E2%number_inj] & Hm). by subst. }
  split; [|split].
  - intros [i Hi]%list_elem_of_lookup. destruct (history_before ts i Submitted Hi) as [t Ht].
    pose proof (Hf i t Submitted Ht Hi) as Hm. by destruct t.
  - intros i t Hi Ht. destruct (ts !! S i) as [t'|] eqn:Hn.
    + pose proof (Hf (S i) t t' Hi Hn) as Hm. by destruct t, t'.
    + apply lookup_ge_None in Hn. apply lookup_lt_Some in Hi. lia.
  - intros t. apply path_worked. by apply steps_sorted.
Qed.
Lemma task_history_witness : Working ∈ [Working; InputRequired; Working; Completed].
Proof.
  apply (task_history [Working; InputRequired; Working; Completed]) with (t := Completed);
    [|reflexivity|by left].
  intros [|[|[|[|i]]]] t t' Ht Ht'; cbn in Ht, Ht'; try discriminate Ht';
    injection Ht as <-; injection Ht' as <-; vm_compute; reflexivity.
Defined.

(** ** The identities of reconciliation operations *)
(** Two due operations with the same preimage are the same operation: the kind, the case, the
    revision, the due time and the observed fence are all determined by the bytes hashed. *)
Lemma due_preimage_injective k1 c1 r1 d1 t1 k2 c2 r2 d2 t2 p :
  reconciliation_due_operation_preimage k1 c1 r1 d1 t1 = Ok p ->
  reconciliation_due_operation_preimage k2 c2 r2 d2 t2 = Ok p ->
  (k1, c1, r1, d1, t1) = (k2, c2, r2, d2, t2).
Proof.
  intros (kind1 & s1 & z1 & w1 & o1 & b1 & D1 & -> & -> & -> & -> & -> & Hb1 & ->)%due_preimage_ok.
  intros (kind2 & s2 & z2 & w2 & o2 & b2 & D2 & -> & -> & -> & -> & -> & Hb2 & E)%due_preimage_ok.
  apply join_sep_inj in E; [|done|exact (due_parts_nonzero _ _ _ _ _ _ D1 Hb1)|
    exact (due_parts_nonzero _ _ _ _ _ _ D2 Hb2)].
  injection E as Ek Eb Er Ed Et. subst b2.
  destruct (due_kind_value_inj _ _ Ek), D1, D2. rewrite (encode_utf8_inj _ _ _ Hb1 Hb2).
  apply py_str_int_inj in Er; [|lia..]. apply py_str_int_inj in Ed; [|lia..]. subst.
  by rewrite (token_text_inj kind1 o1 o2).
Qed.
Lemma due_preimage_injective_witness :
  (JStr (u "ESCALATE"), JStr (u "case-1"), JInt 2, JInt 1000, JNull)
  = (JStr (u "ESCALATE"), JStr (u "case-1"), JInt 2, JInt 1000, JNull).
Proof.
  destruct (reconciliation_due_operation_preimage (JStr (u "ESCALATE")) (JStr (u "case-1")) (JInt 2)
    (JInt 1000) JNull) as [p|e] eqn:E; [exact (due_preimage_injective _ _ _ _ _ _ _ _ _ _ p E E)|].
  exfalso. vm_compute in E. discriminate E.
Defined.

(** Two claims with the same scope bytes are the same claim of the same operator, and no claim
    hashes the bytes a due operation hashes. *)
Lemma claim_scope_injective c1 o1 h1 i1 c2 o2 h2 i2 p :
  reconciliation_claim_scope_bytes c1 o1 h1 i1 = Ok p ->
  reconciliation_claim_scope_bytes c2 o2 h2 i2 = Ok p ->
  (c1, o1, h1, i1) = (c2, o2, h2, i2)
  /\ forall k c r d t, reconciliation_due_operation_preimage k c r d t <> Ok (_CLAIM_PREFIX ++ p).
Proof.
  intros (s1 & x1 & y1 & z1 & b1 & e1 & Hs1 & Hy1 & Hz1 & -> & -> & -> & -> & Hb1 & He1 & ->)%claim_scope_ok.
  intros (s2 & x2 & y2 & z2 & b2 & e2 & Hs2 & Hy2 & Hz2 & -> & -> & -> & -> & Hb2 & He2 & E)%claim_scope_ok.
  apply join_sep_inj in E; [|done
    |exact (claim_parts_nonzero _ _ _ _ _ _ Hs1 Hy1 Hz1 Hb1 He1)
    |exact (claim_parts_nonzero _ _ _ _ _ _ Hs2 Hy2 Hz2 Hb2 He2)]. injection E as Eb Eo Eh Ei. subst.
  split.
  - rewrite (encode_utf8_inj _ _ _ Hb1 Hb2) (encode_utf8_inj _ _ _ He1 He2).
    by destruct (claim_operation_value_inj _ _ Eo).
  - intros k c r d t (kind & s & z & w & o & b & _ & _ & _ & _ & _ & _ & _ & E)%due_preimage_ok.
    cbn [join_sep] in E. unfold _CLAIM_PREFIX in E. rewrite -app_assoc in E.
    apply (app_sep_inj 0%N _CLAIM_DOMAIN _DUE_DOMAIN) in E as [E _]; [done|by repeat constructor..].
Qed.
Lemma claim_scope_injective_witness : exists p,
  reconciliation_claim_scope_bytes (JStr (u "case-1")) (JStr (u "RENEW")) (JStr (replicate 64 97%N))
    (JStr (u "key-1")) = Ok p
  /\ reconciliation_due_operation_preimage (JStr (u "ESCALATE")) (JStr (u "case-1")) (JInt 2)
       (JInt 1000) JNull <> Ok (_CLAIM_PREFIX ++ p).
Proof.
  destruct (reconciliation_claim_scope_bytes (JStr (u "case-1")) (JStr (u "RENEW"))
    (JStr (replicate 64 97%N)) (JStr (u "key-1"))) as [p|e] eqn:E;
    [|exfalso; vm_compute in E; discriminate E].
  exists p. split; [reflexivity|]. apply (claim_scope_injective _ _ _ _ _ _ _ _ p E E).
Defined.

(** ** Stream sessions *)
Section Streams.
Context `{StreamProtobuf} `{RFC8785} `{TaskStates}.
Import StreamFrameCursorV1.

(** The step of the cursor.  [accept] takes a frame exactly when it belongs to the cursor's
    session, opening and task, is marked final exactly when its status is terminal, and either
    repeats the frame admitted last (the cursor stays as it is) or is the next one: the stream is
    not over, the sequence number is one more and the event number is beyond the last one (the
    cursor advances to it). *)
Lemma accept_exact c f c' d : cursor_ok c -> frame_ok f ->
  accept c f = Ok (c', d) <-> addressed c f
    /\ (admitted_last c f /\ c' = c /\ d = REDELIVERY \/ next_frame c f /\ c' = advance c f /\ d = NEW).
Proof. apply accept_ok. Qed.

(** C35: whatever frames a caller offers a cursor that it keeps when [accept] raises, in whatever
    order, those the cursor reports as new come in order
    and without gaps: their sequence numbers are consecutive from the cursor's, their event numbers
    ascend strictly from the cursor's position, all belong to the stream's task, a final frame is
    the last of them and ends the task, and the cursor is well formed again. *)
Theorem stream_in_order c l : cursor_ok c -> Forall frame_ok l ->
  exists out, deliver_all c l = (fold_left advance out c, out)
    /\ out `sublist_of` l
    /\ map StreamSessionFrameV1.sequence out = seqZ (last_sequence c + 1) (Z.of_nat (length out))
    /\ StronglySorted Z.lt (position c :: map StreamSessionFrameV1.event_seq out)
    /\ Forall (fun f => _live_event_identity f = Ok (task_id c, StreamSessionFrameV1.final f)) out
    /\ (forall i f, out !! i = Some f -> StreamSessionFrameV1.final f = true -> S i = length out)
    /\ cursor_ok (fold_left advance out c).
Proof.
  intros Hc Hl. destruct (deliver_all_sound l c Hc Hl) as (out & E & Hlegal & Hsub).
  assert (Forall frame_ok out) as Hout.
  { apply Forall_forall. intros f Hf. eapply Forall_forall; [exact Hl|]. by eapply elem_of_sublist. }
  exists out. do 2 (split; [done|]). split; [by apply legal_sequence|].
  split; [by apply legal_events|]. split.
  { eapply Forall_impl; [exact (legal_addressed out c Hlegal)|]. by intros f (_ & _ & Hf). }
  split; [intros i f; by apply (legal_final out c)|]. by apply legal_cursor_ok.
Qed.

(** C34: when every frame is reported.  Let the frames of a stream be such that they can be admitted
    one after the other, and let only frames of that stream arrive, repeated and in any order, at a
    caller that keeps its cursor when [accept] raises.  If each frame arrives at least once after
    the one before it has arrived, the cursor reports every frame as new exactly once, in the order
    of the stream; and if it reports them all, they have arrived so. *)
Theorem stream_exactly_once c fs l : cursor_ok c -> Forall frame_ok fs -> legal c fs ->
  Forall (fun f => f ∈ fs) l ->
  deliver_all c l = (fold_left advance fs c, fs) <-> fs `sublist_of` l.
Proof.
  intros Hc Hf Hl Hin. split; [|intros Hs; by apply (deliver_all_complete c fs Hc Hf Hl l [] fs)].
  intros Ed. destruct (deliver_all_sound l c Hc) as (out & E & _ & Hsub).
  - eapply Forall_impl; [exact Hin|]. intros f. by apply Forall_forall.
  - rewrite Ed in E. by injection E as _ <-.
Qed.
End Streams.

(** The frame codec: the dict a frame is sent as is read back to the frame, digest check
    included, and nothing but a well-formed frame is ever read. *)
Lemma frame_roundtrip `{StreamProtobufSpec} `{RFC8785} f : frame_ok f ->
  (exists data, StreamSessionFrameV1.to_dict f = Ok data /\ StreamSessionFrameV1.from_dict data = Ok f)
  /\ (forall data f', StreamSessionFrameV1.from_dict data = Ok f' -> frame_ok f').
Proof. intros Hf. split; [by apply frame_codec|]. apply from_dict_ok. Qed.

(** An opened session starts its stream.  The response to an open request is accepted only
    with a snapshot of the session's task in frame zero, at the announced event number, final
    exactly when the task is over, and with a delivery subject that ends in the session's open id;
    and from every accepted response the cursor of the stream can be made, which then admits only
    frames after the snapshot. *)
Lemma opened_starts_stream `{StreamProtobuf} `{RFC8785} `{TaskStates} s o k op d n x f y :
  StreamSessionOpenedV1.init s o k op d n x f = Ok y ->
  opened_ok y
  /\ exists c, StreamFrameCursorV1.init s o k n (JInt 0) JNull JNull (JBool false) = Ok c
    /\ forall l, Forall frame_ok l ->
       Forall (fun g => StreamSessionFrameV1.event_seq f < StreamSessionFrameV1.event_seq g)
         (deliver_all c l).2.
Proof.
  intros (Hy & -> & -> & -> & -> & -> & -> & -> & ->)%opened_init_ok. split; [done|].
  destruct (opened_cursor y Hy) as (c & Hc & Hok & Hpos). exists c. split; [exact Hc|]. intros l Hl.
  destruct (deliver_all_sound l c Hok Hl) as (out & -> & Hlegal & _). cbn [snd].
  rewrite (oo_frame_event y Hy) -Hpos.
  pose proof (legal_events out c Hlegal) as [_ Hs]%StronglySorted_inv. exact (proj1 (Forall_map _ _ _) Hs).
Qed.

(** ** A stream *)
(** messages as their payloads, and a codec for those a stream carries *)
Definition encode_payload (m : payload) : result dict :=
  let event kind id state := Ok [(u kind, JObj [(u "id", JStr id); (u "state", JInt state)])] in
  match m with
  | PTask id state => event "task" id state
  | PStatusUpdate id state => event "statusUpdate" id state
  | PArtifactUpdate id => Ok [(u "artifactUpdate", JStr id)]
  | _ => Err SerializeToJsonError
  end.
Definition decode_payload (data : assignments) : result payload :=
  match data with
  | [(JStr kind, JObj [(_, JStr id); (_, JInt state)])] =>
    if bool_decide (kind = u "task") then Ok (PTask id state) else Ok (PStatusUpdate id state)
  | [(_, JStr id)] => Ok (PArtifactUpdate id)
  | _ => Err ParseError
  end.
#[local] Instance payload_messages : StreamProtobuf := {|
  ProtobufMessage := payload; is_stream_response := fun _ => true; payload_of := fun m => m;
  MessageToDict := encode_payload; ParseDict := decode_payload |}.
#[local] Instance payload_messages_spec : StreamProtobufSpec.
Proof. by intros [] r _ [= <-]. Qed.

Definition no_frame : StreamSessionFrameV1.t :=
  StreamSessionFrameV1.make [] [] 0 0 false NoPayload [].
Definition frame (n e : Z) (fin : bool) (m : payload) : StreamSessionFrameV1.t :=
  match StreamSessionFrameV1.create (JStr (u "session-1")) (JStr (u "open-1")) (JInt n) (JInt e)
    (JBool fin) m with Ok f => f | Err _ => no_frame end.
Definition snapshot_frame : StreamSessionFrameV1.t :=
  Eval vm_compute in frame 0 4 false (PTask (u "task-1") 2).
Definition frame1 : StreamSessionFrameV1.t :=
  Eval vm_compute in frame 1 5 false (PStatusUpdate (u "task-1") 2).
Definition frame2 : StreamSessionFrameV1.t :=
  Eval vm_compute in frame 2 7 false (PArtifactUpdate (u "task-1")).
Definition frame3 : StreamSessionFrameV1.t :=
  Eval vm_compute in frame 3 8 true (PStatusUpdate (u "task-1") 3).

Lemma frame_created_ok n e fin m f : StreamSessionFrameV1.create (JStr (u "session-1"))
  (JStr (u "open-1")) (JInt n) (JInt e) (JBool fin) m = Ok f -> frame_ok f.
Proof. by intros [? _]%frame_create_ok. Qed.
Lemma snapshot_frame_ok : frame_ok snapshot_frame.
Proof. apply (frame_created_ok 0 4 false (PTask (u "task-1") 2)). vm_compute. reflexivity. Qed.
Lemma frames_ok : Forall frame_ok [frame1; frame2; frame3].
Proof.
  apply Forall_cons; split; [|apply Forall_cons; split; [|apply Forall_singleton]].
  - apply (frame_created_ok 1 5 false (PStatusUpdate (u "task-1") 2)). vm_compute. reflexivity.
  - apply (frame_created_ok 2 7 false (PArtifactUpdate (u "task-1"))). vm_compute. reflexivity.
  - apply (frame_created_ok 3 8 true (PStatusUpdate (u "task-1") 3)). vm_compute. reflexivity.
Qed.

Definition cursor0 : StreamFrameCursorV1.t :=
  StreamFrameCursorV1.make (u "session-1") (u "open-1") (u "task-1") 4 0 (Some 4) None false.
Definition cursor1 : StreamFrameCursorV1.t := Eval vm_compute in advance cursor0 frame1.
Lemma cursor0_ok : cursor_ok cursor0.
Proof.
  by apply (cursor_init_sound (JStr (u "session-1")) (JStr (u "open-1")) (JStr (u "task-1"))
    (JInt 4) (JInt 0) JNull JNull (JBool false)).
Qed.
Lemma stream_legal : legal cursor0 [frame1; frame2; frame3].
Proof. by repeat constructor. Qed.

Lemma accept_exact_witness : StreamFrameCursorV1.accept cursor0 frame1 = Ok (cursor1, NEW).
Proof.
  apply (accept_exact cursor0 frame1 cursor1 NEW cursor0_ok);
    [apply (proj1 (Forall_cons _ _ _) frames_ok)|].
  split; [by repeat constructor|]. right. by repeat constructor.
Defined.
(** the first frame is repeated, and the third one comes too early *)
Lemma stream_in_order_witness : exists out,
  deliver_all cursor0 [frame1; frame1; frame3; frame2] = (fold_left advance out cursor0, out)
  /\ map StreamSessionFrameV1.sequence out = seqZ 1 (Z.of_nat (length out)).
Proof.
  destruct (stream_in_order cursor0 [frame1; frame1; frame3; frame2] cursor0_ok)
    as (out & E & _ & Hs & _).
  - pose proof frames_ok as Hf. repeat (apply Forall_cons in Hf as [? Hf]).
    repeat (apply Forall_cons; split; [assumption|]). apply Forall_nil_2.
  - exists out. exact (conj E Hs).
Defined.
Lemma stream_exactly_once_witness :
  (deliver_all cursor0 [frame3; frame1; frame3; frame1; frame2; frame1; frame3; frame3]).2
  = [frame1; frame2; frame3].
Proof.
  assert (deliver_all cursor0 [frame3; frame1; frame3; frame1; frame2; frame1; frame3; frame3]
    = (fold_left advance [frame1; frame2; frame3] cursor0, [frame1; frame2; frame3])) as ->; [|reflexivity].
  apply (stream_exactly_once cursor0 [frame1; frame2; frame3]
    [frame3; frame1; frame3; frame1; frame2; frame1; frame3; frame3] cursor0_ok frames_ok stream_legal).
  - repeat (apply Forall_cons; split; [set_solver|]). apply Forall_nil_2.
  - apply sublist_cons, sublist_skip, sublist_cons, sublist_cons, sublist_skip, sublist_cons,
      sublist_skip, sublist_nil_l.
Defined.
(** the second frame arrives before the first one only: it is never reported *)
Example frame_too_early : (deliver_all cursor0 [frame2; frame1]).2 = [frame1].
Proof. vm_compute. reflexivity. Qed.
Lemma frame_roundtrip_witness : exists data,
  StreamSessionFrameV1.to_dict frame3 = Ok data /\ StreamSessionFrameV1.from_dict data = Ok frame3.
Proof.
  apply (frame_roundtrip frame3). pose proof frames_ok as Hf.
  repeat (apply Forall_cons in Hf as [? Hf]). assumption.
Defined.
Definition opened_session : StreamSessionOpenedV1.t :=
  StreamSessionOpenedV1.make (u "session-1") (u "open-1") (u "task-1") SUBSCRIBE_TO_TASK
    (u "_DELIVER.a2amesh.stream.org-1.agent-1.open-1") 4
    {| wall_clock_us := 1700000000000000; utcoffset_us := Some 0 |} snapshot_frame.
Lemma opened_starts_stream_witness : opened_ok opened_session.
Proof.
  apply (opened_starts_stream (JStr (u "session-1")) (JStr (u "open-1")) (JStr (u "task-1"))
    SUBSCRIBE_TO_TASK (JStr (u "_DELIVER.a2amesh.stream.org-1.agent-1.open-1")) (JInt 4)
    {| wall_clock_us := 1700000000000000; utcoffset_us := Some 0 |} snapshot_frame).
  vm_compute. reflexivity.
Defined.
