(* ===== verification/Identity.v ===== *)
(** * Principals, aliases and signed authentication contexts

    [src/a2amesh/identity/principal.py], [nkey.py] and [auth_context.py].  The
    packages [nkeys] and [nacl] are the operations of the class [NKeys]; base32
    and [json.dumps], of the standard library, are defined here as far as the
    modules use them.  The clock is an argument, as in the source. *)
From S2P Require Import Prelude PyStr Json JsonFacts Rfc8785Reference.
Local Open Scope py_scope.
Local Open Scope Z_scope.

(** [s.split(":", 1)[0]] *)
Fixpoint before_colon (s : pystr) : pystr :=
  match s with
  | c :: r => if (c =? 58)%N then [] else c :: before_colon r
  | [] => []
  end.

(** ** Principals *)
Definition principal_kinds : list pystr := [u "agent"; u "a2a"; u "mcp"; u "system"].
(** a character of [A-Za-z0-9._:-] *)
Definition principal_char (c : N) : bool :=
  is_b64 c || (c =? 46)%N || (c =? 58)%N.

(** [_PRINCIPAL_RE.fullmatch] *)
Definition principal_re (s : pystr) : bool :=
  existsb (fun kind =>
    match strip_prefix (kind ++ [58%N]) s with
    | Some rest => (1 <=? Z.of_nat (length rest)) && (Z.of_nat (length rest) <=? 240)
                   && forallb principal_char rest
    | None => false
    end) principal_kinds.

Module Principal.
Record t := make {
  id : pystr;
  kind : pystr;
  credential_id : option pystr;
  alias_generation : Z }.

(** the constructor with its [__post_init__]; the message of the first error leaves out the
    identifier it quotes *)
Definition init (id kind : pystr) (credential_id : option pystr) (alias_generation : Z)
    : result t :=
  raise_if (negb (principal_re id)) (ValueError "invalid canonical principal");;
  let prefix := before_colon id in
  raise_if (prefix != kind) (ValueError "principal kind must match its ID prefix");;
  Ok (make id kind credential_id alias_generation).
End Principal.

Module AliasRegistry.
Record t := make {
  _targets : gmap pystr (pystr * Z);
  _next_generation : Z }.
Definition empty : t := make ∅ 1.

Definition add (self : t) (source target : pystr) : result (t * Z) :=
  Principal.init source (before_colon source) None 0;;
  Principal.init target (before_colon target) None 0;;
  raise_if (source == target) (ValueError "an alias cannot target itself");;
  match _targets self !! source with
  | Some existing =>
    raise_if (existing.1 != target) (ValueError "principal aliases are immutable");;
    Ok (self, existing.2)
  | None =>
    raise_if (match _targets self !! target with Some _ => true | None => false end)
      (ValueError "alias chains are forbidden");;
    raise_if (existsb (fun '(_, value) => value.1 == source) (map_to_list (_targets self)))
      (ValueError "an existing alias target cannot become an alias source");;
    let generation := _next_generation self in
    Ok (make (<[source := (target, generation)]> (_targets self)) (_next_generation self + 1),
        generation)
  end.

Definition resolve (self : t) (source : pystr) : pystr * Z :=
  default (source, 0) (_targets self !! source).
End AliasRegistry.

(** ** NKey signatures *)
Class NKeys := {
  crc16 : pybytes -> N;
  valid_public_prefix_byte : N -> bool;
  (** [nacl.signing.VerifyKey(key).verify(payload, signature)] raises nothing *)
  ed25519_verify : pybytes -> pybytes -> pybytes -> bool;
  KeyPair : Type;
  (** [key_pair.public_key], a [bytes] or a [str] *)
  public_key : KeyPair -> pybytes + pystr;
  sign : KeyPair -> pybytes -> pybytes }.

(** [b.decode("ascii")] *)
Definition decode_ascii (b : pybytes) : result pystr :=
  raise_if (negb (forallb (fun x => (x <? 128)%N) b)) UnicodeError;; Ok b.

Definition nkey_public_key `{NKeys} (key_pair : KeyPair) : result pystr :=
  match public_key key_pair with inl public => decode_ascii public | inr public => Ok public end.

Definition _b64url_encode (data : pybytes) : pystr := b64_encode data.

(** with the padding the source adds, [base64.urlsafe_b64decode] refuses only texts of length one
    more than a multiple of four among those over the alphabet *)
Definition _b64url_decode (value : pystr) : result pybytes :=
  raise_if ((value == []) || negb (forallb is_b64 value))
    (ValueError "invalid base64url signature encoding");;
  decoded ← or_raise (if Nat.eqb (length value mod 4) 1 then None else b64_decode value)
    (ValueError "invalid base64url signature encoding");
  raise_if (_b64url_encode decoded != value)
    (ValueError "non-canonical base64url signature encoding");;
  Ok decoded.

Definition sign_nkey `{NKeys} (payload : pybytes) (key_pair : KeyPair) : pystr :=
  _b64url_encode (sign key_pair payload).

(** the base32 alphabet A-Z2-7 *)
Definition b32_value (c : N) : option N :=
  if ((65 <=? c) && (c <=? 90))%N then Some (c - 65)%N
  else if ((50 <=? c) && (c <=? 55))%N then Some (c - 24)%N
  else None.

(** the whole bytes of a sequence of five-bit values, most significant bit first; [acc] holds the
    [bits] bits not yet used *)
Fixpoint b32_join (acc : N) (bits : N) (v : list N) : pybytes :=
  match v with
  | [] => []
  | x :: v =>
    let acc := (acc * 32 + x)%N in
    let bits := (bits + 5)%N in
    if (8 <=? bits)%N
    then (acc / 2 ^ (bits - 8))%N :: b32_join (acc mod 2 ^ (bits - 8))%N (bits - 8)%N v
    else b32_join acc bits v
  end.

(** [base64.b32decode] of a text padded to a multiple of eight: 0, 1, 3, 4 or 6 padding characters
    are possible *)
Definition b32_decode (s : pystr) : option pybytes :=
  if existsb (Nat.eqb (length s mod 8)) [0; 2; 4; 5; 7]%nat
  then b32_join 0 0 <$> mapM b32_value s else None.

(** the 32 bytes of the key behind the checks of the encoding *)
Definition _decode_nkey_public_key `{NKeys} (public_key : pystr) : result pybytes :=
  raise_if ((public_key == []) || negb (forallb (fun c => bool_decide (is_Some (b32_value c))) public_key))
    (ValueError "invalid NKey encoding");;
  raw ← or_raise (b32_decode public_key) (ValueError "invalid NKey encoding");
  raise_if (negb (Nat.eqb (length raw) 35)) (ValueError "invalid NKey public-key length");;
  let payload := take 33 raw in
  let checksum := drop 33 raw in
  raise_if ([crc16 payload mod 256; crc16 payload / 256]%N != checksum)
    (ValueError "invalid NKey checksum");;
  raise_if (negb (valid_public_prefix_byte (default 0%N (head payload))))
    (ValueError "invalid NKey public prefix");;
  Ok (tail payload).

Definition verify_nkey_signature `{NKeys} (public_key : pystr) (payload : pybytes)
    (signature : pystr) : result unit :=
  verify_key ← _decode_nkey_public_key public_key;
  decoded_signature ← _b64url_decode signature;
  raise_if (negb (Nat.eqb (length decoded_signature) 64))
    (ValueError "invalid NKey signature length");;
  raise_if (negb (ed25519_verify verify_key payload decoded_signature))
    (ValueError "invalid NKey signature").

(** ** Authentication contexts *)
Module AuthContext.
Record t := make {
  principal_id : pystr;
  credential_id : option pystr;
  method : pystr;
  issuer : pystr;
  subject : pystr;
  issued_at : Z;
  expires_at : Z;
  request_id : pystr;
  target_agent_id : pystr;
  alias_generation : Z }.

(** [now] is the clock when the argument is not given *)
Definition create (principal : Principal.t) (method issuer subject request_id target_agent_id : pystr)
    (now ttl_seconds : Z) : result t :=
  raise_if ((ttl_seconds <=? 0) || (900 <? ttl_seconds))
    (ValueError "AuthContext TTL must be between 1 and 900 seconds");;
  let issued_at := now in
  Ok (make (Principal.id principal) (Principal.credential_id principal) method issuer subject
        issued_at (issued_at + ttl_seconds) request_id target_agent_id
        (Principal.alias_generation principal)).

(** [asdict(self)] with its keys sorted *)
Definition sorted_members (self : t) : list (pystr * json) :=
  [(u "alias_generation", JInt (alias_generation self));
   (u "credential_id", match credential_id self with Some s => JStr s | None => JNull end);
   (u "expires_at", JInt (expires_at self));
   (u "issued_at", JInt (issued_at self));
   (u "issuer", JStr (issuer self));
   (u "method", JStr (method self));
   (u "principal_id", JStr (principal_id self));
   (u "request_id", JStr (request_id self));
   (u "subject", JStr (subject self));
   (u "target_agent_id", JStr (target_agent_id self))].

(** [json.dumps] with [ensure_ascii=False] and the compact separators writes strings, integers and
    [None] as [serialize] does *)
Definition canonical_bytes (self : t) : result pybytes :=
  encode_utf8 (serialize (JObj (sorted_members self))).
End AuthContext.

Module AuthProof.
Record t := make { signer : pystr; algorithm : pystr; signature : pystr }.
End AuthProof.

Definition NKEY_ED25519 : pystr := u "nkey-ed25519".

Definition sign_auth_context `{NKeys} (context : AuthContext.t) (key_pair : KeyPair)
    : result AuthProof.t :=
  signer ← nkey_public_key key_pair;
  payload ← AuthContext.canonical_bytes context;
  Ok (AuthProof.make signer NKEY_ED25519 (sign_nkey payload key_pair)).

Record SignerPolicy := {
  principal_ids : gset pystr;
  methods : gset pystr;
  subjects : gset pystr }.

Module AuthContextVerifier.
Record t := make {
  signer_policies : gmap pystr SignerPolicy;
  clock_skew_seconds : Z;
  _seen : gmap pystr Z }.

Definition init (signer_policies : gmap pystr SignerPolicy) (clock_skew_seconds : Z) : result t :=
  raise_if (bool_decide (signer_policies = ∅))
    (ValueError "at least one AuthContext signer policy is required");;
  Ok (make signer_policies clock_skew_seconds ∅).

Definition purge (self : t) (current : Z) : t :=
  make (signer_policies self) (clock_skew_seconds self)
    (filter (fun '(_, expiry) => current <= expiry) (_seen self)).

Definition remember (self : t) (request_id : pystr) (expires_at : Z) : t :=
  make (signer_policies self) (clock_skew_seconds self)
    (<[request_id := expires_at]> (_seen self)).

(** the checks before the request is remembered *)
Definition check `{NKeys} (self : t) (context : AuthContext.t) (proof : AuthProof.t)
    (expected_target : pystr) (current : Z) : result unit :=
  policy ←
    (match signer_policies self !! AuthProof.signer proof with
     | Some policy =>
       raise_if (AuthProof.algorithm proof != NKEY_ED25519)
         (ValueError "untrusted AuthContext signer");;
       Ok policy
     | None => Err (ValueError "untrusted AuthContext signer")
     end);
  raise_if (negb (bool_decide (AuthContext.principal_id context ∈ principal_ids policy)))
    (ValueError "signer cannot represent this principal");;
  raise_if (negb (bool_decide (AuthContext.method context ∈ methods policy)))
    (ValueError "signer cannot use this authentication method");;
  raise_if (negb (bool_decide (AuthContext.subject context ∈ subjects policy)))
    (ValueError "signer cannot represent this subject");;
  raise_if (AuthContext.target_agent_id context != expected_target)
    (ValueError "AuthContext target mismatch");;
  raise_if (current + clock_skew_seconds self <? AuthContext.issued_at context)
    (ValueError "AuthContext was issued in the future");;
  raise_if (AuthContext.expires_at context <? current - clock_skew_seconds self)
    (ValueError "AuthContext expired");;
  raise_if ((AuthContext.expires_at context <=? AuthContext.issued_at context)
      || (900 <? AuthContext.expires_at context - AuthContext.issued_at context))
    (ValueError "invalid AuthContext lifetime");;
  raise_if (match _seen self !! AuthContext.request_id context with Some _ => true | None => false end)
    (ValueError "AuthContext replay detected");;
  except
    (payload ← AuthContext.canonical_bytes context;
     verify_nkey_signature (AuthProof.signer proof) payload (AuthProof.signature proof))
    (fun e => match e with ValueError _ | UnicodeError => true | _ => false end)
    (ValueError "invalid AuthContext signature").

(** the verifier changes whether the call returns or raises *)
Definition verify `{NKeys} (self : t) (context : AuthContext.t) (proof : AuthProof.t)
    (expected_target : pystr) (current : Z) : t * result Principal.t :=
  let self := purge self current in
  match check self context proof expected_target current with
  | Err e => (self, Err e)
  | Ok _ =>
    (remember self (AuthContext.request_id context) (AuthContext.expires_at context),
     Principal.init (AuthContext.principal_id context)
       (before_colon (AuthContext.principal_id context)) (AuthContext.credential_id context)
       (AuthContext.alias_generation context))
  end.
End AuthContextVerifier.
