(* ===== verification/IdentityFacts.v ===== *)
(** * Principals, aliases and authentication contexts: facts

    The invariant of the alias registry and what an addition does; when the
    verifier accepts a context, and how long it remembers one. *)
From S2P Require Import Prelude PyStr Json JsonFacts Rfc8785Reference Identity.
Local Open Scope py_scope.
Local Open Scope Z_scope.

Lemma principal_init_ok id kind cred gen p : Principal.init id kind cred gen = Ok p <->
  principal_re id = true /\ before_colon id = kind /\ p = Principal.make id kind cred gen.
Proof.
  unfold Principal.init. cbv zeta.
  rw bind_ok_unit raise_if_ok negb_false_iff bind_ok_unit raise_if_ok neqb_false Ok_inj_iff.
  naive_solver.
Qed.

(** ** Aliases *)
Section Aliases.
Import AliasRegistry.

Record registry_ok (r : t) : Prop := {
  ro_canonical : forall s x g, _targets r !! s = Some (x, g) -> _targets r !! x = None;
  ro_generation : forall s x g, _targets r !! s = Some (x, g) -> 1 <= g < _next_generation r;
  ro_distinct : forall s s' x x' g, _targets r !! s = Some (x, g) -> _targets r !! s' = Some (x', g) ->
    s = s';
  ro_principal : forall s x g, _targets r !! s = Some (x, g) -> principal_re x = true;
  ro_next : 1 <= _next_generation r }.

Definition added (r : t) (s x : pystr) : t :=
  make (<[s := (x, _next_generation r)]> (_targets r)) (_next_generation r + 1).

(** a new alias: neither end has a part in another one it could be chained with *)
Record new_alias (r : t) (s x : pystr) : Prop := {
  na_source : _targets r !! s = None;
  na_target : _targets r !! x = None;
  na_unaimed : forall s' x' g, _targets r !! s' = Some (x', g) -> x' <> s }.

Lemma alias_add_ok r s x r' g : add r s x = Ok (r', g) <->
  principal_re s = true /\ principal_re x = true /\ s <> x
  /\ (_targets r !! s = Some (x, g) /\ r' = r
      \/ new_alias r s x /\ g = _next_generation r /\ r' = added r s x).
Proof.
  unfold add. split.
  - intros (p & (Hs & _ & _)%principal_init_ok & Hr)%bind_ok.
    apply bind_ok in Hr as (p' & (Hx & _ & _)%principal_init_ok & Hr).
    apply bind_ok_unit in Hr as [Hne%raise_if_ok%bool_decide_eq_false Hr].
    do 3 (split; [done|]). destruct (_targets r !! s) as [[x' g']|] eqn:E; cbn [fst snd] in Hr.
    + left. apply bind_ok_unit in Hr as [->%raise_if_ok%neqb_false Hr]. by injection Hr as <- <-.
    + right. apply bind_ok_unit in Hr as [Ht%raise_if_ok Hr].
      apply bind_ok_unit in Hr as [Ha%raise_if_ok%existsb_false_iff Hr]. injection Hr as <- <-.
      split; [|done]. constructor; [done|by destruct (_targets r !! x)|].
      intros s' x' g' Hs'. rewrite Forall_forall in Ha.
      specialize (Ha (s', (x', g')) (proj2 (elem_of_map_to_list _ _ _) Hs')). cbn in Ha.
      by apply bool_decide_eq_false in Ha.
  - intros (Hs & Hx & Hne & Hr).
    apply bind_ok. eexists. split; [by apply principal_init_ok|].
    apply bind_ok. eexists. split; [by apply principal_init_ok|].
    apply bind_ok_unit. split; [by apply raise_if_ok, bool_decide_eq_false|].
    destruct Hr as [[-> ->]|([Hns Hnt Hu] & -> & ->)].
    + apply bind_ok_unit. split; [by apply raise_if_ok, neqb_false|done].
    + rewrite Hns. apply bind_ok_unit. split; [by rewrite Hnt|].
      apply bind_ok_unit. split; [|done]. apply raise_if_ok, existsb_false_iff, Forall_forall.
      intros [s' [x' g']] Hin%elem_of_map_to_list. apply bool_decide_eq_false. by eapply Hu.
Qed.

Lemma empty_ok : registry_ok empty.
Proof. constructor; cbn; [intros *|intros *|intros *|intros *|lia]; by rewrite lookup_empty. Qed.

Lemma alias_add_preserves r s x r' g : registry_ok r -> add r s x = Ok (r', g) -> registry_ok r'.
Proof.
  intros [Hc Hg Hd Hp Hn] (_ & Hx & Hne & [[_ ->]|([Hns Hnt Hu] & -> & ->)])%alias_add_ok; [done|].
  constructor; cbn; [| | | |lia].
  - intros s' x' g'. rewrite lookup_insert_Some. intros [[<- [= <- <-]]|[Hs' Hl]].
    + by rewrite lookup_insert_ne.
    + rewrite lookup_insert_ne; [by eapply Hc|]. intros ->. by eapply Hu.
  - intros s' x' g'. rewrite lookup_insert_Some. intros [[<- [= <- <-]]|[_ Hl%Hg]]; lia.
  - intros s1 s2 x1 x2 g'. rewrite !lookup_insert_Some.
    intros [[<- [= <- <-]]|[_ H1]] [[<- [= <-]]|[_ H2]]; try done.
    + apply Hg in H2. lia.
    + apply Hg in H1. lia.
    + by eapply Hd.
  - intros s' x' g'. rewrite lookup_insert_Some. intros [[<- [= <- <-]]|[_ Hl]]; [done|by eapply Hp].
Qed.

(** an addition changes no alias that is there *)
Lemma alias_add_keeps r s x r' g s' : add r s x = Ok (r', g) -> is_Some (_targets r !! s') ->
  _targets r' !! s' = _targets r !! s'.
Proof.
  intros (_ & _ & _ & [[_ ->]|([Hns _ _] & _ & ->)])%alias_add_ok Hs; [done|]. cbn.
  apply lookup_insert_ne. intros <-. rewrite Hns in Hs. by destruct Hs.
Qed.

Definition adds (r r' : t) : Prop := exists s x g, add r s x = Ok (r', g).

Lemma history_ok r r' : rtc adds r r' -> registry_ok r -> registry_ok r'.
Proof.
  induction 1 as [|r1 r2 r3 (s & x & g & Ha) _ IH]; [done|]. intros H. by eapply IH, alias_add_preserves.
Qed.

Lemma history_keeps r r' s v : rtc adds r r' -> _targets r !! s = Some v -> _targets r' !! s = Some v.
Proof.
  induction 1 as [|r1 r2 r3 (s1 & x & g & Ha) _ IH]; [done|]. intros H. apply IH.
  by rewrite (alias_add_keeps _ _ _ _ _ s Ha).
Qed.

Lemma resolve_alias r s : resolve r s = match _targets r !! s with Some v => v | None => (s, 0) end.
Proof. unfold resolve. by destruct (_targets r !! s). Qed.

Lemma registry_principal r s : registry_ok r -> principal_re s = true -> principal_re (resolve r s).1 = true.
Proof.
  intros Hr Hs. rewrite resolve_alias. destruct (_targets r !! s) as [[x g]|] eqn:E; [|done].
  by eapply ro_principal.
Qed.
End Aliases.

(** ** The verifier *)
Section Verifier.
Context `{NKeys}.
Import AuthContextVerifier.

(** the signature covers the context *)
Definition signed (context : AuthContext.t) (proof : AuthProof.t) : Prop :=
  exists payload, AuthContext.canonical_bytes context = Ok payload
    /\ verify_nkey_signature (AuthProof.signer proof) payload (AuthProof.signature proof) = Ok tt.

(** everything but the clock and the requests seen *)
Record trusted (v : t) (context : AuthContext.t) (proof : AuthProof.t) (target : pystr) : Prop := {
  tr_policy : exists policy, signer_policies v !! AuthProof.signer proof = Some policy
    /\ AuthContext.principal_id context ∈ principal_ids policy
    /\ AuthContext.method context ∈ methods policy
    /\ AuthContext.subject context ∈ subjects policy;
  tr_algorithm : AuthProof.algorithm proof = NKEY_ED25519;
  tr_target : AuthContext.target_agent_id context = target;
  tr_lifetime : 0 < AuthContext.expires_at context - AuthContext.issued_at context <= 900;
  tr_signed : signed context proof }.

(** the lifetime of the context, widened by the clock skew *)
Definition timely (v : t) (context : AuthContext.t) (current : Z) : Prop :=
  AuthContext.issued_at context - clock_skew_seconds v <= current
  <= AuthContext.expires_at context + clock_skew_seconds v.

Lemma check_ok v context proof target current : check v context proof target current = Ok tt <->
  trusted v context proof target /\ timely v context current
  /\ _seen v !! AuthContext.request_id context = None.
Proof.
  unfold check, timely. split.
  - intros (policy & Hp & Hr)%bind_ok.
    destruct (signer_policies v !! AuthProof.signer proof) as [policy'|] eqn:E; [|done].
    apply bind_ok_unit in Hp as [Ha%raise_if_ok%neqb_false [= ->]].
    apply bind_ok_unit in Hr as [H1%raise_if_ok%negb_false_iff%bool_decide_eq_true Hr].
    apply bind_ok_unit in Hr as [H2%raise_if_ok%negb_false_iff%bool_decide_eq_true Hr].
    apply bind_ok_unit in Hr as [H3%raise_if_ok%negb_false_iff%bool_decide_eq_true Hr].
    apply bind_ok_unit in Hr as [H4%raise_if_ok%neqb_false Hr].
    apply bind_ok_unit in Hr as [H5%raise_if_ok Hr]. apply bind_ok_unit in Hr as [H6%raise_if_ok Hr].
    apply bind_ok_unit in Hr as [H7%raise_if_ok Hr]. apply bind_ok_unit in Hr as [H8%raise_if_ok Hr].
    apply except_ok in Hr. apply bind_ok in Hr as (payload & Hb & Hv).
    split; [|split; [lia|by destruct (_seen v !! _)]].
    constructor; [by exists policy|done|done|lia|by exists payload].
  - intros ([(policy & E & H1 & H2 & H3) Ha H4 Hl (payload & Hb & Hv)] & Ht & Hs).
    apply bind_ok. exists policy. rewrite E. split; [by rewrite bool_decide_eq_true_2|].
    do 3 (apply bind_ok_unit; split; [by apply raise_if_ok, negb_false_iff, bool_decide_eq_true|]).
    apply bind_ok_unit. split; [by apply raise_if_ok, neqb_false|].
    do 3 (apply bind_ok_unit; split; [apply raise_if_ok; lia|]).
    apply bind_ok_unit. split; [by rewrite Hs|]. apply except_ok, bind_ok. by exists payload.
Qed.

(** what the verifier returns for a context *)
Definition principal_of (context : AuthContext.t) : Principal.t :=
  Principal.make (AuthContext.principal_id context) (before_colon (AuthContext.principal_id context))
    (AuthContext.credential_id context) (AuthContext.alias_generation context).

Lemma purge_lookup v current id e : _seen (purge v current) !! id = Some e <->
  _seen v !! id = Some e /\ current <= e.
Proof. cbn. rewrite map_lookup_filter_Some. naive_solver. Qed.

Lemma verify_ok v context proof target current v' p :
  verify v context proof target current = (v', Ok p) <->
  trusted v context proof target /\ timely v context current
  /\ _seen (purge v current) !! AuthContext.request_id context = None
  /\ principal_re (AuthContext.principal_id context) = true
  /\ v' = remember (purge v current) (AuthContext.request_id context) (AuthContext.expires_at context)
  /\ p = principal_of context.
Proof.
  unfold verify. cbv zeta. pose proof (check_ok (purge v current) context proof target current) as Hc.
  destruct (check (purge v current) context proof target current) as [[]|e]; split.
  - destruct (proj1 Hc eq_refl) as (Ht & Hd & Hs). intros [= <- Hp]. 
    apply principal_init_ok in Hp as (Hre & _ & ->). destruct Ht. split; [by constructor|done].
  - intros (_ & _ & _ & Hre & -> & ->). f_equal. by apply principal_init_ok.
  - done.
  - intros (Ht & Hd & Hs & _). exfalso. 
    assert (Err (A:=()) e = Ok tt) as Hcon; [|done]. apply Hc. destruct Ht. split; [by constructor|done].
Qed.

(** a remembered request is refused until its context has expired, and stays remembered *)
Lemma verify_remembers v context proof target current id e :
  _seen v !! id = Some e -> current <= e ->
  _seen (verify v context proof target current).1 !! id = Some e
  /\ (AuthContext.request_id context = id ->
      is_ok (verify v context proof target current).2 = false).
Proof.
  intros Hs Hc. assert (_seen (purge v current) !! id = Some e) as Hp by by apply purge_lookup.
  unfold verify. cbv zeta. pose proof (check_ok (purge v current) context proof target current) as Hk.
  destruct (check (purge v current) context proof target current) as [[]|e']; [|by split].
  destruct (proj1 Hk eq_refl) as (_ & _ & Hn). 
  assert (AuthContext.request_id context <> id) as Hne by (intros <-; by rewrite Hn in Hp).
  split; [|done]. change (<[AuthContext.request_id context := AuthContext.expires_at context]>
    (_seen (purge v current)) !! id = Some e). by rewrite lookup_insert_ne.
Qed.

(** a call of [verify] *)
Record call := Call {
  c_context : AuthContext.t;
  c_proof : AuthProof.t;
  c_target : pystr;
  c_time : Z }.

(** the results of a sequence of calls on one verifier *)
Fixpoint verify_all (v : t) (calls : list call) : list (result Principal.t) :=
  match calls with
  | [] => []
  | c :: calls =>
    let '(v, r) := verify v (c_context c) (c_proof c) (c_target c) (c_time c) in
    r :: verify_all v calls
  end.

Lemma verify_all_refuses calls : forall v id e k c r, _seen v !! id = Some e ->
  Forall (fun c => c_time c <= e) calls -> calls !! k = Some c ->
  AuthContext.request_id (c_context c) = id -> verify_all v calls !! k = Some r -> is_ok r = false.
Proof.
  induction calls as [|c0 calls IH]; intros v id e k c r Hs; [done|].
  intros [Hc Hcs]%Forall_cons Hk Hid. cbn [verify_all].
  destruct (verify_remembers v (c_context c0) (c_proof c0) (c_target c0) (c_time c0) id e Hs Hc) as [Hs' Hno].
  destruct (verify v _ _ _ _) as [v' r0]. cbn in Hs', Hno. destruct k as [|k]; cbn.
  - injection Hk as ->. intros [= <-]. by apply Hno.
  - by apply (IH v' id e k c r).
Qed.
End Verifier.
