(* ===== verification/Credentials.v ===== *)
(** * The credential store

    [src/a2amesh/identity/credentials.py]: bearer credentials, of which only a
    peppered HMAC is kept, and NKey identities.  The alias registry is an object
    the store shares with its owner, so its state at the time of a call is an
    argument of the resolving methods.  A time is a [float], a rational number. *)
From Stdlib Require Import QArith.
From S2P Require Import Prelude PyStr Sha256 Json Identity IdentityFacts.
Local Open Scope py_scope.
Local Open Scope Z_scope.

(** [hmac.new(key, msg, hashlib.sha256).digest()] (RFC 2104) *)
Definition hmac_sha256 (key msg : pybytes) : pybytes :=
  let key := if Nat.ltb 64 (length key) then sha256 key else key in
  let key := key ++ replicate (64 - length key) 0%N in
  sha256 (map (N.lxor 0x5C) key ++ sha256 (map (N.lxor 0x36) key ++ msg)).

Example hmac_vector : hex (hmac_sha256 (u "key") (u "The quick brown fox jumps over the lazy dog"))
  = u "f7bc83f430538424b13298e6aa6fb143ef4d59a14946175997479dbc2d1a3cd8".
Proof. vm_compute. reflexivity. Qed.

(** [token.split(".", 1)], when there is a dot *)
Fixpoint split_first_dot (s : pystr) : option (pystr * pystr) :=
  match s with
  | [] => None
  | c :: r =>
    if (c =? 46)%N then Some ([], r)
    else '(a, b) ← split_first_dot r; Some (c :: a, b)
  end.

Record BearerCredential := {
  credential_id : pystr;
  principal_id : pystr;
  secret_digest : pybytes;
  expires_at : option Q;
  enabled : bool }.

Module CredentialStore.
Record t := make {
  _pepper : pybytes;
  _bearers : gmap pystr BearerCredential;
  _nkeys : gmap pystr (pystr * pystr) }.

Definition init (pepper : pybytes) : result t :=
  raise_if (Nat.ltb (length pepper) 32)
    (ValueError "credential pepper must be at least 32 bytes");;
  Ok (make pepper ∅ ∅).

Definition _digest (self : t) (secret : pystr) : result pybytes :=
  b ← encode_utf8 secret; Ok (hmac_sha256 (_pepper self) b).

Definition set_bearer (self : t) (credential_id : pystr) (credential : BearerCredential) : t :=
  make (_pepper self) (<[credential_id := credential]> (_bearers self)) (_nkeys self).

(** one of the characters of [". \t\r\n"] *)
Definition forbidden_char (c : N) : bool :=
  (c =? 46)%N || (c =? 32)%N || (c =? 9)%N || (c =? 13)%N || (c =? 10)%N.

Definition register_bearer (self : t) (credential_id secret : pystr) (principal_id : option pystr)
    (expires_at : option Q) : result (t * pystr) :=
  raise_if ((credential_id == []) || existsb forbidden_char credential_id)
    (ValueError "credential ID must be a non-empty token without dots");;
  secret_bytes ← encode_utf8 secret;
  raise_if (Nat.ltb (length secret_bytes) 32)
    (ValueError "bearer secret must contain at least 32 bytes");;
  let principal_id :=
    match principal_id with
    | Some (c :: id) => c :: id
    | _ => u "a2a:" ++ credential_id
    end in
  Principal.init principal_id (before_colon principal_id) None 0;;
  raise_if (match _bearers self !! credential_id with
            | Some existing => Credentials.principal_id existing != principal_id
            | None => false
            end)
    (ValueError "credential principal is immutable");;
  secret_digest ← _digest self secret;
  Ok (set_bearer self credential_id
        {| Credentials.credential_id := credential_id; Credentials.principal_id := principal_id;
           Credentials.secret_digest := secret_digest; Credentials.expires_at := expires_at;
           Credentials.enabled := true |},
      credential_id ++ [46%N] ++ secret).

Definition disable_bearer (self : t) (credential_id : pystr) : result t :=
  credential ← or_raise (_bearers self !! credential_id) (RuntimeError "KeyError");
  Ok (set_bearer self credential_id
        {| Credentials.credential_id := Credentials.credential_id credential;
           Credentials.principal_id := Credentials.principal_id credential;
           Credentials.secret_digest := Credentials.secret_digest credential;
           Credentials.expires_at := Credentials.expires_at credential;
           Credentials.enabled := false |}).

(** the principal behind an initial one *)
Definition canonical_principal (aliases : AliasRegistry.t) (initial credential : pystr)
    : result Principal.t :=
  let '(principal_id, generation) := AliasRegistry.resolve aliases initial in
  Principal.init principal_id (before_colon principal_id) (Some credential) generation.

Definition resolve_bearer (self : t) (aliases : AliasRegistry.t) (token : pystr) (current : Q)
    : result Principal.t :=
  '(credential_id, secret) ← or_raise (split_first_dot token)
    (ValueError "invalid bearer credential format");
  let credential := _bearers self !! credential_id in
  supplied ← _digest self secret;
  let expected := match credential with
    | Some credential => secret_digest credential
    | None => replicate (length supplied) 0%N
    end in
  let verified := supplied == expected in
  match credential with
  | Some credential =>
    raise_if (negb verified || negb (enabled credential)
        || match expires_at credential with Some e => Qle_bool e current | None => false end)
      (ValueError "invalid or expired bearer credential");;
    canonical_principal aliases (principal_id credential) credential_id
  | None => Err (ValueError "invalid or expired bearer credential")
  end.

Definition register_nkey (self : t) (public_key agent_id : pystr) : result t :=
  raise_if (negb (match public_key with c :: _ => (c =? 85)%N | [] => false end))
    (ValueError "peer identity must use a user NKey");;
  let principal_id := u "agent:" ++ agent_id in
  Principal.init principal_id (u "agent") None 0;;
  raise_if (match _nkeys self !! public_key with
            | Some existing => existing != (agent_id, principal_id)
            | None => false
            end)
    (ValueError "NKey identity is immutable");;
  Ok (make (_pepper self) (_bearers self) (<[public_key := (agent_id, principal_id)]> (_nkeys self))).

Definition resolve_nkey (self : t) (aliases : AliasRegistry.t) (public_key : pystr)
    : result Principal.t :=
  '(_, initial) ← or_raise (_nkeys self !! public_key) (ValueError "unknown NKey");
  canonical_principal aliases initial public_key.
End CredentialStore.

(** ** Facts *)
Lemma split_first_dot_ok s a b : split_first_dot s = Some (a, b) <->
  s = a ++ 46%N :: b /\ Forall (fun c => c <> 46%N) a.
Proof.
  revert a b. induction s as [|c s IH]; intros a b; cbn.
  - split; [done|]. intros [E _]. by destruct a.
  - destruct (N.eqb_spec c 46) as [->|Hc].
    + split; [by intros [= <- <-]|]. intros [E Ha]. destruct a as [|c' a]; cbn in E.
      * by injection E as <-.
      * injection E as <- _. by apply Forall_cons in Ha as [[] _].
    + split.
      * destruct (split_first_dot s) as [[a' b']|]; [|done]. intros [= <- <-].
        destruct (proj1 (IH a' b') eq_refl) as [-> Ha]. split; [done|by constructor].
      * intros [E Ha]. destruct a as [|c' a]; cbn in E; [by injection E|]. injection E as <- E.
        apply Forall_cons in Ha as [_ Ha]. by rewrite (proj2 (IH a b) (conj E Ha)).
Qed.

Section Bearers.
Import CredentialStore.

(** a credential that is enabled and has not expired *)
Definition live (c : BearerCredential) (current : Q) : Prop :=
  enabled c = true /\ match expires_at c with Some e => ~ (e <= current)%Q | None => True end.

Lemma canonical_principal_ok al initial cred p : canonical_principal al initial cred = Ok p <->
  principal_re (AliasRegistry.resolve al initial).1 = true
  /\ p = Principal.make (AliasRegistry.resolve al initial).1
           (before_colon (AliasRegistry.resolve al initial).1) (Some cred)
           (AliasRegistry.resolve al initial).2.
Proof.
  unfold canonical_principal. destruct (AliasRegistry.resolve al initial) as [id g].
  rewrite principal_init_ok. cbn. naive_solver.
Qed.

Lemma resolve_bearer_ok st al token current p : resolve_bearer st al token current = Ok p <->
  exists id secret c, token = id ++ 46%N :: secret /\ Forall (fun x => x <> 46%N) id
    /\ _bearers st !! id = Some c /\ _digest st secret = Ok (secret_digest c) /\ live c current
    /\ canonical_principal al (principal_id c) id = Ok p.
Proof.
  unfold resolve_bearer, live. split.
  - intros ([id secret] & [-> Hid]%or_raise_ok%split_first_dot_ok & Hr)%bind_ok. cbv beta iota zeta in Hr.
    apply bind_ok in Hr as (supplied & Hd & Hr). destruct (_bearers st !! id) as [c|] eqn:E; [|done].
    apply bind_ok_unit in Hr as [Hc%raise_if_ok Hr].
    apply orb_false_iff in Hc as [[Hv%neqb_false He%negb_false_iff]%orb_false_iff Hx]. subst supplied.
    exists id, secret, c. do 4 (split; [done|]). split; [|done]. split; [done|].
    destruct (expires_at c) as [e|]; [|done]. intros Hle%Qle_bool_iff. congruence.
  - intros (id & secret & c & -> & Hid & E & Hd & [He Hx] & Hp).
    apply bind_ok. exists (id, secret). split; [by apply or_raise_ok, split_first_dot_ok|].
    cbv beta iota zeta. apply bind_ok. exists (secret_digest c). split; [done|]. rewrite E.
    apply bind_ok_unit. split; [|done]. apply raise_if_ok. rewrite bool_decide_eq_true_2 // He. cbn.
    destruct (expires_at c) as [e|]; [|done]. destruct (Qle_bool e current) eqn:Hq; [|done].
    by apply Qle_bool_iff in Hq.
Qed.

Lemma digest_ok st secret d : _digest st secret = Ok d <->
  exists b, encode_utf8 secret = Ok b /\ d = hmac_sha256 (_pepper st) b.
Proof. unfold _digest. rewrite bind_ok. split; intros (b & Hb & Hd); exists b; naive_solver. Qed.

(** the tokens of a stored credential *)
Lemma resolve_token_ok st al id secret c current p : Forall (fun x => x <> 46%N) id ->
  _bearers st !! id = Some c ->
  resolve_bearer st al (id ++ 46%N :: secret) current = Ok p <->
  _digest st secret = Ok (secret_digest c) /\ live c current
  /\ canonical_principal al (principal_id c) id = Ok p.
Proof.
  intros Hid Hc. rewrite resolve_bearer_ok. split.
  - intros (id' & secret' & c' & E & Hid' & Hc' & Hr). apply app_sep_inj in E as [<- [= <-]]; [|done..].
    rewrite Hc in Hc'. by injection Hc' as <-.
  - intros (Hd & Hl & Hp). by exists id, secret, c.
Qed.

(** what a registration stores *)
Lemma register_bearer_ok st id secret pid e st' token :
  register_bearer st id secret pid e = Ok (st', token) ->
  exists c, st' = set_bearer st id c /\ token = id ++ 46%N :: secret
    /\ Forall (fun x => x <> 46%N) id /\ _digest st secret = Ok (secret_digest c)
    /\ enabled c = true /\ expires_at c = e /\ principal_re (principal_id c) = true
    /\ principal_id c = match pid with Some (x :: p) => x :: p | _ => u "a2a:" ++ id end
    /\ (forall c0, _bearers st !! id = Some c0 -> principal_id c0 = principal_id c).
Proof.
  unfold register_bearer. intros Hr. apply bind_ok_unit in Hr as [Hid%raise_if_ok Hr].
  apply bind_ok in Hr as (b & Hb & Hr). apply bind_ok_unit in Hr as [_ Hr]. cbv zeta in Hr.
  apply bind_ok in Hr as (p & (Hp & _ & _)%principal_init_ok & Hr).
  apply bind_ok_unit in Hr as [Hi%raise_if_ok Hr]. apply bind_ok in Hr as (d & Hd & Hr).
  injection Hr as <- <-. eexists. split; [done|]. cbn. split; [done|]. split.
  { apply orb_false_iff in Hid as [_ Hid%existsb_false_iff]. eapply Forall_impl; [exact Hid|].
    by intros c Hc ->. }
  do 5 (split; [done|]). intros c0 E. rewrite E in Hi. by apply neqb_false in Hi.
Qed.

Lemma disable_bearer_ok st id st' : disable_bearer st id = Ok st' ->
  exists c c', _bearers st !! id = Some c /\ st' = set_bearer st id c' /\ enabled c' = false
    /\ principal_id c' = principal_id c.
Proof.
  unfold disable_bearer. intros (c & Hc%or_raise_ok & [= <-])%bind_ok.
  exists c. by eexists.
Qed.

(** a change of the store *)
Inductive change : t -> t -> Prop :=
| change_register st id secret pid e st' token :
    register_bearer st id secret pid e = Ok (st', token) -> change st st'
| change_disable st id st' : disable_bearer st id = Ok st' -> change st st'
| change_nkey st key agent st' : register_nkey st key agent = Ok st' -> change st st'.

Lemma change_bearer st st' id c : change st st' -> _bearers st !! id = Some c ->
  exists c', _bearers st' !! id = Some c' /\ principal_id c' = principal_id c.
Proof.
  assert (forall st id' c', (_bearers st !! id' = Some c -> principal_id c = principal_id c') ->
    _bearers st !! id = Some c -> exists c2, _bearers (set_bearer st id' c') !! id = Some c2
      /\ principal_id c2 = principal_id c) as Hset.
  { clear. intros st id' c' Hp Hc. destruct (decide (id' = id)) as [->|Hne].
    - exists c'. split; [apply lookup_insert_eq|symmetry; by apply Hp].
    - exists c. split; [|done]. cbn. by rewrite lookup_insert_ne. }
  intros [st0 id' secret pid e st1 token Hr|st0 id' st1 Hr|st0 key agent st1 Hr] Hc.
  - apply register_bearer_ok in Hr as (c' & -> & _ & _ & _ & _ & _ & _ & _ & Hp).
    apply Hset; [|done]. intros E. by apply Hp.
  - apply disable_bearer_ok in Hr as (c0 & c' & E & -> & _ & Hp). apply Hset; [|done].
    intros E'. rewrite E in E'. by injection E' as ->.
  - unfold register_nkey in Hr. apply bind_ok_unit in Hr as [_ Hr]. cbv zeta in Hr.
    apply bind_ok in Hr as (? & _ & Hr). apply bind_ok_unit in Hr as [_ [= <-]]. by exists c.
Qed.

Lemma changes_bearer st st' id c : rtc change st st' -> _bearers st !! id = Some c ->
  exists c', _bearers st' !! id = Some c' /\ principal_id c' = principal_id c.
Proof.
  intros Hs. revert c. induction Hs as [|s1 s2 s3 H12 _ IH]; intros c Hc; [by exists c|].
  destruct (change_bearer _ _ _ _ H12 Hc) as (c2 & Hc2 & <-). by apply IH.
Qed.
End Bearers.
