(* ===== verification/IdentityTheorems.v ===== *)
(** * Theorems on identity

    Aliases that never chain, authentication contexts and how long a replay is
    refused, and bearer credentials.  The witnesses use an instance of the
    signature packages that accepts every signature. *)
From Stdlib Require Import QArith.
From S2P Require Import Prelude PyStr Sha256 Json Identity IdentityFacts Credentials.
Local Open Scope py_scope.
Local Open Scope Z_scope.

(** ** Aliases *)
(** C38: in every registry that additions can make, resolving is done in one step: what a principal
    resolves to resolves to itself.  An alias, once there, resolves to the same principal with the
    same generation after any further additions, and that principal never becomes an alias. *)
Theorem alias_resolution_stable r r' p :
  rtc adds AliasRegistry.empty r -> rtc adds r r' ->
  AliasRegistry.resolve r (AliasRegistry.resolve r p).1 = ((AliasRegistry.resolve r p).1, 0)
  /\ (0 < (AliasRegistry.resolve r p).2 ->
      AliasRegistry.resolve r' p = AliasRegistry.resolve r p
      /\ AliasRegistry.resolve r' (AliasRegistry.resolve r p).1 = ((AliasRegistry.resolve r p).1, 0)).
Proof.
  intros Hr Hr'. pose proof (history_ok _ _ Hr empty_ok) as Hok.
  pose proof (history_ok _ _ Hr' Hok) as Hok'. rewrite !resolve_alias.
  destruct (AliasRegistry._targets r !! p) as [[x g]|] eqn:E; cbn [fst snd].
  - rewrite (ro_canonical _ Hok _ _ _ E). split; [done|]. intros _.
    pose proof (history_keeps _ _ _ _ Hr' E) as E'. by rewrite E' (ro_canonical _ Hok' _ _ _ E').
  - by rewrite E.
Qed.

Definition alias_source : pystr := u "agent:windows-a".
Definition alias_target : pystr := u "a2a:team-1".
Definition one_alias : AliasRegistry.t := added AliasRegistry.empty alias_source alias_target.
Lemma one_alias_added : adds AliasRegistry.empty one_alias.
Proof. exists alias_source, alias_target, 1. vm_compute. reflexivity. Qed.
Lemma alias_resolution_stable_witness :
  AliasRegistry.resolve one_alias alias_target = (alias_target, 0).
Proof.
  assert (rtc adds AliasRegistry.empty one_alias) as Hr by (eapply rtc_l; [apply one_alias_added|apply rtc_refl]).
  destruct (alias_resolution_stable one_alias one_alias alias_source Hr (rtc_refl _ _)) as [E _].
  exact E.
Defined.

(** ** Authentication contexts *)
Section Contexts.
Context `{NKeys}.
Import AuthContextVerifier.

(** The verifier accepts a context exactly when a policy lets its signer claim its principal,
    method and subject, it is addressed to the receiver, its lifetime is at most 900 seconds and
    the clock is in it up to the skew, its request is not remembered, and the signature covers its
    canonical bytes; it then remembers the request until the context expires and returns the
    principal the context names. *)
Lemma auth_verify_exact v context proof target current v' p :
  verify v context proof target current = (v', Ok p) <->
  trusted v context proof target /\ timely v context current
  /\ _seen (purge v current) !! AuthContext.request_id context = None
  /\ principal_re (AuthContext.principal_id context) = true
  /\ v' = remember (purge v current) (AuthContext.request_id context) (AuthContext.expires_at context)
  /\ p = principal_of context.
Proof. apply verify_ok. Qed.

(** C37: how long an accepted request cannot be replayed.  Whatever the verifier is asked until the
    context expires, no context with the same request identifier is accepted again; but the same
    call is accepted again exactly in the clock skew that follows, when the request is forgotten and
    the context still passes the expiry check. *)
Theorem auth_replay_window v context proof target current v' p :
  verify v context proof target current = (v', Ok p) ->
  (forall later k c r, Forall (fun c => c_time c <= AuthContext.expires_at context) later ->
     later !! k = Some c -> AuthContext.request_id (c_context c) = AuthContext.request_id context ->
     verify_all v' later !! k = Some r -> is_ok r = false)
  /\ (forall current', current <= current' ->
      is_ok (verify v' context proof target current').2 = true <->
      AuthContext.expires_at context < current'
      <= AuthContext.expires_at context + clock_skew_seconds v).
Proof.
  intros (Ht & Hd & Hs & Hp & -> & ->)%verify_ok. split.
  - intros later k c r Hl Hk Hid Hr. eapply (verify_all_refuses later); [|done..]. apply lookup_insert_eq.
  - intros current' Hle. set (v' := remember _ _ _).
    pose proof (verify_ok v' context proof target current') as Hv. split.
    + intros Hok. destruct (verify v' context proof target current') as [v2 [q|e]]; [|done].
      destruct (proj1 (Hv v2 q) eq_refl) as (_ & [_ Hd'] & Hs' & _). cbn in Hd'. split; [|done].
      apply Z.nle_gt. intros Hexp.
      assert (_seen (purge v' current') !! AuthContext.request_id context
        = Some (AuthContext.expires_at context)) as Hin; [|by rewrite Hin in Hs'].
      apply purge_lookup. split; [apply lookup_insert_eq|done].
    + intros [Hlt Hsk].
      assert (verify v' context proof target current' = (remember (purge v' current')
        (AuthContext.request_id context) (AuthContext.expires_at context), Ok (principal_of context)))
        as ->; [|done].
      apply Hv. split; [destruct Ht; by constructor|]. split; [unfold timely in *; cbn; lia|].
      split; [|done]. apply eq_None_not_Some. intros [e He%purge_lookup].
      destruct He as [He Hce]. cbn in He. rewrite lookup_insert_eq in He. injection He as <-. lia.
Qed.
End Contexts.

#[local] Instance lenient_keys : NKeys := {|
  crc16 := fun _ => 0%N; valid_public_prefix_byte := fun _ => true;
  ed25519_verify := fun _ _ _ => true; KeyPair := pybytes; public_key := fun k => inr k;
  sign := fun _ _ => replicate 64 0%N |}.
Definition key_pair : pybytes := replicate 56 65%N.
Definition auth_context : AuthContext.t :=
  AuthContext.make alias_source (Some key_pair) (u "nats-nkey") (u "a2amesh-peer") (u "windows-a")
    100 160 (u "req-1") (u "linux") 0.
Definition auth_proof : AuthProof.t :=
  Eval vm_compute in match sign_auth_context auth_context key_pair with
                     | Ok p => p | Err _ => AuthProof.make [] [] [] end.
Definition verifier : AuthContextVerifier.t :=
  AuthContextVerifier.make {[ key_pair := {| principal_ids := {[ alias_source ]};
    methods := {[ u "nats-nkey" ]}; subjects := {[ u "windows-a" ]} |} ]} 30 ∅.
Definition after_first : AuthContextVerifier.t :=
  (AuthContextVerifier.verify verifier auth_context auth_proof (u "linux") 110).1.
Definition verified_principal : Principal.t := principal_of auth_context.
Lemma first_accepted : AuthContextVerifier.verify verifier auth_context auth_proof (u "linux") 110
  = (after_first, Ok verified_principal).
Proof. vm_compute. reflexivity. Qed.

Lemma auth_verify_exact_witness : AuthContextVerifier._seen after_first !! u "req-1" = Some 160.
Proof.
  destruct (proj1 (auth_verify_exact verifier auth_context auth_proof (u "linux") 110 after_first
    verified_principal) first_accepted) as (_ & _ & _ & _ & E & _).
  rewrite E. vm_compute. reflexivity.
Defined.
(** the request accepted at 110 and expired at 160 is accepted again at 161 *)
Lemma auth_replay_window_witness :
  is_ok (AuthContextVerifier.verify after_first auth_context auth_proof (u "linux") 161).2 = true.
Proof.
  apply (auth_replay_window verifier auth_context auth_proof (u "linux") 110 after_first
    verified_principal first_accepted); [lia|]. vm_compute. split; [reflexivity|discriminate].
Defined.

(** ** Bearer credentials *)
Import CredentialStore.

(** C39: which tokens a registration makes valid, and for whom.  Right after it, a token of the
    credential is accepted exactly when its secret has the keyed hash of the registered secret (as
    the returned token's has) and the credential has not expired, and it identifies the principal
    that the registered one, by default [a2a:] and the identifier, resolves to.  Whatever is
    registered or disabled later, no token of this credential identifies anybody else; and once the
    credential is disabled none of its tokens is accepted. *)
Theorem bearer_authentication st id secret pid e st' token al :
  register_bearer st id secret pid e = Ok (st', token) -> registry_ok al ->
  let initial := match pid with Some (x :: p) => x :: p | _ => u "a2a:" ++ id end in
  let identified al := Principal.make (AliasRegistry.resolve al initial).1
    (before_colon (AliasRegistry.resolve al initial).1) (Some id) (AliasRegistry.resolve al initial).2 in
  token = id ++ u "." ++ secret
  /\ (exists b, encode_utf8 secret = Ok b
      /\ forall secret' current p, resolve_bearer st' al (id ++ u "." ++ secret') current = Ok p <->
         (exists b', encode_utf8 secret' = Ok b'
            /\ hmac_sha256 (_pepper st) b' = hmac_sha256 (_pepper st) b)
         /\ match e with Some e => ~ (e <= current)%Q | None => True end
         /\ p = identified al)
  /\ (forall st2 al2 token2 current2 p2, rtc change st' st2 ->
      resolve_bearer st2 al2 token2 current2 = Ok p2 -> Principal.credential_id p2 = Some id ->
      Principal.id p2 = (AliasRegistry.resolve al2 initial).1)
  /\ (forall st2 st3 al3 secret3 current3, disable_bearer st2 id = Ok st3 ->
      is_ok (resolve_bearer st3 al3 (id ++ u "." ++ secret3) current3) = false).
Proof.
  intros (c & -> & -> & Hid & (b & Hb & Hd)%digest_ok & He & Hx & Hre & Hi & _)%register_bearer_ok Hal.
  cbv zeta. rewrite -Hi. split; [done|]. split; [|split].
  - exists b. split; [done|]. intros secret' current p.
    rewrite (resolve_token_ok _ _ _ _ c); [|done|apply lookup_insert_eq].
    rewrite digest_ok canonical_principal_ok Hd. unfold live. rewrite He Hx.
    cbn [_pepper set_bearer]. split.
    + intros ((b' & Hb' & Ed) & [_ Hl] & _ & ->). split; [|split; [exact Hl|reflexivity]].
      exists b'. split; [exact Hb'|exact (eq_sym Ed)].
    + intros ((b' & Hb' & Ed) & Hl & ->). split.
      { exists b'. split; [exact Hb'|exact (eq_sym Ed)]. }
      split; [split; [reflexivity|exact Hl]|]. split; [|reflexivity].
      by apply registry_principal.
  - intros st2 al2 token2 current2 p2 Hst Hr Hcred.
    apply resolve_bearer_ok in Hr as (id2 & secret2 & c2 & _ & _ & Hc2 & _ & _ & Hp).
    apply canonical_principal_ok in Hp as [_ ->]. injection Hcred as ->.
    destruct (changes_bearer _ _ id c Hst) as (c3 & Hc3 & Hp3); [apply lookup_insert_eq|].
    rewrite Hc2 in Hc3. injection Hc3 as <-. cbn. by rewrite Hp3.
  - intros st2 st3 al3 secret3 current3 (c2 & c3 & _ & -> & Hoff & _)%disable_bearer_ok.
    destruct (resolve_bearer _ _ _ _) as [p3|] eqn:Hr; [|done]. exfalso.
    rewrite (resolve_token_ok _ _ _ _ c3) in Hr; [|done|apply lookup_insert_eq].
    destruct Hr as (_ & [Hon _] & _). congruence.
Qed.

Definition secret32 : pystr := replicate 32 115%N.
Definition store0 : CredentialStore.t := CredentialStore.make (replicate 32 112%N) ∅ ∅.
Lemma registered : exists st' token,
  register_bearer store0 (u "gateway") secret32 None None = Ok (st', token).
Proof.
  destruct (register_bearer store0 (u "gateway") secret32 None None) as [[st' token]|e] eqn:E.
  - by exists st', token.
  - exfalso. vm_compute in E. discriminate E.
Qed.
Lemma bearer_authentication_witness : exists st' token p,
  register_bearer store0 (u "gateway") secret32 None None = Ok (st', token)
  /\ resolve_bearer st' AliasRegistry.empty token 5 = Ok p /\ Principal.id p = u "a2a:gateway".
Proof.
  destruct registered as (st' & token & E). exists st', token.
  destruct (bearer_authentication store0 (u "gateway") secret32 None None st' token
    AliasRegistry.empty E empty_ok) as (-> & (b & Hb & Hr) & _).
  eexists. split; [exact E|]. split.
  - apply Hr. split; [exists b; split; [exact Hb|reflexivity]|]. split; [exact I|reflexivity].
  - reflexivity.
Defined.
