(* ===== verification/Models.v ===== *)
(** * The data of the orchestrator

    The models of [contracts/models.py] that plans, tasks and the private
    prototype exchange. *)
From S2P Require Import Prelude PyStr Json.
Local Open Scope N_scope.

Inductive Part :=
| TextPart (text : pystr)
| FilePart (file : list (pystr * json))
| DataPart (data : list (pystr * json)).

Inductive Role := user | agent.

Module Message.
Record t := make { role : Role; parts : list Part }.
End Message.

Module Artifact.
Record t := make { artifactId : pystr; parts : list Part }.
End Artifact.

Inductive task_state := submitted | working | input_required | completed | failed | canceled.

#[global] Instance task_state_eq_dec : EqDecision task_state.
Proof. solve_decision. Defined.

Definition task_state_value (s : task_state) : pystr :=
  match s with
  | submitted => u "submitted"
  | working => u "working"
  | input_required => u "input-required"
  | completed => u "completed"
  | failed => u "failed"
  | canceled => u "canceled"
  end.

Record TaskStatus := { state : task_state }.

Module Task.
Record t := make {
  id : pystr; status : TaskStatus; history : list Message.t; artifacts : list Artifact.t }.
End Task.

Inductive runtime_name := hermes | codex | claude | opencode.

Module StepStatus.
Inductive t := pending | running | succeeded | failed.
#[global] Instance eq_dec : EqDecision t.
Proof. solve_decision. Defined.
Definition value (s : t) : pystr :=
  match s with
  | pending => u "pending"
  | running => u "running"
  | succeeded => u "succeeded"
  | failed => u "failed"
  end.
End StepStatus.

Module Step.
Record t := make {
  id : pystr; target : pystr; prompt : pystr; status : StepStatus.t;
  depends_on : list pystr; runtime : option runtime_name }.

(** [step.status = status] *)
Definition set_status (status : StepStatus.t) (self : t) : t :=
  make self.(id) self.(target) self.(prompt) status self.(depends_on) self.(runtime).
End Step.

Module Plan.
Record t := make { task_id : pystr; steps : list Step.t }.
End Plan.
