(* ===== verification/Dispatcher.v ===== *)
(** * The dispatcher of a plan

    [orchestrator/dispatcher.py], [tracker.py] and [aggregator.py].  A plan is
    a list of steps with dependencies; [validate_plan] refuses one that is not
    a fresh acyclic graph, [Dispatcher.run] starts every step whose
    dependencies have succeeded as a coroutine of its own, and the coroutine
    sends the step's message up to [max_attempts] times.

    Coroutines interleave at their [await]s only.  A state of the run is what
    its objects are while every coroutine is suspended, and an event is one
    resumption: the first slice of a step's coroutine, the arrival of its
    reply, the end of its [asyncio.sleep], or the return of [asyncio.wait] in
    [run].  The client's answers and the readings of the clock come with the
    events. *)
From S2P Require Import Prelude PyStr Models.
Local Open Scope Z_scope.
Local Open Scope py_scope.

(** ** Tracker *)
Module Tracker.
Section Tracker.
(** a reading of [time.time()] *)
Context {Time : Type}.

Record t := make {
  attempts : gmap pystr Z;
  started : gmap pystr Time;
  finished : gmap pystr Time }.

Definition init : t := make ∅ ∅ ∅.

Definition start (self : t) (step_id : pystr) (attempt : Z) (now : Time) : t :=
  make (<[step_id := attempt]> self.(attempts)) (<[step_id := now]> self.(started))
    self.(finished).

Definition finish (self : t) (step_id : pystr) (now : Time) : t :=
  make self.(attempts) self.(started) (<[step_id := now]> self.(finished)).

(** [now1] and [now2] are the two readings of the clock the call makes. *)
Definition duration (sub : Time -> Time -> Time) (self : t) (step_id : pystr)
    (now1 now2 : Time) : Time :=
  sub (default now1 (self.(finished) !! step_id)) (default now2 (self.(started) !! step_id)).
End Tracker.
Arguments t : clear implicits.
End Tracker.

(** ** [Dispatcher.validate_plan]

    The messages of its [ValueError]s end in the offending identifiers, which
    are left out here. *)
Definition unknown_dependencies (known : gset pystr) (step : Step.t) : gset pystr :=
  list_to_set step.(Step.depends_on) ∖ known.

Definition check_step (known : gset pystr) (step : Step.t) : result unit :=
  raise_if (negb (bool_decide (unknown_dependencies known step = ∅)))
    (ValueError "step has unknown dependencies");;
  raise_if (bool_decide (step.(Step.id) ∈ step.(Step.depends_on)))
    (ValueError "step cannot depend on itself").

(** [by_id = {step.id: step for step in plan.steps}]: a later step replaces
    an earlier one *)
Definition by_id (steps : list Step.t) : gmap pystr Step.t :=
  fold_left (fun m step => <[step.(Step.id) := step]> m) steps ∅.

(** The closure's two sets, [visiting] and [visited], are passed along.
    [OutOfFuel] marks the end of the fuel, one for each step and one more. *)
Fixpoint visit (fuel : nat) (graph : gmap pystr Step.t) (sets : gset pystr * gset pystr)
    (step_id : pystr) : result (gset pystr * gset pystr) :=
  match fuel with
  | O => Err OutOfFuel
  | S fuel =>
    let '(visiting, visited) := sets in
    if bool_decide (step_id ∈ visiting)
    then Err (ValueError "plan dependency graph contains a cycle")
    else if bool_decide (step_id ∈ visited) then Ok sets
    else
      step ← or_raise (graph !! step_id) KeyError;
      '(visiting, visited) ← foldM (visit fuel graph) ({[step_id]} ∪ visiting, visited)
        step.(Step.depends_on);
      Ok (visiting ∖ {[step_id]}, {[step_id]} ∪ visited)
  end.

Definition validate_plan (plan : Plan.t) : result unit :=
  let steps := plan.(Plan.steps) in
  raise_if (existsb (fun step => step.(Step.status) != StepStatus.pending) steps)
    (ValueError "new plans must contain only pending steps");;
  let ids := map Step.id steps in
  let known : gset pystr := list_to_set ids in
  raise_if (negb (bool_decide (length ids = size known)))
    (ValueError "plan contains duplicate step ids");;
  forM_ (check_step known) steps;;
  _ ← foldM (visit (S (length steps)) (by_id steps)) (∅, ∅) ids;
  Ok tt.

(** ** [Dispatcher.run] *)

(** the arguments of [client.send_message] *)
Record Call := {
  call_target : pystr; call_message : Message.t; call_runtime : option runtime_name;
  call_task_id : pystr; call_retries : Z }.

(** what the call comes to: a task, or an exception of which [str] is [text] *)
Inductive Reply := Replied (task : Task.t) | Raised (text : pystr).

(** Where a step's coroutine is suspended. *)
Inductive Await :=
| Created
| Sending (attempt : Z)
| Sleeping (attempt : Z) (delay : Z)
| Done.

(** the coroutine [_run_step(s, ...)]; [s] is the position of the step object *)
Record Coroutine := { s : nat; await : Await }.

Module Run.
Section Run.
Context {Time : Type}.

Record t := make {
  max_attempts : Z;
  task_id : pystr;
  steps : list Step.t;
  pending : gmap pystr nat;
  results : gmap pystr Task.t;
  running : gmap pystr Coroutine;
  tracker : Tracker.t Time;
  outcome : option (result unit) }.

Definition set_status (self : t) (i : nat) (status : StepStatus.t) : t :=
  make self.(max_attempts) self.(task_id) (alter (Step.set_status status) i self.(steps))
    self.(pending) self.(results) self.(running) self.(tracker) self.(outcome).

Definition set_result (self : t) (id : pystr) (task : Task.t) : t :=
  make self.(max_attempts) self.(task_id) self.(steps) self.(pending)
    (<[id := task]> self.(results)) self.(running) self.(tracker) self.(outcome).

Definition set_running (self : t) (running : gmap pystr Coroutine) : t :=
  make self.(max_attempts) self.(task_id) self.(steps) self.(pending) self.(results)
    running self.(tracker) self.(outcome).

Definition suspend (self : t) (id : pystr) (c : Coroutine) (at_ : Await) : t :=
  set_running self (<[id := {| s := c.(s); await := at_ |}]> self.(running)).

Definition set_tracker (self : t) (tracker : Tracker.t Time) : t :=
  make self.(max_attempts) self.(task_id) self.(steps) self.(pending) self.(results)
    self.(running) tracker self.(outcome).

Definition set_outcome (self : t) (outcome : result unit) : t :=
  make self.(max_attempts) self.(task_id) self.(steps) self.(pending) self.(results)
    self.(running) self.(tracker) (Some outcome).
End Run.
Arguments t : clear implicits.
End Run.

Section Dispatcher.
Context {Time : Type}.
Implicit Type run : Run.t Time.

(** *** [ready_steps] *)

(** [pending[d].status] *)
Definition status_of (run : Run.t Time) (d : pystr) : result StepStatus.t :=
  or_raise (i ← run.(Run.pending) !! d; Step.status <$> run.(Run.steps) !! i) KeyError.

(** [all(pending[d].status == "succeeded" for d in s.depends_on)] *)
Fixpoint all_succeeded (run : Run.t Time) (depends_on : list pystr) : result bool :=
  match depends_on with
  | [] => Ok true
  | d :: depends_on =>
    status ← status_of run d;
    if status == StepStatus.succeeded then all_succeeded run depends_on else Ok false
  end.

Definition is_ready (run : Run.t Time) (step : Step.t) : result bool :=
  if step.(Step.status) == StepStatus.pending then all_succeeded run step.(Step.depends_on)
  else Ok false.

(** the steps that are ready, each with the position of its object *)
Definition ready_steps (run : Run.t Time) : result (list (nat * Step.t)) :=
  filterR (fun p => is_ready run p.2) (imap (fun i step => (i, step)) run.(Run.steps)).

(** *** The loop *)

(** [s.status = "running"; running[s.id] = asyncio.create_task(...)] *)
Definition start_step (run : Run.t Time) (p : nat * Step.t) : Run.t Time :=
  let run := Run.set_status run p.1 StepStatus.running in
  Run.set_running run
    (<[p.2.(Step.id) := {| s := p.1; await := Created |}]> run.(Run.running)).

Definition text_artifact (artifactId text : pystr) : Artifact.t :=
  Artifact.make artifactId [TextPart text].

Definition failed_task (id : pystr) (artifact : Artifact.t) : Task.t :=
  Task.make id {| state := failed |} [] [artifact].

Definition blocked_task (id : pystr) : Task.t :=
  failed_task id (text_artifact (u "blocked") (u "step blocked by a failed dependency")).

(** one turn of the loop after the loop of [run] *)
Definition block_step (run : Run.t Time) (p : nat * Step.t) : Run.t Time :=
  if p.2.(Step.status) == StepStatus.pending then
    Run.set_result (Run.set_status run p.1 StepStatus.failed) p.2.(Step.id)
      (blocked_task p.2.(Step.id))
  else run.

Definition finish_run (run : Run.t Time) : Run.t Time :=
  Run.set_outcome
    (fold_left block_step (imap (fun i step => (i, step)) run.(Run.steps)) run) (Ok tt).

(** From a computation of [ready] to the next [await] of [run], or its end. *)
Definition loop (run : Run.t Time) : Run.t Time :=
  match ready_steps run with
  | Err e => Run.set_outcome run (Err e)
  | Ok ready =>
    let run := fold_left start_step ready run in
    if bool_decide (run.(Run.running) = ∅) then finish_run run else run
  end.

Definition done (c : Coroutine) : bool :=
  match c.(await) with Done => true | _ => false end.

(** [for sid, t in list(running.items()): if t.done(): del running[sid]] *)
Definition reap (run : Run.t Time) : Run.t Time :=
  Run.set_running run (filter (fun p => done p.2 = false) run.(Run.running)).

Definition some_done (run : Run.t Time) : bool :=
  negb (bool_decide (filter (fun p => done p.2 = true) run.(Run.running) = ∅)).

(** *** [Dispatcher._run_step] *)
Definition tracker_key (run : Run.t Time) (step : Step.t) : pystr :=
  run.(Run.task_id) ++ u ":" ++ step.(Step.id).

Definition call_of (run : Run.t Time) (step : Step.t) : Call :=
  {| call_target := step.(Step.target);
     call_message := Message.make user [TextPart step.(Step.prompt)];
     call_runtime := step.(Step.runtime);
     call_task_id := run.(Run.task_id) ++ u ":" ++ step.(Step.id);
     call_retries := 1 |}.

(** The head of the [for] loop at [attempt]: the next call, or the end of the
    range and of the coroutine. *)
Definition iterate (run : Run.t Time) (id : pystr) (c : Coroutine) (step : Step.t)
    (attempt : Z) (now : Time) : Run.t Time * option Call :=
  if attempt <=? run.(Run.max_attempts) then
    let run := Run.set_tracker run
      (Tracker.start run.(Run.tracker) (tracker_key run step) attempt now) in
    (Run.suspend run id c (Sending attempt), Some (call_of run step))
  else
    (Run.suspend (Run.set_status run c.(s) StepStatus.failed) id c Done, None).

(** the task of a reply, or the text of the exception the [try] block ends in *)
Definition completed_task (reply : Reply) : Task.t + pystr :=
  match reply with
  | Raised text => inr text
  | Replied task =>
    if task.(Task.status).(state) == completed then inl task
    else inr (u "task returned non-completed status: "
              ++ task_state_value task.(Task.status).(state))
  end.

Definition receive (run : Run.t Time) (id : pystr) (c : Coroutine) (step : Step.t)
    (attempt : Z) (reply : Reply) (now : Time) : Run.t Time * option Call :=
  match completed_task reply with
  | inl task =>
    let run := Run.set_status (Run.set_result run step.(Step.id) task) c.(s)
      StepStatus.succeeded in
    let run := Run.set_tracker run
      (Tracker.finish run.(Run.tracker) (tracker_key run step) now) in
    (Run.suspend run id c Done, None)
  | inr text =>
    let run := Run.set_result run step.(Step.id)
      (failed_task step.(Step.id) (text_artifact (u "err") (u "step failed: " ++ text))) in
    if attempt <? run.(Run.max_attempts)
    then (Run.suspend run id c (Sleeping attempt (2 ^ (attempt - 1))), None)
    else iterate run id c step (attempt + 1) now
  end.

(** *** Resumptions *)
Inductive Event : Type :=
| Begin (id : pystr) (now : Time)
| Answer (id : pystr) (reply : Reply) (now : Time)
| Wake (id : pystr) (now : Time)
| Resume.

(** The state an event leads to and the call it makes; [None] when no coroutine
    waits for the event. *)
Definition step (run : Run.t Time) (event : Event) : option (Run.t Time * option Call) :=
  match run.(Run.outcome) with
  | Some _ => None
  | None =>
    match event with
    | Begin id now =>
      c ← run.(Run.running) !! id;
      step ← run.(Run.steps) !! c.(s);
      match c.(await) with
      | Created => Some (iterate run id c step 1 now)
      | _ => None
      end
    | Answer id reply now =>
      c ← run.(Run.running) !! id;
      step ← run.(Run.steps) !! c.(s);
      match c.(await) with
      | Sending attempt => Some (receive run id c step attempt reply now)
      | _ => None
      end
    | Wake id now =>
      c ← run.(Run.running) !! id;
      step ← run.(Run.steps) !! c.(s);
      match c.(await) with
      | Sleeping attempt _ => Some (iterate run id c step (attempt + 1) now)
      | _ => None
      end
    | Resume => if some_done run then Some (loop (reap run), None) else None
    end
  end.

(** [run(plan)] up to its first [await] *)
Definition begin_run (max_attempts : Z) (tracker : Tracker.t Time) (plan : Plan.t)
    : result (Run.t Time) :=
  validate_plan plan;;
  Ok (loop (Run.make max_attempts plan.(Plan.task_id) plan.(Plan.steps)
    (fold_left (fun m p => <[p.2.(Step.id) := p.1]> m)
      (imap (fun i step => (i, step)) plan.(Plan.steps)) ∅)
    ∅ ∅ tracker None)).

(** A sequence of events: the state it leads to and the calls on the way. *)
Fixpoint exec (run : Run.t Time) (events : list Event) : option (Run.t Time * list Call) :=
  match events with
  | [] => Some (run, [])
  | event :: events =>
    '(run, call) ← step run event;
    '(run, calls) ← exec run events;
    Some (run, option_list call ++ calls)
  end.
End Dispatcher.
Arguments Event : clear implicits.

(** ** [Aggregator.collect] *)

(** [sep.join(texts)] *)
Fixpoint join_text (sep : pystr) (texts : list pystr) : pystr :=
  match texts with
  | [] => []
  | [t] => t
  | t :: texts => t ++ sep ++ join_text sep texts
  end.

Definition text_of (part : Part) : option pystr :=
  match part with TextPart text => Some text | _ => None end.

Definition collect_part (results : gmap pystr Task.t) (step : Step.t) : Part :=
  let out := match results !! step.(Step.id) with
    | Some r => join_text [10%N]
        (omap text_of (flat_map Artifact.parts r.(Task.artifacts)))
    | None => []
    end in
  TextPart (strip (u "[" ++ step.(Step.id) ++ u "@" ++ step.(Step.target) ++ u "] "
    ++ StepStatus.value step.(Step.status) ++ [10%N] ++ out)).

Definition collect (plan : Plan.t) (results : gmap pystr Task.t) : Task.t :=
  let parts := map (collect_part results) plan.(Plan.steps) in
  let state := if forallb (fun step => step.(Step.status) == StepStatus.succeeded)
      plan.(Plan.steps) then completed else failed in
  Task.make plan.(Plan.task_id) {| state := state |} []
    [Artifact.make (u "plan") parts].
