(* ===== verification/PlanFacts.v ===== *)
(** * Plans that are accepted

    What [validate_plan] of [Dispatcher.v] checks, as a predicate on plans; the
    depth-first search ends within its fuel and rejects exactly the graphs with
    a cycle. *)
From S2P Require Import Prelude PyStr Models Dispatcher.

(** ** Inversion of runs that raise *)
Lemma raise_if_err c e e' : raise_if c e = Err e' -> c = true /\ e' = e.
Proof. destruct c; cbn; [by intros [= <-] | done]. Qed.

Lemma bind_err {A B} (m : result A) (f : A -> result B) e :
  (m ≫= f) = Err e -> m = Err e \/ exists a, m = Ok a /\ f a = Err e.
Proof. destruct m as [a | e']; cbn; [eauto | intros [= ->]; by left]. Qed.

(** ** Dictionaries filled by a loop *)
Lemma fold_insert_lookup {A K V} `{Countable K} (key : A -> K) (val : A -> V) (l : list A)
    (m : gmap K V) (k : K) (v : V) :
  NoDup (map key l) ->
  fold_left (fun m x => <[key x := val x]> m) l m !! k = Some v <->
  (exists x, x ∈ l /\ key x = k /\ val x = v) \/ (k ∉ map key l /\ m !! k = Some v).
Proof.
  revert m. induction l as [|x l IH]; intros m Hnd; cbn.
  { split; [right; split; [apply not_elem_of_nil | done]|].
    by intros [(x & Hx%elem_of_nil & _) | [_ ?]]. }
  apply NoDup_cons in Hnd as [Hx Hnd]. rw (IH _ Hnd). split.
  - intros [(y & Hy & Hk & Hv) | [Hk Hm]].
    + left. exists y. rw elem_of_cons. auto.
    + destruct (decide (key x = k)) as [<- | Hne].
      * rw lookup_insert_eq in Hm. left. exists x. rw elem_of_cons. naive_solver.
      * rw (lookup_insert_ne _ _ _ _ Hne) in Hm. right. rw elem_of_cons. naive_solver.
  - intros [(y & Hy%elem_of_cons & Hk & Hv) | [Hk Hm]].
    + destruct Hy as [-> | Hy]; [right | left; by exists y].
      split; [by rw -Hk | by rw Hk lookup_insert_eq Hv].
    + apply not_elem_of_cons in Hk as [Hne Hk]. right.
      split; [done | by rw lookup_insert_ne].
Qed.

(** ** [len(set(ids))] *)
Lemma unique_size {A} `{Countable A} (ids : list A) :
  length ids = size (list_to_set ids : gset A) <-> NoDup ids.
Proof.
  split; [|intros Hnd; by rw size_list_to_set].
  induction ids as [|a ids IH]; intros Hl; [constructor|].
  assert (size (list_to_set ids : gset A) <= length ids)%nat as Hle.
  { clear. induction ids as [|a ids IH]; cbn; [by rw size_empty|].
    pose proof (size_union_alt {[a]} (list_to_set ids : gset A)) as Hs.
    rw size_singleton in Hs.
    assert (size ((list_to_set ids : gset A) ∖ {[a]}) <= size (list_to_set ids : gset A))%nat
      by (apply subseteq_size; set_solver). lia. }
  cbn in Hl. destruct (decide (a ∈ ids)) as [Ha | Ha].
  - replace ({[a]} ∪ list_to_set ids : gset A) with (list_to_set ids : gset A) in Hl
      by set_solver. lia.
  - apply NoDup_cons. split; [done|]. apply IH.
    rw size_union in Hl; [rw size_singleton in Hl; lia | set_solver].
Qed.

(** ** The dependency graph *)

(** step [a] waits for step [b] *)
Definition depends (steps : list Step.t) (a b : pystr) : Prop :=
  exists step, step ∈ steps /\ step.(Step.id) = a /\ b ∈ step.(Step.depends_on).

(** A plan that can be run. *)
Record plan_ok (plan : Plan.t) : Prop := {
  plan_pending : forall step, step ∈ plan.(Plan.steps) -> step.(Step.status) = StepStatus.pending;
  plan_unique : NoDup (map Step.id plan.(Plan.steps));
  plan_closed : forall a b, depends plan.(Plan.steps) a b -> b ∈ map Step.id plan.(Plan.steps);
  plan_acyclic : forall a, ~ tc (depends plan.(Plan.steps)) a a }.

Lemma Acc_no_cycle {A} (R : relation A) a : Acc (flip R) a -> ~ tc R a a.
Proof.
  induction 1 as [a _ IH]. intros Ha.
  assert (exists b, R a b /\ rtc R b a) as (b & Hab & Hba).
  { inversion Ha as [? ? Hr | ? b ? Hr Ht]; subst.
    - exists a. split; [done | apply rtc_refl].
    - exists b. split; [done | by apply tc_rtc]. }
  apply (IH b Hab). by eapply tc_rtc_l; [| apply tc_once].
Qed.

(** ** Depth-first search *)
Section Visit.
Context (graph : gmap pystr Step.t).

Definition edge (a b : pystr) : Prop :=
  exists step, graph !! a = Some step /\ b ∈ step.(Step.depends_on).

Context (graph_closed : forall a b, edge a b -> is_Some (graph !! b)).

(** every visited step starts only finite chains of dependencies *)
Definition settled (visited : gset pystr) : Prop := forall a, a ∈ visited -> Acc (flip edge) a.

Definition visit_post (ids : list pystr) (visiting visited : gset pystr)
    (r : result (gset pystr * gset pystr)) : Prop :=
  match r with
  | Ok (visiting', visited') =>
    visiting' = visiting /\ visited ⊆ visited' /\ Forall (fun d => d ∈ visited') ids /\ settled visited'
  | Err e =>
    e = ValueError "plan dependency graph contains a cycle" /\ exists a, tc edge a a
  end.

Lemma visit_all f ids visiting visited :
  settled visited ->
  (forall d visited, d ∈ ids -> settled visited ->
     visit_post [d] visiting visited (f (visiting, visited) d)) ->
  visit_post ids visiting visited (foldM f (visiting, visited) ids).
Proof.
  revert visited. induction ids as [|d ids IH]; intros visited Hs Hf; cbn.
  { auto. }
  assert (visit_post [d] visiting visited (f (visiting, visited) d)) as Hd
    by (apply Hf; [apply elem_of_cons; by left | done]).
  destruct (f (visiting, visited) d) as [[vg vd] | e]; cbn in Hd |- *; [|done].
  destruct Hd as (-> & Hsub & Hin & Hs').
  assert (visit_post ids visiting vd (foldM f (visiting, vd) ids)) as Hr.
  { apply IH; [done|]. intros d' visited' Hd'. apply Hf, elem_of_cons. by right. }
  destruct (foldM f (visiting, vd) ids) as [[vg' vd'] | e]; cbn in Hr |- *; [|done].
  destruct Hr as (-> & Hsub' & Hin' & Hs'').
  rw Forall_singleton in Hin.
  split; [done|]. split; [by etransitivity|]. split; [|done].
  apply Forall_cons. split; [exact (Hsub' d Hin) | done].
Qed.

Lemma visit_spec fuel visiting visited id :
  (size (dom graph ∖ visiting) < fuel)%nat ->
  is_Some (graph !! id) ->
  (forall v, v ∈ visiting -> tc edge v id) ->
  settled visited ->
  visit_post [id] visiting visited (visit fuel graph (visiting, visited) id).
Proof.
  revert visiting visited id. induction fuel as [|fuel IH]; intros visiting visited id Hfuel Hid Hpath Hs.
  { lia. }
  cbn. case_bool_decide as Hvg.
  { split; [done|]. exists id. by apply Hpath. }
  case_bool_decide as Hvd.
  { cbn. rw Forall_singleton. auto. }
  destruct Hid as [step Hstep]. rw Hstep. cbn.
  assert (visit_post step.(Step.depends_on) ({[id]} ∪ visiting) visited
            (foldM (visit fuel graph) ({[id]} ∪ visiting, visited) step.(Step.depends_on))) as Hr.
  { apply visit_all; [done|]. intros d visited' Hd Hs'.
    assert (edge id d) as Hedge by by exists step.
    apply IH; [| by eapply graph_closed | | done].
    - assert (dom graph ∖ ({[id]} ∪ visiting) ⊂ dom graph ∖ visiting) as Hlt%subset_size; [|lia].
      assert (id ∈ dom graph) by (apply elem_of_dom; eauto). set_solver.
    - intros v [->%elem_of_singleton | Hv]%elem_of_union; [by apply tc_once|].
      eapply tc_r; [by apply Hpath | done]. }
  destruct (foldM _ _ _) as [[vg vd] | e]; cbn in Hr |- *; [|done].
  destruct Hr as (-> & Hsub & Hin & Hs').
  split; [set_solver|]. split; [set_solver|]. split; [rw Forall_singleton; set_solver|].
  intros a [->%elem_of_singleton | Ha]%elem_of_union; [|by apply Hs'].
  constructor. intros d (step' & Hstep' & Hd). simplify_eq.
  eapply Forall_forall in Hin; [|done]. by apply Hs'.
Qed.
End Visit.

(** ** [validate_plan] *)
Section Validate.
Context (plan : Plan.t).
Abbreviation steps := (plan.(Plan.steps)).

Lemma by_id_lookup id step :
  NoDup (map Step.id steps) ->
  by_id steps !! id = Some step <-> step ∈ steps /\ step.(Step.id) = id.
Proof.
  intros Hnd. unfold by_id. rw (fold_insert_lookup Step.id (fun s => s) _ _ _ _ Hnd). split.
  - intros [(x & Hx & Hk & ->) | [_ H]]; [done|]. by rw lookup_empty in H.
  - intros [Hin Hid]. left. by exists step.
Qed.

Lemma edge_depends a b :
  NoDup (map Step.id steps) -> edge (by_id steps) a b <-> depends steps a b.
Proof.
  intros Hnd. unfold edge, depends. setoid_rewrite (by_id_lookup _ _ Hnd). naive_solver.
Qed.

Lemma by_id_some id :
  NoDup (map Step.id steps) -> is_Some (by_id steps !! id) <-> id ∈ map Step.id steps.
Proof.
  intros Hnd. unfold is_Some. setoid_rewrite (by_id_lookup _ _ Hnd).
  rw list_elem_of_fmap. naive_solver.
Qed.

Lemma visit_steps :
  NoDup (map Step.id steps) ->
  (forall a b, depends steps a b -> b ∈ map Step.id steps) ->
  visit_post (by_id steps) (map Step.id steps) ∅ ∅
    (foldM (visit (S (length steps)) (by_id steps)) (∅, ∅) (map Step.id steps)).
Proof.
  intros Hnd Hcl. apply visit_all; [intros a; set_solver|]. intros d visited Hd Hs.
  apply visit_spec; [| | | set_solver | done].
  - intros a b Hab%edge_depends; [|done]. apply by_id_some; eauto.
  - assert (dom (by_id steps) ∖ ∅ ⊆ list_to_set (map Step.id steps)) as Hsub.
    { apply elem_of_subseteq. intros a [Ha%elem_of_dom _]%elem_of_difference.
      by apply elem_of_list_to_set, by_id_some. }
    apply subseteq_size in Hsub. rw (size_list_to_set _ Hnd) length_map in Hsub. lia.
  - by apply by_id_some.
Qed.

Lemma check_steps_ok :
  forM_ (check_step (list_to_set (map Step.id steps))) steps = Ok tt <->
  (forall a b, depends steps a b -> b ∈ map Step.id steps) /\
  (forall step, step ∈ steps -> step.(Step.id) ∉ step.(Step.depends_on)).
Proof.
  rw forM_ok Forall_forall. split.
  - intros H. split.
    + intros a b (step & Hin & _ & Hb).
      pose proof (H _ Hin) as Hck. unfold check_step in Hck.
      apply bind_ok_unit in Hck as [Hu%raise_if_ok%neqb_false _].
      apply dec_stable. intros Hn. apply (not_elem_of_empty (C := gset pystr) b).
      rw -Hu. unfold unknown_dependencies. apply elem_of_difference.
      by rw !elem_of_list_to_set.
    + intros step Hck%H. unfold check_step in Hck.
      by apply bind_ok_unit in Hck as [_ Hs%raise_if_ok%bool_decide_eq_false].
  - intros [Hc Hs] step Hin. apply bind_ok_unit. split.
    + apply raise_if_ok, neqb_false. unfold unknown_dependencies.
      apply set_eq. intros b. split; [|by intros ?%elem_of_empty].
      intros [Hb%elem_of_list_to_set Hn]%elem_of_difference. destruct Hn.
      apply elem_of_list_to_set, (Hc step.(Step.id)). by exists step.
    + apply raise_if_ok, bool_decide_eq_false. by apply Hs.
Qed.

Lemma pending_ok :
  existsb (fun step => negb (bool_decide (step.(Step.status) = StepStatus.pending))) steps = false <->
  (forall step, step ∈ steps -> step.(Step.status) = StepStatus.pending).
Proof.
  rw existsb_false_iff Forall_forall. by setoid_rewrite neqb_false.
Qed.

Lemma validate_plan_ok : validate_plan plan = Ok tt <-> plan_ok plan.
Proof.
  unfold validate_plan. split.
  - intros (Hp%raise_if_ok & Hr)%bind_ok_unit. pose proof (proj1 pending_ok Hp) as Hpend.
    apply bind_ok_unit in Hr as (Hu%raise_if_ok%neqb_false%unique_size & Hr).
    apply bind_ok_unit in Hr as ([Hc _]%check_steps_ok & Hr).
    apply bind_ok in Hr as ([vg vd] & Hv & _).
    pose proof (visit_steps Hu Hc) as Hpost. rw Hv in Hpost.
    destruct Hpost as (_ & _ & Hin & Hs).
    split; try done. intros a Ha.
    assert (tc (edge (by_id steps)) a a) as Ha'.
    { eapply tc_congruence with (f := fun x => x), Ha. intros x y. by apply edge_depends. }
    apply (Acc_no_cycle (edge (by_id steps)) a); [|done].
    assert (exists b, edge (by_id steps) a b) as (b & step & [Hstep Hid]%by_id_lookup & _);
      [by inversion Ha'; eauto | | done].
    apply Hs, (proj1 (Forall_forall _ _) Hin). rw -Hid. by apply list_elem_of_fmap_2.
  - intros [Hp Hu Hc Ha].
    apply bind_ok_unit. split; [by apply raise_if_ok, pending_ok|].
    apply bind_ok_unit. split; [by apply raise_if_ok, neqb_false, unique_size|].
    apply bind_ok_unit. split.
    { apply check_steps_ok. split; [done|]. intros step Hin Hself.
      apply (Ha step.(Step.id)), tc_once. by exists step. }
    pose proof (visit_steps Hu Hc) as Hpost.
    destruct (foldM _ _ _) as [[vg vd] | e]; cbn in Hpost |- *; [done|].
    destruct Hpost as (_ & a & Hcyc). destruct (Ha a).
    eapply tc_congruence with (f := fun x => x), Hcyc. intros x y. by apply edge_depends.
Qed.

Lemma check_steps_err known l e :
  forM_ (check_step known) l = Err e -> exists msg, e = ValueError msg.
Proof.
  induction l as [|step l IH]; cbn; [done|]. intros [Hr | (_ & _ & Hr)]%bind_err; [|eauto].
  unfold check_step in Hr.
  apply bind_err in Hr as [[_ ->]%raise_if_err | (_ & _ & [_ ->]%raise_if_err)]; eauto.
Qed.

(** a refused plan is refused with a [ValueError] *)
Lemma validate_plan_err e : validate_plan plan = Err e -> exists msg, e = ValueError msg.
Proof.
  unfold validate_plan. intros [Hr | (_ & _ & Hr)]%bind_err.
  { apply raise_if_err in Hr as [_ ->]. eauto. }
  apply bind_err in Hr as [Hr | (_ & Hu%raise_if_ok%neqb_false%unique_size & Hr)].
  { apply raise_if_err in Hr as [_ ->]. eauto. }
  apply bind_err in Hr as [Hr | ([] & [Hc _]%check_steps_ok & Hr)].
  { by apply check_steps_err in Hr. }
  pose proof (visit_steps Hu Hc) as Hpost.
  destruct (foldM _ _ _) as [[vg vd] | e4]; cbn in Hpost, Hr; [done|].
  injection Hr as <-. naive_solver.
Qed.

(** Induction along the dependencies of an accepted plan. *)
Lemma plan_wf : plan_ok plan -> forall a, Acc (flip (depends steps)) a.
Proof.
  intros Hok. pose proof Hok as [_ Hu Hc _].
  apply validate_plan_ok in Hok. unfold validate_plan in Hok.
  apply bind_ok_unit in Hok as (_ & Hr). apply bind_ok_unit in Hr as (_ & Hr).
  apply bind_ok_unit in Hr as (_ & Hr). apply bind_ok in Hr as ([vg vd] & Hv & _).
  pose proof (visit_steps Hu Hc) as Hpost. rw Hv in Hpost.
  destruct Hpost as (_ & _ & Hin & Hs).
  assert (forall a, Acc (flip (edge (by_id steps))) a -> Acc (flip (depends steps)) a) as Hmono.
  { induction 1 as [a _ IH]. constructor. intros b Hb. apply IH. by apply edge_depends. }
  intros a. destruct (decide (a ∈ map Step.id steps)) as [Ha | Ha].
  - by apply Hmono, Hs, (proj1 (Forall_forall _ _) Hin).
  - constructor. intros b (step & Hin' & <- & _). destruct Ha. by apply list_elem_of_fmap_2.
Qed.
End Validate.
