(* ===== verification/DispatchFacts.v ===== *)
(** * The run of a plan

    The invariant of [Dispatcher.run]: what each step's status, coroutine,
    calls and result have to do with each other while the run lasts, and what
    they are when it has returned. *)
From S2P Require Import Prelude PyStr Models Dispatcher PlanFacts.
Local Open Scope Z_scope.

(** ** Coroutines of one step *)
Definition reset (steps : list Step.t) : list Step.t :=
  map (Step.set_status StepStatus.pending) steps.

Definition succeeded_in (steps : list Step.t) (d : pystr) : Prop :=
  exists step, step ∈ steps /\ step.(Step.id) = d /\ step.(Step.status) = StepStatus.succeeded.

Definition error_task (id text : pystr) : Task.t :=
  failed_task id (text_artifact (u "err") (u "step failed: " ++ text)).

Definition call_key (task_id id : pystr) : pystr := task_id ++ u ":" ++ id.

(** the calls made for the step [id] *)
Definition sends (task_id id : pystr) (calls : list Call) : Z :=
  Z.of_nat (count (call_key task_id id) (map call_task_id calls)).

Section Phase.
Context {Time : Type} (max_attempts : Z) (id : pystr) (events : list (Event Time)).

(** Status, suspension of the coroutine if there is one, number of calls and
    recorded result of a step, while the run lasts. *)
Inductive phase : StepStatus.t -> option Await -> Z -> option Task.t -> Prop :=
| phase_pending : phase StepStatus.pending None 0 None
| phase_created : phase StepStatus.running (Some Created) 0 None
| phase_sending k r :
    1 <= k <= max_attempts -> (k = 1 /\ r = None \/ exists text, r = Some (error_task id text)) ->
    phase StepStatus.running (Some (Sending k)) k r
| phase_sleeping k text :
    1 <= k < max_attempts ->
    phase StepStatus.running (Some (Sleeping k (2 ^ (k - 1)))) k (Some (error_task id text))
| phase_succeeded a k task now :
    a = None \/ a = Some Done -> 1 <= k <= max_attempts ->
    task.(Task.status).(state) = completed -> Answer id (Replied task) now ∈ events ->
    phase StepStatus.succeeded a k (Some task)
| phase_failed a r :
    a = None \/ a = Some Done ->
    (1 <= max_attempts -> exists text, r = Some (error_task id text)) ->
    phase StepStatus.failed a (Z.max 0 max_attempts) r.

(** The same when the run has returned; the last line is for the steps that were
    never started. *)
Inductive final_phase (deps_succeeded : Prop) (some_failed : Prop)
    : StepStatus.t -> Z -> option Task.t -> Prop :=
| final_succeeded k task now :
    deps_succeeded -> 1 <= k <= max_attempts ->
    task.(Task.status).(state) = completed -> Answer id (Replied task) now ∈ events ->
    final_phase deps_succeeded some_failed StepStatus.succeeded k (Some task)
| final_failed r :
    deps_succeeded -> (1 <= max_attempts -> exists text, r = Some (error_task id text)) ->
    final_phase deps_succeeded some_failed StepStatus.failed (Z.max 0 max_attempts) r
| final_blocked :
    some_failed ->
    final_phase deps_succeeded some_failed StepStatus.failed 0 (Some (blocked_task id)).
End Phase.

Lemma phase_mono {Time} max_attempts id (events events' : list (Event Time)) st a k r :
  events ⊆ events' -> phase max_attempts id events st a k r ->
  phase max_attempts id events' st a k r.
Proof. intros Hsub []; econstructor; eauto. Qed.

Lemma call_key_inj task_id id id' : call_key task_id id = call_key task_id id' -> id = id'.
Proof. by unfold call_key; intros ?%app_inv_head%app_inv_head. Qed.

Lemma count_app {A} `{EqDecision A} (a : A) l k : count a (l ++ k) = (count a l + count a k)%nat.
Proof. unfold count. by rw List.filter_app length_app. Qed.

Lemma sends_none task_id id calls : sends task_id id (calls ++ []) = sends task_id id calls.
Proof. by rw app_nil_r. Qed.

Lemma sends_own {Time} (run : Run.t Time) step calls :
  sends run.(Run.task_id) step.(Step.id) (calls ++ [call_of run step])
  = sends run.(Run.task_id) step.(Step.id) calls + 1.
Proof.
  unfold sends. rw map_app count_app Nat2Z.inj_add. f_equal.
  unfold count. cbn. by rw bool_decide_true.
Qed.

Lemma sends_other {Time} (run : Run.t Time) step id calls :
  id <> step.(Step.id) ->
  sends run.(Run.task_id) id (calls ++ [call_of run step]) = sends run.(Run.task_id) id calls.
Proof.
  intros Hne. unfold sends. rw map_app count_app Nat2Z.inj_add.
  assert (count (call_key run.(Run.task_id) id) (map call_task_id [call_of run step]) = 0%nat) as ->;
    [|lia].
  unfold count. cbn. rw bool_decide_false; [done|]. by intros ?%eq_sym%call_key_inj.
Qed.

Lemma sends_nonneg task_id id calls : 0 <= sends task_id id calls.
Proof. unfold sends. lia. Qed.

(** What the suspension of a coroutine says about its step. *)
Section PhaseInversion.
Context {Time : Type} (max_attempts : Z) (id : pystr) (events : list (Event Time)).
Context (st : StepStatus.t) (n : Z) (r : option Task.t).

Lemma phase_created_inv :
  phase max_attempts id events st (Some Created) n r -> st = StepStatus.running /\ n = 0 /\ r = None.
Proof. inversion 1 as [| | | |? ? ? ? [?|?]|? ? [?|?]]; naive_solver. Qed.

Lemma phase_sending_inv k :
  phase max_attempts id events st (Some (Sending k)) n r ->
  st = StepStatus.running /\ n = k /\ 1 <= k <= max_attempts.
Proof. inversion 1 as [| | | |? ? ? ? [?|?]|? ? [?|?]]; naive_solver. Qed.

Lemma phase_sleeping_inv k delay :
  phase max_attempts id events st (Some (Sleeping k delay)) n r ->
  st = StepStatus.running /\ n = k /\ 1 <= k < max_attempts /\ delay = 2 ^ (k - 1) /\
  exists text, r = Some (error_task id text).
Proof. inversion 1 as [| | | |? ? ? ? [?|?]|? ? [?|?]]; naive_solver. Qed.

Lemma phase_done_inv :
  phase max_attempts id events st (Some Done) n r -> phase max_attempts id events st None n r.
Proof. inversion 1; subst; econstructor; eauto. Qed.
End PhaseInversion.

(** ** The invariant *)
Section Invariant.
Context {Time : Type} (plan : Plan.t) (max_attempts : Z).
Implicit Type run : Run.t Time.
Abbreviation ids := (map Step.id plan.(Plan.steps)).
Abbreviation sent := (sends plan.(Plan.task_id)).

(** what never changes *)
Record frame run : Prop := {
  frame_attempts : run.(Run.max_attempts) = max_attempts;
  frame_task : run.(Run.task_id) = plan.(Plan.task_id);
  frame_steps : reset run.(Run.steps) = plan.(Plan.steps);
  frame_pending : forall i step, run.(Run.steps) !! i = Some step ->
    run.(Run.pending) !! step.(Step.id) = Some i }.

Definition deps_succeeded run (step : Step.t) : Prop :=
  forall d, d ∈ step.(Step.depends_on) -> succeeded_in run.(Run.steps) d.

Record Inv (events : list (Event Time)) (calls : list Call) run : Prop := {
  inv_frame : frame run;
  inv_outcome : run.(Run.outcome) = None;
  inv_running : forall id c, run.(Run.running) !! id = Some c ->
    exists step, run.(Run.steps) !! c.(s) = Some step /\ step.(Step.id) = id;
  inv_phase : forall i step, run.(Run.steps) !! i = Some step ->
    phase max_attempts step.(Step.id) events step.(Step.status)
      (await <$> run.(Run.running) !! step.(Step.id)) (sent step.(Step.id) calls)
      (run.(Run.results) !! step.(Step.id));
  inv_deps : forall i step, run.(Run.steps) !! i = Some step ->
    step.(Step.status) <> StepStatus.pending -> deps_succeeded run step;
  inv_results : forall id, is_Some (run.(Run.results) !! id) -> id ∈ ids }.

Definition some_failed run (step : Step.t) : Prop :=
  exists d dep, d ∈ step.(Step.depends_on) /\ dep ∈ run.(Run.steps) /\ dep.(Step.id) = d /\
    dep.(Step.status) = StepStatus.failed.

Record Final (events : list (Event Time)) (calls : list Call) run : Prop := {
  final_frame : frame run;
  final_outcome : run.(Run.outcome) = Some (Ok tt);
  final_phases : forall i step, run.(Run.steps) !! i = Some step ->
    final_phase max_attempts step.(Step.id) events (deps_succeeded run step)
      (some_failed run step) step.(Step.status) (sent step.(Step.id) calls)
      (run.(Run.results) !! step.(Step.id));
  final_results : forall id, is_Some (run.(Run.results) !! id) -> id ∈ ids }.

(** what holds at every suspension *)
Definition sound (events : list (Event Time)) (calls : list Call) run : Prop :=
  Inv events calls run /\ run.(Run.running) <> ∅ \/ Final events calls run.

Context (Hplan : plan_ok plan).

Lemma frame_id run i step :
  frame run -> run.(Run.steps) !! i = Some step ->
  exists step0, plan.(Plan.steps) !! i = Some step0 /\
    step0.(Step.id) = step.(Step.id) /\ step0.(Step.depends_on) = step.(Step.depends_on).
Proof.
  intros Hf Hi. rw -(frame_steps _ Hf). unfold reset. rw list_lookup_fmap Hi. cbn. by eexists.
Qed.

Lemma frame_unique run i j step step' :
  frame run -> run.(Run.steps) !! i = Some step -> run.(Run.steps) !! j = Some step' ->
  step.(Step.id) = step'.(Step.id) -> i = j.
Proof.
  intros Hf Hi Hj Hid.
  pose proof (frame_pending _ Hf _ _ Hi) as Hpi. pose proof (frame_pending _ Hf _ _ Hj) as Hpj.
  rw Hid Hpj in Hpi. by injection Hpi.
Qed.

Lemma frame_in_ids run step : frame run -> step ∈ run.(Run.steps) -> step.(Step.id) ∈ ids.
Proof.
  intros Hf [i Hi]%list_elem_of_lookup. destruct (frame_id _ _ _ Hf Hi) as (step0 & Hi0 & Hid & _).
  rw -Hid. apply list_elem_of_fmap_2. by eapply list_elem_of_lookup_2.
Qed.

(** a dependency is the identifier of a step *)
Lemma frame_dep run step d :
  frame run -> step ∈ run.(Run.steps) -> d ∈ step.(Step.depends_on) ->
  exists j dep, run.(Run.steps) !! j = Some dep /\ dep.(Step.id) = d.
Proof.
  intros Hf [i Hi]%list_elem_of_lookup Hd.
  destruct (frame_id _ _ _ Hf Hi) as (step0 & Hi0 & Hid & Hdeps).
  assert (d ∈ ids) as Hin.
  { apply (plan_closed _ Hplan step0.(Step.id)). exists step0.
    split; [by eapply list_elem_of_lookup_2|]. by rw Hdeps. }
  rw -(frame_steps _ Hf) in Hin. unfold reset in Hin. rw map_map in Hin.
  apply list_elem_of_fmap in Hin as (dep & -> & [j Hj]%list_elem_of_lookup). by exists j, dep.
Qed.

(** The step of the coroutine [id] moves on and nothing else does. *)
Record local_step run (i : nat) (step : Step.t) (st : StepStatus.t) (a : Await) run' : Prop := {
  local_attempts : run'.(Run.max_attempts) = run.(Run.max_attempts);
  local_task : run'.(Run.task_id) = run.(Run.task_id);
  local_pending : run'.(Run.pending) = run.(Run.pending);
  local_outcome : run'.(Run.outcome) = None;
  local_running : run'.(Run.running) = <[step.(Step.id) := {| s := i; await := a |}]> run.(Run.running);
  local_results : forall id, id <> step.(Step.id) -> run'.(Run.results) !! id = run.(Run.results) !! id;
  local_steps : run'.(Run.steps) = alter (Step.set_status st) i run.(Run.steps) }.

Lemma reset_alter st i (steps : list Step.t) : reset (alter (Step.set_status st) i steps) = reset steps.
Proof.
  apply list_eq. intros j. unfold reset. rw !list_lookup_fmap.
  destruct (decide (i = j)) as [-> | Hne].
  - rw list_lookup_alter_eq. by destruct (steps !! j).
  - by rw list_lookup_alter_ne.
Qed.

Lemma succeeded_in_alter st i step (steps : list Step.t) d :
  steps !! i = Some step -> step.(Step.status) <> StepStatus.succeeded ->
  succeeded_in steps d -> succeeded_in (alter (Step.set_status st) i steps) d.
Proof.
  intros Hi Hns (dep & [j Hj]%list_elem_of_lookup & Hid & Hst).
  exists dep. split; [|done]. apply list_elem_of_lookup. exists j.
  rw list_lookup_alter_ne; [done|]. intros ->. simplify_eq.
Qed.

Lemma set_status_lookup st i j step step' (steps : list Step.t) :
  steps !! i = Some step -> alter (Step.set_status st) i steps !! j = Some step' ->
  i = j /\ step' = Step.set_status st step \/ i <> j /\ steps !! j = Some step'.
Proof.
  intros Hi Hj. destruct (decide (i = j)) as [<- | Hne].
  - rw list_lookup_alter_eq Hi in Hj. cbn in Hj. naive_solver.
  - rw list_lookup_alter_ne in Hj; [auto|done].
Qed.

Lemma frame_local run i step st a run' :
  frame run -> run.(Run.steps) !! i = Some step -> local_step run i step st a run' -> frame run'.
Proof.
  intros Hf Hi Hl. split.
  - by rw (local_attempts _ _ _ _ _ _ Hl) (frame_attempts _ Hf).
  - by rw (local_task _ _ _ _ _ _ Hl) (frame_task _ Hf).
  - by rw (local_steps _ _ _ _ _ _ Hl) reset_alter (frame_steps _ Hf).
  - rw (local_steps _ _ _ _ _ _ Hl) (local_pending _ _ _ _ _ _ Hl). intros j step' Hj.
    apply (set_status_lookup _ _ _ _ _ _ Hi) in Hj as [[<- ->] | [_ Hj]].
    + exact (frame_pending _ Hf _ _ Hi).
    + exact (frame_pending _ Hf _ _ Hj).
Qed.

(** A step of a coroutine, or its creation, keeps the invariant when it keeps
    the line of its own step. *)
Lemma Inv_move events events' calls run i step st a run' call :
  Inv events calls run -> events ⊆ events' ->
  run.(Run.steps) !! i = Some step -> step.(Step.status) <> StepStatus.succeeded ->
  deps_succeeded run step ->
  local_step run i step st a run' ->
  call = [] \/ call = [call_of run step] ->
  phase max_attempts step.(Step.id) events' st (Some a) (sent step.(Step.id) (calls ++ call))
    (run'.(Run.results) !! step.(Step.id)) ->
  Inv events' (calls ++ call) run'.
Proof.
  intros HI Hsub Hi Hns Hdeps Hl Hcall Hph. pose proof (inv_frame _ _ _ HI) as Hf.
  assert (frame run') as Hf' by by eapply frame_local.
  assert (forall id, id <> step.(Step.id) -> sent id (calls ++ call) = sent id calls) as Hsent.
  { intros id Hne. destruct Hcall as [-> | ->]; [apply sends_none|].
    rw -(frame_task _ Hf). by apply sends_other. }
  split; try done.
  - by eapply local_outcome.
  - rw (local_running _ _ _ _ _ _ Hl) (local_steps _ _ _ _ _ _ Hl). intros id c.
    rw lookup_insert_Some. intros [[<- <-] | [Hne Hc]]; cbn.
    + rw list_lookup_alter_eq Hi. by eexists.
    + destruct (inv_running _ _ _ HI _ _ Hc) as (step' & Hi' & Hid).
      exists step'. rw list_lookup_alter_ne; [done|]. intros ->. simplify_eq.
  - rw (local_steps _ _ _ _ _ _ Hl) (local_running _ _ _ _ _ _ Hl). intros j step' Hj.
    apply (set_status_lookup _ _ _ _ _ _ Hi) in Hj as [[<- ->] | [Hne Hj]].
    + cbn. by rw lookup_insert_eq.
    + assert (step'.(Step.id) <> step.(Step.id)) as Hid.
      { intros Heq. apply Hne. exact (frame_unique _ _ _ _ _ Hf Hi Hj (eq_sym Heq)). }
      rw lookup_insert_ne; [|done]. rw Hsent; [|done].
      rw (local_results _ _ _ _ _ _ Hl); [|done].
      eapply phase_mono; [done|]. by apply (inv_phase _ _ _ HI j).
  - intros j step' Hj Hnp' d Hd. rw (local_steps _ _ _ _ _ _ Hl) in Hj |- *.
    eapply succeeded_in_alter; [done | done |].
    apply (set_status_lookup _ _ _ _ _ _ Hi) in Hj as [[<- ->] | [_ Hj]].
    + by apply Hdeps.
    + by eapply (inv_deps _ _ _ HI _ _ Hj).
  - intros id Hsome. destruct (decide (id = step.(Step.id))) as [-> | Hne].
    + eapply frame_in_ids; [exact Hf|]. by eapply list_elem_of_lookup_2.
    + apply (inv_results _ _ _ HI). by rw -(local_results _ _ _ _ _ _ Hl).
Qed.

Lemma Inv_local events events' calls run i step st a run' call :
  Inv events calls run -> events ⊆ events' ->
  run.(Run.steps) !! i = Some step -> step.(Step.status) = StepStatus.running ->
  local_step run i step st a run' ->
  call = [] \/ call = [call_of run step] ->
  phase max_attempts step.(Step.id) events' st (Some a) (sent step.(Step.id) (calls ++ call))
    (run'.(Run.results) !! step.(Step.id)) ->
  Inv events' (calls ++ call) run'.
Proof.
  intros HI Hsub Hi Hst. eapply Inv_move; try done; [by rw Hst|].
  eapply (inv_deps _ _ _ HI); [done | by rw Hst].
Qed.

(** ** Coroutines *)
Lemma alter_same (steps : list Step.t) i step :
  steps !! i = Some step -> alter (Step.set_status step.(Step.status)) i steps = steps.
Proof.
  intros Hi. apply list_eq. intros j. destruct (decide (i = j)) as [<- | Hne].
  - rw list_lookup_alter_eq Hi. by destruct step.
  - by rw list_lookup_alter_ne.
Qed.

Lemma local_set_result run i step st a task run' :
  local_step (Run.set_result run step.(Step.id) task) i step st a run' ->
  local_step run i step st a run'.
Proof.
  intros [Hmax Htask Hpend Hout Hrun Hres Hst]; split; try done.
  intros id Hne. rw (Hres id Hne). cbn. by rw lookup_insert_ne.
Qed.

Lemma iterate_sends run c step attempt now :
  run.(Run.outcome) = None -> run.(Run.steps) !! c.(s) = Some step ->
  step.(Step.status) = StepStatus.running -> attempt <= run.(Run.max_attempts) ->
  exists run', iterate run step.(Step.id) c step attempt now = (run', Some (call_of run step)) /\
    local_step run c.(s) step StepStatus.running (Sending attempt) run' /\
    run'.(Run.results) = run.(Run.results).
Proof.
  intros Hout Hi Hst Hle. unfold iterate. rw (proj2 (Z.leb_le _ _) Hle).
  eexists. split; [done|]. split; [|done]. split; try done. cbn. by rw -Hst (alter_same _ _ _ Hi).
Qed.

Lemma iterate_ends run c step attempt now :
  run.(Run.outcome) = None -> run.(Run.max_attempts) < attempt ->
  exists run', iterate run step.(Step.id) c step attempt now = (run', None) /\
    local_step run c.(s) step StepStatus.failed Done run' /\
    run'.(Run.results) = run.(Run.results).
Proof.
  intros Hout Hlt. unfold iterate. rw (proj2 (Z.leb_gt _ _) Hlt).
  eexists. split; [done|]. by split.
Qed.

Lemma inv_waiting events calls run id c step :
  Inv events calls run -> run.(Run.running) !! id = Some c ->
  run.(Run.steps) !! c.(s) = Some step ->
  step.(Step.id) = id /\
  phase max_attempts id events step.(Step.status) (Some c.(await)) (sent id calls)
    (run.(Run.results) !! id).
Proof.
  intros HI Hc Hi. destruct (inv_running _ _ _ HI _ _ Hc) as (step' & Hi' & Hid).
  simplify_eq. split; [done|]. pose proof (inv_phase _ _ _ HI _ _ Hi) as Hph. by rw Hc in Hph.
Qed.

(** the head of the loop, with the results the [except] clause has written *)
Lemma iterate_inv events events' calls run results i step k now run' call :
  Inv events calls run -> events ⊆ events' ->
  run.(Run.steps) !! i = Some step -> step.(Step.status) = StepStatus.running ->
  sent step.(Step.id) calls = k -> 0 <= k <= Z.max 0 max_attempts ->
  k = 0 /\ results = run /\ run.(Run.results) !! step.(Step.id) = None \/
  (exists text, 1 <= k /\ results = Run.set_result run step.(Step.id) (error_task step.(Step.id) text)) \/
  (exists text, 1 <= k /\ results = run /\
     run.(Run.results) !! step.(Step.id) = Some (error_task step.(Step.id) text)) ->
  forall c, c.(s) = i ->
  iterate results step.(Step.id) c step (k + 1) now = (run', call) ->
  Inv events' (calls ++ option_list call) run'.
Proof.
  intros HI Hsub Hi Hst Hk Hrange Hres c <- Hit. pose proof (inv_frame _ _ _ HI) as Hf.
  assert (forall st a run', local_step results c.(s) step st a run' -> local_step run c.(s) step st a run')
    as Hlocal.
  { destruct Hres as [(_ & -> & _) | [(text & _ & ->) | (text & _ & -> & _)]]; try done.
    intros st a r. apply local_set_result. }
  assert (results.(Run.outcome) = None /\ results.(Run.steps) !! c.(s) = Some step /\
    results.(Run.max_attempts) = max_attempts /\ call_of results step = call_of run step)
    as (Hout & Hi' & Hmax & Hcall).
  { destruct Hres as [(_ & -> & _) | [(text & _ & ->) | (text & _ & -> & _)]]; cbn;
      by rw (inv_outcome _ _ _ HI) (frame_attempts _ Hf). }
  assert (k = 0 /\ results.(Run.results) !! step.(Step.id) = None \/
    exists text, 1 <= k /\ results.(Run.results) !! step.(Step.id) = Some (error_task step.(Step.id) text))
    as Hr.
  { destruct Hres as [(-> & -> & ?) | [(text & ? & ->) | (text & ? & -> & ?)]]; [by left | |]; right;
      exists text; split; try done. cbn. by rw lookup_insert_eq. }
  destruct (decide (k + 1 <= max_attempts)) as [Hle | Hgt].
  - destruct (iterate_sends results c step (k + 1) now) as (r & Hr1 & Hl & Hres1);
      [done | done | done | by rw Hmax|].
    rw Hr1 in Hit. injection Hit as <- <-. rw Hcall. apply Hlocal in Hl.
    apply (Inv_local events events' calls run c.(s) step StepStatus.running (Sending (k + 1)) r
      [call_of run step]); try done; [by right|].
    rw -{1}(frame_task _ Hf) sends_own (frame_task _ Hf) Hk Hres1.
    apply phase_sending; [lia|]. destruct Hr as [[-> ?] | (text & ? & ?)]; [by left | right; eauto].
  - destruct (iterate_ends results c step (k + 1) now) as (r & Hr1 & Hl & Hres1);
      [done | rw Hmax; lia |].
    rw Hr1 in Hit. injection Hit as <- <-. apply Hlocal in Hl.
    apply (Inv_local events events' calls run c.(s) step StepStatus.failed Done r []);
      try done; [by left|]. rw app_nil_r Hk Hres1.
    assert (k = Z.max 0 max_attempts) as -> by lia.
    apply phase_failed; [by right|]. intros Hpos.
    destruct Hr as [[Hz _] | (text & _ & ?)]; [lia | eauto].
Qed.

Lemma answer_inv events calls run id c step k reply now run' call :
  Inv events calls run -> run.(Run.running) !! id = Some c ->
  run.(Run.steps) !! c.(s) = Some step -> c.(await) = Sending k ->
  receive run id c step k reply now = (run', call) ->
  Inv (events ++ [Answer id reply now]) (calls ++ option_list call) run'.
Proof.
  intros HI Hc Hi Haw Hrec. pose proof (inv_frame _ _ _ HI) as Hf.
  destruct (inv_waiting _ _ _ _ _ _ HI Hc Hi) as [<- Hph]. rw Haw in Hph.
  apply phase_sending_inv in Hph as (Hst & Hs & Hk).
  assert (events ⊆ events ++ [Answer step.(Step.id) reply now]) as Hsub by set_solver.
  unfold receive in Hrec. destruct (completed_task reply) as [task | text] eqn:Hreply.
  - injection Hrec as <- <-.
    apply (Inv_local events _ calls run c.(s) step StepStatus.succeeded Done _ []);
      [done | done | done | done | | by left |].
    { split; try done; [exact (inv_outcome _ _ _ HI)|]. intros id' Hne. cbn.
      by rw lookup_insert_ne. }
    cbn. rw app_nil_r lookup_insert_eq Hs.
    unfold completed_task in Hreply. destruct reply as [task' | ?]; [|done].
    case_bool_decide as Hcomp; [|done]. injection Hreply as <-.
    eapply phase_succeeded with (now := now); [by right | done | done | set_solver].
  - cbn in Hrec. rw (frame_attempts _ Hf) in Hrec.
    destruct (Z.ltb_spec k max_attempts) as [Hlt | Hge].
    + injection Hrec as <- <-.
      apply (Inv_local events _ calls run c.(s) step StepStatus.running
        (Sleeping k (2 ^ (k - 1))) _ []); [done | done | done | done | | by left |].
      { split; try done; [exact (inv_outcome _ _ _ HI) | |].
        - intros id' Hne. cbn. by rw lookup_insert_ne.
        - cbn. by rw -Hst (alter_same _ _ _ Hi). }
      cbn. rw app_nil_r lookup_insert_eq Hs. apply phase_sleeping. lia.
    + eapply iterate_inv; [exact HI | done | exact Hi | done | done | lia | | done | exact Hrec].
      right. left. exists text. split; [lia | done].
Qed.

Lemma coroutine_inv events calls run e run' call :
  Inv events calls run -> step run e = Some (run', call) -> e <> Resume ->
  Inv (events ++ [e]) (calls ++ option_list call) run'.
Proof.
  intros HI Hstep Hne. unfold step in Hstep. rw (inv_outcome _ _ _ HI) in Hstep.
  destruct e as [id now | id reply now | id now |]; [| | | done]; clear Hne.
  all: destruct (run.(Run.running) !! id) as [c|] eqn:Hc; [|done]; cbn in Hstep.
  all: destruct (run.(Run.steps) !! c.(s)) as [step|] eqn:Hi; [|done]; cbn in Hstep.
  all: destruct c.(await) as [|k|k delay|] eqn:Haw; try done; injection Hstep as Hstep.
  2: { by eapply answer_inv. }
  all: destruct (inv_waiting _ _ _ _ _ _ HI Hc Hi) as [<- Hph]; rw Haw in Hph.
  all: match goal with |- Inv (_ ++ [?e]) _ _ =>
    assert (events ⊆ events ++ [e]) as Hsub by set_solver end.
  - apply phase_created_inv in Hph as (Hst & Hs & Hres).
    eapply (iterate_inv events _ calls run run _ _ 0); try done; [lia | by left].
  - apply phase_sleeping_inv in Hph as (Hst & Hs & Hk & _ & text & Hres).
    eapply (iterate_inv events _ calls run run _ _ k); try done; [lia|].
    right. right. exists text. split; [lia | done].
Qed.

Lemma coroutine_running run e run' call :
  step run e = Some (run', call) -> e <> Resume -> run'.(Run.running) <> ∅.
Proof.
  assert (forall run id c step k now run' call,
    iterate run id c step k now = (run', call) -> run'.(Run.running) <> ∅) as Hit.
  { intros r id c step k now r' call' Hr. unfold iterate in Hr.
    destruct (_ <=? _); injection Hr as <- <-; apply insert_non_empty. }
  intros Hstep Hne. unfold step in Hstep. destruct (Run.outcome run); [done|].
  destruct e as [id now | id reply now | id now |]; [| | | done].
  all: destruct (run.(Run.running) !! id) as [c|]; [|done]; cbn in Hstep.
  all: destruct (run.(Run.steps) !! c.(s)) as [step|]; [|done]; cbn in Hstep.
  all: destruct c.(await) as [|k|k delay|]; try done; injection Hstep as Hstep.
  1, 3: by eapply Hit. unfold receive in Hstep. destruct (completed_task reply).
  - injection Hstep as <- <-. apply insert_non_empty.
  - cbn in Hstep. destruct (_ <? _); [|by eapply Hit].
    injection Hstep as <- <-. apply insert_non_empty.
Qed.

(** ** The loop of [run] *)
Lemma reap_lookup run id :
  (await <$> (reap run).(Run.running) !! id) =
  match await <$> run.(Run.running) !! id with Some Done => None | a => a end.
Proof.
  cbn. destruct (run.(Run.running) !! id) as [c|] eqn:Hc; cbn.
  - destruct c.(await) eqn:Haw; cbn.
    1, 2, 3: rw (map_lookup_filter_Some_2 _ _ _ c); [by rw -Haw | done |]; cbn; by rw /done Haw.
    rw map_lookup_filter_None_2; [done|]. right. intros c' Hc'. simplify_eq. cbn. by rw /done Haw.
  - rw map_lookup_filter_None_2; [done | by left].
Qed.

Lemma reap_inv events calls run : Inv events calls run -> Inv events calls (reap run).
Proof.
  intros HI. split; try apply HI.
  - destruct (inv_frame _ _ _ HI). by split.
  - intros id c Hc. cbn in Hc. apply map_lookup_filter_Some in Hc as [Hc _].
    by apply (inv_running _ _ _ HI).
  - intros i step Hi. rw reap_lookup. pose proof (inv_phase _ _ _ HI i step Hi) as Hph.
    destruct (await <$> run.(Run.running) !! _) as [[]|]; try done. by apply phase_done_inv.
Qed.

Lemma status_of_ok run step d :
  frame run -> step ∈ run.(Run.steps) -> d ∈ step.(Step.depends_on) ->
  exists st, status_of run d = Ok st /\ (st = StepStatus.succeeded <-> succeeded_in run.(Run.steps) d).
Proof.
  intros Hf Hin Hd. destruct (frame_dep _ _ _ Hf Hin Hd) as (j & dep & Hj & <-).
  exists dep.(Step.status). unfold status_of.
  rw (frame_pending _ Hf _ _ Hj). cbn. rw Hj. cbn. split; [done|]. split.
  - intros Hs. exists dep. split; [by eapply list_elem_of_lookup_2 | done].
  - intros (dep' & [j' Hj']%list_elem_of_lookup & Hid & Hs).
    pose proof (frame_unique _ _ _ _ _ Hf Hj' Hj Hid) as ->. by simplify_eq.
Qed.

Lemma all_succeeded_ok run step ds :
  frame run -> step ∈ run.(Run.steps) -> ds ⊆ step.(Step.depends_on) ->
  exists b, all_succeeded run ds = Ok b /\
    (b = true <-> forall d, d ∈ ds -> succeeded_in run.(Run.steps) d).
Proof.
  intros Hf Hin. induction ds as [|d ds IH]; intros Hsub; cbn.
  { exists true. split; [done|]. split; [intros _ d Hd; by apply elem_of_nil in Hd | done]. }
  destruct (status_of_ok run step d Hf Hin) as (st & -> & Hst); [apply Hsub, elem_of_cons; by left|].
  cbn. destruct IH as (b & Hb & Hiff); [intros x Hx; apply Hsub, elem_of_cons; by right|].
  case_bool_decide as Hd.
  - exists b. split; [done|]. rw Hiff. split.
    + intros H x [-> | Hx]%elem_of_cons; [by apply Hst | by apply H].
    + intros H x Hx. apply H, elem_of_cons. by right.
  - exists false. split; [done|]. split; [done|]. intros H. destruct Hd. apply Hst, H, elem_of_cons.
    by left.
Qed.

Lemma is_ready_ok run step :
  frame run -> step ∈ run.(Run.steps) ->
  exists b, is_ready run step = Ok b /\
    (b = true <-> step.(Step.status) = StepStatus.pending /\ deps_succeeded run step).
Proof.
  intros Hf Hin. unfold is_ready. case_bool_decide as Hst.
  - destruct (all_succeeded_ok run step step.(Step.depends_on) Hf Hin) as (b & Hb & Hiff); [done|].
    exists b. split; [done|]. rw Hiff. unfold deps_succeeded. tauto.
  - exists false. split; [done|]. naive_solver.
Qed.

Lemma filterR_ok {A} (f : A -> result bool) (P : A -> Prop) l :
  (forall a, a ∈ l -> exists b : bool, f a = Ok b /\ (b = true <-> P a)) ->
  exists l', filterR f l = Ok l' /\ l' `sublist_of` l /\ forall a, a ∈ l' <-> a ∈ l /\ P a.
Proof.
  induction l as [|a l IH]; intros H; cbn.
  { exists []. split; [done|]. split; [done|]. intros a. rw elem_of_nil. tauto. }
  destruct (H a) as (b & -> & Hb); [apply elem_of_cons; by left|]. cbn.
  destruct IH as (l' & -> & Hsub & Hl'); [intros x Hx; apply H, elem_of_cons; by right|]. cbn.
  eexists. split; [done|]. split; [destruct b; by constructor|].
  intros x. rw elem_of_cons. destruct b.
  - rw elem_of_cons Hl'. naive_solver.
  - rw Hl'. split; [tauto|]. intros [[-> | Hx] HP]; [|done]. by apply Hb in HP.
Qed.

(** the steps with their positions *)
Abbreviation positions run := (imap (fun i step => (i, step)) run.(Run.steps)).

Lemma positions_elem run i step :
  (i, step) ∈ positions run <-> run.(Run.steps) !! i = Some step.
Proof.
  rw elem_of_lookup_imap. split; [by intros (j & x & [= -> ->] & Hj) | eauto].
Qed.

Lemma positions_fst run : (positions run).*1 = seq 0 (length run.(Run.steps)).
Proof.
  rw fmap_imap. apply list_eq. intros j. rw list_lookup_imap.
  destruct (run.(Run.steps) !! j) as [x|] eqn:Hj; cbn.
  - symmetry. apply lookup_seq_lt. by eapply lookup_lt_Some.
  - symmetry. apply lookup_seq_ge. by apply lookup_ge_None.
Qed.

Lemma ready_steps_ok run :
  frame run ->
  exists ready, ready_steps run = Ok ready /\ NoDup ready.*1 /\
    forall i step, (i, step) ∈ ready <-> run.(Run.steps) !! i = Some step /\
      step.(Step.status) = StepStatus.pending /\ deps_succeeded run step.
Proof.
  intros Hf.
  destruct (filterR_ok (fun p => is_ready run p.2)
    (fun p => p.2.(Step.status) = StepStatus.pending /\ deps_succeeded run p.2) (positions run))
    as (ready & Hr & Hsub & Hin).
  { intros [i step] Hi%positions_elem. cbn. apply is_ready_ok; [done|].
    by eapply list_elem_of_lookup_2. }
  exists ready. split; [done|]. split.
  - eapply sublist_NoDup; [|by apply fmap_sublist]. rw positions_fst. apply NoDup_seq.
  - intros i step. by rw Hin positions_elem.
Qed.

Lemma start_inv events calls run ready :
  Inv events calls run -> NoDup ready.*1 ->
  (forall i step, (i, step) ∈ ready -> run.(Run.steps) !! i = Some step /\
     step.(Step.status) = StepStatus.pending /\ deps_succeeded run step) ->
  Inv events calls (fold_left start_step ready run).
Proof.
  revert run. induction ready as [|[i step] ready IH]; intros run HI Hnd Hr; cbn; [done|].
  apply NoDup_cons in Hnd as [Hi Hnd].
  destruct (Hr i step) as (Hlook & Hst & Hdeps); [apply elem_of_cons; by left|].
  pose proof (inv_phase _ _ _ HI _ _ Hlook) as Hph. rw Hst in Hph.
  apply IH; [| done |].
  - rw -(app_nil_r calls).
    apply (Inv_move events events calls run i step StepStatus.running Created _ []);
      [done | done | done | by rw Hst | done | | by left |].
    + split; try done. exact (inv_outcome _ _ _ HI).
    + rw app_nil_r. cbn. inversion Hph as [Ha Hn Hres| | | | |]; subst. by apply phase_created.
  - intros j step' Hj. destruct (Hr j step') as (Hlook' & Hst' & Hdeps');
      [apply elem_of_cons; by right|].
    assert (i <> j) as Hne.
    { intros ->. apply Hi. apply list_elem_of_fmap. by exists (j, step'). }
    cbn. split; [by rw list_lookup_alter_ne|]. split; [done|].
    intros d Hd. cbn. eapply succeeded_in_alter; [done | by rw Hst | by apply Hdeps'].
Qed.

Lemma start_running run ready :
  ready <> [] \/ run.(Run.running) <> ∅ -> (fold_left start_step ready run).(Run.running) <> ∅.
Proof.
  revert run. induction ready as [|p ready IH]; intros run Hr; cbn; [naive_solver|].
  apply IH. right. apply insert_non_empty.
Qed.
End Invariant.
