(* ===== verification/DispatchRuns.v ===== *)
(** * How the run of a plan goes on and ends

    The steps the loop of [Dispatcher.run] never started are marked when it
    ends; every event keeps the state sound, makes it smaller, and is possible
    until the run has returned. *)
From S2P Require Import Prelude PyStr Models Dispatcher PlanFacts DispatchFacts.
Local Open Scope Z_scope.

Section Runs.
Context {Time : Type} (plan : Plan.t) (max_attempts : Z) (Hplan : plan_ok plan).
Implicit Type run : Run.t Time.
Abbreviation ids := (map Step.id plan.(Plan.steps)).
Abbreviation sent := (sends plan.(Plan.task_id)).
Abbreviation frame := (frame plan max_attempts).
Abbreviation Inv := (Inv plan max_attempts).
Abbreviation Final := (Final plan max_attempts).
Abbreviation sound := (sound plan max_attempts).
Abbreviation positions run := (imap (fun i step => (i, step)) run.(Run.steps)).

(** ** Marking the steps that are left *)
Definition mark (step : Step.t) : Step.t :=
  if bool_decide (step.(Step.status) = StepStatus.pending)
  then Step.set_status StepStatus.failed step else step.

Lemma mark_static step :
  (mark step).(Step.id) = step.(Step.id) /\ (mark step).(Step.depends_on) = step.(Step.depends_on).
Proof. unfold mark. by case_bool_decide. Qed.

(** the state after the turns for [ps] *)
Record marked (ps : list (nat * Step.t)) run run' : Prop := {
  marked_attempts : run'.(Run.max_attempts) = run.(Run.max_attempts);
  marked_task : run'.(Run.task_id) = run.(Run.task_id);
  marked_pending : run'.(Run.pending) = run.(Run.pending);
  marked_steps : forall i, run'.(Run.steps) !! i =
    (if bool_decide (i ∈ ps.*1) then mark <$> run.(Run.steps) !! i else run.(Run.steps) !! i);
  marked_other : forall id, (forall p, p ∈ ps -> p.2.(Step.id) = id ->
      p.2.(Step.status) <> StepStatus.pending) ->
    run'.(Run.results) !! id = run.(Run.results) !! id;
  marked_blocked : forall p, p ∈ ps -> p.2.(Step.status) = StepStatus.pending ->
    run'.(Run.results) !! p.2.(Step.id) = Some (blocked_task p.2.(Step.id)) }.

Lemma block_step_marked run p :
  run.(Run.steps) !! p.1 = Some p.2 -> marked [p] run (block_step run p).
Proof.
  intros Hp. unfold block_step. case_bool_decide as Hst; split; try done.
  - intros i. cbn. case_bool_decide as Hi.
    + apply list_elem_of_singleton in Hi as ->. rw list_lookup_alter_eq Hp. cbn.
      unfold mark. by rw bool_decide_true.
    + rw list_lookup_alter_ne; [done|]. intros <-. destruct Hi. apply elem_of_cons. by left.
  - intros id Hid. cbn. rw lookup_insert_ne; [done|]. intros <-.
    apply (Hid p); [apply elem_of_cons; by left | done | done].
  - intros q ->%list_elem_of_singleton _. cbn. by rw lookup_insert_eq.
  - intros i. cbn. case_bool_decide as Hi; [|done].
    apply list_elem_of_singleton in Hi as ->. rw Hp. cbn. unfold mark. by rw bool_decide_false.
  - by intros q ->%list_elem_of_singleton.
Qed.

Lemma block_steps_marked ps run :
  NoDup ps.*1 -> NoDup (map (fun p => p.2.(Step.id)) ps) ->
  (forall p, p ∈ ps -> run.(Run.steps) !! p.1 = Some p.2) ->
  marked ps run (fold_left block_step ps run).
Proof.
  revert run. induction ps as [|p ps IH]; intros run Hnd Hids Hps; cbn.
  { split; try done. by intros p Hp%elem_of_nil. }
  apply NoDup_cons in Hnd as [Hp Hnd]. apply NoDup_cons in Hids as [Hpid Hids].
  assert (run.(Run.steps) !! p.1 = Some p.2) as Hlook by (apply Hps, elem_of_cons; by left).
  destruct (block_step_marked run p Hlook) as [Ha Ht Hpe Hs Ho Hb].
  assert (marked ps (block_step run p) (fold_left block_step ps (block_step run p))) as
    [Ha' Ht' Hpe' Hs' Ho' Hb'].
  { apply IH; [done | done |]. intros q Hq. rw Hs bool_decide_false.
    - apply Hps, elem_of_cons. by right.
    - intros Heq%list_elem_of_singleton. apply Hp. rw -Heq. by apply list_elem_of_fmap_2. }
  split; try congruence.
  - intros i. rw Hs' Hs.
    assert (i ∈ (p :: ps).*1 <-> i ∈ [p].*1 \/ i ∈ ps.*1) as Hin
      by (rw !fmap_cons !elem_of_cons elem_of_nil; tauto).
    assert (i ∈ [p].*1 -> i ∉ ps.*1) as Hex by by intros ->%list_elem_of_singleton.
    repeat case_bool_decide; tauto.
  - intros id Hid. rw Ho'; [|intros q Hq; apply Hid, elem_of_cons; by right].
    apply Ho. intros q ->%list_elem_of_singleton. apply Hid, elem_of_cons. by left.
  - intros q [-> | Hq]%elem_of_cons Hst; [|by apply Hb'].
    rw Ho'; [apply Hb; [apply elem_of_cons; by left | done]|].
    intros q Hq Heq. destruct Hpid. rw -Heq. apply (list_elem_of_fmap_2 (fun p => p.2.(Step.id))). exact Hq.
Qed.

(** what the loop after the loop makes of a state *)
Abbreviation final_state run := (fold_left block_step (positions run) run).

Lemma finish_marked run : frame run -> marked (positions run) run (final_state run).
Proof.
  intros Hf. apply block_steps_marked.
  - rw positions_fst. apply NoDup_seq.
  - replace (map (fun p => p.2.(Step.id)) (positions run)) with ids; [by apply plan_unique|].
    rw -(frame_steps _ _ _ Hf). unfold reset. rw map_map. change map with (@fmap list _) at 2.
    rw fmap_imap. apply list_eq. intros j. rw list_lookup_fmap list_lookup_imap.
    by destruct (run.(Run.steps) !! j).
  - intros [i step] Hi%positions_elem. done.
Qed.

Lemma finish_forth run i step :
  frame run -> run.(Run.steps) !! i = Some step -> (final_state run).(Run.steps) !! i = Some (mark step).
Proof.
  intros Hf Hi. rw (marked_steps _ _ _ (finish_marked _ Hf)).
  case_bool_decide as Hin; [by rw Hi|]. destruct Hin.
  rw positions_fst. apply elem_of_seq. apply lookup_lt_Some in Hi. lia.
Qed.

Lemma finish_back run i step' :
  frame run -> (final_state run).(Run.steps) !! i = Some step' ->
  exists step, run.(Run.steps) !! i = Some step /\ step' = mark step.
Proof.
  intros Hf. rw (marked_steps _ _ _ (finish_marked _ Hf)). case_bool_decide as Hi.
  - destruct (run.(Run.steps) !! i) as [step|]; cbn; [naive_solver | done].
  - intros Hlook. destruct Hi. rw positions_fst. apply elem_of_seq.
    apply lookup_lt_Some in Hlook. lia.
Qed.

Lemma finish_frame run o : frame run -> frame (Run.set_outcome (final_state run) o).
Proof.
  intros Hf. pose proof (finish_marked _ Hf) as [Ha Ht Hpe Hs _ _]. split; cbn.
  - by rw Ha (frame_attempts _ _ _ Hf).
  - by rw Ht (frame_task _ _ _ Hf).
  - rw -(frame_steps _ _ _ Hf). unfold reset. apply list_eq. intros j.
    rw !list_lookup_fmap. destruct (run.(Run.steps) !! j) as [step|] eqn:Hj.
    + rw (finish_forth _ _ _ Hf Hj). cbn. unfold mark. by case_bool_decide.
    + destruct ((final_state run).(Run.steps) !! j) as [step'|] eqn:Hj'; [|done].
      apply finish_back in Hj' as (step & ? & _); [congruence | done].
  - intros i step' Hi. apply finish_back in Hi as (step & Hi & ->); [|done].
    rw (proj1 (mark_static step)) Hpe. exact (frame_pending _ _ _ Hf _ _ Hi).
Qed.

#[local] Instance succeeded_in_dec (steps : list Step.t) d : Decision (succeeded_in steps d).
Proof.
  refine (cast_if (decide (Exists (fun step => step.(Step.id) = d /\
    step.(Step.status) = StepStatus.succeeded) steps))); unfold succeeded_in.
  - by rw -Exists_exists.
  - by rw -Exists_exists.
Defined.

(** a step that is not ready waits for one that has not succeeded *)
Lemma not_ready_dep run i step :
  frame run -> run.(Run.steps) !! i = Some step -> ~ deps_succeeded run step ->
  exists d j dep, d ∈ step.(Step.depends_on) /\ run.(Run.steps) !! j = Some dep /\
    dep.(Step.id) = d /\ dep.(Step.status) <> StepStatus.succeeded.
Proof.
  intros Hf Hi Hn.
  assert (~ Forall (succeeded_in run.(Run.steps)) step.(Step.depends_on)) as Hx
    by by rw Forall_forall.
  apply not_Forall_Exists, Exists_exists in Hx as (d & Hd & Hns); [|apply _].
  destruct (frame_dep _ _ Hplan _ _ _ Hf (list_elem_of_lookup_2 _ _ _ Hi) Hd) as (j & dep & Hj & Hdid).
  exists d, j, dep. split; [done|]. split; [done|]. split; [done|]. intros Hds. apply Hns.
  exists dep. split; [by eapply list_elem_of_lookup_2 | done].
Qed.

(** the status of a step when nothing runs any more *)
Lemma idle_mark events calls run i step :
  Inv events calls run -> run.(Run.running) = ∅ -> run.(Run.steps) !! i = Some step ->
  step.(Step.status) <> StepStatus.succeeded -> (mark step).(Step.status) = StepStatus.failed.
Proof.
  intros HI Hrun Hi Hns. pose proof (inv_phase _ _ _ _ _ HI _ _ Hi) as Hph.
  rw Hrun lookup_empty in Hph. cbn in Hph. unfold mark. case_bool_decide as Hst; [done|].
  inversion Hph; congruence.
Qed.

Lemma mark_succeeded step :
  step.(Step.status) = StepStatus.succeeded -> (mark step).(Step.status) = StepStatus.succeeded.
Proof. intros Hst. unfold mark. by rw Hst. Qed.

Lemma finish_deps run step :
  frame run -> deps_succeeded run step -> deps_succeeded (finish_run run) (mark step).
Proof.
  intros Hf Hdeps d. rw (proj2 (mark_static step)).
  intros (dep & [j Hj]%list_elem_of_lookup & Hd & Hds)%Hdeps.
  exists (mark dep). rw (proj1 (mark_static dep)). split; [|by split; [|apply mark_succeeded]].
  apply list_elem_of_lookup. exists j. by apply finish_forth.
Qed.

Lemma finish_phase events calls run i step :
  Inv events calls run -> run.(Run.running) = ∅ ->
  (step.(Step.status) = StepStatus.pending -> ~ deps_succeeded run step) ->
  run.(Run.steps) !! i = Some step ->
  final_phase max_attempts step.(Step.id) events (deps_succeeded (finish_run run) (mark step))
    (some_failed (finish_run run) (mark step)) (mark step).(Step.status)
    (sent step.(Step.id) calls) ((finish_run run).(Run.results) !! step.(Step.id)).
Proof.
  intros HI Hrun Hnone Hi. pose proof (inv_frame _ _ _ _ _ HI) as Hf.
  pose proof (finish_marked _ Hf) as [_ _ _ _ Ho Hb].
  pose proof (inv_phase _ _ _ _ _ HI _ _ Hi) as Hph. rw Hrun lookup_empty in Hph. cbn in Hph.
  destruct (decide (step.(Step.status) = StepStatus.pending)) as [Hst | Hst].
  - pose proof (Hb (i, step)) as Hbl. cbn [finish_run Run.set_outcome Run.results].
    rw Hbl; [| by apply positions_elem | done]. rw (idle_mark _ _ _ _ _ HI Hrun Hi); [|by rw Hst].
    rw Hst in Hph. inversion Hph; subst. apply final_blocked.
    destruct (not_ready_dep _ _ _ Hf Hi (Hnone Hst)) as (d & j & dep & Hd & Hj & Hdid & Hdst).
    exists d, (mark dep). rw (proj2 (mark_static step)) (proj1 (mark_static dep)).
    split; [done|]. split; [apply list_elem_of_lookup; exists j; by apply finish_forth|].
    split; [done|]. by eapply idle_mark.
  - assert (mark step = step) as Hm by (unfold mark; by rw bool_decide_false).
    pose proof (finish_deps _ _ Hf (inv_deps _ _ _ _ _ HI _ _ Hi Hst)) as Hok.
    cbn [finish_run Run.set_outcome Run.results]. rw Ho.
    2: { intros [j q] Hq%positions_elem Hqid. cbn in Hq, Hqid |- *.
         pose proof (frame_unique _ _ _ _ _ _ _ Hf Hq Hi Hqid) as ->. by simplify_eq. }
    rw Hm. rw Hm in Hok.
    inversion Hph as [| | | |a k task now Ha' Hk Hcomp Hans | a r Ha' Hr]; subst; try done.
    + by eapply final_succeeded.
    + by apply final_failed.
Qed.

Lemma finish_final events calls run :
  Inv events calls run -> run.(Run.running) = ∅ ->
  (forall i step, run.(Run.steps) !! i = Some step -> step.(Step.status) = StepStatus.pending ->
     ~ deps_succeeded run step) ->
  Final events calls (finish_run run).
Proof.
  intros HI Hrun Hnone. pose proof (inv_frame _ _ _ _ _ HI) as Hf.
  split; [by apply finish_frame | done | |].
  - intros i step' Hi. apply finish_back in Hi as (step & Hi & ->); [|done].
    rw (proj1 (mark_static step)). eapply finish_phase; try done. by apply (Hnone i).
  - cbn. intros id Hsome.
    destruct (decide (id ∈ map (fun p => p.2.(Step.id)) (positions run))) as [Hin | Hnin].
    + apply list_elem_of_fmap in Hin as ([i step] & -> & Hi%positions_elem). cbn.
      eapply frame_in_ids; [exact Hf|]. by eapply list_elem_of_lookup_2.
    + apply (inv_results _ _ _ _ _ HI).
      rw -(marked_other _ _ _ (finish_marked _ Hf)); [done|].
      intros q Hq Hid. destruct Hnin. rw -Hid.
      apply (list_elem_of_fmap_2 (fun p => p.2.(Step.id))). exact Hq.
Qed.

(** ** Every event keeps the state sound *)
Lemma dispatch_loop_sound events calls run : Inv events calls run -> sound events calls (loop run).
Proof.
  intros HI. pose proof (inv_frame _ _ _ _ _ HI) as Hf. unfold loop.
  destruct (ready_steps_ok _ _ Hplan _ Hf) as (ready & -> & Hnd & Hready).
  assert (Inv events calls (fold_left start_step ready run)) as HI'
    by (eapply start_inv; [exact HI | done | by intros i step ?%Hready]).
  case_bool_decide as Hrun; [right | by left].
  destruct ready as [|p ready]; [|by apply start_running in Hrun; [|left]].
  apply finish_final; [done | done |]. intros i step Hi Hst Hdeps.
  destruct (Hready i step) as [_ Hin]. destruct (elem_of_nil (i, step)) as [H _]. by apply H, Hin.
Qed.

Lemma Inv_more events events' calls run : events ⊆ events' -> Inv events calls run -> Inv events' calls run.
Proof.
  intros Hsub HI. split; try apply HI. intros i step Hi. eapply phase_mono; [done|].
  by apply (inv_phase _ _ _ _ _ HI i).
Qed.

Lemma step_sound events calls run e run' call :
  sound events calls run -> step run e = Some (run', call) ->
  sound (events ++ [e]) (calls ++ option_list call) run'.
Proof.
  intros [[HI _] | HF] Hstep.
  2: { unfold step in Hstep. by rw (final_outcome _ _ _ _ _ HF) in Hstep. }
  destruct e as [id now | id reply now | id now |].
  1, 2, 3: left; split; [by eapply coroutine_inv | by eapply coroutine_running].
  unfold step in Hstep. rw (inv_outcome _ _ _ _ _ HI) in Hstep.
  destruct (some_done run); [|done]. injection Hstep as <- <-. rw app_nil_r.
  apply dispatch_loop_sound. eapply Inv_more; [|by apply reap_inv]. set_solver.
Qed.

Lemma exec_sound events0 calls0 run events run' calls :
  sound events0 calls0 run -> exec run events = Some (run', calls) ->
  sound (events0 ++ events) (calls0 ++ calls) run'.
Proof.
  revert events0 calls0 run calls. induction events as [|e events IH]; intros events0 calls0 run calls Hs Hx.
  { injection Hx as <- <-. by rw !app_nil_r. }
  cbn in Hx. destruct (step run e) as [[run1 call]|] eqn:Hstep; [|done]. cbn in Hx.
  destruct (exec run1 events) as [[run2 calls']|] eqn:Hexec; [|done]. injection Hx as <- <-.
  rw (cons_middle e events0 events) !app_assoc. eapply IH; [|done].
  by eapply step_sound.
Qed.

Lemma begin_sound tracker run :
  begin_run max_attempts tracker plan = Ok run -> sound [] [] run.
Proof.
  unfold begin_run. intros (_ & [= <-])%bind_ok_unit. apply dispatch_loop_sound.
  assert (reset plan.(Plan.steps) = plan.(Plan.steps)) as Hreset.
  { unfold reset. apply list_eq. intros j. rw list_lookup_fmap.
    destruct (plan.(Plan.steps) !! j) as [step|] eqn:Hj; [|done]. cbn.
    pose proof (plan_pending _ Hplan step (list_elem_of_lookup_2 _ _ _ Hj)) as Hst.
    destruct step. cbn in Hst. by subst. }
  assert (forall i step, plan.(Plan.steps) !! i = Some step ->
    step.(Step.status) = StepStatus.pending) as Hpend.
  { intros i step Hi. apply (plan_pending _ Hplan). by eapply list_elem_of_lookup_2. }
  split; cbn.
  - split; cbn; [done | done | done |]. intros i step Hi.
    apply fold_insert_lookup with (key := fun p : nat * Step.t => p.2.(Step.id))
      (val := fun p : nat * Step.t => p.1).
    + replace (map _ _) with ids; [by apply plan_unique|]. change map with (@fmap list _).
      rw fmap_imap. apply list_eq. intros j. rw list_lookup_fmap list_lookup_imap.
      by destruct (plan.(Plan.steps) !! j).
    + left. exists (i, step). split; [|done]. apply elem_of_lookup_imap. eauto.
  - done.
  - intros id c. by rw lookup_empty.
  - intros i step Hi. rw !lookup_empty (Hpend _ _ Hi). apply phase_pending.
  - intros i step Hi Hst. by apply Hpend in Hi.
  - intros id [? Hid]. by rw lookup_empty in Hid.
Qed.

(** what is known of every state of a run, and of its calls *)
Lemma run_sound tracker run0 events run calls :
  begin_run max_attempts tracker plan = Ok run0 -> exec run0 events = Some (run, calls) ->
  sound events calls run.
Proof. intros Hb%begin_sound Hx. exact (exec_sound [] [] _ _ _ _ Hb Hx). Qed.

(** ** Termination *)
Abbreviation M := (Z.to_nat max_attempts).

(** how many events a step can still have *)
Definition weight (st : StepStatus.t) (a : option Await) : nat :=
  match st, a with
  | StepStatus.pending, _ => 2 * M + 3
  | _, None => 0
  | _, Some Created => 2 * M + 2
  | _, Some (Sending k) => 2 * (M - Z.to_nat k) + 2
  | _, Some (Sleeping k _) => 2 * (M - Z.to_nat k) + 1
  | _, Some Done => 1
  end.

Definition weight_of run (step : Step.t) : nat :=
  weight step.(Step.status) (await <$> run.(Run.running) !! step.(Step.id)).

Definition measure run : nat := sum_list_with (weight_of run) run.(Run.steps).

Lemma sum_list_le {A} (f g : A -> nat) l l' :
  Forall2 (fun a b => f a <= g b)%nat l l' -> (sum_list_with f l <= sum_list_with g l')%nat.
Proof. induction 1; cbn; lia. Qed.

Lemma sum_list_lt {A} (f g : A -> nat) l l' i a b :
  Forall2 (fun a b => f a <= g b)%nat l l' -> l !! i = Some a -> l' !! i = Some b -> (f a < g b)%nat ->
  (sum_list_with f l < sum_list_with g l')%nat.
Proof.
  intros Hl. revert i. induction Hl as [|x y l l' Hxy Hl IH]; intros [|i] Ha Hb Hlt; cbn in *;
    try done.
  - simplify_eq. apply sum_list_le in Hl. lia.
  - specialize (IH i Ha Hb Hlt). lia.
Qed.

Lemma pointwise_le run run' :
  length run'.(Run.steps) = length run.(Run.steps) ->
  (forall i step step', run.(Run.steps) !! i = Some step -> run'.(Run.steps) !! i = Some step' ->
     (weight_of run' step' <= weight_of run step)%nat) ->
  Forall2 (fun a b => weight_of run' a <= weight_of run b)%nat run'.(Run.steps) run.(Run.steps).
Proof.
  intros Hlen Hle. apply Forall2_same_length_lookup. split; [done|]. eauto.
Qed.

Lemma local_measure run i step st a run' :
  frame run -> run.(Run.steps) !! i = Some step -> local_step run i step st a run' ->
  (weight st (Some a) < weight_of run step)%nat -> (measure run' < measure run)%nat.
Proof.
  intros Hf Hi Hl Hlt. unfold measure.
  assert (weight_of run' (Step.set_status st step) = weight st (Some a)) as Hw.
  { unfold weight_of. rw (local_running _ _ _ _ _ _ Hl). cbn. by rw lookup_insert_eq. }
  apply (sum_list_lt _ _ _ _ i (Step.set_status st step) step).
  - apply pointwise_le; rw (local_steps _ _ _ _ _ _ Hl); [apply length_alter|].
    intros j q q' Hj Hj'. apply (set_status_lookup _ _ _ _ _ _ Hi) in Hj' as [[<- ->] | [Hne Hj']].
    + simplify_eq. lia.
    + simplify_eq. unfold weight_of. rw (local_running _ _ _ _ _ _ Hl) lookup_insert_ne; [done|].
      intros Heq. apply Hne. exact (frame_unique _ _ _ _ _ _ _ Hf Hi Hj Heq).
  - by rw (local_steps _ _ _ _ _ _ Hl) list_lookup_alter_eq Hi.
  - done.
  - by rw Hw.
Qed.

(** One event of a coroutine moves its own step, makes it lighter, and calls
    for it or not at all. *)
Record coroutine_move run (i : nat) (step : Step.t) (call : option Call) run' : Prop := {
  move_step : run.(Run.steps) !! i = Some step;
  move_running : step.(Step.status) = StepStatus.running;
  move_call : call = None \/ call = Some (call_of run step);
  move_local : exists st a, local_step run i step st a run' /\
    (weight st (Some a) < weight_of run step)%nat;
  move_results : forall id, id <> step.(Step.id) ->
    run'.(Run.results) !! id = run.(Run.results) !! id }.

Lemma iterate_move results c step k now run' call :
  results.(Run.outcome) = None -> results.(Run.max_attempts) = max_attempts -> 0 <= k ->
  results.(Run.steps) !! c.(s) = Some step -> step.(Step.status) = StepStatus.running ->
  iterate results step.(Step.id) c step (k + 1) now = (run', call) ->
  (call = None \/ call = Some (call_of results step)) /\
  exists st a, local_step results c.(s) step st a run' /\
    (weight st (Some a) <= Nat.max 1 (2 * (M - Z.to_nat k)))%nat.
Proof.
  intros Hout Hmax Hk Hi Hst Hit. destruct (decide (k + 1 <= max_attempts)) as [Hle | Hgt].
  - destruct (iterate_sends results c step (k + 1) now) as (r & Hr & Hl & _);
      [done | done | done | by rw Hmax|].
    rw Hr in Hit. injection Hit as <- <-. split; [by right|].
    exists StepStatus.running, (Sending (k + 1)). split; [done|]. cbn. lia.
  - destruct (iterate_ends results c step (k + 1) now) as (r & Hr & Hl & _);
      [done | rw Hmax; lia|].
    rw Hr in Hit. injection Hit as <- <-. split; [by left|].
    exists StepStatus.failed, Done. split; [done|]. cbn. lia.
Qed.

Lemma coroutine_moves events calls run e run' call :
  Inv events calls run -> step run e = Some (run', call) -> e <> Resume ->
  exists i step, coroutine_move run i step call run'.
Proof.
  intros HI Hstep Hne. pose proof (inv_frame _ _ _ _ _ HI) as Hf.
  pose proof (inv_outcome _ _ _ _ _ HI) as Hout. unfold step in Hstep. rw Hout in Hstep.
  destruct e as [id now | id reply now | id now |]; [| | | done]; clear Hne.
  all: destruct (run.(Run.running) !! id) as [c|] eqn:Hc; [|done]; cbn in Hstep.
  all: destruct (run.(Run.steps) !! c.(s)) as [step|] eqn:Hi; [|done]; cbn in Hstep.
  all: destruct c.(await) as [|k|k delay|] eqn:Haw; try done; injection Hstep as Hstep.
  all: destruct (inv_waiting _ _ _ _ _ _ _ _ HI Hc Hi) as [<- Hph]; rw Haw in Hph.
  all: assert (weight_of run step = weight step.(Step.status) (Some c.(await))) as Hw
    by (unfold weight_of; by rw Hc).
  - apply phase_created_inv in Hph as (Hst & _). rw Haw Hst in Hw.
    destruct (iterate_move run c step 0 now run' call) as (Hcall & st & a & Hl & Hle);
      try done; [exact (frame_attempts _ _ _ Hf)|].
    exists c.(s), step. split; try done; [|by apply (local_results _ _ _ _ _ _ Hl)].
    exists st, a. split; [done|]. rw Hw. cbn. lia.
  - apply phase_sending_inv in Hph as (Hst & _ & Hk). rw Haw Hst in Hw.
    exists c.(s), step. unfold receive in Hstep.
    destruct (completed_task reply) as [task | text].
    + injection Hstep as <- <-. split; try done; [by left | |].
      * exists StepStatus.succeeded, Done. split; [split; try done | rw Hw; cbn; lia].
        intros id Hne. cbn. by rw lookup_insert_ne.
      * intros id Hne. cbn. by rw lookup_insert_ne.
    + cbn in Hstep. rw (frame_attempts _ _ _ Hf) in Hstep.
      destruct (Z.ltb_spec k max_attempts) as [Hlt | Hge].
      * injection Hstep as <- <-. split; try done; [by left | |].
        -- exists StepStatus.running, (Sleeping k (2 ^ (k - 1))).
           split; [split; try done | rw Hw; cbn; lia]; cbn.
           ++ intros id Hne. by rw lookup_insert_ne.
           ++ by rw -Hst (alter_same _ _ _ Hi).
        -- intros id Hne. cbn. by rw lookup_insert_ne.
      * destruct (iterate_move (Run.set_result run step.(Step.id) (error_task step.(Step.id) text))
          c step k now run' call Hout (frame_attempts _ _ _ Hf)
          ltac:(lia) Hi Hst Hstep) as (Hcall & st & a & Hl & Hle).
        apply local_set_result in Hl.
        split; try done; [|by apply (local_results _ _ _ _ _ _ Hl)].
        exists st, a. split; [done|]. rw Hw. cbn. lia.
  - apply phase_sleeping_inv in Hph as (Hst & _ & Hk & _). rw Haw Hst in Hw.
    destruct (iterate_move run c step k now run' call) as (Hcall & st & a & Hl & Hle);
      try done; [exact (frame_attempts _ _ _ Hf) | lia |].
    exists c.(s), step. split; try done; [|by apply (local_results _ _ _ _ _ _ Hl)].
    exists st, a. split; [done|]. rw Hw. cbn. lia.
Qed.

Lemma start_measure run ready :
  frame run -> NoDup ready.*1 -> run.(Run.outcome) = None ->
  (forall p, p ∈ ready -> run.(Run.steps) !! p.1 = Some p.2 /\
     p.2.(Step.status) = StepStatus.pending) ->
  (measure (fold_left start_step ready run) <= measure run)%nat.
Proof.
  revert run. induction ready as [|[i step] ready IH]; intros run Hf Hnd Hout Hr; [done|].
  apply NoDup_cons in Hnd as [Hi Hnd].
  destruct (Hr (i, step)) as (Hlook & Hst); [apply elem_of_cons; by left|]. cbn in Hlook, Hst.
  assert (local_step run i step StepStatus.running Created (start_step run (i, step))) as Hl
    by by split.
  assert (measure (start_step run (i, step)) < measure run)%nat as Hlt.
  { eapply local_measure; [done | done | exact Hl|]. unfold weight_of. rw Hst. cbn. lia. }
  etransitivity; [apply (IH (start_step run (i, step)))|by apply Nat.lt_le_incl].
  - by eapply frame_local.
  - done.
  - done.
  - intros [j q] Hq. destruct (Hr (j, q)) as (Hj & Hqst); [apply elem_of_cons; by right|].
    cbn in Hj |- *. split; [|done]. rw list_lookup_alter_ne; [done|]. intros ->.
    apply Hi. by apply (list_elem_of_fmap_2 fst _ (j, q)).
Qed.

Lemma weight_max st a : (weight st a <= 2 * M + 3)%nat.
Proof. destruct st, a as [[]|]; cbn; lia. Qed.

Lemma finish_measure run o : frame run -> (measure (Run.set_outcome (final_state run) o) <= measure run)%nat.
Proof.
  intros Hf. apply sum_list_le, pointwise_le.
  - cbn. pose proof (finish_frame _ o Hf) as Hf'.
    pose proof (frame_steps _ _ _ Hf) as Hs. rw -(frame_steps _ _ _ Hf') in Hs.
    apply (f_equal length) in Hs. by rw /reset !length_map in Hs.
  - cbn. intros i step step' Hi Hi'. apply finish_back in Hi' as (q & Hq & ->); [|done]. simplify_eq.
    unfold weight_of, mark. case_bool_decide as Hst; cbn [Run.set_outcome Run.running].
    + etransitivity; [apply weight_max|]. by rw Hst.
    + assert ((final_state run).(Run.running) = run.(Run.running)) as ->; [|done].
      clear. generalize (positions run). intros ps. revert run.
      induction ps as [|p ps IH]; intros run; cbn; [done|]. rw IH.
      unfold block_step. by case_bool_decide.
Qed.

Lemma loop_measure run : frame run -> run.(Run.outcome) = None -> (measure (loop run) <= measure run)%nat.
Proof.
  intros Hf Hout. unfold loop.
  destruct (ready_steps_ok _ _ Hplan _ Hf) as (ready & -> & Hnd & Hready).
  assert (measure (fold_left start_step ready run) <= measure run)%nat as Hle.
  { apply start_measure; [done | done | done |]. intros [i step] Hp%Hready. tauto. }
  case_bool_decide as Hrun; [|done].
  etransitivity; [apply finish_measure | exact Hle].
  destruct ready as [|p ready]; [done|]. by apply start_running in Hrun; [|left].
Qed.

Lemma some_done_iff run :
  some_done run = true <-> exists id c, run.(Run.running) !! id = Some c /\ c.(await) = Done.
Proof.
  unfold some_done. rw negb_true_iff bool_decide_eq_false. split.
  - intros (id & c & Hc)%map_choose. apply map_lookup_filter_Some in Hc as [Hc Hd].
    exists id, c. split; [done|]. cbn in Hd. unfold done in Hd. by destruct c.(await).
  - intros (id & c & Hc & Haw) He.
    assert (filter (fun p => done p.2 = true) run.(Run.running) !! id = Some c) as Hx.
    { apply map_lookup_filter_Some. split; [done|]. cbn. unfold done. by rw Haw. }
    by rw He lookup_empty in Hx.
Qed.

Lemma weight_of_reap run step :
  (weight_of (reap run) step <= weight_of run step)%nat.
Proof.
  unfold weight_of. rw reap_lookup.
  destruct (await <$> run.(Run.running) !! step.(Step.id)) as [[]|]; try done.
  destruct step.(Step.status); cbn; lia.
Qed.

Lemma reap_measure events calls run :
  Inv events calls run -> some_done run = true -> (measure (reap run) < measure run)%nat.
Proof.
  intros HI (id & c & Hc & Haw)%some_done_iff.
  destruct (inv_running _ _ _ _ _ HI _ _ Hc) as (step & Hi & <-).
  apply (sum_list_lt _ _ _ _ c.(s) step step); try done.
  - apply pointwise_le; [done|]. intros i q q' Hq Hq'. cbn in Hq'. simplify_eq.
    apply weight_of_reap.
  - unfold weight_of. rw reap_lookup Hc. cbn. rw Haw.
    pose proof (inv_phase _ _ _ _ _ HI _ _ Hi) as Hph. rw Hc in Hph. cbn in Hph. rw Haw in Hph.
    inversion Hph; cbn; lia.
Qed.

Lemma step_measure events calls run e run' call :
  Inv events calls run -> step run e = Some (run', call) -> (measure run' < measure run)%nat.
Proof.
  intros HI Hstep. pose proof (inv_frame _ _ _ _ _ HI) as Hf.
  assert (e = Resume \/ e <> Resume) as [-> | Hne] by (destruct e; naive_solver).
  - unfold step in Hstep. rw (inv_outcome _ _ _ _ _ HI) in Hstep.
    destruct (some_done run) eqn:Hd; [|done]. injection Hstep as <- <-.
    eapply Nat.le_lt_trans; [|by eapply reap_measure].
    apply reap_inv in HI. apply loop_measure; [by eapply inv_frame | by eapply inv_outcome].
  - destruct (coroutine_moves _ _ _ _ _ _ HI Hstep Hne) as (i & step & Hm).
    destruct (move_local _ _ _ _ _ Hm) as (st & a & Hl & Hlt).
    eapply local_measure; [done | by eapply move_step | done | done].
Qed.

(** As long as the run has not returned some coroutine can go on, whatever the
    client answers. *)
Lemma progress events calls run (reply : pystr -> Reply) (now : Time) :
  sound events calls run -> run.(Run.outcome) = None ->
  exists e run' call, step run e = Some (run', call) /\
    forall id r t, e = Answer id r t -> r = reply id.
Proof.
  intros [[HI Hne] | HF] Hout; [|by rw (final_outcome _ _ _ _ _ HF) in Hout].
  apply map_choose in Hne as (id & c & Hc).
  destruct (inv_running _ _ _ _ _ HI _ _ Hc) as (q & Hi & Hid).
  assert (forall e, step run e <> None -> (forall id r t, e = Answer id r t -> r = reply id) ->
    exists e run' call, step run e = Some (run', call) /\
      forall id r t, e = Answer id r t -> r = reply id) as Hany.
  { intros e He Hr. destruct (step run e) as [[run' call]|] eqn:Hs; [|done]. by exists e, run', call. }
  destruct c.(await) as [|k|k delay|] eqn:Haw.
  - apply Hany with (Begin id now); [|naive_solver]. unfold step. rw Hout Hc. cbn. rw Hi. cbn. by rw Haw.
  - apply Hany with (Answer id (reply id) now); [|naive_solver]. unfold step. rw Hout Hc. cbn. rw Hi.
    cbn. by rw Haw.
  - apply Hany with (Wake id now); [|naive_solver]. unfold step. rw Hout Hc. cbn. rw Hi. cbn. by rw Haw.
  - apply Hany with Resume; [|naive_solver]. unfold step. rw Hout (proj2 (some_done_iff run)); [done|].
    eauto.
Qed.

Lemma exec_measure events0 calls0 run events run' calls :
  sound events0 calls0 run -> exec run events = Some (run', calls) ->
  (length events + measure run' <= measure run)%nat.
Proof.
  revert events0 calls0 run calls. induction events as [|e events IH]; intros events0 calls0 run calls Hs Hx.
  { by injection Hx as <- <-. }
  cbn in Hx. destruct (step run e) as [[run1 call]|] eqn:Hstep; [|done]. cbn in Hx.
  destruct (exec run1 events) as [[run2 calls']|] eqn:Hexec; [|done]. injection Hx as <- <-.
  pose proof (step_sound _ _ _ _ _ _ Hs Hstep) as Hs1.
  specialize (IH _ _ _ _ Hs1 Hexec).
  assert (measure run1 < measure run)%nat; [|cbn; lia].
  destruct Hs as [[HI _] | HF]; [by eapply step_measure|].
  unfold step in Hstep. by rw (final_outcome _ _ _ _ _ HF) in Hstep.
Qed.
End Runs.
