(* ===== verification/OrchestratorTheorems.v ===== *)
(** * The orchestrator: theorems

    Which plans are run, what a run sends and when it ends, and what it leaves
    behind. *)
From S2P Require Import Prelude PyStr Models Dispatcher PlanFacts DispatchFacts DispatchRuns.
Local Open Scope Z_scope.

(** A state a run of [plan] can be in after [events], and the calls made by then. *)
Definition reaches {Time} (max_attempts : Z) (tracker : Tracker.t Time) (plan : Plan.t)
    (events : list (Event Time)) (run : Run.t Time) (calls : list Call) : Prop :=
  exists run0, begin_run max_attempts tracker plan = Ok run0 /\
    exec run0 events = Some (run, calls).

(** the step has been sent as often as allowed, after all its dependencies, in vain *)
Definition exhausted {Time} (max_attempts : Z) (plan : Plan.t) (run : Run.t Time)
    (calls : list Call) (step : Step.t) : Prop :=
  step.(Step.status) = StepStatus.failed /\ deps_succeeded run step /\
  sends plan.(Plan.task_id) step.(Step.id) calls = Z.max 0 max_attempts /\
  (1 <= max_attempts -> exists text,
     run.(Run.results) !! step.(Step.id) = Some (error_task step.(Step.id) text)).

(** the client has answered the step with a completed task, which is its result *)
Definition answered {Time} (events : list (Event Time)) (run : Run.t Time) (id : pystr) : Prop :=
  exists task now, run.(Run.results) !! id = Some task /\
    task.(Task.status).(state) = completed /\ Answer id (Replied task) now ∈ events.

Lemma frame_step0 {Time} plan max_attempts (run : Run.t Time) i step :
  frame plan max_attempts run -> run.(Run.steps) !! i = Some step ->
  plan.(Plan.steps) !! i = Some (Step.set_status StepStatus.pending step).
Proof. intros Hf Hi. by rw -(frame_steps _ _ _ Hf) list_lookup_fmap Hi. Qed.

Lemma frame_same {Time} plan max_attempts (run run' : Run.t Time) i step :
  frame plan max_attempts run -> frame plan max_attempts run' -> run.(Run.steps) !! i = Some step ->
  exists step', run'.(Run.steps) !! i = Some step' /\ step'.(Step.id) = step.(Step.id).
Proof.
  intros Hf Hf' Hi. apply (frame_step0 _ _ _ _ _ Hf) in Hi.
  rw -(frame_steps _ _ _ Hf') list_lookup_fmap in Hi.
  destruct (run'.(Run.steps) !! i) as [step'|]; [|done]. injection Hi as Hst _ _ _ _. by exists step'.
Qed.

Section Reached.
Context {Time : Type} (max_attempts : Z) (tracker : Tracker.t Time) (plan : Plan.t).
Context (events : list (Event Time)) (run : Run.t Time) (calls : list Call).
Context (Hr : reaches max_attempts tracker plan events run calls).

Lemma reaches_ok : plan_ok plan.
Proof.
  destruct Hr as (run0 & Hb & _). unfold begin_run in Hb.
  apply bind_ok_unit in Hb as [Hv _]. by apply validate_plan_ok.
Qed.

Lemma reaches_sound : sound plan max_attempts events calls run.
Proof.
  pose proof reaches_ok as Hok. destruct Hr as (run0 & Hb & Hx). by eapply run_sound.
Qed.

Lemma reaches_frame : frame plan max_attempts run.
Proof. destruct reaches_sound as [[HI _] | HF]; [by eapply inv_frame | by eapply final_frame]. Qed.

Lemma succeeded_answered step :
  step ∈ run.(Run.steps) -> step.(Step.status) = StepStatus.succeeded ->
  answered events run step.(Step.id) /\ deps_succeeded run step /\
  1 <= sends plan.(Plan.task_id) step.(Step.id) calls <= max_attempts.
Proof.
  intros [i Hi]%list_elem_of_lookup Hst. destruct reaches_sound as [[HI _] | HF].
  - pose proof (inv_phase _ _ _ _ _ HI _ _ Hi) as Hph. rw Hst in Hph.
    inversion Hph as [| | | |a k task now Ha Hk Hcomp Hans Hst' Ha' Hn Hres|].
    split; [by exists task, now|]. split; [|lia].
    eapply inv_deps; [done | done | by rw Hst].
  - pose proof (final_phases _ _ _ _ _ HF _ _ Hi) as Hph. rw Hst in Hph.
    inversion Hph as [k task now Hd Hk Hcomp Hans Hst' Hn Hres| |].
    split; [by exists task, now|]. split; [done | lia].
Qed.

Lemma sends_bound step :
  step ∈ run.(Run.steps) -> 0 <= sends plan.(Plan.task_id) step.(Step.id) calls <= Z.max 0 max_attempts.
Proof.
  intros [i Hi]%list_elem_of_lookup. destruct reaches_sound as [[HI _] | HF].
  - pose proof (inv_phase _ _ _ _ _ HI _ _ Hi) as Hph. inversion Hph; lia.
  - pose proof (final_phases _ _ _ _ _ HF _ _ Hi) as Hph. inversion Hph; lia.
Qed.

(** every run can be brought to its end *)
Lemma can_finish (reply : pystr -> Reply) (now : Time) :
  exists events' run' calls', exec run events' = Some (run', calls') /\
    run'.(Run.outcome) = Some (Ok tt) /\
    forall id r t, Answer id r t ∈ events' -> r = reply id.
Proof.
  pose proof reaches_ok as Hok. generalize reaches_sound. clear Hr.
  remember (measure max_attempts run) as n eqn:Hn. revert events calls run Hn.
  induction (lt_wf n) as [n _ IH]. intros ev cs r Hn Hs.
  destruct (r.(Run.outcome)) as [o|] eqn:Hout.
  - exists [], r, []. split; [done|]. split; [|by intros ? ? ? ?%elem_of_nil].
    destruct Hs as [[HI _] | HF]; [by rw (inv_outcome _ _ _ _ _ HI) in Hout|].
    by eapply final_outcome.
  - destruct (progress _ _ _ _ _ reply now Hs Hout) as (e & r' & call & Hstep & He).
    assert (measure max_attempts r' < n)%nat as Hlt.
    { rw Hn. destruct Hs as [[HI _] | HF]; [by eapply step_measure|].
      by rw (final_outcome _ _ _ _ _ HF) in Hout. }
    pose proof (step_sound _ _ Hok _ _ _ _ _ _ Hs Hstep) as Hs'.
    destruct (IH _ Hlt _ _ _ eq_refl Hs') as (es & r2 & cs2 & Hx & Hdone & Hans).
    exists (e :: es), r2, (option_list call ++ cs2). cbn. rw Hstep. cbn. rw Hx. cbn.
    split; [done|]. split; [done|]. intros id x t [Heq | Hin]%elem_of_cons; [by eapply He | by eapply Hans].
Qed.

(** behind every blocked step there is one that was tried in vain *)
Lemma blocked_root step :
  run.(Run.outcome) <> None -> step ∈ run.(Run.steps) -> step.(Step.status) = StepStatus.failed ->
  exists root, root ∈ run.(Run.steps) /\ exhausted max_attempts plan run calls root /\
    rtc (depends plan.(Plan.steps)) step.(Step.id) root.(Step.id).
Proof.
  intros Hout. destruct reaches_sound as [[HI _] | HF]; [by destruct (Hout (inv_outcome _ _ _ _ _ HI))|].
  pose proof (plan_wf _ reaches_ok step.(Step.id)) as Hacc. remember step.(Step.id) as id eqn:Hid.
  revert step Hid. induction Hacc as [id _ IH]. intros step -> Hin Hst.
  pose proof Hin as [i Hi]%list_elem_of_lookup.
  pose proof (final_phases _ _ _ _ _ HF _ _ Hi) as Hph. rw Hst in Hph.
  inversion Hph as [|r Hd Hres Hst' Hn Hr'|(d & dep & Hd & Hdep & Hdid & Hdst)].
  - exists step. split; [done|]. split; [by split|]. apply rtc_refl.
  - assert (depends plan.(Plan.steps) step.(Step.id) d) as Hed.
    { destruct (frame_id _ _ _ _ _ reaches_frame Hi) as (q & Hq & Hqid & Hqd).
      exists q. rw Hqd. split; [by eapply list_elem_of_lookup_2 | done]. }
    destruct (IH d Hed dep) as (root & Hroot & Hex & Hpath); [done | done | done |].
    exists root. split; [done|]. split; [done|]. by eapply rtc_l.
Qed.

(** *** When the run has returned *)
Context (Hdone : run.(Run.outcome) <> None).

Lemma returned_final : Final plan max_attempts events calls run.
Proof.
  destruct reaches_sound as [[HI _] | HF]; [|done]. by destruct (Hdone (inv_outcome _ _ _ _ _ HI)).
Qed.

Lemma returned_step step :
  step ∈ run.(Run.steps) ->
  step.(Step.status) = StepStatus.succeeded \/
  exhausted max_attempts plan run calls step \/
  step.(Step.status) = StepStatus.failed /\ sends plan.(Plan.task_id) step.(Step.id) calls = 0 /\
    run.(Run.results) !! step.(Step.id) = Some (blocked_task step.(Step.id)) /\
    exists root, root ∈ run.(Run.steps) /\ exhausted max_attempts plan run calls root /\
      tc (depends plan.(Plan.steps)) step.(Step.id) root.(Step.id).
Proof.
  intros Hin. pose proof Hin as [i Hi]%list_elem_of_lookup.
  pose proof (final_phases _ _ _ _ _ returned_final _ _ Hi) as Hph.
  inversion Hph as [|r Hd Hres Hst Hn Hr'|(d & dep & Hd & Hdep & Hdid & Hdst)]; [by left | |].
  - right. left. by split.
  - right. right. split; [done|]. split; [done|]. split; [done|].
    destruct (blocked_root dep Hdone Hdep Hdst) as (root & Hroot & Hex & Hpath).
    exists root. split; [done|]. split; [done|]. eapply tc_rtc_r; [|exact Hpath]. apply tc_once.
    destruct (frame_id _ _ _ _ _ reaches_frame Hi) as (q & Hq & Hqid & Hqd).
    exists q. rw Hqd Hdid. split; [by eapply list_elem_of_lookup_2 | done].
Qed.

Lemma returned_answered step :
  1 <= max_attempts -> step ∈ run.(Run.steps) ->
  step.(Step.status) = StepStatus.succeeded <-> answered events run step.(Step.id).
Proof.
  intros Hmax Hin. split; [by intros Hst; apply succeeded_answered|].
  intros (task & now & Hres & Hcomp & _).
  destruct (returned_step step Hin) as [? | [(_ & _ & _ & Hx) | (_ & _ & Hb & _)]]; [done | |].
  - destruct (Hx Hmax) as [text Htext]. rw Hres in Htext. injection Htext as ->. done.
  - rw Hres in Hb. injection Hb as ->. done.
Qed.

Lemma run_steps_ids : map Step.id run.(Run.steps) = map Step.id plan.(Plan.steps).
Proof. rw -(frame_steps _ _ _ reaches_frame). unfold reset. by rw map_map. Qed.

Lemma returned_results id :
  1 <= max_attempts -> is_Some (run.(Run.results) !! id) <-> id ∈ map Step.id plan.(Plan.steps).
Proof.
  intros Hmax. split; [apply (final_results _ _ _ _ _ returned_final)|].
  rw -run_steps_ids. intros (step & -> & Hin)%list_elem_of_fmap.
  destruct (returned_step step Hin) as [Hst | [(_ & _ & _ & Hx) | (_ & _ & Hb & _)]].
  - apply (returned_answered step Hmax Hin) in Hst as (task & now & -> & _). done.
  - destruct (Hx Hmax) as [text ->]. done.
  - by rw Hb.
Qed.
End Reached.

(** ** Properties *)

(** C17: a plan is accepted exactly when all its steps are pending, their
    identifiers differ, every dependency is a step and no step waits for itself
    directly or through others; any other plan raises [ValueError], and the
    depth-first search always ends. *)
Theorem validate_plan_exact (plan : Plan.t) :
  (validate_plan plan = Ok tt <-> plan_ok plan) /\
  (~ plan_ok plan <-> exists msg, validate_plan plan = Err (ValueError msg)).
Proof.
  split; [apply validate_plan_ok|]. rw -validate_plan_ok. split.
  - intros Hn. destruct (validate_plan plan) as [[] | e] eqn:Hv; [done|].
    destruct (validate_plan_err plan e Hv) as [msg ->]. eauto.
  - intros [msg ->]. done.
Qed.

(** C13: a call is made only for a running step of the plan, with that step's
    target, prompt and runtime, after the client has answered all its
    dependencies with completed tasks, and only while fewer than
    [max_attempts] calls have been made for it; the event of one step leaves
    the results of the others alone. *)
Theorem dispatch_calls_safe {Time} (max_attempts : Z) (tracker : Tracker.t Time) (plan : Plan.t)
    events run calls e run' call :
  reaches max_attempts tracker plan events run calls ->
  step run e = Some (run', Some call) ->
  exists i step0 step, plan.(Plan.steps) !! i = Some step0 /\ run.(Run.steps) !! i = Some step /\
    step = Step.set_status StepStatus.running step0 /\
    call = {| call_target := step0.(Step.target);
              call_message := Message.make user [TextPart step0.(Step.prompt)];
              call_runtime := step0.(Step.runtime);
              call_task_id := call_key plan.(Plan.task_id) step0.(Step.id);
              call_retries := 1 |} /\
    (forall d, d ∈ step0.(Step.depends_on) -> answered events run d) /\
    sends plan.(Plan.task_id) step0.(Step.id) calls < max_attempts /\
    (forall id, id <> step0.(Step.id) -> run'.(Run.results) !! id = run.(Run.results) !! id).
Proof.
  intros Hr Hstep. pose proof (reaches_ok _ _ _ _ _ _ Hr) as Hok.
  pose proof (reaches_frame _ _ _ _ _ _ Hr) as Hf.
  destruct (reaches_sound _ _ _ _ _ _ Hr) as [[HI _] | HF].
  2: { unfold step in Hstep. by rw (final_outcome _ _ _ _ _ HF) in Hstep. }
  assert (e <> Resume) as Hne.
  { intros ->. unfold step in Hstep. rw (inv_outcome _ _ _ _ _ HI) in Hstep. by destruct (some_done run). }
  destruct (coroutine_moves _ _ _ _ _ _ _ _ HI Hstep Hne) as (i & q & [Hi Hst Hc _ Hres]).
  destruct Hc as [? | [= ->]]; [done|].
  pose proof (coroutine_inv _ _ Hok _ _ _ _ _ _ HI Hstep Hne) as HI'.
  exists i, (Step.set_status StepStatus.pending q), q. split; [by eapply frame_step0|].
  split; [done|].
  split; [destruct q; cbn in Hst |- *; by subst|].
  split; [unfold call_of; by rw (frame_task _ _ _ Hf)|]. split; [|split; [|done]].
  - cbn. intros d Hd.
    destruct (inv_deps _ _ _ _ _ HI _ _ Hi ltac:(by rw Hst) d Hd) as (dep & Hin & <- & Hds).
    by eapply succeeded_answered.
  - cbn. pose proof (sends_own run q calls) as Hown. rw (frame_task _ _ _ Hf) in Hown.
    destruct (frame_same _ _ _ _ _ _ Hf (inv_frame _ _ _ _ _ HI') Hi) as (q' & Hq' & Hid).
    pose proof (inv_phase _ _ _ _ _ HI' _ _ Hq') as Hph. rw Hid in Hph. cbn [option_list] in Hph.
    rw Hown in Hph. pose proof (sends_nonneg plan.(Plan.task_id) q.(Step.id) calls).
    inversion Hph; lia.
Qed.

(** C15: a run makes at most [2 * max_attempts + 3] events for each step of its
    plan, and however the client answers it can be brought to its end from
    every state it reaches; it never raises. *)
Theorem dispatch_terminates {Time} (max_attempts : Z) (tracker : Tracker.t Time) (plan : Plan.t)
    events run calls :
  reaches max_attempts tracker plan events run calls ->
  (length events <= length plan.(Plan.steps) * (2 * Z.to_nat max_attempts + 3))%nat /\
  (run.(Run.outcome) = None \/ run.(Run.outcome) = Some (Ok tt)) /\
  forall (reply : pystr -> Reply) (now : Time), exists events' run' calls',
    exec run events' = Some (run', calls') /\ run'.(Run.outcome) = Some (Ok tt) /\
    forall id r t, Answer id r t ∈ events' -> r = reply id.
Proof.
  intros Hr. pose proof (reaches_ok _ _ _ _ _ _ Hr) as Hok. split; [|split].
  - destruct Hr as (run0 & Hb & Hx). pose proof (begin_sound _ _ Hok _ _ Hb) as Hs.
    pose proof (exec_measure _ _ Hok _ _ _ _ _ _ Hs Hx) as Hle.
    assert (length run0.(Run.steps) = length plan.(Plan.steps)) as Hlen.
    { assert (frame plan max_attempts run0) as Hf
        by (destruct Hs as [[HI _] | HF]; [by eapply inv_frame | by eapply final_frame]).
      by rw -(frame_steps _ _ _ Hf) length_map. }
    rw -Hlen. etransitivity; [exact (Nat.le_trans _ _ _ (Nat.le_add_r _ _) Hle)|].
    unfold measure. assert (forall q, weight_of max_attempts run0 q <= 2 * Z.to_nat max_attempts + 3)%nat
      as Hw by (intros q; apply weight_max).
    clear -Hw. induction run0.(Run.steps) as [|q l IH]; cbn; [done|]. specialize (Hw q). lia.
  - destruct (reaches_sound _ _ _ _ _ _ Hr) as [[HI _] | HF];
      [left; by eapply inv_outcome | right; by eapply final_outcome].
  - intros reply now. by eapply can_finish.
Qed.

(** C14: when a run has returned every step has either succeeded, with the completed
    task the client answered after all its dependencies had succeeded; or
    failed in vain, after its dependencies and [max_attempts] calls; or it was
    never sent because a step it depends on, directly or not, failed in vain.
    There is a result for every step and for nothing else, and the aggregated
    task is completed exactly when every step was answered. *)
Theorem dispatch_outcome {Time} (max_attempts : Z) (tracker : Tracker.t Time) (plan : Plan.t)
    events run calls :
  reaches max_attempts tracker plan events run calls ->
  run.(Run.outcome) <> None -> 1 <= max_attempts ->
  run.(Run.outcome) = Some (Ok tt) /\ reset run.(Run.steps) = plan.(Plan.steps) /\
  (forall step, step ∈ run.(Run.steps) ->
     step.(Step.status) = StepStatus.succeeded /\ answered events run step.(Step.id) /\
       deps_succeeded run step /\ 1 <= sends plan.(Plan.task_id) step.(Step.id) calls <= max_attempts \/
     exhausted max_attempts plan run calls step \/
     step.(Step.status) = StepStatus.failed /\ sends plan.(Plan.task_id) step.(Step.id) calls = 0 /\
       run.(Run.results) !! step.(Step.id) = Some (blocked_task step.(Step.id)) /\
       exists root, root ∈ run.(Run.steps) /\ exhausted max_attempts plan run calls root /\
         tc (depends plan.(Plan.steps)) step.(Step.id) root.(Step.id)) /\
  (forall id, is_Some (run.(Run.results) !! id) <-> id ∈ map Step.id plan.(Plan.steps)) /\
  ((collect (Plan.make plan.(Plan.task_id) run.(Run.steps)) run.(Run.results)).(Task.status).(state)
     = completed <-> forall step, step ∈ plan.(Plan.steps) -> answered events run step.(Step.id)).
Proof.
  intros Hr Hdone Hmax. pose proof (returned_final _ _ _ _ _ _ Hr Hdone) as HF.
  split; [by eapply final_outcome|]. split; [by eapply frame_steps, final_frame|].
  split; [|split; [intros id; by eapply returned_results|]].
  - intros step Hin. destruct (returned_step _ _ _ _ _ _ Hr Hdone step Hin) as [Hst | Hother]; [|by right].
    left. split; [done|]. by eapply succeeded_answered.
  - assert ((forall step, step ∈ run.(Run.steps) -> step.(Step.status) = StepStatus.succeeded) <->
      (forall step, step ∈ plan.(Plan.steps) -> answered events run step.(Step.id))) as <-.
    { trans (forall id, id ∈ map Step.id plan.(Plan.steps) -> answered events run id).
      - rw -(run_steps_ids _ _ _ _ _ _ Hr). setoid_rewrite list_elem_of_fmap. split.
        + intros H id (step & -> & Hin). by eapply returned_answered, H.
        + intros H step Hin. eapply returned_answered; eauto.
      - setoid_rewrite list_elem_of_fmap. naive_solver. }
    unfold collect. cbn.
    trans (forallb (fun step => bool_decide (step.(Step.status) = StepStatus.succeeded))
      run.(Run.steps) = true); [by destruct (forallb _ _)|].
    rw forallb_iff Forall_forall. by setoid_rewrite bool_decide_eq_true.
Qed.

(** C16: no step is sent more than [max_attempts] times; a coroutine waits for
    the answer to exactly one call, the one just counted, and the pause
    before the attempt [k + 1] is [2 ^ (k - 1)] seconds, which exists only while
    attempts are left. *)
Theorem dispatch_bounds {Time} (max_attempts : Z) (tracker : Tracker.t Time) (plan : Plan.t)
    events run calls :
  reaches max_attempts tracker plan events run calls ->
  (forall id, id ∈ map Step.id plan.(Plan.steps) ->
     0 <= sends plan.(Plan.task_id) id calls <= Z.max 0 max_attempts) /\
  (run.(Run.outcome) = None -> forall id c, run.(Run.running) !! id = Some c ->
     match c.(await) with
     | Created => sends plan.(Plan.task_id) id calls = 0
     | Sending k => sends plan.(Plan.task_id) id calls = k /\ 1 <= k <= max_attempts
     | Sleeping k delay => sends plan.(Plan.task_id) id calls = k /\ 1 <= k < max_attempts /\
         delay = 2 ^ (k - 1) /\ 1 <= delay <= 2 ^ (max_attempts - 2)
     | Done => True
     end).
Proof.
  intros Hr. split.
  - intros id. rw -(run_steps_ids _ _ _ _ _ _ Hr). intros (step & -> & Hin)%list_elem_of_fmap.
    by eapply sends_bound.
  - intros Hout id c Hc. destruct (reaches_sound _ _ _ _ _ _ Hr) as [[HI _] | HF].
    2: { by rw (final_outcome _ _ _ _ _ HF) in Hout. }
    destruct (inv_running _ _ _ _ _ HI _ _ Hc) as (step & Hi & Hid).
    destruct (inv_waiting _ _ _ _ _ _ _ _ HI Hc Hi) as [_ Hph].
    destruct c.(await) as [|k|k delay|].
    + by apply phase_created_inv in Hph as (_ & ? & _).
    + by apply phase_sending_inv in Hph as (_ & ? & ?).
    + apply phase_sleeping_inv in Hph as (_ & Hn & Hk & -> & _).
      split; [done|]. split; [done|]. split; [done|]. split.
      * pose proof (Z.pow_pos_nonneg 2 (k - 1)). lia.
      * apply Z.pow_le_mono_r; lia.
    + done.
Qed.

(** ** A run

    Three steps: [c] waits for [a] and [b], and [b] for [a].  [a] needs two
    attempts, and [b] fails twice, which blocks [c]. *)
Module Demo.
Definition step (id : string) (depends_on : list string) : Step.t :=
  Step.make (u id) (u "worker") (u "do it") StepStatus.pending (map u depends_on) None.
Definition plan : Plan.t := Plan.make (u "job") [step "c" ["a"; "b"]; step "a" []; step "b" ["a"]].
Definition task : Task.t := Task.make (u "job:a") {| state := completed |} [] [].
Definition idle : Run.t Z := Run.make 0 [] [] ∅ ∅ ∅ Tracker.init None.
Definition start : Run.t Z :=
  match begin_run 2 Tracker.init plan with Ok run => run | Err _ => idle end.
Definition first : list (Event Z) :=
  [Begin (u "a") 1; Answer (u "a") (Raised (u "timeout")) 2].
Definition middle : list (Event Z) :=
  first ++ [Wake (u "a") 3; Answer (u "a") (Replied task) 4; Resume].
Definition all : list (Event Z) :=
  middle ++ [Begin (u "b") 5; Answer (u "b") (Raised []) 6; Wake (u "b") 7;
    Answer (u "b") (Raised []) 8; Resume].
Definition after (events : list (Event Z)) : Run.t Z * list Call :=
  match exec start events with Some r => r | None => (idle, []) end.

Definition calls_b : option (Run.t Z * option Call) :=
  Dispatcher.step (after middle).1 (Begin (u "b") 5).
End Demo.

Lemma demo_reaches events :
  exec Demo.start events = Some (Demo.after events) ->
  reaches 2 Tracker.init Demo.plan events (Demo.after events).1 (Demo.after events).2.
Proof.
  intros Hx. exists Demo.start. split; [by vm_compute|]. by rw Hx -surjective_pairing.
Qed.

Lemma dispatch_calls_safe_witness : exists run' call,
  Demo.calls_b = Some (run', Some call) /\
  (forall d, d = u "a" -> answered Demo.middle (Demo.after Demo.middle).1 d).
Proof.
  assert (exists run' call, Demo.calls_b = Some (run', Some call)) as (run' & call & Hc)
    by (vm_compute; eauto).
  exists run', call. split; [exact Hc|].
  assert (reaches 2 Tracker.init Demo.plan Demo.middle (Demo.after Demo.middle).1
    (Demo.after Demo.middle).2) as Hr by (apply demo_reaches; vm_compute; reflexivity).
  destruct (dispatch_calls_safe 2 Tracker.init Demo.plan _ _ _ _ _ _ Hr Hc)
    as (i & q0 & q & Hq0 & Hq & -> & _ & Hans & _).
  intros d ->. apply Hans.
  assert (i = 2%nat) as ->.
  { destruct i as [|[|[|i]]]; [| | done |].
    all: exfalso; revert Hq; vm_compute; congruence. }
  injection Hq0 as <-. vm_compute. left.
Defined.

Lemma dispatch_terminates_witness :
  (length Demo.middle <= 21)%nat /\
  exists events' run' calls', exec (Demo.after Demo.middle).1 events' = Some (run', calls') /\
    run'.(Run.outcome) = Some (Ok tt).
Proof.
  assert (reaches 2 Tracker.init Demo.plan Demo.middle (Demo.after Demo.middle).1
    (Demo.after Demo.middle).2) as Hr by (apply demo_reaches; vm_compute; reflexivity).
  destruct (dispatch_terminates 2 Tracker.init Demo.plan _ _ _ Hr) as (Hl & _ & Hfin).
  split; [exact Hl|]. destruct (Hfin (fun _ => Raised []) 0) as (es & r & cs & Hx & Hd & _). eauto.
Defined.

Lemma dispatch_outcome_witness :
  (collect (Plan.make (u "job") (Demo.after Demo.all).1.(Run.steps))
     (Demo.after Demo.all).1.(Run.results)).(Task.status).(state) = failed /\
  forall id, is_Some ((Demo.after Demo.all).1.(Run.results) !! id) <-> id ∈ [u "c"; u "a"; u "b"].
Proof.
  assert (reaches 2 Tracker.init Demo.plan Demo.all (Demo.after Demo.all).1
    (Demo.after Demo.all).2) as Hr by (apply demo_reaches; vm_compute; reflexivity).
  split; [vm_compute; reflexivity|].
  apply (dispatch_outcome 2 Tracker.init Demo.plan _ _ _ Hr); [vm_compute; congruence | lia].
Defined.

Lemma dispatch_bounds_witness :
  0 <= sends (u "job") (u "a") (Demo.after Demo.first).2 <= 2 /\
  sends (u "job") (u "a") (Demo.after Demo.first).2 = 1.
Proof.
  assert (reaches 2 Tracker.init Demo.plan Demo.first (Demo.after Demo.first).1
    (Demo.after Demo.first).2) as Hr by (apply demo_reaches; vm_compute; reflexivity).
  destruct (dispatch_bounds 2 Tracker.init Demo.plan _ _ _ Hr) as [Hb Hw]. split.
  - apply (Hb (u "a")). right. left.
  - assert (exists c, (Demo.after Demo.first).1.(Run.running) !! u "a" = Some c /\
      c.(await) = Sleeping 1 1) as (c & Hc & Haw) by (vm_compute; eauto).
    specialize (Hw ltac:(vm_compute; reflexivity) _ _ Hc). rw Haw in Hw. tauto.
Defined.
