(* ===== verification/ConfigSlots.v ===== *)
(** * The required slots of a signed configuration bundle

    [config_slots.py]: which components a delivery profile needs, read from
    the deployment descriptor and the bundle, and the two projections of the
    bundle that must repeat the answer.  Mappings and sequences are decoded
    JSON; a missing member is [None].

    Where a message of the source ends in a [repr] or in a list of the values
    at fault, the model keeps the text before it. *)
From S2P Require Import Prelude PyStr Json Contract Reconciliation.
Local Open Scope string_scope.
Local Open Scope list_scope.
Local Open Scope N_scope.
Local Open Scope py_scope.

Definition BASE_REQUIRED_SLOT_TYPES : list pystr :=
  map u ["CONFIG_CONTROLLER"; "STATE_SERVICE"; "GATEWAY"; "NATS_JETSTREAM"; "OBJECT_STORE";
    "ARTIFACT_BROKER"; "AUDIT_SINK"].
Definition _REQUIRED_SLOT_TYPE_SET : gset pystr := list_to_set BASE_REQUIRED_SLOT_TYPES.
Definition _DELIVERY_PROFILE_SET : gset pystr := list_to_set (map u ["CORE"; "INTEROP"; "EXTENDED"]).

Definition required (msg : string) : exn := RequiredSlotError msg.

Record _RecoveryAuthority := { verification_method : pystr; expected_digest : pystr }.

#[global] Instance authority_eq_dec : EqDecision _RecoveryAuthority.
Proof. solve_decision. Defined.

Module StableSlot.
Record t := make { component_type : pystr; component_principal : pystr; node_id : pystr }.

#[global] Instance eq_dec : EqDecision t.
Proof. solve_decision. Defined.

#[global] Program Instance countable : Countable t :=
  inj_countable' (fun s => (s.(component_type), s.(component_principal), s.(node_id)))
    (fun p => make p.1.1 p.1.2 p.2) _.
Next Obligation. by intros []. Qed.

Definition sort_key (self : t) : result (pybytes * pybytes * pybytes) :=
  t ← encode_utf8 self.(component_type);
  p ← encode_utf8 self.(component_principal);
  n ← encode_utf8 self.(node_id);
  Ok (t, p, n).

Definition as_dict (self : t) : dict :=
  [(u "componentType", JStr self.(component_type));
   (u "componentPrincipal", JStr self.(component_principal));
   (u "nodeId", JStr self.(node_id))].
End StableSlot.

(** ** Field checks *)
Definition get (item : dict) (key : string) : option json := dict_get (u key) item.

Definition _mapping (value : option json) (label : string) : result dict :=
  match value with
  | Some (JObj kvs) => Ok kvs
  | _ => Err (required (label <+> " must be an object"))
  end.

Definition _sequence (value : option json) (label : string) : result (list json) :=
  match value with
  | Some (JArr l) => Ok l
  | _ => Err (required (label <+> " must be an array"))
  end.

Definition _stable_text (value : option json) (label : string) : result pystr :=
  match value with
  | Some (JStr text) =>
    raise_if ((text == []) || (text != strip text))
      (required (label <+> " must be a non-empty trimmed string"));;
    raise_if (existsb (fun c => (c <? 0x20) || (c =? 0x7F)) text)
      (required (label <+> " contains a control character"));;
    except (encode_utf8 text) (fun e => e == UnicodeError)
      (required (label <+> " is not valid UTF-8"));;
    Ok text
  | _ => Err (required (label <+> " must be a non-empty trimmed string"))
  end.

Definition index_label (prefix : string) (index : nat) (suffix : string) : string :=
  prefix <+> "[" <+> Reconciliation.number_string (Z.of_nat index) <+> "]" <+> suffix.

Definition _validate_profile_name (value : json) (label : string) : result pystr :=
  match value with
  | JStr name =>
    raise_if (negb (bool_decide (name ∈ _DELIVERY_PROFILE_SET)))
      (required (label <+> " has unsupported profile"));;
    _stable_text (Some value) label
  | _ => Err (required (label <+> " has unsupported profile"))
  end.

(** ** Slots and recovery authorities *)
Definition _slot_from_mapping (value : dict) (label : string) : result StableSlot.t :=
  component_type ← _stable_text (get value "componentType") (label <+> ".componentType");
  component_principal ← _stable_text (get value "componentPrincipal")
    (label <+> ".componentPrincipal");
  node_id ← _stable_text (get value "nodeId") (label <+> ".nodeId");
  Ok (StableSlot.make component_type component_principal node_id).

Definition slot_fields : gset pystr :=
  list_to_set (map u ["componentType"; "componentPrincipal"; "nodeId"]).
Definition recovery_fields : gset pystr :=
  list_to_set (map u ["componentType"; "componentPrincipal"; "nodeId"; "verificationMethod";
    "expectedDigest"]).

Definition _slot_from_exact_mapping (value : json) (label : string) : result StableSlot.t :=
  mapping ← _mapping (Some value) label;
  raise_if (dict_keys mapping != slot_fields) (required (label <+> " has missing or extra fields"));;
  _slot_from_mapping mapping label.

Definition _read_recovery_authority (value : dict) (label : string) : result _RecoveryAuthority :=
  verification_method ← _stable_text (get value "verificationMethod")
    (label <+> ".verificationMethod");
  expected_digest ← _stable_text (get value "expectedDigest") (label <+> ".expectedDigest");
  raise_if (negb (sha256_re expected_digest))
    (required (label <+> ".expectedDigest must be lowercase SHA-256 hex"));;
  Ok {| verification_method := verification_method; expected_digest := expected_digest |}.

Definition _authority_for (slot : StableSlot.t) (authorities : gmap StableSlot.t _RecoveryAuthority)
    : result _RecoveryAuthority :=
  or_raise (authorities !! slot)
    (required "required stable slot has no authoritative recovery proof metadata: ").

Definition _claim_unique_identity (owners : gmap pystr string) (value : pystr)
    (identity_type owner : string) : result (gmap pystr string) :=
  match owners !! value with
  | Some previous => Err (required ("duplicate global identity claimed by " <+> previous
      <+> " and " <+> identity_type <+> " " <+> owner))
  | None => Ok (<[value := identity_type <+> " " <+> owner]> owners)
  end.

(** ** The slots of the deployment descriptor *)

(** the dictionaries the readers fill *)
Record Claims := {
  identity_owners : gmap pystr string;
  authorities : gmap StableSlot.t _RecoveryAuthority }.

Definition read_base_slot (s : list StableSlot.t * Claims) (p : nat * json)
    : result (list StableSlot.t * Claims) :=
  let '(slots, claims) := s in
  let '(index, value) := p in
  let label := index_label "fixedBaseSlots" index "" in
  item ← _mapping (Some value) label;
  slot ← _slot_from_mapping item label;
  ready_reporter ← _stable_text (get item "readyReporterPrincipal")
    (label <+> ".readyReporterPrincipal");
  probe_nkey ← _stable_text (get item "probeNkeySelector") (label <+> ".probeNkeySelector");
  authority ← _read_recovery_authority item label;
  owners ← _claim_unique_identity claims.(identity_owners) slot.(StableSlot.component_principal)
    "Principal" (label <+> ".componentPrincipal");
  owners ← _claim_unique_identity owners ready_reporter "Principal"
    (label <+> ".readyReporterPrincipal");
  owners ← _claim_unique_identity owners probe_nkey "nkeySelector" (label <+> ".probeNkeySelector");
  Ok (slots ++ [slot],
      {| identity_owners := owners; authorities := <[slot := authority]> claims.(authorities) |}).

(** [enumerate(values)] *)
Definition enumerate {A} (values : list A) : list (nat * A) := imap (fun i a => (i, a)) values.

Definition component_types (slots : list StableSlot.t) : gset pystr :=
  list_to_set (map StableSlot.component_type slots).

Definition _read_base_slots (descriptor : dict) : result (list StableSlot.t * Claims) :=
  values ← _sequence (get descriptor "fixedBaseSlots") "fixedBaseSlots";
  '(slots, claims) ← foldM read_base_slot ([], {| identity_owners := ∅; authorities := ∅ |})
    (enumerate values);
  raise_if (_REQUIRED_SLOT_TYPE_SET ∖ component_types slots != ∅)
    (required "fixedBaseSlots is missing required types: ");;
  raise_if (component_types slots ∖ _REQUIRED_SLOT_TYPE_SET != ∅)
    (required "fixedBaseSlots contains unknown types: ");;
  Ok (slots, claims).

(** ** The components of the bundle *)
Definition merge_broker : pystr := u "merge-broker".

Definition read_profiles (item : dict) (label : string) : result (list pystr) :=
  profiles ← _sequence (get item "requiredForProfiles") (label <+> ".requiredForProfiles");
  profile_values ← mapR (fun p : nat * json =>
      _validate_profile_name p.2 (index_label (label <+> ".requiredForProfiles") p.1 ""))
    (enumerate profiles);
  raise_if (size (list_to_set profile_values : gset pystr) != length profile_values)
    (required (label <+> ".requiredForProfiles contains duplicates"));;
  Ok profile_values.

Definition read_component_slot (profile_name : pystr)
    (s : list StableSlot.t * list StableSlot.t * Claims) (p : nat * json)
    : result (list StableSlot.t * list StableSlot.t * Claims) :=
  let '(all_slots, profile_slots, claims) := s in
  let '(index, value) := p in
  let label := index_label "components" index "" in
  item ← _mapping (Some value) label;
  slot ← _slot_from_mapping item label;
  raise_if (slot.(StableSlot.component_type) == merge_broker)
    (required "application-core owns Merge Broker; merge-broker is not a slot");;
  nkey_selector ← _stable_text (get item "nkeySelector") (label <+> ".nkeySelector");
  owners ← _claim_unique_identity claims.(identity_owners) slot.(StableSlot.component_principal)
    "Principal" (label <+> ".componentPrincipal");
  owners ← _claim_unique_identity owners nkey_selector "nkeySelector" (label <+> ".nkeySelector");
  authority ← _read_recovery_authority item label;
  profile_values ← read_profiles item label;
  Ok (all_slots ++ [slot],
      (if bool_decide (profile_name ∈ profile_values) then profile_slots ++ [slot] else profile_slots),
      {| identity_owners := owners; authorities := <[slot := authority]> claims.(authorities) |}).

Definition _read_component_slots (bundle : dict) (profile_name : pystr) (claims : Claims)
    : result (list StableSlot.t * list StableSlot.t * Claims) :=
  values ← _sequence (get bundle "components") "components";
  foldM (read_component_slot profile_name) ([], [], claims) (enumerate values).

(** ** The slots an operator adds *)
Definition explicit_name : string := "deliveryProfile.explicitlyRequiredOperationalSlots".

Definition read_explicit_slot (known : gset StableSlot.t) (result : list StableSlot.t)
    (p : nat * json) : Prelude.result (list StableSlot.t) :=
  let '(index, item) := p in
  mapping ← _mapping (Some item) (index_label explicit_name index "");
  raise_if (dict_keys mapping != slot_fields)
    (required ("explicit operational slot has missing or extra fields at index "
      <+> Reconciliation.number_string (Z.of_nat index)));;
  slot ← _slot_from_mapping mapping (index_label explicit_name index "");
  raise_if (slot.(StableSlot.component_type) == merge_broker)
    (required "merge-broker cannot be an operational slot");;
  raise_if (negb (bool_decide (slot ∈ known)))
    (required "explicit operational slot does not resolve to a signed stable slot: ");;
  raise_if (bool_decide (slot ∈ result))
    (required "explicit operational slots contain a duplicate");;
  Ok (result ++ [slot]).

Definition _read_explicit_slots (value : json) (known : list StableSlot.t)
    : result (list StableSlot.t) :=
  values ← _sequence (Some value) explicit_name;
  foldM (read_explicit_slot (list_to_set known)) [] (enumerate values).

(** ** The required set *)
Definition _reject_duplicate_slots (slots : list StableSlot.t) (label : string) : result unit :=
  raise_if (size (list_to_set slots : gset StableSlot.t) != length slots)
    (required (label <+> " contains duplicate stable slots")).

(** [unique.setdefault(slot, None)] for each slot, then the keys in order *)
Definition _unique_slots (slots : list StableSlot.t) : list StableSlot.t :=
  fold_left (fun unique slot => if bool_decide (slot ∈ unique) then unique else unique ++ [slot])
    slots [].

(** comparison of two keys, tuples of [bytes] *)
Definition key_leb (p q : pybytes * pybytes * pybytes) : bool :=
  if bool_decide (p.1.1 = q.1.1) then
    if bool_decide (p.1.2 = q.1.2) then bytes_leb p.2 q.2 else bytes_leb p.1.2 q.1.2
  else bytes_leb p.1.1 q.1.1.

Fixpoint insert_slot (p : pybytes * pybytes * pybytes * StableSlot.t)
    (l : list (pybytes * pybytes * pybytes * StableSlot.t))
    : list (pybytes * pybytes * pybytes * StableSlot.t) :=
  match l with
  | [] => [p]
  | q :: l' => if key_leb p.1 q.1 then p :: l else q :: insert_slot p l'
  end.

(** [sorted(slots, key=StableSlot.sort_key)] *)
Definition _sort_slots (slots : list StableSlot.t) : result (list StableSlot.t) :=
  keyed ← mapR (fun slot => k ← StableSlot.sort_key slot; Ok (k, slot)) slots;
  Ok (map snd (foldr insert_slot [] keyed)).

(** ** The projections *)
Definition _validate_required_slots_projection (delivery_profile : dict)
    (generated : list StableSlot.t) : result unit :=
  match get delivery_profile "requiredSlots" with
  | None => Err (required "deliveryProfile.requiredSlots is required")
  | Some projection =>
    values ← _sequence (Some projection) "deliveryProfile.requiredSlots";
    parsed ← mapR (fun p : nat * json =>
        _slot_from_exact_mapping p.2 (index_label "deliveryProfile.requiredSlots" p.1 ""))
      (enumerate values);
    raise_if (parsed != generated)
      (required "deliveryProfile.requiredSlots does not equal RequiredSlotSetV1")
  end.

Definition read_recovery_component
    (s : list (StableSlot.t * _RecoveryAuthority) * gset StableSlot.t) (p : nat * json)
    : result (list (StableSlot.t * _RecoveryAuthority) * gset StableSlot.t) :=
  let '(parsed, parsed_slots) := s in
  let '(index, value) := p in
  let label := index_label "recoveryPolicy.requiredComponents" index "" in
  item ← _mapping (Some value) label;
  raise_if (dict_keys item != recovery_fields)
    (required ("recovery required component has missing or extra fields at index "
      <+> Reconciliation.number_string (Z.of_nat index)));;
  slot ← _slot_from_mapping item label;
  authority ← _read_recovery_authority item label;
  raise_if (bool_decide (slot ∈ parsed_slots))
    (required "recovery required components contain a duplicate");;
  Ok (parsed ++ [(slot, authority)], {[slot]} ∪ parsed_slots).

Definition _validate_recovery_projection (bundle : dict) (generated : list StableSlot.t)
    (authorities : gmap StableSlot.t _RecoveryAuthority) : result unit :=
  match get bundle "recoveryPolicy" with
  | None => Err (required "recoveryPolicy is required")
  | Some recovery =>
    mapping ← _mapping (Some recovery) "recoveryPolicy";
    match get mapping "requiredComponents" with
    | None => Err (required "recoveryPolicy.requiredComponents is required")
    | Some projection =>
      values ← _sequence (Some projection) "recoveryPolicy.requiredComponents";
      '(parsed, _) ← foldM read_recovery_component ([], ∅) (enumerate values);
      expected_projection ← mapR (fun slot =>
        authority ← _authority_for slot authorities; Ok (slot, authority)) generated;
      raise_if (parsed != expected_projection)
        (required "recoveryPolicy.requiredComponents does not equal RequiredSlotSetV1 proof metadata")
    end
  end.

Definition recovery_dict (slot : StableSlot.t) (authority : _RecoveryAuthority) : dict :=
  StableSlot.as_dict slot ++
  [(u "verificationMethod", JStr authority.(verification_method));
   (u "expectedDigest", JStr authority.(expected_digest))].

Definition _render_recovery_projection (slots : list StableSlot.t)
    (authorities : gmap StableSlot.t _RecoveryAuthority) : result (list dict) :=
  mapR (fun slot => authority ← _authority_for slot authorities; Ok (recovery_dict slot authority))
    slots.

Definition _compute_required_slots (profile_name : json) (bundle deployment_descriptor : dict)
    (validate_projections : bool)
    : result (list StableSlot.t * gmap StableSlot.t _RecoveryAuthority) :=
  profile_name ← _validate_profile_name profile_name "profile_name";
  '(base_slots, claims) ← _read_base_slots deployment_descriptor;
  '(all_component_slots, profile_component_slots, claims) ←
    _read_component_slots bundle profile_name claims;
  let known_slots := (base_slots ++ all_component_slots) in
  _reject_duplicate_slots known_slots "base/component slots";;
  delivery_profile ← _mapping (get bundle "deliveryProfile") "deliveryProfile";
  let explicit_value :=
    default (JArr []) (get delivery_profile "explicitlyRequiredOperationalSlots") in
  explicit_slots ← _read_explicit_slots explicit_value known_slots;
  generated ← _sort_slots
    (_unique_slots (base_slots ++ profile_component_slots ++ explicit_slots));
  (if validate_projections then
    _validate_required_slots_projection delivery_profile generated;;
    _validate_recovery_projection bundle generated claims.(authorities)
  else Ok tt);;
  Ok (generated, claims.(authorities)).

Definition required_slot_set (profile_name : json) (bundle deployment_descriptor : dict)
    : result (list StableSlot.t) :=
  '(slots, _) ← _compute_required_slots profile_name bundle deployment_descriptor true;
  Ok slots.

Definition required_slot_projection (profile_name : json) (bundle deployment_descriptor : dict)
    : result (list dict) :=
  '(slots, _) ← _compute_required_slots profile_name bundle deployment_descriptor false;
  Ok (map StableSlot.as_dict slots).

Definition required_recovery_projection (profile_name : json) (bundle deployment_descriptor : dict)
    : result (list dict) :=
  '(slots, authorities) ← _compute_required_slots profile_name bundle deployment_descriptor false;
  _render_recovery_projection slots authorities.
