(* ===== verification/ConfigFacts.v ===== *)
(** * What the readers of [ConfigSlots.v] accept

    Each reader is equivalent to a relation between the JSON it reads and the
    items it finds; the relations do not depend on the order of the loops. *)
From S2P Require Import Prelude PyStr ListFacts JsonFacts Json Contract ContractFacts ConfigSlots PlanFacts.
Local Open Scope py_scope.

(** ** Fields *)
Lemma text_ok value label s : _stable_text value label = Ok s <-> value = Some (JStr s) /\ stable_text s.
Proof.
  unfold _stable_text. destruct value as [[| | | |t| |]|]; try (split; [done|by intros [? _]]).
  rw bind_ok_unit raise_if_ok orb_false_iff neqb_false eqb_false_iff bind_ok_unit raise_if_ok
    !existsb_false_iff bind_ok. setoid_rewrite except_ok. unfold stable_text. split.
  - intros ((? & ?) & Hc & b & Hb & [= ->]). split; [done|]. split; [done|]. split; [done|].
    split; [exact Hc|]. by eapply encode_utf8_ok_inv.
  - intros ([= ->] & ? & ? & Hc & Hs). split; [done|]. destruct (encode_utf8_ok s Hs) as [b Hb].
    split; [exact Hc | by exists b].
Qed.

Lemma mapping_ok value label item : _mapping value label = Ok item <-> value = Some (JObj item).
Proof. destruct value as [[]|]; cbn; naive_solver. Qed.

Lemma sequence_ok value label l : _sequence value label = Ok l <-> value = Some (JArr l).
Proof. destruct value as [[]|]; cbn; naive_solver. Qed.

(** the member is text that may be used *)
Definition text_field (item : dict) (key : string) (s : pystr) : Prop :=
  get item key = Some (JStr s) /\ stable_text s.

Definition slot_item (item : dict) (slot : StableSlot.t) : Prop :=
  text_field item "componentType" slot.(StableSlot.component_type) /\
  text_field item "componentPrincipal" slot.(StableSlot.component_principal) /\
  text_field item "nodeId" slot.(StableSlot.node_id).

Definition authority_item (item : dict) (a : _RecoveryAuthority) : Prop :=
  text_field item "verificationMethod" a.(verification_method) /\
  text_field item "expectedDigest" a.(expected_digest) /\ sha256_hex a.(expected_digest).

Lemma slot_ok item label slot : _slot_from_mapping item label = Ok slot <-> slot_item item slot.
Proof.
  unfold _slot_from_mapping, slot_item, text_field. rw bind_ok. setoid_rewrite bind_ok.
  setoid_rewrite bind_ok. setoid_rewrite text_ok. destruct slot. naive_solver.
Qed.

Lemma sha256_re_ok s : sha256_re s = true <-> sha256_hex s.
Proof.
  unfold sha256_re, sha256_hex. by rw andb_true_iff bool_decide_eq_true forallb_iff.
Qed.

Lemma authority_ok item label a : _read_recovery_authority item label = Ok a <-> authority_item item a.
Proof.
  unfold _read_recovery_authority, authority_item, text_field. rw bind_ok. setoid_rewrite bind_ok.
  setoid_rewrite bind_ok_unit. setoid_rewrite text_ok. setoid_rewrite raise_if_ok.
  setoid_rewrite negb_false_iff. setoid_rewrite sha256_re_ok. destruct a. naive_solver.
Qed.

Lemma slot_item_stable item slot :
  slot_item item slot -> stable_text slot.(StableSlot.component_type) /\
  stable_text slot.(StableSlot.component_principal) /\ stable_text slot.(StableSlot.node_id).
Proof. unfold slot_item, text_field. tauto. Qed.

Lemma slot_item_fun item slot slot' : slot_item item slot -> slot_item item slot' -> slot = slot'.
Proof. unfold slot_item, text_field. destruct slot, slot'. cbn. intros. naive_solver congruence. Qed.

Lemma authority_item_fun item a a' : authority_item item a -> authority_item item a' -> a = a'.
Proof. unfold authority_item, text_field. destruct a, a'. cbn. intros. naive_solver congruence. Qed.

Lemma profile_ok value label name :
  _validate_profile_name value label = Ok name <->
  value = JStr name /\ name ∈ _DELIVERY_PROFILE_SET.
Proof.
  unfold _validate_profile_name. destruct value as [| | | |s| |]; try (split; [done|by intros [? _]]).
  rw bind_ok_unit raise_if_ok negb_false_iff bool_decide_eq_true text_ok. split; [naive_solver|].
  intros [[= ->] Hin]. split; [done|]. split; [done|].
  unfold _DELIVERY_PROFILE_SET in Hin. apply elem_of_list_to_set in Hin.
  repeat (apply elem_of_cons in Hin as [-> | Hin]; [by apply plain_stable_text; [|repeat constructor]|]).
  by apply elem_of_nil in Hin.
Qed.

#[global] Arguments _mapping : simpl never.
#[global] Arguments _sequence : simpl never.
#[global] Arguments _stable_text : simpl never.
#[global] Arguments _slot_from_mapping : simpl never.
#[global] Arguments _read_recovery_authority : simpl never.
#[global] Arguments _validate_profile_name : simpl never.
#[global] Arguments _claim_unique_identity : simpl never.
#[global] Arguments index_label : simpl never.
#[global] Arguments get : simpl never.
#[global] Arguments read_profiles : simpl never.

(** ** Claims *)
Lemma claim_ok owners value ty owner owners' :
  _claim_unique_identity owners value ty owner = Ok owners' <->
  owners !! value = None /\ owners' = <[value := (ty <+> " " <+> owner)%string]> owners.
Proof.
  unfold _claim_unique_identity. destruct (owners !! value); split; try naive_solver.
Qed.

Definition slot_map (l : list (StableSlot.t * _RecoveryAuthority))
    (m : gmap StableSlot.t _RecoveryAuthority) : gmap StableSlot.t _RecoveryAuthority :=
  fold_left (fun m p => <[p.1 := p.2]> m) l m.

(** [c] has the names and the authorities in addition to [c0] *)
Definition extends (c0 : Claims) (names : list pystr) (l : list (StableSlot.t * _RecoveryAuthority))
    (c : Claims) : Prop :=
  NoDup names /\ (forall v, v ∈ names -> c0.(identity_owners) !! v = None) /\
  (forall v, is_Some (c.(identity_owners) !! v) <-> is_Some (c0.(identity_owners) !! v) \/ v ∈ names) /\
  c.(authorities) = slot_map l c0.(authorities).

Lemma extends_nil c : extends c [] [] c.
Proof.
  split; [constructor|]. split; [by intros v ?%elem_of_nil|]. split; [|done].
  intros v. rw elem_of_nil. tauto.
Qed.

Lemma extends_app c0 c1 c2 names1 names2 l1 l2 :
  extends c0 names1 l1 c1 -> extends c1 names2 l2 c2 -> extends c0 (names1 ++ names2) (l1 ++ l2) c2.
Proof.
  intros (Hn1 & Hf1 & Ho1 & Ha1) (Hn2 & Hf2 & Ho2 & Ha2).
  assert (forall v, v ∈ names2 -> ~ is_Some (c0.(identity_owners) !! v) /\ v ∉ names1) as Hfresh.
  { intros v Hv. specialize (Hf2 v Hv). specialize (Ho1 v). rw Hf2 in Ho1.
    destruct Ho1 as [_ Hx].
    split; intros H; (destruct Hx as [? ?]; [tauto | done]). }
  split; [|split; [|split]].
  - apply NoDup_app. split; [done|]. split; [|done]. intros v Hv1 Hv2. by apply Hfresh in Hv2 as [_ ?].
  - intros v [Hv | Hv]%elem_of_app; [by apply Hf1|].
    destruct (c0.(identity_owners) !! v) eqn:E; [|done]. apply Hfresh in Hv as [[] _]. by rw E.
  - intros v. rw Ho2 Ho1 elem_of_app. tauto.
  - rw Ha2 Ha1. unfold slot_map. by rw fold_left_app.
Qed.

Lemma extends_claim owners a value label :
  owners !! value = None ->
  extends {| identity_owners := owners; authorities := a |} [value] []
    {| identity_owners := <[value := label]> owners; authorities := a |}.
Proof.
  intros Hf. split; [apply NoDup_singleton|].
  split; [by intros w ->%list_elem_of_singleton|]. split; [|done].
  intros w. cbn. rw list_elem_of_singleton. destruct (decide (w = value)) as [-> | Hne].
  - rw lookup_insert_eq. naive_solver.
  - rw lookup_insert_ne; [tauto | done].
Qed.

Lemma extends_authority owners a slot x :
  extends {| identity_owners := owners; authorities := a |} [] [(slot, x)]
    {| identity_owners := owners; authorities := <[slot := x]> a |}.
Proof.
  split; [constructor|]. split; [by intros v ?%elem_of_nil|]. split; [|done].
  intros v. rw elem_of_nil. cbn. tauto.
Qed.

Lemma extends_fresh c0 names l c v :
  extends c0 names l c -> v ∉ names -> c0.(identity_owners) !! v = None -> c.(identity_owners) !! v = None.
Proof.
  intros (_ & _ & Ho & _) Hn Hf. destruct (c.(identity_owners) !! v) eqn:E; [|done].
  destruct (Ho v) as [Hx _]. rw E Hf in Hx. destruct (Hx ltac:(eauto)) as [[? ?] | ?]; done.
Qed.

(** ** The loops over items with names *)
Section Loop.
Context {X B : Type} (f : X * Claims -> nat * json -> result (X * Claims)).
Context (reads : json -> B -> Prop) (names : B -> list pystr).
Context (auth : B -> StableSlot.t * _RecoveryAuthority) (add : X -> B -> X).
Context (Hsound : forall x c0 p x' c, f (x, c0) p = Ok (x', c) ->
  exists b, reads p.2 b /\ x' = add x b /\ extends c0 (names b) [auth b] c).
Context (Hcomplete : forall x c0 p b, reads p.2 b -> NoDup (names b) ->
  (forall v, v ∈ names b -> c0.(identity_owners) !! v = None) ->
  exists c, f (x, c0) p = Ok (add x b, c) /\ extends c0 (names b) [auth b] c).

Lemma loop_sound ps x c0 x' c :
  foldM f (x, c0) ps = Ok (x', c) ->
  exists bs, Forall2 (fun p b => reads p.2 b) ps bs /\ x' = fold_left add bs x /\
    extends c0 (flat_map names bs) (map auth bs) c.
Proof.
  revert x c0. induction ps as [|p ps IH]; intros x c0.
  { intros [= <- <-]. exists []. split; [constructor|]. split; [done | apply extends_nil]. }
  cbn. intros ([x1 c1] & (b & Hb & -> & He)%Hsound & (bs & Hbs & -> & He')%IH)%bind_ok.
  exists (b :: bs). split; [by constructor|]. split; [done|]. cbn.
  exact (extends_app _ _ _ _ _ [auth b] _ He He').
Qed.

Lemma loop_complete ps x c0 bs :
  Forall2 (fun p b => reads p.2 b) ps bs -> NoDup (flat_map names bs) ->
  (forall v, v ∈ flat_map names bs -> c0.(identity_owners) !! v = None) ->
  exists c, foldM f (x, c0) ps = Ok (fold_left add bs x, c) /\
    extends c0 (flat_map names bs) (map auth bs) c.
Proof.
  intros Hbs. revert x c0. induction Hbs as [|p b ps bs Hb Hbs IH]; intros x c0 Hnd Hf; cbn.
  { exists c0. split; [done | apply extends_nil]. }
  cbn in Hnd, Hf. apply NoDup_app in Hnd as (Hnd1 & Hdis & Hnd2).
  destruct (Hcomplete x c0 p b Hb Hnd1) as (c1 & Hc1 & He).
  { intros v Hv. apply Hf, elem_of_app. by left. }
  destruct (IH (add x b) c1 Hnd2) as (c & Hc & He').
  { intros v Hv. eapply extends_fresh; [exact He | intros Hv'; by apply (Hdis v)|].
    apply Hf, elem_of_app. by right. }
  exists c. rw Hc1. split; [done|]. exact (extends_app _ _ _ _ _ [auth b] _ He He').
Qed.
End Loop.

Lemma enumerate_Forall2 {A B} (R : A -> B -> Prop) values bs :
  Forall2 (fun p b => R p.2 b) (enumerate values) bs <-> Forall2 R values bs.
Proof.
  assert ((enumerate values).*2 = values) as Hs.
  { unfold enumerate. rw fmap_imap. apply list_eq. intros i. rw list_lookup_imap.
    by destruct (values !! i). }
  rw -{2}Hs. by rw Forall2_fmap_l.
Qed.

Lemma mapR_enumerate {A B} (f : nat * A -> result B) (R : A -> B -> Prop) values bs :
  (forall p b, f p = Ok b <-> R p.2 b) ->
  mapR f (enumerate values) = Ok bs <-> Forall2 R values bs.
Proof.
  intros Hf. rw mapR_ok -(enumerate_Forall2 R).
  split; intros H; (eapply Forall2_impl; [exact H|]); intros p b; apply Hf.
Qed.

(** ** Base slots *)
Record BaseItem := {
  base_slot : StableSlot.t; base_reporter : pystr; base_nkey : pystr;
  base_authority : _RecoveryAuthority }.

Definition base_item (v : json) (b : BaseItem) : Prop :=
  exists item, v = JObj item /\ slot_item item b.(base_slot) /\
    text_field item "readyReporterPrincipal" b.(base_reporter) /\
    text_field item "probeNkeySelector" b.(base_nkey) /\ authority_item item b.(base_authority).

(** the identities the item claims *)
Definition base_names (b : BaseItem) : list pystr :=
  [b.(base_slot).(StableSlot.component_principal); b.(base_reporter); b.(base_nkey)].

Lemma base_item_fun v b b' : base_item v b -> base_item v b' -> b = b'.
Proof.
  intros (item & -> & Hslot & Hrep & Hnk & Hau) (item' & [= <-] & Hslot' & Hrep' & Hnk' & Hau').
  pose proof (slot_item_fun _ _ _ Hslot Hslot') as E1.
  pose proof (authority_item_fun _ _ _ Hau Hau') as E2.
  destruct b, b'. unfold text_field in *. cbn in *. naive_solver congruence.
Qed.

Lemma base_sound slots c0 p slots' c :
  read_base_slot (slots, c0) p = Ok (slots', c) ->
  exists b, base_item p.2 b /\ slots' = slots ++ [b.(base_slot)] /\
    extends c0 (base_names b) [(b.(base_slot), b.(base_authority))] c.
Proof.
  destruct p as [i v], c0 as [o a]. cbn. intros (item & Hitem%mapping_ok & Hr)%bind_ok.
  injection Hitem as ->.
  apply bind_ok in Hr as (slot & Hslot%slot_ok & Hr).
  apply bind_ok in Hr as (reporter & Hrep%text_ok & Hr).
  apply bind_ok in Hr as (nkey & Hnk%text_ok & Hr).
  apply bind_ok in Hr as (authority & Hau%authority_ok & Hr).
  apply bind_ok in Hr as (o1 & [H1 ->]%claim_ok & Hr).
  apply bind_ok in Hr as (o2 & [H2 ->]%claim_ok & Hr).
  apply bind_ok in Hr as (o3 & [H3 ->]%claim_ok & [= <- <-]).
  exists {| base_slot := slot; base_reporter := reporter; base_nkey := nkey; base_authority := authority |}.
  split; [by exists item|]. split; [done|].
  refine (extends_app _ _ _ [_] [_; _] [] _ (extends_claim _ _ _ _ H1) _).
  refine (extends_app _ _ _ [_] [_] [] _ (extends_claim _ _ _ _ H2) _).
  exact (extends_app _ _ _ [_] [] [] _ (extends_claim _ _ _ _ H3) (extends_authority _ _ _ _)).
Qed.

Lemma base_complete slots c0 p b :
  base_item p.2 b -> NoDup (base_names b) ->
  (forall v, v ∈ base_names b -> c0.(identity_owners) !! v = None) ->
  exists c, read_base_slot (slots, c0) p = Ok (slots ++ [b.(base_slot)], c) /\
    extends c0 (base_names b) [(b.(base_slot), b.(base_authority))] c.
Proof.
  destruct p as [i v]. cbn. intros (item & -> & Hslot & Hrep & Hnk & Hau) Hnd Hf.
  assert (exists r, read_base_slot (slots, c0) (i, JObj item) = Ok r) as [[slots' c] Hr].
  { cbn. rw (proj2 (mapping_ok (Some (JObj item)) _ item) eq_refl) /=
      (proj2 (slot_ok _ _ _) Hslot) /= (proj2 (text_ok _ _ _) Hrep) /=
      (proj2 (text_ok _ _ _) Hnk) /= (proj2 (authority_ok _ _ _) Hau) /=.
    unfold base_names in Hnd, Hf. rw !NoDup_cons in Hnd.
    destruct Hnd as (Hn1 & Hn2 & _). rw !not_elem_of_cons in Hn1, Hn2.
    unfold _claim_unique_identity.
    rw (Hf b.(base_slot).(StableSlot.component_principal)); [|set_solver]. cbn.
    rw lookup_insert_ne; [|naive_solver]. rw (Hf b.(base_reporter)); [|set_solver]. cbn.
    rw !lookup_insert_ne; [|naive_solver|naive_solver]. rw (Hf b.(base_nkey)); [|set_solver]. cbn.
    eauto. }
  cbn in Hr. exists c.
  destruct (base_sound slots c0 (i, JObj item) _ _ Hr) as (b' & Hb' & -> & He).
  assert (b' = b) as ->; [|done].
  eapply base_item_fun; [exact Hb'|]. by exists item.
Qed.

(** ** Components *)
Lemma set_size_ok {A} `{Countable A} (l : list A) msg :
  raise_if (size (list_to_set l : gset A) != length l) (required msg) = Ok tt <-> NoDup l.
Proof. rw raise_if_ok neqb_false -unique_size. split; intros; by symmetry. Qed.

Definition profile_item (v : json) (name : pystr) : Prop :=
  v = JStr name /\ name ∈ _DELIVERY_PROFILE_SET.

Definition profiles_item (item : dict) (names : list pystr) : Prop :=
  exists vs, get item "requiredForProfiles" = Some (JArr vs) /\ Forall2 profile_item vs names /\ NoDup names.

Lemma profiles_ok item label names : read_profiles item label = Ok names <-> profiles_item item names.
Proof.
  unfold read_profiles, profiles_item. rw bind_ok. setoid_rewrite sequence_ok.
  setoid_rewrite bind_ok. setoid_rewrite bind_ok_unit. setoid_rewrite set_size_ok.
  assert (forall vs ns, mapR (fun p : nat * json => _validate_profile_name p.2
    (index_label (label <+> ".requiredForProfiles") p.1 "")) (enumerate vs) = Ok ns <->
    Forall2 profile_item vs ns) as Hmap
    by (intros vs ns; apply mapR_enumerate; intros p n; apply profile_ok).
  setoid_rewrite Hmap. naive_solver.
Qed.

Lemma profiles_item_fun item names names' :
  profiles_item item names -> profiles_item item names' -> names = names'.
Proof.
  intros (vs & Hg & Hvs & _) (vs' & Hg' & Hvs' & _). rw Hg in Hg'. injection Hg' as <-.
  clear Hg. revert names' Hvs'. induction Hvs as [|v n vs ns Hv Hvs IH]; intros ns' Hvs'.
  - by apply Forall2_nil_inv_l in Hvs' as ->.
  - apply Forall2_cons_inv_l in Hvs' as (n' & ns'' & [Hn' _] & Hvs' & ->).
    destruct Hv as [Hn _]. rw Hn in Hn'. injection Hn' as <-. f_equal. by apply IH.
Qed.

Record CompItem := {
  comp_slot : StableSlot.t; comp_nkey : pystr; comp_authority : _RecoveryAuthority;
  comp_profiles : list pystr }.

Definition comp_item (v : json) (c : CompItem) : Prop :=
  exists item, v = JObj item /\ slot_item item c.(comp_slot) /\
    c.(comp_slot).(StableSlot.component_type) <> merge_broker /\
    text_field item "nkeySelector" c.(comp_nkey) /\ authority_item item c.(comp_authority) /\
    profiles_item item c.(comp_profiles).

Definition comp_names (c : CompItem) : list pystr :=
  [c.(comp_slot).(StableSlot.component_principal); c.(comp_nkey)].

Definition comp_add (profile : pystr) (x : list StableSlot.t * list StableSlot.t) (c : CompItem)
    : list StableSlot.t * list StableSlot.t :=
  (x.1 ++ [c.(comp_slot)],
   if bool_decide (profile ∈ c.(comp_profiles)) then x.2 ++ [c.(comp_slot)] else x.2).

Lemma comp_item_fun v c c' : comp_item v c -> comp_item v c' -> c = c'.
Proof.
  intros (item & -> & Hslot & _ & Hnk & Hau & Hpr) (item' & [= <-] & Hslot' & _ & Hnk' & Hau' & Hpr').
  pose proof (slot_item_fun _ _ _ Hslot Hslot') as E1.
  pose proof (authority_item_fun _ _ _ Hau Hau') as E2.
  pose proof (profiles_item_fun _ _ _ Hpr Hpr') as E3.
  destruct c, c'. unfold text_field in *. cbn in *. naive_solver congruence.
Qed.

Lemma comp_sound profile x c0 p x' c :
  read_component_slot profile (x, c0) p = Ok (x', c) ->
  exists b, comp_item p.2 b /\ x' = comp_add profile x b /\
    extends c0 (comp_names b) [(b.(comp_slot), b.(comp_authority))] c.
Proof.
  destruct p as [i v], c0 as [o a], x as [all prof]. cbn. intros (item & Hitem%mapping_ok & Hr)%bind_ok.
  injection Hitem as ->.
  apply bind_ok in Hr as (slot & Hslot%slot_ok & Hr).
  apply bind_ok_unit in Hr as (Hm%raise_if_ok%bool_decide_eq_false & Hr).
  apply bind_ok in Hr as (nkey & Hnk%text_ok & Hr).
  apply bind_ok in Hr as (o1 & [H1 ->]%claim_ok & Hr).
  apply bind_ok in Hr as (o2 & [H2 ->]%claim_ok & Hr).
  apply bind_ok in Hr as (authority & Hau%authority_ok & Hr).
  apply bind_ok in Hr as (profiles & Hpr%profiles_ok & [= <- <-]).
  exists {| comp_slot := slot; comp_nkey := nkey; comp_authority := authority; comp_profiles := profiles |}.
  split; [by exists item|]. split; [done|].
  refine (extends_app _ _ _ [_] [_] [] _ (extends_claim _ _ _ _ H1) _).
  exact (extends_app _ _ _ [_] [] [] _ (extends_claim _ _ _ _ H2) (extends_authority _ _ _ _)).
Qed.

Lemma comp_complete profile x c0 p b :
  comp_item p.2 b -> NoDup (comp_names b) ->
  (forall v, v ∈ comp_names b -> c0.(identity_owners) !! v = None) ->
  exists c, read_component_slot profile (x, c0) p = Ok (comp_add profile x b, c) /\
    extends c0 (comp_names b) [(b.(comp_slot), b.(comp_authority))] c.
Proof.
  destruct p as [i v], x as [all prof]. cbn [snd]. intros (item & -> & Hslot & Hm & Hnk & Hau & Hpr) Hnd Hf.
  assert (exists r, read_component_slot profile (all, prof, c0) (i, JObj item) = Ok r) as [[x' c] Hr].
  { cbn. rw (proj2 (mapping_ok (Some (JObj item)) _ item) eq_refl) /=
      (proj2 (slot_ok _ _ _) Hslot) /=. rw (bool_decide_false _ Hm) /= (proj2 (text_ok _ _ _) Hnk) /=.
    unfold comp_names in Hnd, Hf. rw !NoDup_cons in Hnd.
    destruct Hnd as (Hn1 & _). rw !not_elem_of_cons in Hn1.
    unfold _claim_unique_identity.
    rw (Hf b.(comp_slot).(StableSlot.component_principal)); [|set_solver]. cbn.
    rw lookup_insert_ne; [|naive_solver]. rw (Hf b.(comp_nkey)); [|set_solver]. cbn.
    rw (proj2 (authority_ok _ _ _) Hau) /= (proj2 (profiles_ok _ _ _) Hpr) /=. eauto. }
  exists c. destruct (comp_sound profile (all, prof) c0 (i, JObj item) _ _ Hr) as (b' & Hb' & -> & He).
  assert (b' = b) as ->; [|done].
  eapply comp_item_fun; [exact Hb'|]. by exists item.
Qed.
