(* ===== verification/ConfigReading.v ===== *)
(** * Required slots as a set

    The explicit slots, the removal of duplicates and the sort of
    [ConfigSlots.v], and what [_compute_required_slots] reads as one relation
    in which no order matters. *)
From S2P Require Import Prelude PyStr ListFacts JsonFacts Json Contract ContractFacts ConfigSlots PlanFacts ConfigFacts.
Local Open Scope py_scope.

(** ** Explicit slots *)
Definition explicit_item (v : json) (slot : StableSlot.t) : Prop :=
  exists item, v = JObj item /\ dict_keys item = slot_fields /\ slot_item item slot.

Lemma explicit_step_ok known acc p acc' :
  read_explicit_slot known acc p = Ok acc' <->
  exists slot, explicit_item p.2 slot /\ slot.(StableSlot.component_type) <> merge_broker /\
    slot ∈ known /\ slot ∉ acc /\ acc' = acc ++ [slot].
Proof.
  destruct p as [i v]. unfold read_explicit_slot, explicit_item. split.
  - intros (item & Hitem%mapping_ok & Hr)%bind_ok. injection Hitem as ->.
    apply bind_ok_unit in Hr as (Hf%raise_if_ok%neqb_false & Hr).
    apply bind_ok in Hr as (slot & Hslot%slot_ok & Hr).
    apply bind_ok_unit in Hr as (Hm%raise_if_ok%bool_decide_eq_false & Hr).
    apply bind_ok_unit in Hr as (Hk%raise_if_ok%negb_false_iff%bool_decide_eq_true & Hr).
    apply bind_ok_unit in Hr as (Hn%raise_if_ok%bool_decide_eq_false & [= <-]).
    exists slot. split; [by exists item|]. done.
  - cbn [snd]. intros (slot & (item & -> & Hf & Hslot) & Hm & Hk & Hn & ->).
    apply bind_ok. exists item. split; [by apply mapping_ok|].
    apply bind_ok_unit. split; [by apply raise_if_ok, neqb_false|].
    apply bind_ok. exists slot. split; [by apply slot_ok|].
    apply bind_ok_unit. split; [by apply raise_if_ok, bool_decide_eq_false|].
    apply bind_ok_unit. split; [by apply raise_if_ok, negb_false_iff, bool_decide_eq_true|].
    apply bind_ok_unit. split; [by apply raise_if_ok, bool_decide_eq_false | done].
Qed.

Lemma explicit_ok known ps acc acc' :
  foldM (read_explicit_slot known) acc ps = Ok acc' <->
  exists slots, Forall2 (fun p s => explicit_item p.2 s) ps slots /\
    Forall (fun s => s.(StableSlot.component_type) <> merge_broker /\ s ∈ known /\ s ∉ acc) slots /\
    NoDup slots /\ acc' = acc ++ slots.
Proof.
  revert acc. induction ps as [|p ps IH]; intros acc; cbn.
  { split.
    - intros [= <-]. exists []. rw app_nil_r. by repeat split; constructor.
    - intros (slots & Hs & _ & _ & ->). apply Forall2_nil_inv_l in Hs as ->. by rw app_nil_r. }
  rw bind_ok. setoid_rewrite explicit_step_ok. setoid_rewrite IH. split.
  - intros (a & (s & Hs & Hm & Hk & Hn & ->) & slots & Hps & Hall & Hnd & ->).
    exists (s :: slots). split; [by constructor|]. split; [|split].
    + apply Forall_cons. split; [done|]. eapply Forall_impl; [exact Hall|].
      intros x (? & ? & Hx). rw not_elem_of_app in Hx. tauto.
    + apply NoDup_cons. split; [|done]. intros Hin.
      destruct (proj1 (Forall_forall _ _) Hall _ Hin) as (_ & _ & Hx). apply Hx, elem_of_app.
      right. by apply list_elem_of_singleton.
    + by rw -app_assoc.
  - intros (slots' & Hps & Hall & Hnd & ->). apply Forall2_cons_inv_l in Hps as (s & slots & Hs & Hps & ->).
    apply Forall_cons in Hall as [(? & ? & ?) Hall]. apply NoDup_cons in Hnd as [Hx Hnd].
    exists (acc ++ [s]). split; [by exists s|]. exists slots. split; [done|]. split; [|split; [done|]].
    + apply Forall_forall. intros x Hin. destruct (proj1 (Forall_forall _ _) Hall _ Hin) as (? & ? & ?).
      split; [done|]. split; [done|]. rw not_elem_of_app. split; [done|].
      intros ->%list_elem_of_singleton. done.
    + by rw -app_assoc.
Qed.

(** ** [_unique_slots] *)
Lemma unique_slots_spec (slots : list StableSlot.t) :
  NoDup (_unique_slots slots) /\ forall s, s ∈ _unique_slots slots <-> s ∈ slots.
Proof.
  unfold _unique_slots.
  enough (forall acc, NoDup acc ->
    NoDup (fold_left (fun unique slot => if bool_decide (slot ∈ unique) then unique
      else unique ++ [slot]) slots acc) /\
    forall s, s ∈ fold_left (fun unique slot => if bool_decide (slot ∈ unique) then unique
      else unique ++ [slot]) slots acc <-> s ∈ acc \/ s ∈ slots) as H.
  { destruct (H [] (NoDup_nil_2)) as [Hn Hs]. split; [done|]. intros s. rw Hs elem_of_nil. tauto. }
  induction slots as [|x slots IH]; intros acc Hacc; cbn.
  { split; [done|]. intros s. rw elem_of_nil. tauto. }
  case_bool_decide as Hx.
  - destruct (IH acc Hacc) as [Hn Hs]. split; [done|]. intros s. rw Hs elem_of_cons. naive_solver.
  - destruct (IH (acc ++ [x])) as [Hn Hs].
    { apply NoDup_app. split; [done|]. split; [|apply NoDup_singleton].
      by intros y Hy ->%list_elem_of_singleton. }
    split; [done|]. intros s. rw Hs elem_of_app list_elem_of_singleton elem_of_cons. tauto.
Qed.

(** ** [_sort_slots] *)
Definition stable_slot (s : StableSlot.t) : Prop :=
  stable_text s.(StableSlot.component_type) /\ stable_text s.(StableSlot.component_principal) /\
  stable_text s.(StableSlot.node_id).

(** the order of the keys, strictly *)
Definition slot_lt (a b : StableSlot.t) : Prop :=
  exists ka kb, StableSlot.sort_key a = Ok ka /\ StableSlot.sort_key b = Ok kb /\
    key_leb ka kb = true /\ ka <> kb.

Lemma sort_key_ok s : stable_slot s -> exists k, StableSlot.sort_key s = Ok k.
Proof.
  intros (Ht & Hp & Hn). unfold StableSlot.sort_key.
  destruct (stable_text_encode _ Ht) as (t & -> & _). cbn.
  destruct (stable_text_encode _ Hp) as (p & -> & _). cbn.
  destruct (stable_text_encode _ Hn) as (n & -> & _). cbn. eauto.
Qed.

Lemma sort_key_inj a b k : StableSlot.sort_key a = Ok k -> StableSlot.sort_key b = Ok k -> a = b.
Proof.
  unfold StableSlot.sort_key. intros (t & Ht & Ha)%bind_ok (t' & Ht' & Hb)%bind_ok.
  apply bind_ok in Ha as (p & Hp & Ha). apply bind_ok in Ha as (n & Hn & [= <-]).
  apply bind_ok in Hb as (p' & Hp' & Hb). apply bind_ok in Hb as (n' & Hn' & [= <- <- <-]).
  pose proof (encode_utf8_inj _ _ _ Ht Ht'). pose proof (encode_utf8_inj _ _ _ Hp Hp').
  pose proof (encode_utf8_inj _ _ _ Hn Hn'). destruct a, b. cbn in *. congruence.
Qed.

Lemma key_leb_total p q : key_leb p q = false -> key_leb q p = true.
Proof.
  unfold key_leb. destruct p as [[a b] c], q as [[a' b'] c']. cbn.
  repeat case_bool_decide; subst; try done; apply bytes_leb_total.
Qed.

Lemma bytes_leb_ne_trans a b c :
  bytes_leb a b = true -> bytes_leb b c = true -> a <> b -> a <> c.
Proof. intros Hab Hbc Hne ->. apply Hne. by apply bytes_leb_antisym. Qed.

Lemma key_leb_trans p q r : key_leb p q = true -> key_leb q r = true -> key_leb p r = true.
Proof.
  unfold key_leb. destruct p as [[a b] c], q as [[a' b'] c'], r as [[a'' b''] c'']. cbn.
  repeat case_bool_decide; subst; try done; try apply bytes_leb_trans.
  all: intros Hpq Hqr.
  all: try (by destruct (bytes_leb_ne_trans _ _ _ Hpq Hqr)).
Qed.

Lemma slot_key_leb_antisym p q : key_leb p q = true -> key_leb q p = true -> p = q.
Proof.
  unfold key_leb. destruct p as [[a b] c], q as [[a' b'] c']. cbn.
  repeat case_bool_decide; subst; try done; intros Hpq Hqp;
    pose proof (bytes_leb_antisym _ _ Hpq Hqp); congruence.
Qed.

Abbreviation keyed := (pybytes * pybytes * pybytes * StableSlot.t)%type.
Definition keyed_le (p q : keyed) : Prop := key_leb p.1 q.1 = true.

Lemma insert_slot_perm p l : insert_slot p l ≡ₚ p :: l.
Proof.
  induction l as [|q l IH]; cbn; [done|]. destruct (key_leb p.1 q.1); [done|]. rw IH. constructor.
Qed.

Lemma insert_slot_sorted p l : StronglySorted keyed_le l -> StronglySorted keyed_le (insert_slot p l).
Proof.
  induction 1 as [|q l Hl IH Hq]; cbn; [by repeat constructor|].
  destruct (key_leb p.1 q.1) eqn:E.
  - constructor; [by constructor|]. apply Forall_cons. split; [done|].
    eapply Forall_impl; [exact Hq|]. intros r Hr. eapply key_leb_trans; [exact E | exact Hr].
  - constructor; [done|]. rw insert_slot_perm. apply Forall_cons. split; [by apply key_leb_total | done].
Qed.

Lemma insertion_sort (l : list keyed) :
  StronglySorted keyed_le (foldr insert_slot [] l) /\ foldr insert_slot [] l ≡ₚ l.
Proof.
  induction l as [|p l [Hs Hp]]; cbn; [by split; constructor|].
  split; [by apply insert_slot_sorted|]. by rw insert_slot_perm Hp.
Qed.

Definition keyed_slot (s : StableSlot.t) : result keyed :=
  k ← StableSlot.sort_key s; Ok (k, s).

Lemma keyed_slot_ok s p : keyed_slot s = Ok p <-> StableSlot.sort_key s = Ok p.1 /\ p.2 = s.
Proof. unfold keyed_slot. rw bind_ok. destruct p. naive_solver. Qed.

Lemma sort_slots_ok slots :
  Forall stable_slot slots -> NoDup slots ->
  exists sorted, _sort_slots slots = Ok sorted /\ sorted ≡ₚ slots /\ StronglySorted slot_lt sorted.
Proof.
  intros Hst Hnd. unfold _sort_slots.
  assert (exists ks, mapR keyed_slot slots = Ok ks) as [ks Hks].
  { clear Hnd. induction Hst as [|s slots Hs _ [ks IH]]; cbn; [eauto|].
    destruct (sort_key_ok s Hs) as [k Hk]. exists ((k, s) :: ks).
    assert (keyed_slot s = Ok (k, s)) as -> by by apply keyed_slot_ok. cbn. by rw IH. }
  change (mapR _ slots) with (mapR keyed_slot slots). rw Hks. cbn.
  apply mapR_ok in Hks.
  assert (map snd ks = slots /\ Forall (fun p : keyed => StableSlot.sort_key p.2 = Ok p.1) ks) as [Hsnd Hkeys].
  { clear Hst Hnd. induction Hks as [|s p slots ks [Hp1 Hp2]%keyed_slot_ok _ [IH1 IH2]]; cbn.
    { by split; constructor. }
    split; [by rw IH1 Hp2|]. apply Forall_cons. by rw Hp2. }
  destruct (insertion_sort ks) as [Hs Hp].
  eexists. split; [done|]. split; [rw -Hsnd; by rw Hp|].
  assert (NoDup (map snd (foldr insert_slot [] ks))) as Hnd' by (rw Hp Hsnd; done).
  rw -Hp in Hkeys. clear -Hs Hkeys Hnd'. induction Hs as [|p l Hl IH Hpl]; cbn; [constructor|].
  cbn in Hnd'. apply NoDup_cons in Hnd' as [Hn Hnd']. apply Forall_cons in Hkeys as [Hk Hkeys].
  constructor; [by apply IH|]. apply Forall_forall. intros s (q & -> & Hq)%list_elem_of_fmap.
  pose proof (proj1 (Forall_forall _ _) Hkeys q Hq) as Hkq.
  exists p.1, q.1. split; [done|]. split; [done|].
  split; [exact (proj1 (Forall_forall _ _) Hpl q Hq)|]. intros Heq. apply Hn.
  apply list_elem_of_fmap. exists q. split; [|done].
  eapply sort_key_inj; [exact Hk|]. by rw Heq.
Qed.

(** a strictly sorted list is determined by its elements *)
Lemma sorted_unique l l' :
  StronglySorted slot_lt l -> StronglySorted slot_lt l' -> (forall s, s ∈ l <-> s ∈ l') -> l = l'.
Proof.
  intros Hl Hl' Heq.
  assert (forall k, StronglySorted slot_lt k -> NoDup k) as Hnd.
  { induction 1 as [|s k _ IH Hs]; [constructor|]. apply NoDup_cons. split; [|done]. intros Hin.
    destruct (proj1 (Forall_forall _ _) Hs s Hin) as (ka & kb & Ha & Hb & _ & Hne). congruence. }
  eapply StronglySorted_unique_strong; [|exact Hl | exact Hl' |].
  - intros a b _ _ (ka & kb & Ha & Hb & Hle & Hne) (kb' & ka' & Hb' & Ha' & Hle' & _).
    assert (kb' = kb) as -> by congruence. assert (ka' = ka) as -> by congruence.
    destruct Hne. by apply slot_key_leb_antisym.
  - apply NoDup_Permutation; auto.
Qed.

(** ** Everything that is read *)
Record Reading := {
  reading_base : list BaseItem; reading_comps : list CompItem; reading_extra : list StableSlot.t }.

Definition known_slots (r : Reading) : list StableSlot.t :=
  map base_slot r.(reading_base) ++ map comp_slot r.(reading_comps).

(** every identity claimed by a base slot or a component *)
Definition identities (r : Reading) : list pystr :=
  flat_map base_names r.(reading_base) ++ flat_map comp_names r.(reading_comps).

Definition proofs (r : Reading) : list (StableSlot.t * _RecoveryAuthority) :=
  map (fun b => (b.(base_slot), b.(base_authority))) r.(reading_base) ++
  map (fun c => (c.(comp_slot), c.(comp_authority))) r.(reading_comps).

(** the explicit list, empty when the profile does not have one *)
Definition explicit_values (delivery_profile : dict) : option (list json) :=
  match get delivery_profile "explicitlyRequiredOperationalSlots" with
  | None => Some []
  | Some (JArr vs) => Some vs
  | Some _ => None
  end.

(** The bundle and the descriptor hold the items of [r], and the items fit together. *)
Record reads (bundle descriptor : dict) (r : Reading) : Prop := {
  reads_base : exists vs, get descriptor "fixedBaseSlots" = Some (JArr vs) /\
    Forall2 base_item vs r.(reading_base);
  reads_comps : exists vs, get bundle "components" = Some (JArr vs) /\
    Forall2 comp_item vs r.(reading_comps);
  reads_extra : exists dp vs, get bundle "deliveryProfile" = Some (JObj dp) /\
    explicit_values dp = Some vs /\ Forall2 explicit_item vs r.(reading_extra);
  reads_types : forall t, t ∈ map (fun b => b.(base_slot).(StableSlot.component_type)) r.(reading_base)
    <-> t ∈ BASE_REQUIRED_SLOT_TYPES;
  reads_identities : NoDup (identities r);
  reads_known : Forall (fun s => s ∈ known_slots r) r.(reading_extra);
  reads_once : NoDup r.(reading_extra) }.

(** what the profile needs *)
Definition needed (profile : pystr) (r : Reading) (s : StableSlot.t) : Prop :=
  s ∈ map base_slot r.(reading_base) \/
  (exists c, c ∈ r.(reading_comps) /\ profile ∈ c.(comp_profiles) /\ c.(comp_slot) = s) \/
  s ∈ r.(reading_extra).

(** ** [_compute_required_slots] *)
Lemma base_fold bs acc :
  fold_left (fun x b => x ++ [b.(base_slot)]) bs acc = acc ++ map base_slot bs.
Proof.
  revert acc. induction bs as [|b bs IH]; intros acc; cbn; [by rw app_nil_r|]. by rw IH -app_assoc.
Qed.

Definition profile_slots (profile : pystr) (cs : list CompItem) : list StableSlot.t :=
  map comp_slot (List.filter (fun c => bool_decide (profile ∈ c.(comp_profiles))) cs).

Lemma comp_fold profile cs x :
  fold_left (comp_add profile) cs x = (x.1 ++ map comp_slot cs, x.2 ++ profile_slots profile cs).
Proof.
  unfold profile_slots. revert x. induction cs as [|c cs IH]; intros x; cbn; [by rw !app_nil_r; destruct x|].
  rw IH. cbn. case_bool_decide; cbn; by rw -!app_assoc.
Qed.

Lemma difference_empty (l l' : list pystr) :
  (list_to_set l : gset pystr) ∖ list_to_set l' = ∅ <-> forall t, t ∈ l -> t ∈ l'.
Proof.
  split.
  - intros He t Ht. apply dec_stable. intros Hn.
    apply (not_elem_of_empty (C := gset pystr) t). rw -He elem_of_difference !elem_of_list_to_set. done.
  - intros Hsub. apply set_eq. intros t. rw elem_of_difference !elem_of_list_to_set elem_of_empty.
    naive_solver.
Qed.

Lemma read_base_ok descriptor slots claims :
  _read_base_slots descriptor = Ok (slots, claims) ->
  exists vs bs, get descriptor "fixedBaseSlots" = Some (JArr vs) /\ Forall2 base_item vs bs /\
    slots = map base_slot bs /\
    (forall t, t ∈ map (fun b => b.(base_slot).(StableSlot.component_type)) bs
      <-> t ∈ BASE_REQUIRED_SLOT_TYPES) /\
    extends {| identity_owners := ∅; authorities := ∅ |} (flat_map base_names bs)
      (map (fun b => (b.(base_slot), b.(base_authority))) bs) claims.
Proof.
  unfold _read_base_slots. intros (vs & Hvs%sequence_ok & Hr)%bind_ok.
  apply bind_ok in Hr as ([slots' claims'] & Hloop & Hr).
  apply bind_ok_unit in Hr as (H1%raise_if_ok%neqb_false & Hr).
  apply bind_ok_unit in Hr as (H2%raise_if_ok%neqb_false & [= <- <-]).
  destruct (loop_sound read_base_slot base_item base_names (fun b => (b.(base_slot), b.(base_authority)))
    (fun x b => x ++ [b.(base_slot)]) base_sound _ _ _ _ _ Hloop) as (bs & Hbs & -> & He).
  rw base_fold in H1, H2 |- *. cbn [app] in H1, H2 |- *.
  exists vs, bs. split; [done|]. split; [by apply enumerate_Forall2|]. split; [done|]. split; [|done].
  intros t. unfold component_types, _REQUIRED_SLOT_TYPE_SET in H1, H2. rw map_map in H1, H2.
  split; [exact (proj1 (difference_empty _ _) H2 t) | exact (proj1 (difference_empty _ _) H1 t)].
Qed.

Lemma read_base_complete descriptor vs bs :
  get descriptor "fixedBaseSlots" = Some (JArr vs) -> Forall2 base_item vs bs ->
  (forall t, t ∈ map (fun b => b.(base_slot).(StableSlot.component_type)) bs
    <-> t ∈ BASE_REQUIRED_SLOT_TYPES) ->
  NoDup (flat_map base_names bs) ->
  exists claims, _read_base_slots descriptor = Ok (map base_slot bs, claims) /\
    forall v, v ∉ flat_map base_names bs -> claims.(identity_owners) !! v = None.
Proof.
  intros Hvs Hbs Ht Hnd. unfold _read_base_slots.
  destruct (loop_complete read_base_slot base_item base_names (fun b => (b.(base_slot), b.(base_authority)))
    (fun x b => x ++ [b.(base_slot)]) base_complete (enumerate vs) []
    {| identity_owners := ∅; authorities := ∅ |} bs) as (claims & Hc & He).
  { by apply enumerate_Forall2. } { done. } { intros v _. apply lookup_empty. }
  exists claims. split; [|intros v Hv; eapply extends_fresh; [exact He | done | apply lookup_empty]].
  apply bind_ok. exists vs. split; [by apply sequence_ok|].
  apply bind_ok. exists (map base_slot bs, claims). split; [by rw Hc base_fold|].
  unfold component_types, _REQUIRED_SLOT_TYPE_SET. rw map_map.
  apply bind_ok_unit. split; [by apply raise_if_ok, neqb_false, difference_empty, Ht|].
  apply bind_ok_unit. split; [by apply raise_if_ok, neqb_false, difference_empty, Ht | done].
Qed.

Lemma read_comps_ok bundle profile c0 all prof claims :
  _read_component_slots bundle profile c0 = Ok (all, prof, claims) ->
  exists vs cs, get bundle "components" = Some (JArr vs) /\ Forall2 comp_item vs cs /\
    all = map comp_slot cs /\ prof = profile_slots profile cs /\
    extends c0 (flat_map comp_names cs) (map (fun c => (c.(comp_slot), c.(comp_authority))) cs) claims.
Proof.
  unfold _read_component_slots. intros (vs & Hvs%sequence_ok & Hloop)%bind_ok.
  destruct (loop_sound _ comp_item comp_names (fun b => (b.(comp_slot), b.(comp_authority)))
    (comp_add profile) (comp_sound profile) _ _ _ _ _ Hloop) as (cs & Hcs & Hx & He).
  rw comp_fold in Hx. cbn [fst snd app] in Hx. injection Hx as -> ->.
  exists vs, cs. split; [done|]. split; [by apply enumerate_Forall2|]. done.
Qed.

Lemma read_comps_complete bundle profile c0 vs cs :
  get bundle "components" = Some (JArr vs) -> Forall2 comp_item vs cs ->
  NoDup (flat_map comp_names cs) ->
  (forall v, v ∈ flat_map comp_names cs -> c0.(identity_owners) !! v = None) ->
  exists claims, _read_component_slots bundle profile c0 =
    Ok (map comp_slot cs, profile_slots profile cs, claims).
Proof.
  intros Hvs Hcs Hnd Hf. unfold _read_component_slots. rw (proj2 (sequence_ok _ _ _) Hvs). cbn.
  destruct (loop_complete _ comp_item comp_names (fun b => (b.(comp_slot), b.(comp_authority)))
    (comp_add profile) (comp_complete profile) (enumerate vs) ([], []) c0 cs) as (claims & -> & _);
    [by apply enumerate_Forall2 | done | done |].
  exists claims. by rw comp_fold.
Qed.

Lemma read_explicit_ok dp known slots :
  _read_explicit_slots (default (JArr []) (get dp "explicitlyRequiredOperationalSlots")) known = Ok slots <->
  exists vs, explicit_values dp = Some vs /\ Forall2 explicit_item vs slots /\
    Forall (fun s => s.(StableSlot.component_type) <> merge_broker /\ s ∈ known) slots /\ NoDup slots.
Proof.
  unfold _read_explicit_slots. rw bind_ok. setoid_rewrite sequence_ok. setoid_rewrite explicit_ok.
  assert (forall vs, Some (default (JArr []) (get dp "explicitlyRequiredOperationalSlots")) =
    Some (JArr vs) <-> explicit_values dp = Some vs) as Hvs.
  { intros vs. unfold explicit_values. destruct (get dp _) as [[]|]; cbn; naive_solver. }
  setoid_rewrite Hvs. setoid_rewrite (enumerate_Forall2 explicit_item). split.
  - intros (vs & Hv & sl & Hs & Hall & Hnd & ->). exists vs. split; [done|]. split; [done|].
    split; [|done]. eapply Forall_impl; [exact Hall|]. intros s (Hm & Hk & _).
    split; [done|]. by apply elem_of_list_to_set in Hk.
  - intros (vs & Hv & Hs & Hall & Hnd). exists vs. split; [done|]. exists slots. split; [done|].
    split; [|done]. eapply Forall_impl; [exact Hall|]. intros s [Hm Hk].
    split; [done|]. split; [by apply elem_of_list_to_set | apply not_elem_of_nil].
Qed.

(** *** The items of a reading *)
Lemma identities_slots r : NoDup (identities r) -> NoDup (known_slots r).
Proof.
  intros Hnd. apply (NoDup_fmap_1 StableSlot.component_principal).
  eapply sublist_NoDup; [exact Hnd|]. unfold known_slots, identities. rw fmap_app.
  apply sublist_app.
  - induction r.(reading_base) as [|b bs IH]; cbn; [constructor|].
    apply sublist_skip. by do 2 apply sublist_cons.
  - induction r.(reading_comps) as [|c cs IH]; cbn; [constructor|].
    apply sublist_skip. by apply sublist_cons.
Qed.

Lemma profile_slots_elem profile cs s :
  s ∈ profile_slots profile cs <->
  exists c, c ∈ cs /\ profile ∈ c.(comp_profiles) /\ c.(comp_slot) = s.
Proof.
  unfold profile_slots. rw list_elem_of_fmap. split.
  - intros (c & -> & [Hc Hp%bool_decide_eq_true]%filter_In). by exists c.
  - intros (c & Hc & Hp & <-). exists c. split; [done|]. apply filter_In.
    split; [done | by apply bool_decide_eq_true].
Qed.

Lemma base_item_stable v b : base_item v b -> stable_slot b.(base_slot).
Proof. intros (item & _ & Hs%slot_item_stable & _). exact Hs. Qed.

Lemma comp_item_stable v c : comp_item v c -> stable_slot c.(comp_slot).
Proof. intros (item & _ & Hs%slot_item_stable & _). exact Hs. Qed.

Lemma explicit_item_stable v s : explicit_item v s -> stable_slot s.
Proof. intros (item & _ & _ & Hs%slot_item_stable). exact Hs. Qed.

Lemma Forall2_right {A B} (R : A -> B -> Prop) (P : B -> Prop) l k :
  (forall a b, R a b -> P b) -> Forall2 R l k -> Forall P k.
Proof. intros HR. induction 1; constructor; eauto. Qed.

Section Reads.
Context (bundle descriptor : dict) (r : Reading) (Hr : reads bundle descriptor r).

Lemma reads_stable : Forall stable_slot (known_slots r) /\ Forall stable_slot r.(reading_extra).
Proof.
  destruct (reads_base _ _ _ Hr) as (vb & _ & Hb). destruct (reads_comps _ _ _ Hr) as (vc & _ & Hc).
  destruct (reads_extra _ _ _ Hr) as (dp & ve & _ & _ & He). split.
  - apply Forall_app. split; apply Forall_fmap; eapply Forall2_right; [|exact Hb| |exact Hc].
    + intros a b. apply base_item_stable.
    + intros a b. apply comp_item_stable.
  - eapply Forall2_right; [|exact He]. intros a b. apply explicit_item_stable.
Qed.

(** a known slot is not the merge broker, whose type nothing may take *)
Lemma reads_no_merge s : s ∈ known_slots r -> s.(StableSlot.component_type) <> merge_broker.
Proof.
  intros [(b & -> & Hb)%list_elem_of_fmap | (c & -> & Hc)%list_elem_of_fmap]%elem_of_app.
  - intros Hm. assert (merge_broker ∈ BASE_REQUIRED_SLOT_TYPES) as Hin.
    { apply (reads_types _ _ _ Hr). apply list_elem_of_fmap. by exists b. }
    pose proof (bool_decide_eq_true_2 _ Hin) as Hx. by vm_compute in Hx.
  - destruct (reads_comps _ _ _ Hr) as (vc & _ & Hcs).
    assert (Forall (fun c => c.(comp_slot).(StableSlot.component_type) <> merge_broker) r.(reading_comps))
      as Hall by (eapply Forall2_right; [|exact Hcs]; intros v c' (item & _ & _ & Hm & _); exact Hm).
    exact (proj1 (Forall_forall _ _) Hall c Hc).
Qed.

(** the list that is sorted *)
Abbreviation candidates profile := (map base_slot r.(reading_base) ++
  profile_slots profile r.(reading_comps) ++ r.(reading_extra)).

Lemma candidates_needed profile s : s ∈ _unique_slots (candidates profile) <-> needed profile r s.
Proof.
  destruct (unique_slots_spec (candidates profile)) as [_ ->].
  by rw !elem_of_app profile_slots_elem.
Qed.

Lemma needed_known profile s : needed profile r s -> s ∈ known_slots r.
Proof.
  unfold known_slots. rw elem_of_app. intros [? | [(c & Hc & _ & <-) | Hs]].
  - by left.
  - right. by apply list_elem_of_fmap_2.
  - apply elem_of_app. exact (proj1 (Forall_forall _ _) (reads_known _ _ _ Hr) s Hs).
Qed.

Lemma slot_candidates_sorted profile :
  exists sorted, _sort_slots (_unique_slots (candidates profile)) = Ok sorted /\
    StronglySorted slot_lt sorted /\ forall s, s ∈ sorted <-> needed profile r s.
Proof.
  destruct (sort_slots_ok (_unique_slots (candidates profile))) as (sorted & Hs & Hp & Hsort).
  - apply Forall_forall. intros s Hs%candidates_needed%needed_known.
    exact (proj1 (Forall_forall _ _) (proj1 reads_stable) s Hs).
  - apply unique_slots_spec.
  - exists sorted. split; [done|]. split; [done|]. intros s. by rw Hp candidates_needed.
Qed.
End Reads.

(** what is computed before the projections are compared *)
Definition computed (pv : json) (bundle descriptor : dict)
    (slots : list StableSlot.t) (auths : gmap StableSlot.t _RecoveryAuthority) : Prop :=
  exists profile r, profile_item pv profile /\ reads bundle descriptor r /\
    auths = slot_map (proofs r) ∅ /\ StronglySorted slot_lt slots /\
    forall s, s ∈ slots <-> needed profile r s.

(** the four readers together *)
Lemma readers_reads bundle descriptor profile slots c1 all prof c2 dp extra :
  _read_base_slots descriptor = Ok (slots, c1) ->
  _read_component_slots bundle profile c1 = Ok (all, prof, c2) ->
  get bundle "deliveryProfile" = Some (JObj dp) ->
  _read_explicit_slots (default (JArr []) (get dp "explicitlyRequiredOperationalSlots")) (slots ++ all)
    = Ok extra ->
  exists r, reads bundle descriptor r /\ slots = map base_slot r.(reading_base) /\
    prof = profile_slots profile r.(reading_comps) /\ extra = r.(reading_extra) /\
    c2.(authorities) = slot_map (proofs r) ∅.
Proof.
  intros Hb Hc Hdp Hex.
  destruct (read_base_ok _ _ _ Hb) as (vb & bs & Hvb & Hbs & -> & Htypes & He1).
  destruct (read_comps_ok _ _ _ _ _ _ Hc) as (vc & cs & Hvc & Hcs & -> & -> & He2).
  apply read_explicit_ok in Hex as (ve & Hve & Hxs & Hall & Hnd).
  destruct (extends_app _ _ _ _ _ _ _ He1 He2) as (Hids & _ & _ & Hauth).
  exists {| reading_base := bs; reading_comps := cs; reading_extra := extra |}.
  split; [|done]. split; try done; [by exists vb | by exists vc | by exists dp, ve |].
  eapply Forall_impl; [exact Hall|]. by intros s [_ ?].
Qed.

Lemma compute_sound pv bundle descriptor v slots auths :
  _compute_required_slots pv bundle descriptor v = Ok (slots, auths) ->
  computed pv bundle descriptor slots auths.
Proof.
  unfold _compute_required_slots. intros (profile & Hp%profile_ok & Hr)%bind_ok.
  apply bind_ok in Hr as ([slots1 c1] & Hb & Hr). apply bind_ok in Hr as ([[all prof] c2] & Hc & Hr).
  apply bind_ok_unit in Hr as (_ & Hr). apply bind_ok in Hr as (dp & Hdp%mapping_ok & Hr).
  apply bind_ok in Hr as (extra & Hex & Hr). apply bind_ok in Hr as (generated & Hsort & Hr).
  apply bind_ok_unit in Hr as (_ & [= <- <-]).
  destruct (readers_reads _ _ _ _ _ _ _ _ _ _ Hb Hc Hdp Hex) as (r & Hreads & -> & -> & -> & Hauth).
  exists profile, r. split; [done|]. split; [done|]. split; [exact Hauth|].
  destruct (slot_candidates_sorted _ _ r Hreads profile) as (sorted & Hs & Hstr & Hel).
  pose proof (eq_trans (eq_sym Hsort) Hs) as [= ->]. done.
Qed.

Lemma compute_complete pv profile bundle descriptor r :
  profile_item pv profile -> reads bundle descriptor r ->
  exists slots auths, _compute_required_slots pv bundle descriptor false = Ok (slots, auths).
Proof.
  intros Hp Hr. unfold _compute_required_slots.
  destruct (reads_base _ _ _ Hr) as (vb & Hvb & Hbs). destruct (reads_comps _ _ _ Hr) as (vc & Hvc & Hcs).
  destruct (reads_extra _ _ _ Hr) as (dp & ve & Hdp & Hve & Hxs).
  pose proof (reads_identities _ _ _ Hr) as Hids. unfold identities in Hids.
  apply NoDup_app in Hids as (Hnd1 & Hdis & Hnd2).
  destruct (read_base_complete _ _ _ Hvb Hbs (reads_types _ _ _ Hr) Hnd1) as (c1 & Hb & Hf).
  destruct (read_comps_complete bundle profile c1 _ _ Hvc Hcs Hnd2) as [c2 Hc].
  { intros v Hv. apply Hf. by intros ?%Hdis. }
  destruct (slot_candidates_sorted _ _ r Hr profile) as (sorted & Hs & _).
  exists sorted, c2.(authorities).
  apply bind_ok. exists profile. split; [by apply profile_ok|].
  apply bind_ok. eexists. split; [exact Hb|]. apply bind_ok. eexists. split; [exact Hc|].
  apply bind_ok_unit. split; [eapply set_size_ok, identities_slots, reads_identities; exact Hr|].
  apply bind_ok. exists dp. split; [by apply mapping_ok|].
  apply bind_ok. exists r.(reading_extra). split.
  { apply read_explicit_ok. exists ve. split; [done|]. split; [done|]. split; [|by eapply reads_once].
    eapply Forall_impl; [by eapply reads_known|]. intros s Hk. split; [by eapply reads_no_merge | done]. }
  apply bind_ok. exists sorted. split; [done|]. done.
Qed.
