(* ===== verification/ConfigTheorems.v ===== *)
(** * Required slots: theorems

    What [required_slot_set] answers, which projections it accepts, and that
    the order of the signed lists does not matter. *)
From S2P Require Import Prelude PyStr ListFacts Json Contract ContractFacts ConfigSlots PlanFacts ConfigFacts ConfigReading.
Local Open Scope py_scope.

(** ** One reading *)
Lemma Forall2_functional {A B} (R : A -> B -> Prop) l k k' :
  (forall a b b', R a b -> R a b' -> b = b') -> Forall2 R l k -> Forall2 R l k' -> k = k'.
Proof.
  intros HR Hk. revert k'. induction Hk as [|a b l k Hab _ IH]; intros k' Hk'.
  - by apply Forall2_nil_inv_l in Hk' as ->.
  - apply Forall2_cons_inv_l in Hk' as (b' & k'' & Hb' & Hk' & ->).
    f_equal; [by eapply HR | by apply IH].
Qed.

Lemma explicit_item_fun v s s' : explicit_item v s -> explicit_item v s' -> s = s'.
Proof.
  intros (item & -> & _ & Hs) (item' & [= <-] & _ & Hs'). by eapply slot_item_fun.
Qed.

Lemma reads_fun bundle descriptor r r' : reads bundle descriptor r -> reads bundle descriptor r' -> r = r'.
Proof.
  intros Hr Hr'.
  destruct (reads_base _ _ _ Hr) as (vb & Hvb & Hb), (reads_base _ _ _ Hr') as (vb' & Hvb' & Hb').
  destruct (reads_comps _ _ _ Hr) as (vc & Hvc & Hc), (reads_comps _ _ _ Hr') as (vc' & Hvc' & Hc').
  destruct (reads_extra _ _ _ Hr) as (dp & ve & Hdp & Hve & He),
    (reads_extra _ _ _ Hr') as (dp' & ve' & Hdp' & Hve' & He').
  assert (vb' = vb) as -> by congruence. assert (vc' = vc) as -> by congruence.
  assert (dp' = dp) as -> by congruence. assert (ve' = ve) as -> by congruence.
  destruct r, r'. cbn in *. f_equal.
  - eapply Forall2_functional; [apply base_item_fun | exact Hb | exact Hb'].
  - eapply Forall2_functional; [apply comp_item_fun | exact Hc | exact Hc'].
  - eapply Forall2_functional; [apply explicit_item_fun | exact He | exact He'].
Qed.

Lemma compute_exact pv bundle descriptor slots auths :
  _compute_required_slots pv bundle descriptor false = Ok (slots, auths) <->
  computed pv bundle descriptor slots auths.
Proof.
  split; [apply compute_sound|]. intros (profile & r & Hp & Hr & -> & Hs & Hel).
  destruct (compute_complete _ _ _ _ _ Hp Hr) as (slots' & auths' & Hc). rw Hc.
  apply compute_sound in Hc as (profile' & r' & Hp' & Hr' & -> & Hs' & Hel').
  pose proof (reads_fun _ _ _ _ Hr Hr') as <-.
  assert (profile' = profile) as ->.
  { destruct Hp as [-> _], Hp' as [[= ->] _]. done. }
  assert (slots' = slots) as ->; [|done].
  apply sorted_unique; [done | done |]. intros s. by rw Hel Hel'.
Qed.

Lemma proofs_slots r : (proofs r).*1 = known_slots r.
Proof. unfold proofs, known_slots. by rw fmap_app -!list_fmap_compose. Qed.

Lemma proofs_lookup r s a :
  NoDup (identities r) -> slot_map (proofs r) ∅ !! s = Some a <-> (s, a) ∈ proofs r.
Proof.
  intros Hnd. unfold slot_map. rw (fold_insert_lookup fst snd).
  - rw lookup_empty. split.
    + intros [([s' a'] & Hin & <- & <-) | [_ ?]]; done.
    + intros Hin. left. by exists (s, a).
  - change (map fst (proofs r)) with ((proofs r).*1). rw proofs_slots. by apply identities_slots.
Qed.

(** every slot that is needed has its proof *)
Lemma computed_authority pv bundle descriptor slots auths s :
  computed pv bundle descriptor slots auths -> s ∈ slots -> exists a, auths !! s = Some a.
Proof.
  intros (profile & r & _ & Hr & -> & _ & Hel) Hs.
  pose proof (needed_known _ _ _ Hr _ _ (proj1 (Hel s) Hs)) as Hk. rw -proofs_slots in Hk.
  apply list_elem_of_fmap in Hk as ([s' a] & -> & Hin). exists a.
  apply proofs_lookup; [by eapply reads_identities | done].
Qed.

(** ** Projections *)
Definition recovery_item (v : json) (p : StableSlot.t * _RecoveryAuthority) : Prop :=
  exists item, v = JObj item /\ dict_keys item = recovery_fields /\ slot_item item p.1 /\
    authority_item item p.2.

Lemma recovery_step_ok parsed seen p r :
  read_recovery_component (parsed, seen) p = Ok r <->
  exists sa, recovery_item p.2 sa /\ sa.1 ∉ seen /\ r = (parsed ++ [sa], {[sa.1]} ∪ seen).
Proof.
  destruct p as [i v]. unfold read_recovery_component, recovery_item. split.
  - intros (item & Hitem%mapping_ok & Hr)%bind_ok. injection Hitem as ->.
    apply bind_ok_unit in Hr as (Hf%raise_if_ok%neqb_false & Hr).
    apply bind_ok in Hr as (slot & Hslot%slot_ok & Hr).
    apply bind_ok in Hr as (a & Ha%authority_ok & Hr).
    apply bind_ok_unit in Hr as (Hn%raise_if_ok%bool_decide_eq_false & [= <-]).
    exists (slot, a). split; [by exists item|]. done.
  - cbn [snd]. intros ([slot a] & (item & -> & Hf & Hslot & Ha) & Hn & ->).
    apply bind_ok. exists item. split; [by apply mapping_ok|].
    apply bind_ok_unit. split; [by apply raise_if_ok, neqb_false|].
    apply bind_ok. exists slot. split; [by apply slot_ok|].
    apply bind_ok. exists a. split; [by apply authority_ok|].
    apply bind_ok_unit. split; [by apply raise_if_ok, bool_decide_eq_false | done].
Qed.

Lemma recovery_loop ps parsed seen out seen' :
  foldM read_recovery_component (parsed, seen) ps = Ok (out, seen') ->
  exists sas, Forall2 (fun p sa => recovery_item p.2 sa) ps sas /\ out = parsed ++ sas.
Proof.
  revert parsed seen. induction ps as [|p ps IH]; intros parsed seen; cbn.
  { intros [= <- <-]. exists []. split; [constructor | by rw app_nil_r]. }
  intros (r & (sa & Hsa & _ & ->)%recovery_step_ok & (sas & Hsas & ->)%IH)%bind_ok.
  exists (sa :: sas). split; [by constructor|]. by rw -app_assoc.
Qed.

Lemma recovery_loop_total ps parsed seen sas :
  Forall2 (fun p sa => recovery_item p.2 sa) ps sas -> NoDup sas.*1 ->
  (forall s, s ∈ sas.*1 -> s ∉ seen) ->
  exists seen', foldM read_recovery_component (parsed, seen) ps = Ok (parsed ++ sas, seen').
Proof.
  intros Hps. revert parsed seen. induction Hps as [|p sa ps sas Hsa _ IH]; intros parsed seen Hnd Hf.
  { exists seen. cbn. by rw app_nil_r. }
  apply NoDup_cons in Hnd as [Hn Hnd].
  destruct (IH (parsed ++ [sa]) ({[sa.1]} ∪ seen) Hnd) as [seen' Hs].
  { intros s Hs [->%elem_of_singleton | Hin]%elem_of_union; [done|].
    apply (Hf s); [by apply elem_of_cons; right | done]. }
  exists seen'. cbn [foldM]. apply bind_ok. exists (parsed ++ [sa], {[sa.1]} ∪ seen).
  split; [|rw Hs; by rw -app_assoc].
  apply recovery_step_ok. exists sa. split; [done|]. split; [|done].
  apply Hf, elem_of_cons. by left.
Qed.

(** the two projections of the bundle repeat [slots] and their proofs, in order *)
Definition projected (bundle : dict) (slots : list StableSlot.t)
    (auths : gmap StableSlot.t _RecoveryAuthority) : Prop :=
  (exists dp vs, get bundle "deliveryProfile" = Some (JObj dp) /\
     get dp "requiredSlots" = Some (JArr vs) /\ Forall2 explicit_item vs slots) /\
  (exists rp vs, get bundle "recoveryPolicy" = Some (JObj rp) /\
     get rp "requiredComponents" = Some (JArr vs) /\
     Forall2 (fun v s => exists a, auths !! s = Some a /\ recovery_item v (s, a)) vs slots).

Lemma exact_slot_ok v label s : _slot_from_exact_mapping v label = Ok s <-> explicit_item v s.
Proof.
  unfold _slot_from_exact_mapping, explicit_item. split.
  - intros (item & Hitem%mapping_ok & Hr)%bind_ok. injection Hitem as ->.
    apply bind_ok_unit in Hr as (Hf%raise_if_ok%neqb_false & Hs%slot_ok). by exists item.
  - intros (item & -> & Hf & Hs). apply bind_ok. exists item. split; [by apply mapping_ok|].
    apply bind_ok_unit. split; [by apply raise_if_ok, neqb_false | by apply slot_ok].
Qed.

Lemma slots_projection_ok dp slots :
  _validate_required_slots_projection dp slots = Ok tt <->
  exists vs, get dp "requiredSlots" = Some (JArr vs) /\ Forall2 explicit_item vs slots.
Proof.
  unfold _validate_required_slots_projection. destruct (get dp "requiredSlots") as [v|]; [|naive_solver].
  assert (forall vs ns, mapR (fun p : nat * json => _slot_from_exact_mapping p.2
    (index_label "deliveryProfile.requiredSlots" p.1 "")) (enumerate vs) = Ok ns <->
    Forall2 explicit_item vs ns) as Hmap
    by (intros vs ns; apply mapR_enumerate; intros p n; apply exact_slot_ok).
  split.
  - intros (vs & Hvs%sequence_ok & Hr)%bind_ok. apply bind_ok in Hr as (ns & Hns%Hmap & Hr).
    apply raise_if_ok, neqb_false in Hr as <-. by exists vs.
  - intros (vs & Hvs & Hs). apply bind_ok. exists vs. split; [by apply sequence_ok|].
    apply bind_ok. exists slots. split; [by apply Hmap | by apply raise_if_ok, neqb_false].
Qed.

Lemma expected_ok auths slots sas :
  mapR (fun slot => authority ← _authority_for slot auths; Ok (slot, authority)) slots = Ok sas <->
  Forall2 (fun s sa => sa.1 = s /\ auths !! s = Some sa.2) slots sas.
Proof.
  rw mapR_ok. assert (forall s sa, (authority ← _authority_for s auths; Ok (s, authority)) = Ok sa <->
    sa.1 = s /\ auths !! s = Some sa.2) as Hone.
  { intros s [s' a]. unfold _authority_for. rw bind_ok. setoid_rewrite or_raise_ok. naive_solver. }
  split; intros H; (eapply Forall2_impl; [exact H|]); intros s sa; apply Hone.
Qed.

Lemma expected_slots (auths : gmap StableSlot.t _RecoveryAuthority) slots sas :
  Forall2 (fun s sa => sa.1 = s /\ auths !! s = Some sa.2) slots sas -> sas.*1 = slots.
Proof. induction 1 as [|s sa slots sas [Hs _] _ IH]; cbn; [done | by rw Hs IH]. Qed.

Lemma recovery_projection_ok bundle slots auths :
  NoDup slots ->
  _validate_recovery_projection bundle slots auths = Ok tt <->
  exists rp vs, get bundle "recoveryPolicy" = Some (JObj rp) /\
    get rp "requiredComponents" = Some (JArr vs) /\
    Forall2 (fun v s => exists a, auths !! s = Some a /\ recovery_item v (s, a)) vs slots.
Proof.
  intros Hnd. unfold _validate_recovery_projection. destruct (get bundle "recoveryPolicy") as [rv|]; [|naive_solver].
  split.
  - intros (rp & Hrp%mapping_ok & Hr)%bind_ok. destruct (get rp "requiredComponents") as [v|] eqn:Hv; [|done].
    apply bind_ok in Hr as (vs & Hvs%sequence_ok & Hr).
    apply bind_ok in Hr as ([out seen] & (sas & Hsas & ->)%recovery_loop & Hr).
    apply bind_ok in Hr as (ex & Hex%expected_ok & Hr). apply raise_if_ok, neqb_false in Hr as <-.
    exists rp, vs. split; [done|]. split; [congruence|]. apply (enumerate_Forall2 recovery_item) in Hsas.
    apply Forall2_flip in Hex. clear -Hsas Hex. cbn [app] in Hex. revert slots Hex.
    induction Hsas as [|w [s a] ws sas' Hw _ IH]; intros slots Hex.
    + apply Forall2_nil_inv_l in Hex as ->. constructor.
    + apply Forall2_cons_inv_l in Hex as (s' & slots' & [Hs Ha] & Hex & ->). cbn in Hs, Ha. subst s'.
      constructor; [by exists a | by apply IH].
  - intros (rp & vs & Hrp & Hvs & Hall). apply bind_ok. exists rp. split; [by apply mapping_ok|]. rw Hvs.
    apply bind_ok. exists vs. split; [by apply sequence_ok|].
    assert (exists sas, Forall2 (fun v sa => recovery_item v sa) vs sas /\
      Forall2 (fun s sa => sa.1 = s /\ auths !! s = Some sa.2) slots sas) as (sas & Hsas & Hex).
    { clear -Hall. induction Hall as [|v s ws slots' (a & Ha & Hv) _ (sas & H1 & H2)].
      - by exists [].
      - exists ((s, a) :: sas). by split; constructor. }
    destruct (recovery_loop_total (enumerate vs) [] ∅ sas) as [seen Hloop].
    { by apply (enumerate_Forall2 recovery_item). } { by rw (expected_slots _ _ _ Hex). } { set_solver. }
    apply bind_ok. eexists. split; [exact Hloop|].
    apply bind_ok. exists sas. split; [by apply expected_ok | by apply raise_if_ok, neqb_false].
Qed.

Lemma sorted_nodup slots : StronglySorted slot_lt slots -> NoDup slots.
Proof.
  induction 1 as [|s k _ IH Hs]; [constructor|]. apply NoDup_cons. split; [|done]. intros Hin.
  destruct (proj1 (Forall_forall _ _) Hs s Hin) as (ka & kb & Ha & Hb & _ & Hne). congruence.
Qed.

(** accepting is computing and comparing *)
Lemma validated_ok pv bundle descriptor slots auths :
  _compute_required_slots pv bundle descriptor true = Ok (slots, auths) <->
  computed pv bundle descriptor slots auths /\ projected bundle slots auths.
Proof.
  trans (_compute_required_slots pv bundle descriptor false = Ok (slots, auths) /\
    projected bundle slots auths).
  2: { by rw compute_exact. }
  split.
  - intros Hc. pose proof (compute_sound _ _ _ _ _ _ Hc) as Hcomp.
    split; [by apply compute_exact|].
    assert (NoDup slots) as Hnd by (destruct Hcomp as (? & ? & _ & _ & _ & Hs & _); by apply sorted_nodup).
    unfold _compute_required_slots in Hc. apply bind_ok in Hc as (profile & _ & Hr).
    apply bind_ok in Hr as ([slots1 c1] & _ & Hr). apply bind_ok in Hr as ([[all prof] c2] & _ & Hr).
    apply bind_ok_unit in Hr as (_ & Hr). apply bind_ok in Hr as (dp & Hdp%mapping_ok & Hr).
    apply bind_ok in Hr as (extra & _ & Hr). apply bind_ok in Hr as (generated & _ & Hr).
    apply bind_ok_unit in Hr as (Hval & [= -> <-]). apply bind_ok_unit in Hval as (H1 & H2).
    apply slots_projection_ok in H1 as (vs & Hvs & Hs). split; [by exists dp, vs|].
    by apply recovery_projection_ok.
  - intros [Hc [(dp & vs & Hdp & Hvs & Hs) Hrec]].
    assert (NoDup slots) as Hnd.
    { apply compute_sound in Hc as (? & ? & _ & _ & _ & Hst & _). by apply sorted_nodup. }
    revert Hc. unfold _compute_required_slots. intros Hc.
    apply bind_ok in Hc as (profile & Hp & Hr). apply bind_ok. exists profile. split; [done|].
    apply bind_ok in Hr as ([slots1 c1] & Hb & Hr). apply bind_ok. eexists. split; [exact Hb|].
    apply bind_ok in Hr as ([[all prof] c2] & Hcs & Hr). apply bind_ok. eexists. split; [exact Hcs|].
    apply bind_ok_unit in Hr as (Hd & Hr). apply bind_ok_unit. split; [done|].
    apply bind_ok in Hr as (dp' & Hdp' & Hr). apply bind_ok. exists dp'. split; [done|].
    apply mapping_ok in Hdp'. assert (dp' = dp) as -> by congruence.
    apply bind_ok in Hr as (extra & Hx & Hr). apply bind_ok. exists extra. split; [done|].
    apply bind_ok in Hr as (generated & Hg & Hr). apply bind_ok. exists generated. split; [done|].
    apply bind_ok_unit in Hr as (_ & [= -> <-]). apply bind_ok_unit. split; [|done].
    apply bind_ok_unit. split; [apply slots_projection_ok; by exists vs|].
    by apply recovery_projection_ok.
Qed.

(** ** Exceptions *)
Definition required_only {A} (m : result A) : Prop :=
  forall e, m = Err e -> exists msg, e = RequiredSlotError msg.

Lemma required_ok {A} (a : A) : required_only (Ok a).
Proof. by intros e. Qed.

Lemma required_err {A} msg : required_only (@Err A (required msg)).
Proof. intros e [= <-]. by exists msg. Qed.

Lemma required_raise_if c msg : required_only (raise_if c (required msg)).
Proof. intros e [_ ->]%raise_if_err. by exists msg. Qed.

Lemma required_bind {A B} (m : result A) (f : A -> result B) :
  required_only m -> (forall a, m = Ok a -> required_only (f a)) -> required_only (m ≫= f).
Proof. intros Hm Hf e [He | (a & Ha & He)]%bind_err; [by apply Hm | by eapply Hf]. Qed.

Lemma required_foldM {S A} (f : S -> A -> result S) l s :
  (forall s a, required_only (f s a)) -> required_only (foldM f s l).
Proof.
  intros Hf. revert s. induction l as [|a l IH]; intros s; cbn; [apply required_ok|].
  apply required_bind; [apply Hf | intros s' _; apply IH].
Qed.

Lemma required_mapR {A B} (f : A -> result B) l :
  (forall a, required_only (f a)) -> required_only (mapR f l).
Proof.
  intros Hf. induction l as [|a l IH]; cbn; [apply required_ok|].
  apply required_bind; [apply Hf|]. intros b _. apply required_bind; [apply IH|].
  intros bs _. apply required_ok.
Qed.

Lemma required_mapping v label : required_only (_mapping v label).
Proof. destruct v as [[]|]; try apply required_err; apply required_ok. Qed.

Lemma required_sequence v label : required_only (_sequence v label).
Proof. destruct v as [[]|]; try apply required_err; apply required_ok. Qed.

Lemma required_text v label : required_only (_stable_text v label).
Proof.
  unfold _stable_text. destruct v as [[| | | |s| |]|]; try apply required_err.
  apply required_bind; [apply required_raise_if|]. intros _ _.
  apply required_bind; [apply required_raise_if|]. intros _ _.
  apply required_bind; [|intros; apply required_ok].
  intros e He. unfold except in He. destruct (encode_utf8 s) as [b | e'] eqn:E; [done|].
  assert (e' = UnicodeError) as ->.
  { clear He. revert e' E. induction s as [|c s IH]; intros e'; cbn; [done|].
    destruct (is_scalar c); [|congruence]. intros [Hs | (b & _ & Hb)]%bind_err; [by apply IH | done]. }
  rw bool_decide_true in He; [|done]. injection He as <-. by eexists.
Qed.

Create HintDb required.
#[export] Hint Resolve required_ok required_err required_raise_if required_mapping required_sequence
  required_text : required.

(** a body that is a chain of checked calls *)
Ltac required_chain :=
  repeat first [solve [auto with required]
    | apply required_bind; [solve [auto with required] | intros ? ?]].

Lemma required_slot item label : required_only (_slot_from_mapping item label).
Proof. unfold _slot_from_mapping. required_chain. Qed.

Lemma required_authority item label : required_only (_read_recovery_authority item label).
Proof. unfold _read_recovery_authority. required_chain. Qed.

Lemma required_claim owners v ty owner : required_only (_claim_unique_identity owners v ty owner).
Proof. unfold _claim_unique_identity. destruct (owners !! v); auto with required. Qed.

Lemma required_profile v label : required_only (_validate_profile_name v label).
Proof. unfold _validate_profile_name. destruct v; try apply required_err. required_chain. Qed.

Lemma required_profiles item label : required_only (read_profiles item label).
Proof.
  unfold read_profiles. apply required_bind; [auto with required|]. intros vs _.
  apply required_bind; [apply required_mapR; intros p; apply required_profile|]. intros ns _.
  required_chain.
Qed.

#[export] Hint Resolve required_slot required_authority required_claim required_profile
  required_profiles : required.

Lemma required_base s p : required_only (read_base_slot s p).
Proof. destruct s, p. unfold read_base_slot. required_chain. Qed.

Lemma required_comp profile s p : required_only (read_component_slot profile s p).
Proof. destruct s as [[] ?], p. unfold read_component_slot. required_chain. Qed.

Lemma required_explicit known acc p : required_only (read_explicit_slot known acc p).
Proof. destruct p. unfold read_explicit_slot. required_chain. Qed.

Lemma required_recovery s p : required_only (read_recovery_component s p).
Proof. destruct s, p. unfold read_recovery_component. required_chain. Qed.

#[export] Hint Resolve required_base required_comp required_explicit required_recovery
  required_foldM : required.

Lemma required_projections dp bundle slots auths :
  required_only (_validate_required_slots_projection dp slots;;
    _validate_recovery_projection bundle slots auths).
Proof.
  apply required_bind; [|intros _ _].
  - unfold _validate_required_slots_projection. destruct (get dp _); [|apply required_err].
    apply required_bind; [auto with required|]. intros vs _.
    apply required_bind; [|auto with required]. apply required_mapR. intros p.
    unfold _slot_from_exact_mapping. required_chain.
  - unfold _validate_recovery_projection. destruct (get bundle _); [|apply required_err].
    apply required_bind; [auto with required|]. intros rp _.
    destruct (get rp _); [|apply required_err]. apply required_bind; [auto with required|]. intros vs _.
    apply required_bind; [auto with required|]. intros [out seen] _.
    apply required_bind; [|auto with required]. apply required_mapR. intros s.
    unfold _authority_for. apply required_bind; [|auto with required].
    destruct (auths !! s); [apply required_ok | apply required_err].
Qed.

Lemma compute_raises pv bundle descriptor v : required_only (_compute_required_slots pv bundle descriptor v).
Proof.
  unfold _compute_required_slots. apply required_bind; [auto with required|]. intros profile Hp.
  apply required_bind.
  { unfold _read_base_slots. apply required_bind; [auto with required|]. intros vs _.
    apply required_bind; [auto with required|]. intros [] _. required_chain. }
  intros [slots c1] Hb. apply required_bind.
  { unfold _read_component_slots. required_chain. }
  intros [[all prof] c2] Hc. apply required_bind; [apply required_raise_if|]. intros _ _.
  apply required_bind; [auto with required|]. intros dp Hdp%mapping_ok.
  apply required_bind; [unfold _read_explicit_slots; required_chain|]. intros extra Hex.
  destruct (readers_reads _ _ _ _ _ _ _ _ _ _ Hb Hc Hdp Hex) as (r & Hr & -> & -> & -> & _).
  destruct (slot_candidates_sorted _ _ r Hr profile) as (sorted & Hs & _).
  apply required_bind; [rw Hs; auto with required|]. intros generated _.
  apply required_bind; [|auto with required]. destruct v; [apply required_projections | auto with required].
Qed.

(** ** Generated projections *)
Lemma as_dict_item s : stable_slot s -> explicit_item (JObj (StableSlot.as_dict s)) s.
Proof.
  intros (Ht & Hp & Hn). exists (StableSlot.as_dict s). split; [done|].
  split; [by unfold dict_keys, slot_fields; f_equal|]. split; [by split|]. split; by split.
Qed.

Lemma recovery_dict_item s a :
  stable_slot s -> stable_text a.(verification_method) -> sha256_hex a.(expected_digest) ->
  recovery_item (JObj (recovery_dict s a)) (s, a).
Proof.
  intros (Ht & Hp & Hn) Hv Hd. exists (recovery_dict s a). split; [done|].
  split; [by unfold dict_keys, recovery_fields; f_equal|].
  split; [split; [by split|]; split; by split|].
  split; [by split|]. split; [|done]. split; [done | by apply sha256_hex_stable].
Qed.

Lemma authority_item_stable item a :
  authority_item item a -> stable_text a.(verification_method) /\ sha256_hex a.(expected_digest).
Proof. unfold authority_item, text_field. tauto. Qed.

Lemma proofs_stable bundle descriptor r s a :
  reads bundle descriptor r -> (s, a) ∈ proofs r ->
  stable_text a.(verification_method) /\ sha256_hex a.(expected_digest).
Proof.
  intros Hr [(b & Hb & Hin)%list_elem_of_fmap | (c & Hc & Hin)%list_elem_of_fmap]%elem_of_app.
  - destruct (reads_base _ _ _ Hr) as (vb & _ & Hbs). injection Hb as -> ->.
    apply list_elem_of_lookup in Hin as [i Hi]. destruct (Forall2_lookup_r _ _ _ _ _ Hbs Hi) as (v & _ & Hv).
    destruct Hv as (item & _ & _ & _ & _ & Hau). by eapply authority_item_stable.
  - destruct (reads_comps _ _ _ Hr) as (vc & _ & Hcs). injection Hc as -> ->.
    apply list_elem_of_lookup in Hin as [i Hi]. destruct (Forall2_lookup_r _ _ _ _ _ Hcs Hi) as (v & _ & Hv).
    destruct Hv as (item & _ & _ & _ & _ & Hau & _). by eapply authority_item_stable.
Qed.

Lemma computed_stable pv bundle descriptor slots auths s :
  computed pv bundle descriptor slots auths -> s ∈ slots ->
  stable_slot s /\ exists a, auths !! s = Some a /\ stable_text a.(verification_method) /\
    sha256_hex a.(expected_digest).
Proof.
  intros Hc Hs. destruct (computed_authority _ _ _ _ _ _ Hc Hs) as [a Ha].
  destruct Hc as (profile & r & _ & Hr & -> & _ & Hel). split.
  - apply (proj1 (Forall_forall _ _) (proj1 (reads_stable _ _ _ Hr))).
    by eapply needed_known, Hel.
  - exists a. split; [done|]. eapply proofs_stable; [exact Hr|].
    apply proofs_lookup; [by eapply reads_identities | done].
Qed.

Lemma render_ok slots auths rs :
  _render_recovery_projection slots auths = Ok rs <->
  Forall2 (fun s d => exists a, auths !! s = Some a /\ d = recovery_dict s a) slots rs.
Proof.
  unfold _render_recovery_projection. rw mapR_ok.
  assert (forall s d, (authority ← _authority_for s auths; Ok (recovery_dict s authority)) = Ok d <->
    exists a, auths !! s = Some a /\ d = recovery_dict s a) as Hone.
  { intros s d. unfold _authority_for. rw bind_ok. setoid_rewrite or_raise_ok. naive_solver. }
  split; intros H; (eapply Forall2_impl; [exact H|]); intros s d; apply Hone.
Qed.

Lemma rendered_items slots (auths : gmap StableSlot.t _RecoveryAuthority) rs :
  Forall2 (fun s d => exists a, auths !! s = Some a /\ d = recovery_dict s a) slots rs ->
  (forall s, s ∈ slots -> stable_slot s /\ exists a, auths !! s = Some a /\
     stable_text a.(verification_method) /\ sha256_hex a.(expected_digest)) ->
  Forall2 (fun v s => exists a, auths !! s = Some a /\ recovery_item v (s, a)) (map JObj rs) slots.
Proof.
  induction 1 as [|s d slots rs (a & Ha & ->) _ IH]; intros Hall; cbn; [constructor|].
  constructor; [|apply IH; intros x Hx; apply Hall, elem_of_cons; by right].
  destruct (Hall s) as (Hs & a' & Ha' & Hv & Hd); [apply elem_of_cons; by left|].
  assert (a' = a) as -> by congruence. exists a. split; [done | by apply recovery_dict_item].
Qed.

(** what the readers of slots see of a bundle *)
Record same_inputs (bundle bundle' : dict) : Prop := {
  same_components : get bundle' "components" = get bundle "components";
  same_explicit : exists dp dp', get bundle "deliveryProfile" = Some (JObj dp) /\
    get bundle' "deliveryProfile" = Some (JObj dp') /\ explicit_values dp' = explicit_values dp }.

Lemma computed_same pv bundle bundle' descriptor slots auths :
  same_inputs bundle bundle' -> computed pv bundle descriptor slots auths ->
  computed pv bundle' descriptor slots auths.
Proof.
  intros [Hc (dp & dp' & Hdp & Hdp' & He)] (profile & r & Hp & Hr & Hrest).
  exists profile, r. split; [done|]. split; [|done]. destruct Hr as [Hb Hcs (dp0 & vs & Hdp0 & Hvs & Hxs)].
  split; try done; [by rw Hc|]. exists dp', vs. split; [done|]. split; [congruence | done].
Qed.

(** ** Permuted inputs *)
Record permuted (bundle descriptor bundle' descriptor' : dict) : Prop := {
  permuted_base : exists vs vs', get descriptor "fixedBaseSlots" = Some (JArr vs) /\
    get descriptor' "fixedBaseSlots" = Some (JArr vs') /\ vs ≡ₚ vs';
  permuted_comps : exists vs vs', get bundle "components" = Some (JArr vs) /\
    get bundle' "components" = Some (JArr vs') /\ vs ≡ₚ vs';
  permuted_explicit : exists dp dp' vs vs', get bundle "deliveryProfile" = Some (JObj dp) /\
    get bundle' "deliveryProfile" = Some (JObj dp') /\ explicit_values dp = Some vs /\
    explicit_values dp' = Some vs' /\ vs ≡ₚ vs' }.

Lemma Forall2_perm {A B} (R : A -> B -> Prop) l l' k :
  l ≡ₚ l' -> Forall2 R l k -> exists k', k ≡ₚ k' /\ Forall2 R l' k'.
Proof.
  intros Hl. revert k. induction Hl as [|a l l' _ IH|a b l|l l' l'' _ IH _ IH']; intros k Hk.
  - by exists k.
  - apply Forall2_cons_inv_l in Hk as (c & k' & Ha & Htl & ->). destruct (IH _ Htl) as (k'' & Hp & Hk'').
    exists (c :: k''). split; [by constructor | by constructor].
  - apply Forall2_cons_inv_l in Hk as (c & k' & Ha & Hk & ->).
    apply Forall2_cons_inv_l in Hk as (d & k'' & Hb & Hk & ->).
    exists (d :: c :: k''). split; [apply perm_swap | by apply Forall2_cons; split; [|apply Forall2_cons]].
  - destruct (IH _ Hk) as (k' & Hp & Hk'). destruct (IH' _ Hk') as (k'' & Hp' & Hk'').
    exists k''. split; [by etransitivity | done].
Qed.

Lemma reads_permuted bundle descriptor bundle' descriptor' r :
  permuted bundle descriptor bundle' descriptor' -> reads bundle descriptor r ->
  exists r', reads bundle' descriptor' r' /\ reading_base r ≡ₚ reading_base r' /\
    reading_comps r ≡ₚ reading_comps r' /\ reading_extra r ≡ₚ reading_extra r'.
Proof.
  intros [(vb & vb' & Hvb & Hvb' & Hb) (vc & vc' & Hvc & Hvc' & Hc)
    (dp & dp' & ve & ve' & Hdp & Hdp' & Hve & Hve' & He)].
  intros [(wb & Hwb & Hbs) (wc & Hwc & Hcs) (dq & we & Hdq & Hwe & Hes) Ht Hids Hk Ho].
  assert (wb = vb) as -> by congruence. assert (wc = vc) as -> by congruence.
  assert (dq = dp) as -> by congruence. assert (we = ve) as -> by congruence.
  destruct (Forall2_perm _ _ _ _ Hb Hbs) as (bs' & Hpb & Hbs').
  destruct (Forall2_perm _ _ _ _ Hc Hcs) as (cs' & Hpc & Hcs').
  destruct (Forall2_perm _ _ _ _ He Hes) as (es' & Hpe & Hes').
  exists {| reading_base := bs'; reading_comps := cs'; reading_extra := es' |}. split; [|done].
  split; cbn; [by exists vb' | by exists vc' | by exists dp', ve' | | | |].
  - intros t. change map with (@fmap list _). by rw -Hpb.
  - unfold identities. cbn. by rw -Hpb -Hpc.
  - rw -Hpe. eapply Forall_impl; [exact Hk|]. intros s. unfold known_slots. cbn.
    change map with (@fmap list _). by rw !elem_of_app Hpb Hpc.
  - by rw -Hpe.
Qed.

(** ** Properties *)

(** C29: the required slots exist exactly when the profile is one of the three,
    every item of the descriptor and of the bundle is well formed, the base
    slots cover exactly the seven required types, no identity is claimed twice
    and the explicit slots are distinct known ones; they are then the base
    slots, the components of the profile and the explicit slots, each once, in
    ascending order of their UTF-8 keys.  [required_slot_set] answers them
    exactly when both projections of the bundle repeat them with their proofs,
    and everything else raises [RequiredSlotError]. *)
Theorem required_slots_exact (pv : json) (bundle descriptor : dict) :
  (forall ps, required_slot_projection pv bundle descriptor = Ok ps <->
     exists slots auths, computed pv bundle descriptor slots auths /\
       ps = map StableSlot.as_dict slots) /\
  (forall slots, required_slot_set pv bundle descriptor = Ok slots <->
     exists auths, computed pv bundle descriptor slots auths /\ projected bundle slots auths) /\
  required_only (required_slot_projection pv bundle descriptor) /\
  required_only (required_slot_set pv bundle descriptor).
Proof.
  unfold required_slot_projection, required_slot_set. split; [|split; [|split]].
  - intros ps. rw bind_ok. split.
    + intros ([slots auths] & Hc%compute_exact & [= <-]). eauto.
    + intros (slots & auths & Hc%compute_exact & ->). eauto.
  - intros slots. rw bind_ok. split.
    + intros ([slots' auths] & Hc%validated_ok & [= <-]). eauto.
    + intros (auths & Hc%validated_ok). eauto.
  - apply required_bind; [apply compute_raises|]. intros [] _. apply required_ok.
  - apply required_bind; [apply compute_raises|]. intros [] _. apply required_ok.
Qed.

(** The recovery projection can be generated whenever the slot projection
    can, and a bundle that differs from the one they were generated from only
    by holding the two is accepted, with the slots they list. *)
Lemma required_slots_roundtrip (pv : json) (bundle bundle' descriptor : dict) (ps : list dict) :
  required_slot_projection pv bundle descriptor = Ok ps ->
  exists rs, required_recovery_projection pv bundle descriptor = Ok rs /\
  (same_inputs bundle bundle' ->
   (exists dp, get bundle' "deliveryProfile" = Some (JObj dp) /\
      get dp "requiredSlots" = Some (JArr (map JObj ps))) ->
   (exists rp, get bundle' "recoveryPolicy" = Some (JObj rp) /\
      get rp "requiredComponents" = Some (JArr (map JObj rs))) ->
   exists slots, required_slot_set pv bundle' descriptor = Ok slots /\
     ps = map StableSlot.as_dict slots).
Proof.
  unfold required_slot_projection. intros ([slots auths] & Hc & [= <-])%bind_ok.
  pose proof (compute_sound _ _ _ _ _ _ Hc) as Hcomp.
  assert (exists rs, Forall2 (fun s d => exists a, auths !! s = Some a /\ d = recovery_dict s a) slots rs)
    as [rs Hrs].
  { assert (Forall (fun s => exists a, auths !! s = Some a) slots) as Hall.
    { apply Forall_forall. intros s. by eapply computed_authority. }
    clear Hc Hcomp. induction Hall as [|s l [a Ha] _ [rs IH]]; [by exists []|].
    exists (recovery_dict s a :: rs). constructor; eauto. }
  exists rs. split.
  { unfold required_recovery_projection. rw Hc. cbn. by apply render_ok. }
  intros Hsame (dp & Hdp & Hps) (rp & Hrp & Hr). exists slots. split; [|done].
  unfold required_slot_set. apply bind_ok. exists (slots, auths). split; [|done].
  apply validated_ok. split; [by eapply computed_same|]. split.
  - exists dp, (map JObj (map StableSlot.as_dict slots)). split; [done|]. split; [done|].
    rw map_map. apply Forall2_fmap_l, Forall_Forall2_diag, Forall_forall. intros s Hs.
    apply as_dict_item. by eapply computed_stable.
  - exists rp, (map JObj rs). split; [done|]. split; [done|].
    apply rendered_items; [done|]. intros s. by eapply computed_stable.
Qed.

(** Permuting the base slots, the components or the explicit slots of the
    signed documents changes neither the required slots nor their proofs. *)
Lemma required_slots_order_free (pv : json) (bundle descriptor bundle' descriptor' : dict) ps rs :
  permuted bundle descriptor bundle' descriptor' ->
  required_slot_projection pv bundle descriptor = Ok ps ->
  required_recovery_projection pv bundle descriptor = Ok rs ->
  required_slot_projection pv bundle' descriptor' = Ok ps /\
  required_recovery_projection pv bundle' descriptor' = Ok rs.
Proof.
  intros Hperm. unfold required_slot_projection, required_recovery_projection.
  intros ([slots auths] & Hc & [= <-])%bind_ok ([slots' auths'] & Hc' & Hrs)%bind_ok.
  rw Hc in Hc'. injection Hc' as <- <-.
  assert (_compute_required_slots pv bundle' descriptor' false = Ok (slots, auths)) as ->; [|done].
  apply compute_exact. apply compute_exact in Hc as (profile & r & Hp & Hr & -> & Hs & Hel).
  destruct (reads_permuted _ _ _ _ _ Hperm Hr) as (r' & Hr' & Hb & Hcs & He).
  exists profile, r'. split; [done|]. split; [done|]. split; [|split; [done|]].
  - apply map_eq. intros s. apply option_eq. intros a.
    rw (proofs_lookup _ _ _ (reads_identities _ _ _ Hr)) (proofs_lookup _ _ _ (reads_identities _ _ _ Hr')).
    unfold proofs. change map with (@fmap list _). by rw !elem_of_app Hb Hcs.
  - intros s. rw Hel. unfold needed. change map with (@fmap list _). rw Hb He.
    by setoid_rewrite Hcs.
Qed.

(** ** A bundle

    Seven base slots and two components, of which only the relay belongs to the
    profile CORE; the archive is added explicitly. *)
Module SlotDemo.
Definition digest : pystr := repeat 97%N 64.
Definition text (s : string) : json := JStr (u s).
Definition slot (ty principal : string) : dict :=
  [(u "componentType", text ty); (u "componentPrincipal", text principal); (u "nodeId", text "n1")].
Definition authority : dict := [(u "verificationMethod", text "sha256"); (u "expectedDigest", JStr digest)].

Definition base (ty : string) : json :=
  JObj (slot ty ("system:" ++ ty) ++ authority ++
    [(u "readyReporterPrincipal", text ("ready:" ++ ty)); (u "probeNkeySelector", text ("nkey:" ++ ty))]).
Definition component (ty : string) (profiles : list string) : json :=
  JObj (slot ty ("agent:" ++ ty) ++ authority ++
    [(u "nkeySelector", text ("nkey:" ++ ty)); (u "requiredForProfiles", JArr (map text profiles))]).

Definition bases : list json := map base ["GATEWAY"; "CONFIG_CONTROLLER"; "STATE_SERVICE";
  "NATS_JETSTREAM"; "OBJECT_STORE"; "ARTIFACT_BROKER"; "AUDIT_SINK"].
Definition components : list json := [component "relay" ["CORE"; "EXTENDED"]; component "archive" []].
Definition explicit : dict :=
  [(u "explicitlyRequiredOperationalSlots", JArr [JObj (slot "archive" "agent:archive")])].

Definition descriptor (bs : list json) : dict := [(u "fixedBaseSlots", JArr bs)].
Definition bundle (cs : list json) : dict :=
  [(u "components", JArr cs); (u "deliveryProfile", JObj explicit)].

Definition projection : list dict :=
  match required_slot_projection (text "CORE") (bundle components) (descriptor bases) with
  | Ok ps => ps | Err _ => [] end.
Definition recovery : list dict :=
  match required_recovery_projection (text "CORE") (bundle components) (descriptor bases) with
  | Ok rs => rs | Err _ => [] end.

(** the bundle that is signed *)
Definition delivery : dict := (u "requiredSlots", JArr (map JObj projection)) :: explicit.
Definition policy : dict := [(u "requiredComponents", JArr (map JObj recovery))].
Definition signed : dict :=
  [(u "components", JArr components); (u "deliveryProfile", JObj delivery);
   (u "recoveryPolicy", JObj policy)].
End SlotDemo.

Lemma demo_projection : required_slot_projection (SlotDemo.text "CORE")
  (SlotDemo.bundle SlotDemo.components) (SlotDemo.descriptor SlotDemo.bases) = Ok SlotDemo.projection.
Proof. vm_compute. reflexivity. Qed.

Lemma demo_recovery : required_recovery_projection (SlotDemo.text "CORE")
  (SlotDemo.bundle SlotDemo.components) (SlotDemo.descriptor SlotDemo.bases) = Ok SlotDemo.recovery.
Proof. vm_compute. reflexivity. Qed.

Lemma required_slots_roundtrip_witness : exists slots,
  required_slot_set (SlotDemo.text "CORE") SlotDemo.signed (SlotDemo.descriptor SlotDemo.bases) = Ok slots /\
  SlotDemo.projection = map StableSlot.as_dict slots /\ length SlotDemo.projection = 9%nat.
Proof.
  destruct (required_slots_roundtrip (SlotDemo.text "CORE") (SlotDemo.bundle SlotDemo.components)
    SlotDemo.signed (SlotDemo.descriptor SlotDemo.bases) SlotDemo.projection demo_projection)
    as (rs & Hrs & Hok).
  rw demo_recovery Ok_inj_iff in Hrs. subst rs.
  destruct Hok as (slots & Hs & Hp).
  - split; [vm_compute; reflexivity|]. exists SlotDemo.explicit, SlotDemo.delivery.
    split; [vm_compute; reflexivity|]. split; vm_compute; reflexivity.
  - exists SlotDemo.delivery. split; vm_compute; reflexivity.
  - exists SlotDemo.policy. split; vm_compute; reflexivity.
  - exists slots. split; [exact Hs|]. split; [exact Hp | vm_compute; reflexivity].
Defined.

Lemma required_slots_order_free_witness :
  required_slot_projection (SlotDemo.text "CORE") (SlotDemo.bundle (rev SlotDemo.components))
    (SlotDemo.descriptor (rev SlotDemo.bases)) = Ok SlotDemo.projection.
Proof.
  assert (permuted (SlotDemo.bundle SlotDemo.components) (SlotDemo.descriptor SlotDemo.bases)
    (SlotDemo.bundle (rev SlotDemo.components)) (SlotDemo.descriptor (rev SlotDemo.bases))) as Hperm.
  2: { exact (proj1 (required_slots_order_free (SlotDemo.text "CORE") _ _ _ _ SlotDemo.projection
         SlotDemo.recovery Hperm demo_projection demo_recovery)). }
  split.
  - exists SlotDemo.bases, (rev SlotDemo.bases).
    split; [reflexivity|]. split; [reflexivity | apply Permutation_rev].
  - exists SlotDemo.components, (rev SlotDemo.components).
    split; [reflexivity|]. split; [reflexivity | apply Permutation_rev].
  - exists SlotDemo.explicit, SlotDemo.explicit.
    do 2 eexists. split; [reflexivity|]. split; [reflexivity|]. split; [reflexivity|]. by split.
Defined.
