(* ===== verification/Operations.v ===== *)
(** * The registry of operations and the dispatch of unary ones

    [core/operations.py] and [core/application.py].  The protobuf classes of
    the A2A SDK are named by [message_type]; the runtime behind them is the
    class [A2AProtobuf].  The application a request is dispatched to is an
    argument: what its attributes are, and what its handlers return. *)
From S2P Require Import Prelude PyStr Json Contract Identity Stream.
Local Open Scope string_scope.
Local Open Scope list_scope.
Local Open Scope Z_scope.
Local Open Scope py_scope.

(** ** Enumerations *)
#[global] Instance operation_eq_dec : EqDecision Operation.
Proof. solve_decision. Defined.

Definition operation_name (o : Operation) : string :=
  match o with
  | SEND_MESSAGE => "SendMessage"
  | SEND_STREAMING_MESSAGE => "SendStreamingMessage"
  | GET_TASK => "GetTask"
  | LIST_TASKS => "ListTasks"
  | CANCEL_TASK => "CancelTask"
  | SUBSCRIBE_TO_TASK => "SubscribeToTask"
  | CREATE_TASK_PUSH_NOTIFICATION_CONFIG => "CreateTaskPushNotificationConfig"
  | GET_TASK_PUSH_NOTIFICATION_CONFIG => "GetTaskPushNotificationConfig"
  | LIST_TASK_PUSH_NOTIFICATION_CONFIGS => "ListTaskPushNotificationConfigs"
  | DELETE_TASK_PUSH_NOTIFICATION_CONFIG => "DeleteTaskPushNotificationConfig"
  | GET_EXTENDED_AGENT_CARD => "GetExtendedAgentCard"
  end.

Inductive DeliveryProfile := CORE | INTEROP | EXTENDED.
Inductive CapabilityRequirement := NONE | PUSH_NOTIFICATIONS | EXTENDED_AGENT_CARD.
Inductive OperationAvailability := ENABLED | PUSH_NOTIFICATION_NOT_SUPPORTED | UNSUPPORTED_OPERATION.

#[global] Instance profile_eq_dec : EqDecision DeliveryProfile.
Proof. solve_decision. Defined.

Record CoreCapabilities := { push_notifications : bool; extended_agent_card : bool }.

(** the message classes of the registry *)
Inductive message_type :=
| SendMessageRequest | SendMessageResponse | StreamResponse | GetTaskRequest | Task
| ListTasksRequest | ListTasksResponse | CancelTaskRequest | SubscribeToTaskRequest
| TaskPushNotificationConfig | GetTaskPushNotificationConfigRequest
| ListTaskPushNotificationConfigsRequest | ListTaskPushNotificationConfigsResponse
| DeleteTaskPushNotificationConfigRequest | Empty | GetExtendedAgentCardRequest | AgentCard.

#[global] Instance message_type_eq_dec : EqDecision message_type.
Proof. solve_decision. Defined.

Definition message_type_name (t : message_type) : string :=
  match t with
  | SendMessageRequest => "SendMessageRequest"
  | SendMessageResponse => "SendMessageResponse"
  | StreamResponse => "StreamResponse"
  | GetTaskRequest => "GetTaskRequest"
  | Task => "Task"
  | ListTasksRequest => "ListTasksRequest"
  | ListTasksResponse => "ListTasksResponse"
  | CancelTaskRequest => "CancelTaskRequest"
  | SubscribeToTaskRequest => "SubscribeToTaskRequest"
  | TaskPushNotificationConfig => "TaskPushNotificationConfig"
  | GetTaskPushNotificationConfigRequest => "GetTaskPushNotificationConfigRequest"
  | ListTaskPushNotificationConfigsRequest => "ListTaskPushNotificationConfigsRequest"
  | ListTaskPushNotificationConfigsResponse => "ListTaskPushNotificationConfigsResponse"
  | DeleteTaskPushNotificationConfigRequest => "DeleteTaskPushNotificationConfigRequest"
  | Empty => "Empty"
  | GetExtendedAgentCardRequest => "GetExtendedAgentCardRequest"
  | AgentCard => "AgentCard"
  end.

(** ** The registry *)
Record OperationSpec := {
  api_id : string;
  request_type : message_type;
  response_type : message_type;
  handler_name : string;
  spec_streaming : bool;
  capability : CapabilityRequirement }.

Definition OPERATION_SPECS (o : Operation) : OperationSpec :=
  match o with
  | SEND_MESSAGE => Build_OperationSpec "API-A2A-001" SendMessageRequest SendMessageResponse
      "send_message" false NONE
  | SEND_STREAMING_MESSAGE => Build_OperationSpec "API-A2A-002" SendMessageRequest StreamResponse
      "send_streaming_message" true NONE
  | GET_TASK => Build_OperationSpec "API-A2A-003" GetTaskRequest Task "get_task" false NONE
  | LIST_TASKS => Build_OperationSpec "API-A2A-004" ListTasksRequest ListTasksResponse
      "list_tasks" false NONE
  | CANCEL_TASK => Build_OperationSpec "API-A2A-005" CancelTaskRequest Task "cancel_task" false NONE
  | SUBSCRIBE_TO_TASK => Build_OperationSpec "API-A2A-006" SubscribeToTaskRequest StreamResponse
      "subscribe_to_task" true NONE
  | CREATE_TASK_PUSH_NOTIFICATION_CONFIG => Build_OperationSpec "API-A2A-007"
      TaskPushNotificationConfig TaskPushNotificationConfig
      "create_task_push_notification_config" false PUSH_NOTIFICATIONS
  | GET_TASK_PUSH_NOTIFICATION_CONFIG => Build_OperationSpec "API-A2A-008"
      GetTaskPushNotificationConfigRequest TaskPushNotificationConfig
      "get_task_push_notification_config" false PUSH_NOTIFICATIONS
  | LIST_TASK_PUSH_NOTIFICATION_CONFIGS => Build_OperationSpec "API-A2A-009"
      ListTaskPushNotificationConfigsRequest ListTaskPushNotificationConfigsResponse
      "list_task_push_notification_configs" false PUSH_NOTIFICATIONS
  | DELETE_TASK_PUSH_NOTIFICATION_CONFIG => Build_OperationSpec "API-A2A-010"
      DeleteTaskPushNotificationConfigRequest Empty
      "delete_task_push_notification_config" false PUSH_NOTIFICATIONS
  | GET_EXTENDED_AGENT_CARD => Build_OperationSpec "API-A2A-011" GetExtendedAgentCardRequest
      AgentCard "get_extended_agent_card" false EXTENDED_AGENT_CARD
  end.

Definition operation_availability (operation : Operation) (profile : DeliveryProfile)
    (capabilities : CoreCapabilities) : OperationAvailability :=
  match (OPERATION_SPECS operation).(capability) with
  | NONE => ENABLED
  | PUSH_NOTIFICATIONS =>
    if (profile == CORE) || negb capabilities.(push_notifications)
    then PUSH_NOTIFICATION_NOT_SUPPORTED else ENABLED
  | EXTENDED_AGENT_CARD =>
    if negb capabilities.(extended_agent_card) then UNSUPPORTED_OPERATION else ENABLED
  end.

(** ** The request context *)

(** [_AGENT_ID.fullmatch] *)
Definition agent_id_first (c : N) : bool :=
  ((97 <=? c) && (c <=? 122) || (48 <=? c) && (c <=? 57))%N.
Definition agent_id_re (s : pystr) : bool :=
  match s with
  | c :: r => agent_id_first c && (Z.of_nat (length r) <=? 62)
      && forallb (fun c => agent_id_first c || (c =? 45)%N) r
  | [] => false
  end.

(** an instance of [int], which a [bool] is as well *)
Definition int_value (value : json) : option Z :=
  match value with JInt z => Some z | JBool b => Some (Z.b2z b) | _ => None end.

Module CanonicalRequestContext.
Record t := make {
  request_id : pystr; principal : Principal.t; target_agent_id : pystr; config_generation : Z }.

(** The constructor with its [__post_init__]; a [principal] that is not a
    [Principal] is [None]. *)
Definition init (request_id : json) (principal : option Principal.t)
    (target_agent_id config_generation : json) : result t :=
  request_id ←
    (match request_id with
     | JStr s => raise_if (negb (safe_token_re s)) (ValueError "request_id must be a safe token");; Ok s
     | _ => Err (ValueError "request_id must be a safe token")
     end);
  principal ← or_raise principal (ValueError "principal must be a verified Canonical Principal");
  target_agent_id ←
    (match target_agent_id with
     | JStr s => raise_if (negb (agent_id_re s)) (ValueError "target_agent_id is invalid");; Ok s
     | _ => Err (ValueError "target_agent_id is invalid")
     end);
  config_generation ← or_raise (int_value config_generation)
    (ValueError "config_generation must be a positive JSON-safe integer");
  raise_if (negb ((1 <=? config_generation) && (config_generation <=? _MAX_SAFE_INTEGER)))
    (ValueError "config_generation must be a positive JSON-safe integer");;
  Ok (make request_id principal target_agent_id config_generation).

Definition principal_id (self : t) : pystr := Principal.id (principal self).
Definition credential_id (self : t) : option pystr := Principal.credential_id (principal self).
End CanonicalRequestContext.

(** ** Dispatch *)
Class A2AProtobuf := {
  Message : Type;
  isinstance : Message -> message_type -> bool;
  (** [type(message).__name__] *)
  type_name : Message -> string;
  (** [getattr(message, "tenant", "")] *)
  tenant : Message -> pystr;
  (** [MessageToDict] and [ParseDict] with the options of [protocol/types.py] *)
  message_to_dict : Message -> result dict;
  parse_dict : message_type -> assignments -> result Message }.

Section Dispatch.
Context `{A2AProtobuf}.

(** an attribute of the application object *)
Inductive attribute :=
| NotCallable
| Handler (call : Message -> CanonicalRequestContext.t -> result Message).

(** What [dispatch_unary] calls, if anything, and how it ends. *)
Definition dispatch_unary (application : string -> option attribute) (operation : Operation)
    (request : Message) (context : CanonicalRequestContext.t)
    : option (string * Message * CanonicalRequestContext.t) * result Message :=
  let spec := OPERATION_SPECS operation in
  let name := operation_name operation in
  if spec.(spec_streaming) then
    (None, Err (InvalidRequestError (name <+> " is streaming and requires streaming dispatch")))
  else if negb (isinstance request spec.(request_type)) then
    (None, Err (InvalidParamsError (name <+> " requires " <+> message_type_name spec.(request_type)
      <+> ", got " <+> type_name request)))
  else if tenant request != [] then
    (None, Err (InvalidParamsError "non-empty tenant is not supported by A2AMesh V1"))
  else
    match application spec.(handler_name) with
    | Some (Handler call) =>
      (Some (spec.(handler_name), request, context),
       result ← call request context;
       raise_if (negb (isinstance result spec.(response_type)))
         (InvalidAgentResponseError (name <+> " must return "
           <+> message_type_name spec.(response_type) <+> ", got " <+> type_name result));;
       Ok result)
    | _ => (None, Err (InvalidAgentResponseError
        ("canonical application does not implement " <+> spec.(handler_name))))
    end.
End Dispatch.
