(* ===== verification/JsonBytes.v ===== *)
(** * JSON on bytes: [json.loads] of [bytes], and [json.dumps]

    [json.loads] guesses the encoding of bytes and decodes them with the error
    handler [surrogatepass]; the binding's readers hand it what arrives.  Its
    writers call [json.dumps] with sorted keys and the shortest separators.  The
    literal of a float, which [MessageToDict] is what makes, is the text Python
    writes for it. *)
From S2P Require Import Prelude PyStr Json Contract Stream.
Local Open Scope N_scope.

(** ** Decoding *)

(** a surrogate as [surrogatepass] lets it through, or a scalar value *)
Definition code_point (c : N) : bool := c <? 0x110000.

(** [b.decode("utf-8", "surrogatepass")] *)
Fixpoint decode_utf8_pass (b : pybytes) : result pystr :=
  match b with
  | [] => Ok []
  | b0 :: r0 =>
    if b0 <? 0x80 then s ← decode_utf8_pass r0; Ok (b0 :: s)
    else if b0 <? 0xC2 then Err UnicodeError
    else match r0 with
    | [] => Err UnicodeError
    | b1 :: r1 =>
      if negb (is_cont b1) then Err UnicodeError
      else if b0 <? 0xE0 then
        s ← decode_utf8_pass r1; Ok ((b0 - 0xC0) * 64 + (b1 - 0x80) :: s)
      else match r1 with
      | [] => Err UnicodeError
      | b2 :: r2 =>
        if negb (is_cont b2) then Err UnicodeError
        else if b0 <? 0xF0 then
          let c := (b0 - 0xE0) * 4096 + (b1 - 0x80) * 64 + (b2 - 0x80) in
          if 0x800 <=? c then s ← decode_utf8_pass r2; Ok (c :: s) else Err UnicodeError
        else match r2 with
        | [] => Err UnicodeError
        | b3 :: r3 =>
          let c := (b0 - 0xF0) * 262144 + (b1 - 0x80) * 4096 + (b2 - 0x80) * 64 + (b3 - 0x80) in
          if is_cont b3 && (b0 <? 0xF5) && (0x10000 <=? c) && code_point c
          then s ← decode_utf8_pass r3; Ok (c :: s) else Err UnicodeError
        end
      end
    end
  end.

(** [b.decode("utf-16-be", "surrogatepass")] on the code units of [b]: a pair of
    surrogates is one character, one alone is let through *)
Fixpoint join_surrogates (units : list N) : pystr :=
  match units with
  | [] => []
  | h :: units' =>
    match units' with
    | l :: rest =>
      if (0xD800 <=? h) && (h <? 0xDC00) && (0xDC00 <=? l) && (l <? 0xE000)
      then 0x10000 + (h - 0xD800) * 1024 + (l - 0xDC00) :: join_surrogates rest
      else h :: join_surrogates units'
    | [] => [h]
    end
  end.

Fixpoint units16 (big : bool) (b : pybytes) : result (list N) :=
  match b with
  | [] => Ok []
  | [_] => Err UnicodeError
  | x :: y :: b => r ← units16 big b; Ok ((if big then x * 256 + y else y * 256 + x) :: r)
  end.
Definition decode_utf16 (big : bool) (b : pybytes) : result pystr :=
  units ← units16 big b; Ok (join_surrogates units).

(** [b.decode("utf-32-be", "surrogatepass")] *)
Fixpoint decode_utf32 (big : bool) (b : pybytes) : result pystr :=
  match b with
  | [] => Ok []
  | w :: x :: y :: z :: b =>
    let c := if big then ((w * 256 + x) * 256 + y) * 256 + z else ((z * 256 + y) * 256 + x) * 256 + w in
    if code_point c then s ← decode_utf32 big b; Ok (c :: s) else Err UnicodeError
  | _ => Err UnicodeError
  end.

Definition nonzero (b : pybytes) (i : nat) : bool :=
  match nth_error b i with Some x => negb (x =? 0) | None => false end.

(** [json.detect_encoding(b)] and the decoding *)
Definition decode_json (b : pybytes) : result pystr :=
  match b with
  | 0x00 :: 0x00 :: 0xFE :: 0xFF :: r => decode_utf32 true r
  | 0xFF :: 0xFE :: 0x00 :: 0x00 :: r => decode_utf32 false r
  | 0xFE :: 0xFF :: r => decode_utf16 true r
  | 0xFF :: 0xFE :: r => decode_utf16 false r
  | 0xEF :: 0xBB :: 0xBF :: r => decode_utf8_pass r
  | [x; y] =>
    if x =? 0 then decode_utf16 true b else if y =? 0 then decode_utf16 false b else decode_utf8_pass b
  | _ :: _ :: _ :: _ :: _ =>
    if negb (nonzero b 0) then if nonzero b 1 then decode_utf16 true b else decode_utf32 true b
    else if negb (nonzero b 1) then
      if nonzero b 2 || nonzero b 3 then decode_utf16 false b else decode_utf32 false b
    else decode_utf8_pass b
  | _ => decode_utf8_pass b
  end.

(** [json.loads(b, object_pairs_hook=hook)]: NaN and the infinities are floats.  The limit on
    recursion is left out of the binding's readers: a text cannot nest deeper than it is long. *)
Definition json_loads_bytes (hook : list (pystr * json) -> result (list (pystr * json)))
    (b : pybytes) : result json :=
  s ← decode_json b; json_loads hook (fun constant => Ok (JFloat constant)) (length s) s.

(** [_unique_object] of the binding's readers; the message is cut before the key *)
Fixpoint unique_object_go (acc l : list (pystr * json)) : result (list (pystr * json)) :=
  match l with
  | [] => Ok acc
  | (key, value) :: l =>
    if existsb (fun kv => bool_decide (kv.1 = key)) acc then Err (binding "duplicate JSON key: ")
    else unique_object_go (acc ++ [(key, value)]) l
  end.
Definition _unique_object (pairs : list (pystr * json)) : result (list (pystr * json)) :=
  unique_object_go [] pairs.

(** [decoded = json.loads(data, object_pairs_hook=_unique_object)] with the handling of its errors,
    and the check that it is an object *)
Definition decode_object (data : pybytes) (not_json not_object : string) : result dict :=
  decoded ← except (json_loads_bytes _unique_object data)
    (fun e => match e with UnicodeError | JSONDecodeError => true | _ => false end)
    (binding not_json);
  match decoded with JObj kvs => Ok kvs | _ => Err (binding not_object) end.

(** ** Encoding *)

(** the escapes of [json.dumps] with [ensure_ascii=False] *)
Definition escape_char (c : N) : pystr :=
  if c =? 34 then [92; 34]
  else if c =? 92 then [92; 92]
  else if c =? 8 then u "\b"
  else if c =? 12 then u "\f"
  else if c =? 10 then u "\n"
  else if c =? 13 then u "\r"
  else if c =? 9 then u "\t"
  else if c <? 32 then u "\u00" ++ [hex_digit (c / 16); hex_digit (c mod 16)]
  else [c].
Definition dump_string (s : pystr) : pystr := [34] ++ flat_map escape_char s ++ [34].

(** members in the order of the code points of their keys *)
Fixpoint insert_sorted {A} (kv : pystr * A) (l : list (pystr * A)) : list (pystr * A) :=
  match l with
  | [] => [kv]
  | kv' :: l' => if bytes_leb kv.1 kv'.1 then kv :: l else kv' :: insert_sorted kv l'
  end.
Definition sort_keys {A} (l : list (pystr * A)) : list (pystr * A) := foldr insert_sorted [] l.

(** [json.dumps(v, ensure_ascii=False, sort_keys=True, separators=(",", ":"))] *)
Fixpoint json_dumps (v : json) : pystr :=
  match v with
  | JNull => u "null"
  | JBool true => u "true"
  | JBool false => u "false"
  | JInt z => py_str_int z
  | JFloat literal => literal
  | JStr s => dump_string s
  | JArr l => [91] ++ join_sep 44 (map json_dumps l) ++ [93]
  | JObj kvs =>
    [123] ++ join_sep 44 (map (fun '(k, text) => dump_string k ++ [58] ++ text)
      (sort_keys (map (fun '(k, x) => (k, json_dumps x)) kvs))) ++ [125]
  end.

(** [json.dumps(v, ...).encode("utf-8")] *)
Definition to_bytes (v : json) : result pybytes := encode_utf8 (json_dumps v).

Example dumps_ex : json_dumps (JObj [(u "b", JArr [JInt (-1); JNull]); (u "a", JStr [34; 10; 0xE9])])
  = u "{" ++ [34] ++ u "a" ++ [34] ++ u ":" ++ [34] ++ u "\" ++ [34] ++ u "\n" ++ [0xE9; 34]
    ++ u "," ++ [34] ++ u "b" ++ [34] ++ u ":[-1,null]}".
Proof. reflexivity. Qed.
Example loads_utf16_ex : json_loads_bytes _unique_object [0xFF; 0xFE; 91; 0; 93; 0] = Ok (JArr []).
Proof. reflexivity. Qed.
Example loads_utf8_ex : json_loads_bytes _unique_object [91; 34; 0xED; 0xA0; 0x80; 34; 44; 78; 97; 78; 93]
  = Ok (JArr [JStr [0xD800]; JFloat (u "NaN")]).
Proof. reflexivity. Qed.
