(* ===== verification/Envelope.v ===== *)
(** * The request envelope of the NATS binding

    [bindings/nats_v1/envelope.py].  The JSON Schema validator and the parser
    [datetime.fromisoformat], whose accepted texts differ between the Python
    versions the project supports, are operations of classes; the protobuf
    runtime is the class of [Operations.v].

    A [datetime] is the record of [Stream.v] with its wall clock counted from
    1970-01-01T00:00:00; that Python keeps years between 1 and 9999 and raises
    [OverflowError] outside is left out, and so is a time zone that gives no
    offset.  A configuration generation is an
    integer: the schema also lets an integral float literal through, which is
    left out. *)
From S2P Require Import Prelude PyStr Json Contract Identity Stream JsonBytes Operations.
Local Open Scope string_scope.
Local Open Scope list_scope.
Local Open Scope Z_scope.
Local Open Scope py_scope.

Definition BINDING_URI : pystr := u "https://a2amesh.dev/bindings/nats/v1".
Definition BINDING_SCHEMA_VERSION : pystr := u "1.1".
Definition A2A_PROTOCOL_VERSION : pystr := u "1.0".

(** ** Timestamps *)

(** the civil date of a day counted from 1970-01-01, in the proleptic
    Gregorian calendar of [datetime]: 400-year eras of 146097 days that begin
    on a first of March *)
Definition civil_of_day (day : Z) : Z * Z * Z :=
  let z := day + 719468 in
  let era := z / 146097 in
  let doe := z mod 146097 in
  let yoe := (doe - doe / 1460 + doe / 36524 - doe / 146096) / 365 in
  let doy := doe - (365 * yoe + yoe / 4 - yoe / 100) in
  let mp := (5 * doy + 2) / 153 in
  let d := doy - (153 * mp + 2) / 5 + 1 in
  let m := if mp <? 10 then mp + 3 else mp - 9 in
  (yoe + era * 400 + (if m <=? 2 then 1 else 0), m, d).

(** [n] written with [width] decimal digits *)
Fixpoint digits (width : nat) (n : Z) : pystr :=
  match width with
  | O => []
  | S width => digits width (n / 10) ++ [Z.to_N (48 + n mod 10)]
  end.

(** the instant of an aware [datetime], in microseconds of UTC *)
Definition instant (value : datetime) : Z := wall_clock_us value - default 0 (utcoffset_us value).

Definition aware (value : datetime) : bool := bool_decide (is_Some (utcoffset_us value)).

(** [isoformat(timespec="seconds")] of a second of UTC, before its offset *)
Definition isoformat_seconds (second : Z) : pystr :=
  let '(y, m, d) := civil_of_day (second / 86400) in
  let s := second mod 86400 in
  digits 4 y ++ u "-" ++ digits 2 m ++ u "-" ++ digits 2 d ++ u "T"
  ++ digits 2 (s / 3600) ++ u ":" ++ digits 2 (s / 60 mod 60) ++ u ":" ++ digits 2 (s mod 60).

(** [value.astimezone(UTC).isoformat(timespec="seconds").replace("+00:00", "Z")]
    for an aware [value] *)
Definition _format_timestamp (value : datetime) : pystr :=
  isoformat_seconds (instant value / 1000000) ++ u "Z".

(** [datetime.fromisoformat] *)
Class IsoParser := { fromisoformat : pystr -> result datetime }.

(** [value.replace("Z", "+00:00")] *)
Definition replace_z (value : pystr) : pystr :=
  flat_map (fun c => if (c =? 90)%N then u "+00:00" else [c]) value.

(** the message of the first error, which quotes the text, is cut before it *)
Definition _parse_timestamp `{IsoParser} (value : pystr) : result datetime :=
  parsed ← except (fromisoformat (replace_z value))
    (fun e => match e with ValueError _ => true | _ => false end)
    (binding "invalid RFC 3339 timestamp: ");
  raise_if (negb (aware parsed)) (binding "timestamp must include an offset");;
  Ok parsed.

(** ** Authentication *)
Module BindingAuthContext.
Record t := make {
  principal_id : pystr; credential_id : pystr; method : pystr; issuer : pystr; subject : pystr;
  issued_at : datetime; expires_at : datetime }.

Definition to_dict (self : t) : dict :=
  [(u "principalId", JStr (principal_id self)); (u "credentialId", JStr (credential_id self));
   (u "method", JStr (method self)); (u "issuer", JStr (issuer self));
   (u "subject", JStr (subject self));
   (u "issuedAt", JStr (_format_timestamp (issued_at self)));
   (u "expiresAt", JStr (_format_timestamp (expires_at self)))].
End BindingAuthContext.

Definition unsigned_members (proof : AuthProof.t) : dict :=
  [(u "signer", JStr (AuthProof.signer proof)); (u "algorithm", JStr (AuthProof.algorithm proof))].
Definition proof_dict (proof : AuthProof.t) : dict :=
  unsigned_members proof ++ [(u "signature", JStr (AuthProof.signature proof))].

(** ** The envelope *)

(** the first violation of the request schema, as the source renders it *)
Class RequestSchema := { request_violation : dict -> option string }.

Definition _validate_schema `{RequestSchema} (data : dict) : result unit :=
  match request_violation data with
  | Some violation => Err (binding ("request schema violation at " <+> violation))
  | None => Ok tt
  end.

(** [data[key]] *)
Definition item (data : dict) (key : string) : result json := or_raise (dict_get (u key) data) KeyError.
(** [data[key]] where the schema asks for a mapping, a text, a text or [None],
    or an integer *)
Definition dict_item_at (data : dict) (key : string) : result dict :=
  v ← item data key; match v with JObj kvs => Ok kvs | _ => Err TypeError end.
Definition text_at (data : dict) (key : string) : result pystr :=
  v ← item data key; match v with JStr s => Ok s | _ => Err TypeError end.
Definition optional_text_at (data : dict) (key : string) : result (option pystr) :=
  v ← item data key; match v with JStr s => Ok (Some s) | JNull => Ok None | _ => Err TypeError end.
Definition int_at (data : dict) (key : string) : result Z :=
  v ← item data key; or_raise (int_value v) TypeError.

(** [Operation(value)] *)
Definition all_operations : list Operation :=
  [SEND_MESSAGE; SEND_STREAMING_MESSAGE; GET_TASK; LIST_TASKS; CANCEL_TASK; SUBSCRIBE_TO_TASK;
   CREATE_TASK_PUSH_NOTIFICATION_CONFIG; GET_TASK_PUSH_NOTIFICATION_CONFIG;
   LIST_TASK_PUSH_NOTIFICATION_CONFIGS; DELETE_TASK_PUSH_NOTIFICATION_CONFIG;
   GET_EXTENDED_AGENT_CARD].
Definition parse_operation (value : json) : result Operation :=
  match value with
  | JStr name =>
    or_raise (List.find (fun o => u (operation_name o) == name) all_operations)
      (ValueError "not a valid Operation")
  | _ => Err (ValueError "not a valid Operation")
  end.

Module BindingRequestEnvelope.
Section Envelope.
Context `{A2AProtobuf} `{IsoParser} `{RequestSchema}.

Record t := make {
  operation : Operation;
  request_id : pystr;
  caller_instance_id : pystr;
  stream_open_id : option pystr;
  config_generation : Z;
  caller_agent_id : pystr;
  auth_context : BindingAuthContext.t;
  auth_proof : AuthProof.t;
  target_agent_id : pystr;
  sent_at : datetime;
  deadline_at : datetime;
  reply_subject : pystr;
  payload : Message }.

(** the checks of [__post_init__]; a message without a tenant field has the
    empty [tenant] *)
Definition post_init (self : t) : result unit :=
  raise_if (negb (safe_token_re (request_id self))) (binding "requestId is not a safe token");;
  raise_if (negb (safe_token_re (caller_instance_id self)))
    (binding "callerInstanceId is not a safe token");;
  raise_if (negb (agent_id_re (caller_agent_id self))) (binding "callerAgentId is invalid");;
  raise_if (negb (agent_id_re (target_agent_id self))) (binding "targetAgentId is invalid");;
  raise_if (config_generation self <? 1) (binding "configGeneration must be positive");;
  (if streaming (operation self) then
    raise_if (match stream_open_id self with None => true | Some s => negb (safe_token_re s) end)
      (binding "streamOpenId is required for streaming operations")
  else
    raise_if (bool_decide (is_Some (stream_open_id self)))
      (binding "streamOpenId must be null for unary operations"));;
  raise_if (negb (aware (sent_at self)) || negb (aware (deadline_at self)))
    (binding "sentAt and deadlineAt must be timezone-aware");;
  raise_if (instant (deadline_at self) <=? instant (sent_at self))
    (binding "deadlineAt must be later than sentAt");;
  let issued_at := BindingAuthContext.issued_at (auth_context self) in
  let expires_at := BindingAuthContext.expires_at (auth_context self) in
  raise_if (negb (aware issued_at) || negb (aware expires_at))
    (binding "AuthContext timestamps must be timezone-aware");;
  raise_if (instant expires_at <=? instant issued_at)
    (binding "AuthContext expiresAt must be later than issuedAt");;
  raise_if (negb ((instant issued_at <=? instant (sent_at self))
      && (instant (sent_at self) <? instant expires_at)))
    (binding "AuthContext is not valid at sentAt");;
  let expected_type := (OPERATION_SPECS (operation self)).(request_type) in
  raise_if (negb (isinstance (payload self) expected_type))
    (binding ("payload type for " <+> operation_name (operation self) <+> " must be "
      <+> message_type_name expected_type));;
  raise_if (tenant (payload self) != []) (binding "tenant must be empty in A2AMesh V1").

(** the constructor *)
Definition init (self : t) : result t := post_init self;; Ok self.

Definition members (self : t) (proof : dict) (payload : dict) : dict :=
  [(u "bindingUri", JStr BINDING_URI);
   (u "bindingSchemaVersion", JStr BINDING_SCHEMA_VERSION);
   (u "a2aProtocolVersion", JStr A2A_PROTOCOL_VERSION);
   (u "operation", JStr (u (operation_name (operation self))));
   (u "requestId", JStr (request_id self));
   (u "callerInstanceId", JStr (caller_instance_id self));
   (u "streamOpenId", match stream_open_id self with Some s => JStr s | None => JNull end);
   (u "configGeneration", JInt (config_generation self));
   (u "callerAgentId", JStr (caller_agent_id self));
   (u "authContext", JObj (BindingAuthContext.to_dict (auth_context self)));
   (u "authProof", JObj proof);
   (u "targetAgentId", JStr (target_agent_id self));
   (u "sentAt", JStr (_format_timestamp (sent_at self)));
   (u "deadlineAt", JStr (_format_timestamp (deadline_at self)));
   (u "replySubject", JStr (reply_subject self));
   (u "payload", JObj payload)].

Definition to_dict (self : t) : result dict :=
  payload ← message_to_dict (payload self);
  let envelope := members self (proof_dict (auth_proof self)) payload in
  _validate_schema envelope;;
  Ok envelope.

(** [del envelope["authProof"]["signature"]] on the dict of [to_dict] *)
Definition signing_payload_dict (self : t) : result dict :=
  to_dict self;;
  payload ← message_to_dict (payload self);
  Ok (members self (unsigned_members (auth_proof self)) payload).

Definition from_dict (data : dict) : result t :=
  _validate_schema data;;
  '(operation, payload) ← except
    (value ← item data "operation";
     operation ← parse_operation value;
     payload ← item data "payload";
     items ← dict_of_value payload;
     payload ← parse_dict (OPERATION_SPECS operation).(request_type) items;
     Ok (operation, payload))
    (fun e => match e with
              | KeyError | ValueError _ | ParseError | BindingValidationError _ | UnicodeError
              | JSONDecodeError => true
              | _ => false end)
    (binding "invalid official A2A payload: ");
  auth_context ← dict_item_at data "authContext";
  auth_proof ← dict_item_at data "authProof";
  request_id ← text_at data "requestId";
  caller_instance_id ← text_at data "callerInstanceId";
  stream_open_id ← optional_text_at data "streamOpenId";
  config_generation ← int_at data "configGeneration";
  caller_agent_id ← text_at data "callerAgentId";
  principal_id ← text_at auth_context "principalId";
  credential_id ← text_at auth_context "credentialId";
  method ← text_at auth_context "method";
  issuer ← text_at auth_context "issuer";
  subject ← text_at auth_context "subject";
  issued_at ← (s ← text_at auth_context "issuedAt"; _parse_timestamp s);
  expires_at ← (s ← text_at auth_context "expiresAt"; _parse_timestamp s);
  signer ← text_at auth_proof "signer";
  algorithm ← text_at auth_proof "algorithm";
  signature ← text_at auth_proof "signature";
  target_agent_id ← text_at data "targetAgentId";
  sent_at ← (s ← text_at data "sentAt"; _parse_timestamp s);
  deadline_at ← (s ← text_at data "deadlineAt"; _parse_timestamp s);
  reply_subject ← text_at data "replySubject";
  init (make operation request_id caller_instance_id stream_open_id config_generation caller_agent_id
    (BindingAuthContext.make principal_id credential_id method issuer subject issued_at expires_at)
    (AuthProof.make signer algorithm signature)
    target_agent_id sent_at deadline_at reply_subject payload).

Definition to_json_bytes (self : t) : result pybytes :=
  data ← to_dict self; to_bytes (JObj data).

Definition from_json_bytes (data : pybytes) : result t :=
  decoded ← decode_object data "request is not valid UTF-8 JSON"
    "request envelope must be a JSON object";
  from_dict decoded.
End Envelope.
End BindingRequestEnvelope.
