(* ===== verification/BindingAuth.v ===== *)
(** * Authentication of requests of the NATS binding

    [bindings/nats_v1/auth.py].  What is verified is any object with the
    attributes of the protocol [SignedBindingEnvelope], which is a class here,
    and request envelopes are an instance.  The replay guard is an object the
    deployment supplies: the class [RequestReplayGuard], whose state goes in and
    out of every call together with the reading of its own clock. *)
From S2P Require Import Prelude PyStr Json Contract Identity Stream Operations Envelope.
Local Open Scope string_scope.
Local Open Scope list_scope.
Local Open Scope Z_scope.
Local Open Scope py_scope.

Definition AUTH_ALGORITHM : pystr := u "nkey-ed25519".
Definition RPC_SUBJECT_PREFIX : pystr := u "a2a.v1.rpc.".

(** [_REPLY_PREFIX.fullmatch]: the character class does not contain the dot *)
Definition reply_prefix_re (s : pystr) : bool :=
  match split_dots s with
  | [inbox; mesh; caller; rest] =>
    (inbox == u "_INBOX") && (mesh == u "a2amesh") && (caller != []) && forallb is_b64 caller
    && (rest == [])
  | _ => false
  end.

(** [s.startswith(prefix)] *)
Definition startswith (s prefix : pystr) : bool := bool_decide (is_Some (strip_prefix prefix s)).

(** ** The protocols *)
Class SignedBindingEnvelope := {
  Signed : Type;
  s_request_id : Signed -> pystr;
  s_caller_instance_id : Signed -> pystr;
  s_config_generation : Signed -> Z;
  s_caller_agent_id : Signed -> pystr;
  s_auth_context : Signed -> BindingAuthContext.t;
  s_auth_proof : Signed -> AuthProof.t;
  s_target_agent_id : Signed -> pystr;
  s_sent_at : Signed -> datetime;
  s_deadline_at : Signed -> datetime;
  s_reply_subject : Signed -> pystr;
  s_signing_payload_dict : Signed -> result dict }.

#[export] Instance request_envelope_signed `{A2AProtobuf} `{RequestSchema} : SignedBindingEnvelope := {|
  Signed := BindingRequestEnvelope.t;
  s_request_id := BindingRequestEnvelope.request_id;
  s_caller_instance_id := BindingRequestEnvelope.caller_instance_id;
  s_config_generation := BindingRequestEnvelope.config_generation;
  s_caller_agent_id := BindingRequestEnvelope.caller_agent_id;
  s_auth_context := BindingRequestEnvelope.auth_context;
  s_auth_proof := BindingRequestEnvelope.auth_proof;
  s_target_agent_id := BindingRequestEnvelope.target_agent_id;
  s_sent_at := BindingRequestEnvelope.sent_at;
  s_deadline_at := BindingRequestEnvelope.deadline_at;
  s_reply_subject := BindingRequestEnvelope.reply_subject;
  s_signing_payload_dict := BindingRequestEnvelope.signing_payload_dict |}.

(** the arguments of [claim]; [claim_expires_at] is an instant in microseconds *)
Record Claim := {
  claim_principal : pystr; claim_target : pystr; claim_request : pystr; claim_expires_at : Z }.

Class RequestReplayGuard := {
  Guard : Type;
  (** the guard's clock reads [now] *)
  claim : Guard -> Claim -> forall now : Z, Guard * result bool }.

Record VerifiedBindingIdentity := {
  verified_principal : Principal.t; verified_signer : pystr; verified_request_id : pystr }.

(** [VerifiedBindingIdentity.principal_id] and [.credential_id] *)
Definition verified_principal_id (self : VerifiedBindingIdentity) : pystr :=
  Principal.id self.(verified_principal).
Definition verified_credential_id (self : VerifiedBindingIdentity) : option pystr :=
  Principal.credential_id self.(verified_principal).

(** ** Signing *)
Section Signing.
Context `{RFC8785} `{SignedBindingEnvelope}.

Definition canonical_signing_bytes (envelope : Signed) : result pybytes :=
  except (payload ← s_signing_payload_dict envelope; rfc8785_dumps (JObj payload))
    (fun e => match e with
              | CanonicalizationError | SerializeToJsonError | TypeError | UnicodeError => true
              | _ => false end)
    (binding "envelope cannot be RFC 8785 canonicalized").
End Signing.

Section SignRequest.
Context `{RFC8785} `{A2AProtobuf} `{RequestSchema} `{NKeys}.

(** [replace(envelope, auth_proof=proof)], which runs [__post_init__] again *)
Definition with_proof (envelope : BindingRequestEnvelope.t) (proof : AuthProof.t)
    : result BindingRequestEnvelope.t :=
  let '(BindingRequestEnvelope.make operation request_id caller_instance_id stream_open_id
    config_generation caller_agent_id auth_context _ target_agent_id sent_at deadline_at
    reply_subject payload) := envelope in
  BindingRequestEnvelope.init (BindingRequestEnvelope.make operation request_id caller_instance_id
    stream_open_id config_generation caller_agent_id auth_context proof target_agent_id sent_at
    deadline_at reply_subject payload).

Definition sign_request_envelope (envelope : BindingRequestEnvelope.t) (key_pair : KeyPair)
    : result BindingRequestEnvelope.t :=
  signer ← nkey_public_key key_pair;
  unsigned ← with_proof envelope (AuthProof.make signer AUTH_ALGORITHM (u "unsigned"));
  payload ← canonical_signing_bytes unsigned;
  with_proof unsigned (AuthProof.make signer AUTH_ALGORITHM (sign_nkey payload key_pair)).
End SignRequest.

(** ** The verifier *)
Module BindingAuthVerifier.
(** the times are in microseconds *)
Record t := make {
  _signer_policies : gmap pystr SignerPolicy;
  _clock_skew : Z;
  _max_auth_lifetime : Z }.

Definition init (signer_policies : gmap pystr SignerPolicy) (has_replay_guard : bool)
    (clock_skew_seconds max_auth_lifetime_seconds : Z) : result t :=
  raise_if (signer_policies == ∅) (ValueError "at least one binding signer policy is required");;
  raise_if (negb has_replay_guard) (ValueError "a durable request replay guard is required");;
  raise_if (clock_skew_seconds <? 0) (ValueError "clock skew cannot be negative");;
  raise_if (negb ((1 <=? max_auth_lifetime_seconds) && (max_auth_lifetime_seconds <=? 900)))
    (ValueError "max AuthContext lifetime must be between 1 and 900 seconds");;
  Ok (make signer_policies (clock_skew_seconds * 1000000) (max_auth_lifetime_seconds * 1000000)).

(** the instant of a [datetime] that is compared with an aware one *)
Definition compared (value : datetime) : result Z :=
  raise_if (negb (aware value)) TypeError;; Ok (instant value).

Section Verify.
Context `{RFC8785} `{SignedBindingEnvelope} `{NKeys} `{RequestReplayGuard}.

(** the arguments of [verify_subject] besides the envelope and the clock *)
Record Expectation := {
  received_subject : pystr;
  expected_subject : pystr;
  connection_public_key : pystr;
  expected_target_agent_id : pystr;
  expected_caller_agent_id : pystr;
  expected_caller_instance_id : pystr;
  allowed_reply_prefix : pystr;
  expected_config_generation : Z }.

(** the checks on the proof and on what its signer may do *)
Definition check_signer (self : t) (proof : AuthProof.t) (context : BindingAuthContext.t)
    (connection_public_key : pystr) : result unit :=
  policy ←
    (match _signer_policies self !! AuthProof.signer proof with
     | Some policy =>
       raise_if (AuthProof.algorithm proof != AUTH_ALGORITHM) (binding "untrusted binding signer");;
       Ok policy
     | None => Err (binding "untrusted binding signer")
     end);
  raise_if (negb (startswith (AuthProof.signer proof) (u "U")))
    (binding "binding signer must be a user NKey");;
  raise_if (AuthProof.signer proof != connection_public_key)
    (binding "AuthProof signer does not match NATS connection");;
  raise_if (negb (bool_decide (BindingAuthContext.principal_id context ∈ principal_ids policy)))
    (binding "signer cannot represent this principal");;
  raise_if (negb (bool_decide (BindingAuthContext.method context ∈ methods policy)))
    (binding "signer cannot use this authentication method");;
  raise_if (negb (bool_decide (BindingAuthContext.subject context ∈ subjects policy)))
    (binding "signer cannot represent this subject").

(** the checks on where the request goes and where it comes from *)
Definition check_route (envelope : Signed) (e : Expectation) : result unit :=
  raise_if (s_target_agent_id envelope != e.(expected_target_agent_id))
    (binding "targetAgentId does not match the receiving agent");;
  raise_if (e.(received_subject) != e.(expected_subject))
    (binding "request arrived on the wrong NATS subject");;
  raise_if (s_caller_agent_id envelope != e.(expected_caller_agent_id))
    (binding "callerAgentId does not match authenticated presence");;
  raise_if (s_caller_instance_id envelope != e.(expected_caller_instance_id))
    (binding "callerInstanceId does not match authenticated presence");;
  raise_if (negb (reply_prefix_re e.(allowed_reply_prefix)))
    (binding "allowed reply prefix is invalid");;
  raise_if (negb (startswith (s_reply_subject envelope) e.(allowed_reply_prefix)))
    (binding "replySubject is outside the authenticated caller prefix");;
  raise_if (s_config_generation envelope != e.(expected_config_generation))
    (binding "configGeneration does not match expected generation").

(** the checks against the clock *)
Definition check_times (self : t) (envelope : Signed) (current : Z) : result unit :=
  let context := s_auth_context envelope in
  issued_at ← compared (BindingAuthContext.issued_at context);
  raise_if (current + _clock_skew self <? issued_at)
    (binding "AuthContext was issued in the future");;
  expires_at ← compared (BindingAuthContext.expires_at context);
  raise_if (expires_at <=? current - _clock_skew self) (binding "AuthContext expired");;
  raise_if (_max_auth_lifetime self <? expires_at - issued_at)
    (binding "AuthContext lifetime exceeds policy");;
  sent_at ← compared (s_sent_at envelope);
  raise_if (current + _clock_skew self <? sent_at) (binding "request sentAt is in the future");;
  deadline_at ← compared (s_deadline_at envelope);
  raise_if (deadline_at <=? current - _clock_skew self) (binding "request deadline expired").

Definition check_signature (envelope : Signed) : result unit :=
  let proof := s_auth_proof envelope in
  except
    (payload ← canonical_signing_bytes envelope;
     verify_nkey_signature (AuthProof.signer proof) payload (AuthProof.signature proof))
    (fun e => match e with
              | ValueError _ | BindingValidationError _ | UnicodeError | JSONDecodeError => true
              | _ => false end)
    (binding "invalid binding AuthProof signature").

(** everything before the request identifier is claimed *)
Definition check (self : t) (envelope : Signed) (e : Expectation) (now : datetime) : result unit :=
  raise_if (negb (aware now)) (binding "verification clock must be timezone-aware");;
  check_signer self (s_auth_proof envelope) (s_auth_context envelope) e.(connection_public_key);;
  check_route envelope e;;
  check_times self envelope (instant now);;
  check_signature envelope.

(** the claim of a request *)
Definition claim_of (envelope : Signed) : Claim :=
  {| claim_principal := BindingAuthContext.principal_id (s_auth_context envelope);
     claim_target := s_target_agent_id envelope;
     claim_request := s_request_id envelope;
     claim_expires_at := Z.min (instant (BindingAuthContext.expires_at (s_auth_context envelope)))
       (instant (s_deadline_at envelope)) |}.

(** [guard_now] is what the guard's clock reads when it is asked; an omitted
    [now] is the reading of [datetime.now(UTC)]. *)
Definition verify_subject (self : t) (guard : Guard) (envelope : Signed) (e : Expectation)
    (now : datetime) (guard_now : Z) : Guard * result VerifiedBindingIdentity :=
  match check self envelope e now with
  | Err e => (guard, Err e)
  | Ok _ =>
    let context := s_auth_context envelope in
    let '(guard, claimed) := claim guard (claim_of envelope) guard_now in
    (guard,
     claimed ← claimed;
     raise_if (negb claimed) (binding "binding request replay detected");;
     principal ← Principal.init (BindingAuthContext.principal_id context)
       (before_colon (BindingAuthContext.principal_id context))
       (Some (BindingAuthContext.credential_id context)) 0;
     Ok {| verified_principal := principal;
           verified_signer := AuthProof.signer (s_auth_proof envelope);
           verified_request_id := s_request_id envelope |})
  end.
End Verify.

Section VerifyRequest.
Context `{RFC8785} `{A2AProtobuf} `{RequestSchema} `{NKeys} `{RequestReplayGuard}.

Definition verify (self : t) (guard : Guard) (envelope : BindingRequestEnvelope.t)
    (received_subject connection_public_key expected_target_agent_id expected_caller_agent_id
     expected_caller_instance_id allowed_reply_prefix : pystr) (active_config_generation : Z)
    (now : datetime) (guard_now : Z) : Guard * result VerifiedBindingIdentity :=
  verify_subject self guard envelope
    {| received_subject := received_subject;
       expected_subject := RPC_SUBJECT_PREFIX ++ expected_target_agent_id;
       connection_public_key := connection_public_key;
       expected_target_agent_id := expected_target_agent_id;
       expected_caller_agent_id := expected_caller_agent_id;
       expected_caller_instance_id := expected_caller_instance_id;
       allowed_reply_prefix := allowed_reply_prefix;
       expected_config_generation := active_config_generation |} now guard_now.
End VerifyRequest.
End BindingAuthVerifier.
