(* ===== verification/EnvelopeFacts.v ===== *)
(** * Request envelopes of the NATS binding: facts

    When [__post_init__] accepts an envelope, and what [from_dict] makes of the
    dict of [to_dict]: the envelope with its timestamps cut to whole seconds. *)
From S2P Require Import Prelude PyStr Json JsonFacts Contract Identity Stream Operations Envelope.
Local Open Scope string_scope.
Local Open Scope list_scope.
Local Open Scope Z_scope.
Local Open Scope py_scope.

(** ** Timestamps *)

(** the whole second an instant is in *)
Definition second_of (value : datetime) : Z := instant value / 1000000.
Definition utc_second (second : Z) : datetime :=
  {| wall_clock_us := second * 1000000; utcoffset_us := Some 0 |}.
(** an aware [datetime] in UTC without a fraction of a second *)
Definition whole (value : datetime) : Prop := value = utc_second (second_of value).

Lemma instant_utc_second s : instant (utc_second s) = s * 1000000.
Proof. unfold instant. cbn. lia. Qed.

(** what [_parse_timestamp] hands to [fromisoformat] *)
Definition utc_text (second : Z) : pystr := isoformat_seconds second ++ u "+00:00".

Definition no_z (c : N) : Prop := c <> 90%N.
Lemma replace_z_id s : Forall no_z s -> replace_z s = s.
Proof.
  induction 1 as [|c s Hc _ IH]; [done|]. unfold replace_z in *. cbn. rewrite IH.
  by destruct (N.eqb_spec c 90).
Qed.

Lemma digits_no_z width : forall n, Forall no_z (digits width n).
Proof.
  induction width as [|width IH]; intros n; cbn [digits]; [constructor|].
  apply Forall_app. split; [apply IH|]. apply Forall_singleton. unfold no_z.
  pose proof (Z.mod_pos_bound n 10). lia.
Qed.

Lemma replace_z_format value : replace_z (_format_timestamp value) = utc_text (second_of value).
Proof.
  unfold _format_timestamp, utc_text, replace_z. fold (second_of value). rewrite flat_map_app.
  f_equal. apply replace_z_id. unfold isoformat_seconds. destruct (civil_of_day _) as [[y m] d]. cbv zeta.
  repeat first [apply digits_no_z|apply Forall_app; split|by apply Forall_singleton].
Qed.

(** ** The dict of an envelope *)
Lemma parse_operation_name o : parse_operation (JStr (u (operation_name o))) = Ok o.
Proof. by destruct o. Qed.

Module Import Requests.
Import BindingRequestEnvelope.
Section Envelope.
Context `{A2AProtobuf} `{IsoParser} `{RequestSchema}.

(** what [__post_init__] asks of an envelope *)
Record envelope_ok (self : t) : Prop := {
  eo_request : safe_token_re (request_id self) = true;
  eo_instance : safe_token_re (caller_instance_id self) = true;
  eo_caller : agent_id_re (caller_agent_id self) = true;
  eo_target : agent_id_re (target_agent_id self) = true;
  eo_config : 1 <= config_generation self;
  eo_stream : match stream_open_id self with
              | Some s => streaming (operation self) = true /\ safe_token_re s = true
              | None => streaming (operation self) = false
              end;
  eo_aware : Forall (fun v => aware v = true)
    [sent_at self; deadline_at self; BindingAuthContext.issued_at (auth_context self);
     BindingAuthContext.expires_at (auth_context self)];
  eo_deadline : instant (sent_at self) < instant (deadline_at self);
  eo_sent : instant (BindingAuthContext.issued_at (auth_context self)) <= instant (sent_at self)
            < instant (BindingAuthContext.expires_at (auth_context self));
  eo_payload : isinstance (payload self) (OPERATION_SPECS (operation self)).(request_type) = true;
  eo_tenant : tenant (payload self) = [] }.

Lemma stream_open_check (o : Operation) (s : option pystr) :
  (if streaming o then
     raise_if (match s with None => true | Some s => negb (safe_token_re s) end)
       (binding "streamOpenId is required for streaming operations")
   else raise_if (bool_decide (is_Some s)) (binding "streamOpenId must be null for unary operations"))
  = Ok tt
  <-> match s with Some s => streaming o = true /\ safe_token_re s = true | None => streaming o = false end.
Proof.
  destruct (streaming o), s as [s|]; rewrite raise_if_ok; try rewrite negb_false_iff; cbn; naive_solver.
Qed.

Lemma post_init_ok self : post_init self = Ok tt <-> envelope_ok self.
Proof.
  unfold post_init. cbv zeta.
  rewrite !bind_ok_unit stream_open_check !raise_if_ok !orb_false_iff !negb_false_iff andb_true_iff.
  rewrite bool_decide_eq_true. split.
  - intros (? & ? & ? & ? & Hc & ? & [? ?] & Hd & [? ?] & He & [Hs Hs'] & ? & ?).
    constructor; try done; try lia. by repeat constructor.
  - intros [? ? ? ? ? ? Ha ? [? ?] ? ?]. apply Forall_cons in Ha as [? Ha]. apply Forall_cons in Ha as [? Ha].
    apply Forall_cons in Ha as [? Ha]. apply Forall_cons in Ha as [? _].
    repeat split; try done; lia.
Qed.

Lemma init_ok self e : init self = Ok e <-> envelope_ok self /\ e = self.
Proof. unfold init. rewrite bind_ok_unit post_init_ok Ok_inj_iff. naive_solver. Qed.

(** ** Reading back what was written *)

(** the envelope with its timestamps in UTC, cut to whole seconds *)
Definition cut (value : datetime) : datetime := utc_second (second_of value).
Definition cut_context (c : BindingAuthContext.t) : BindingAuthContext.t :=
  BindingAuthContext.make (BindingAuthContext.principal_id c) (BindingAuthContext.credential_id c)
    (BindingAuthContext.method c) (BindingAuthContext.issuer c) (BindingAuthContext.subject c)
    (cut (BindingAuthContext.issued_at c)) (cut (BindingAuthContext.expires_at c)).
Definition cut_envelope (self : t) : t :=
  make (operation self) (request_id self) (caller_instance_id self) (stream_open_id self)
    (config_generation self) (caller_agent_id self) (cut_context (auth_context self))
    (auth_proof self) (target_agent_id self) (cut (sent_at self)) (cut (deadline_at self))
    (reply_subject self) (payload self).

(** the four timestamps of an envelope *)
Definition timestamps (self : t) : list datetime :=
  [BindingAuthContext.issued_at (auth_context self); BindingAuthContext.expires_at (auth_context self);
   sent_at self; deadline_at self].

(** [fromisoformat] reads back what [isoformat] writes for the instant *)
Definition iso_reads (value : datetime) : Prop :=
  fromisoformat (utc_text (second_of value)) = Ok (cut value).
(** [ParseDict] reads back what [MessageToDict] writes for the message *)
Definition payload_reads (t : message_type) (message : Message) : Prop :=
  forall d, message_to_dict message = Ok d ->
    parse_dict t (map (fun '(k, v) => (JStr k, v)) d) = Ok message.

Lemma parse_format value : iso_reads value -> _parse_timestamp (_format_timestamp value) = Ok (cut value).
Proof. unfold _parse_timestamp, iso_reads. rewrite replace_z_format. by intros ->. Qed.

Lemma bind_eq {A B} (m : result A) (f : A -> result B) a : m = Ok a -> (m ≫= f) = f a.
Proof. by intros ->. Qed.

Lemma to_dict_ok self d : to_dict self = Ok d <-> exists p, message_to_dict (payload self) = Ok p
  /\ d = members self (proof_dict (auth_proof self)) p /\ request_violation d = None.
Proof.
  unfold to_dict, _validate_schema. rewrite bind_ok. cbv zeta. split.
  - intros (p & Hp & Hr). exists p. split; [done|]. apply bind_ok_unit in Hr as [Hv [= <-]].
    by destruct (request_violation _).
  - intros (p & Hp & -> & Hv). exists p. by rewrite Hv.
Qed.

Lemma from_dict_members self d : to_dict self = Ok d -> Forall iso_reads (timestamps self) ->
  payload_reads (OPERATION_SPECS (operation self)).(request_type) (payload self) ->
  from_dict d = init (cut_envelope self).
Proof.
  intros (p & Hp & -> & Hv)%to_dict_ok Ht Hread. specialize (Hread p Hp).
  apply Forall_cons in Ht as [Hi Ht]. apply Forall_cons in Ht as [He Ht].
  apply Forall_cons in Ht as [Hs Ht]. apply Forall_cons in Ht as [Hd _].
  apply parse_format in Hi, He, Hs, Hd.
  assert (operation_at : item (members self (proof_dict (auth_proof self)) p) "operation"
    = Ok (JStr (u (operation_name (operation self))))) by reflexivity.
  assert (payload_at : item (members self (proof_dict (auth_proof self)) p) "payload" = Ok (JObj p))
    by reflexivity.
  unfold from_dict, _validate_schema. rewrite Hv operation_at payload_at. cbn [mbind result_bind].
  rewrite parse_operation_name. cbn [mbind result_bind dict_of_value]. rewrite Hread.
  cbn [mbind result_bind except].
  assert (stream_at : optional_text_at (members self (proof_dict (auth_proof self)) p) "streamOpenId"
    = Ok (stream_open_id self)).
  { unfold members. by destruct (stream_open_id self). }
  repeat (erewrite bind_eq; [|first [reflexivity | exact stream_at | erewrite bind_eq; [|reflexivity]; eassumption]]).
  unfold cut_envelope, cut_context. by destruct (auth_proof self).
Qed.

(** cutting an accepted envelope leaves an accepted one unless two of its times that must differ are
    in one second *)
Lemma cut_envelope_ok self : envelope_ok self -> envelope_ok (cut_envelope self) <->
  second_of (sent_at self) <> second_of (deadline_at self)
  /\ second_of (sent_at self) <> second_of (BindingAuthContext.expires_at (auth_context self)).
Proof.
  intros [? ? ? ? ? ? ? Hd [Hi Hs] ? ?].
  assert (second_of (sent_at self) <= second_of (deadline_at self)) by (apply Z.div_le_mono; lia).
  assert (second_of (BindingAuthContext.issued_at (auth_context self)) <= second_of (sent_at self))
    by (apply Z.div_le_mono; lia).
  assert (second_of (sent_at self) <= second_of (BindingAuthContext.expires_at (auth_context self)))
    by (apply Z.div_le_mono; lia).
  split.
  - intros [_ _ _ _ _ _ _ Hd' [_ Hs'] _ _]. cbn in Hd', Hs'. unfold cut in Hd', Hs'.
    rewrite !instant_utc_second in Hd', Hs'. lia.
  - intros [Hne Hne']. constructor; cbn; try done; unfold cut; [|rewrite !instant_utc_second; lia..].
    by repeat constructor.
Qed.

Lemma cut_whole self : Forall whole (timestamps self) -> cut_envelope self = self.
Proof.
  destruct self as [? ? ? ? ? ? [? ? ? ? ? i e] ? ? s d ? ?]. unfold timestamps, cut_envelope, cut_context.
  cbn. intros Hw. apply Forall_cons in Hw as [Hi Hw]. apply Forall_cons in Hw as [He Hw].
  apply Forall_cons in Hw as [Hs Hw]. apply Forall_cons in Hw as [Hd _].
  unfold whole, cut in *. by rewrite <- Hi, <- He, <- Hs, <- Hd.
Qed.
End Envelope.
End Requests.
