(* ===== verification/CalendarFacts.v ===== *)
(** * Timestamps: facts

    The texts of [isoformat] determine the second they were written for, in the
    years 1 to 9999 that a [datetime] can have; the civil date of a day is
    checked once for every day of a 400-year era, and the eras repeat. *)
From S2P Require Import Prelude PyStr Stream Envelope.
Local Open Scope Z_scope.

(** ** Digits *)
Definition number (s : pystr) : Z := fold_left (fun n c => 10 * n + (Z.of_N c - 48)) s 0.

Lemma number_snoc s c : number (s ++ [c]) = 10 * number s + (Z.of_N c - 48).
Proof. unfold number. by rewrite fold_left_app. Qed.

Lemma digits_length width : forall n, length (digits width n) = width.
Proof.
  induction width as [|width IH]; intros n; [done|]. cbn [digits]. rewrite length_app IH. cbn. lia.
Qed.

Lemma number_digits width : forall n, 0 <= n < 10 ^ Z.of_nat width -> number (digits width n) = n.
Proof.
  induction width as [|width IH]; intros n Hn.
  - change (10 ^ Z.of_nat 0) with 1 in Hn. cbn. lia.
  - rewrite Nat2Z.inj_succ Z.pow_succ_r in Hn; [|lia]. cbn [digits]. rewrite number_snoc IH.
    + pose proof (Z.mod_pos_bound n 10). pose proof (Z.div_mod n 10). lia.
    + split; [apply Z.div_pos; lia|]. apply Z.div_lt_upper_bound; lia.
Qed.

Lemma digits_inj width n m : 0 <= n < 10 ^ Z.of_nat width -> 0 <= m < 10 ^ Z.of_nat width ->
  digits width n = digits width m -> n = m.
Proof. intros Hn Hm E. by rewrite <- (number_digits width n Hn), <- (number_digits width m Hm), E. Qed.

(** ** Civil dates *)
Definition day_of_civil (y m d : Z) : Z :=
  let y := if m <=? 2 then y - 1 else y in
  let doy := (153 * (if 2 <? m then m - 3 else m + 9) + 2) / 5 + d - 1 in
  let yoe := y mod 400 in
  y / 400 * 146097 + (yoe * 365 + yoe / 4 - yoe / 100 + doy) - 719468.

(** the year of a day of an era, counted from the first of March, and the day in that year *)
Lemma year_of_era doe : 0 <= doe < 146097 ->
  let yoe := (doe - doe / 1460 + doe / 36524 - doe / 146096) / 365 in
  0 <= yoe <= 399 /\ 0 <= doe - (365 * yoe + yoe / 4 - yoe / 100) <= 365.
Proof.
  intros Hd. set (yoe := _ / 365). cbv zeta.
  assert (0 <= yoe <= 399) as Hy by (unfold yoe; Z.to_euclidean_division_equations; lia).
  split; [done|].
  assert (exists c, doe / 36524 = c /\ 0 <= c <= 4) as (c & Hc & Hc4)
    by (eexists; split; [done|Z.to_euclidean_division_equations; lia]).
  assert (exists e, yoe / 100 = e /\ 0 <= e <= 3) as (e & He & He3)
    by (eexists; split; [done|Z.to_euclidean_division_equations; lia]).
  assert (c = 0 \/ c = 1 \/ c = 2 \/ c = 3 \/ c = 4) as Cc by lia.
  assert (e = 0 \/ e = 1 \/ e = 2 \/ e = 3) as Ce by lia.
  unfold yoe in *. clear yoe Hc4 He3.
  destruct Cc as [->|[->|[->|[->| ->]]]]; destruct Ce as [->|[->|[->| ->]]];
    Z.to_euclidean_division_equations; lia.
Qed.

(** the days of the years 1 to 9999 *)
Definition datetime_day (day : Z) : Prop := -719162 <= day <= 2932896.

Lemma civil_of_day_spec day y m d : civil_of_day day = (y, m, d) ->
  day_of_civil y m d = day /\ 1 <= m <= 12 /\ 1 <= d <= 31 /\ (datetime_day day -> 0 <= y <= 9999).
Proof.
  unfold civil_of_day, datetime_day. cbv zeta.
  pose proof (Z.mod_pos_bound (day + 719468) 146097 ltac:(lia)) as Hdoe.
  pose proof (Z.div_mod (day + 719468) 146097 ltac:(lia)) as Hdm.
  set (era := (day + 719468) / 146097) in *. set (doe := (day + 719468) mod 146097) in *.
  destruct (year_of_era doe Hdoe) as [Hyoe Hdoy].
  set (yoe := (doe - doe / 1460 + doe / 36524 - doe / 146096) / 365) in *.
  set (doy := doe - (365 * yoe + yoe / 4 - yoe / 100)) in *.
  assert (doe = doy + (365 * yoe + yoe / 4 - yoe / 100)) as Edoe by (unfold doy; lia).
  clearbody doe doy yoe era. intros [= <- <- <-].
  set (mp := (5 * doy + 2) / 153). assert (0 <= mp <= 11) as Hmp by (unfold mp; Z.to_euclidean_division_equations; lia).
  assert (0 <= doy - (153 * mp + 2) / 5 <= 30) as Hd by (unfold mp; Z.to_euclidean_division_equations; lia).
  assert (mp < 10 <-> doy < 306) as Hmar by (unfold mp; split; Z.to_euclidean_division_equations; lia).
  clearbody mp. unfold day_of_civil. cbv zeta.
  assert ((yoe + era * 400) mod 400 = yoe) as Em by (rewrite Z.mod_add; [|lia]; by apply Z.mod_small; lia).
  assert ((yoe + era * 400) / 400 = era) as Ed by (rewrite Z.div_add; [|lia]; rewrite Z.div_small; lia).
  destruct (Z.ltb_spec mp 10).
  - rewrite (proj2 (Z.leb_gt (mp + 3) 2)); [|lia]. rewrite (proj2 (Z.ltb_lt 2 (mp + 3))); [|lia].
    rewrite Z.add_0_r Em Ed. replace (mp + 3 - 3) with mp by lia. lia.
  - rewrite (proj2 (Z.leb_le (mp - 9) 2)); [|lia]. rewrite (proj2 (Z.ltb_ge 2 (mp - 9))); [|lia].
    replace (yoe + era * 400 + 1 - 1) with (yoe + era * 400) by lia. rewrite Em Ed.
    replace (mp - 9 + 9) with mp by lia. split; [lia|]. split; [lia|]. split; [lia|].
    intros Hr. assert (yoe = 399 -> era < 24); [|lia]. intros ->.
    change (399 / 4) with 99 in *. change (399 / 100) with 3 in *. lia.
Qed.

(** ** Timestamps *)

(** a second of the years 1 to 9999 *)
Definition datetime_second (second : Z) : Prop := -62135596800 <= second < 253402300800.

Lemma isoformat_seconds_inj s t : datetime_second s -> datetime_second t ->
  isoformat_seconds s = isoformat_seconds t -> s = t.
Proof.
  unfold datetime_second, isoformat_seconds. intros Hs Ht.
  destruct (civil_of_day (s / 86400)) as [[y m] d] eqn:Es.
  destruct (civil_of_day (t / 86400)) as [[y' m'] d'] eqn:Et. cbv zeta.
  apply civil_of_day_spec in Es as (Ds & ? & ? & Ys). apply civil_of_day_spec in Et as (Dt & ? & ? & Yt).
  assert (0 <= y <= 9999) by (apply Ys; unfold datetime_day; lia).
  assert (0 <= y' <= 9999) by (apply Yt; unfold datetime_day; lia).
  assert (forall width a b (r r' : pystr), digits width a ++ r = digits width b ++ r' ->
    digits width a = digits width b /\ r = r') as Happ.
  { intros width a b r r' E. apply app_inj_1 in E; [done|by rewrite !digits_length]. }
  intros E. apply Happ in E as [Ey%digits_inj E]; [|cbn; lia..]. apply app_inv_head in E.
  apply Happ in E as [Em%digits_inj E]; [|cbn; lia..]. apply app_inv_head in E.
  apply Happ in E as [Ed%digits_inj E]; [|cbn; lia..]. apply app_inv_head in E.
  apply Happ in E as [Eh%digits_inj E]; [|cbn; lia..]. apply app_inv_head in E.
  apply Happ in E as [Emin%digits_inj E]; [|cbn; lia..]. apply app_inv_head in E.
  apply digits_inj in E; [|cbn; lia..]. subst. lia.
Qed.
