(* ===== verification/BindingFacts.v ===== *)
(** * Authentication of binding requests: facts

    When each group of checks of the verifier passes, when a whole request is
    accepted, and what a replay guard that refuses a claimed request until the instant
    it was given promises. *)
From S2P Require Import Prelude PyStr Json JsonFacts Contract Rfc8785Reference Identity IdentityFacts Stream Operations.
From S2P Require Import Envelope BindingAuth.
Local Open Scope py_scope.
Local Open Scope Z_scope.

Import BindingAuthVerifier.

Lemma compared_ok value z : compared value = Ok z <-> aware value = true /\ z = instant value.
Proof.
  unfold compared. rw bind_ok_unit raise_if_ok negb_false_iff Ok_inj_iff. naive_solver.
Qed.

Lemma strip_prefix_Some s : forall prefix rest, strip_prefix prefix s = Some rest <-> s = prefix ++ rest.
Proof.
  induction s as [|b s IH]; intros [|a prefix] rest; cbn; try naive_solver.
  destruct (N.eqb_spec a b) as [->|Hne]; [rewrite IH|]; naive_solver.
Qed.

Lemma startswith_true s prefix : startswith s prefix = true <-> exists rest, s = prefix ++ rest.
Proof.
  unfold startswith. rw bool_decide_eq_true. split.
  - intros [rest E%strip_prefix_Some]. by exists rest.
  - intros [rest E]. exists rest. by apply strip_prefix_Some.
Qed.

(** closes the goal that a passed check follows from its condition *)
Ltac passes := first [lia | done | by apply neqb_false | by apply negb_false_iff, bool_decide_eq_true
  | by apply negb_false_iff].
(** peels one check off a sequence of them *)
Ltac pass_check := apply bind_ok_unit; split; [apply raise_if_ok; passes|].
Ltac next_check H := let C := fresh "C" in apply bind_ok_unit in H as [C%raise_if_ok H].

Section Verifier.
Context `{RFC8785} `{SignedBindingEnvelope} `{NKeys}.

(** what the policies let the signer of a proof claim, on its own connection *)
Record signer_allowed (self : t) (proof : AuthProof.t) (context : BindingAuthContext.t)
    (connection_public_key : pystr) : Prop := {
  sa_policy : exists policy, _signer_policies self !! AuthProof.signer proof = Some policy
    /\ BindingAuthContext.principal_id context ∈ principal_ids policy
    /\ BindingAuthContext.method context ∈ methods policy
    /\ BindingAuthContext.subject context ∈ subjects policy;
  sa_algorithm : AuthProof.algorithm proof = AUTH_ALGORITHM;
  sa_user : exists rest, AuthProof.signer proof = u "U" ++ rest;
  sa_connection : AuthProof.signer proof = connection_public_key }.

Lemma check_signer_ok self proof context key :
  check_signer self proof context key = Ok tt <-> signer_allowed self proof context key.
Proof.
  unfold check_signer. split.
  - intros (policy & Hp & Hr)%bind_ok.
    destruct (_signer_policies self !! AuthProof.signer proof) as [policy'|] eqn:E; [|done].
    apply bind_ok_unit in Hp as [Ha%raise_if_ok%neqb_false [= ->]].
    next_check Hr. next_check Hr. next_check Hr. next_check Hr. apply raise_if_ok in Hr.
    apply negb_false_iff in C, C1, C2, Hr. apply neqb_false in C0.
    apply bool_decide_eq_true in C1, C2, Hr. apply startswith_true in C.
    constructor; [by exists policy|done..].
  - intros [(policy & E & Hp1 & Hp2 & Hp3) Ha Hu Hc]. apply bind_ok. exists policy. rewrite E.
    split; [by rewrite Ha bool_decide_eq_true_2|].
    apply bind_ok_unit. split; [by apply raise_if_ok, negb_false_iff, startswith_true|].
    do 3 pass_check. apply raise_if_ok. passes.
Qed.

(** the request is addressed as the receiver expects, and its reply goes to the caller's own inbox *)
Record routed (envelope : Signed) (e : Expectation) : Prop := {
  ro_target : s_target_agent_id envelope = e.(expected_target_agent_id);
  ro_subject : e.(received_subject) = e.(expected_subject);
  ro_caller : s_caller_agent_id envelope = e.(expected_caller_agent_id);
  ro_instance : s_caller_instance_id envelope = e.(expected_caller_instance_id);
  ro_prefix : reply_prefix_re e.(allowed_reply_prefix) = true;
  ro_reply : exists rest, s_reply_subject envelope = e.(allowed_reply_prefix) ++ rest;
  ro_config : s_config_generation envelope = e.(expected_config_generation) }.

Lemma check_route_ok envelope e : check_route envelope e = Ok tt <-> routed envelope e.
Proof.
  unfold check_route. split.
  - intros Hr. do 6 next_check Hr. apply raise_if_ok in Hr.
    apply neqb_false in C, C0, C1, C2, Hr. apply negb_false_iff in C3, C4.
    apply startswith_true in C4. by constructor.
  - intros [? ? ? ? ? ? ?]. do 5 pass_check.
    apply bind_ok_unit. split; [by apply raise_if_ok, negb_false_iff, startswith_true|].
    apply raise_if_ok. passes.
Qed.

Definition issued (envelope : Signed) : Z := instant (BindingAuthContext.issued_at (s_auth_context envelope)).
Definition expires (envelope : Signed) : Z := instant (BindingAuthContext.expires_at (s_auth_context envelope)).
Definition sent (envelope : Signed) : Z := instant (s_sent_at envelope).
Definition deadline (envelope : Signed) : Z := instant (s_deadline_at envelope).

(** the times a request carries can be compared, and its context is not too long *)
Record dated (self : t) (envelope : Signed) : Prop := {
  da_issued : aware (BindingAuthContext.issued_at (s_auth_context envelope)) = true;
  da_expires : aware (BindingAuthContext.expires_at (s_auth_context envelope)) = true;
  da_sent : aware (s_sent_at envelope) = true;
  da_deadline : aware (s_deadline_at envelope) = true;
  da_lifetime : expires envelope - issued envelope <= _max_auth_lifetime self }.

(** the clock is in the window of the request, up to the skew *)
Definition current_for (self : t) (envelope : Signed) (current : Z) : Prop :=
  Z.max (issued envelope) (sent envelope) - _clock_skew self <= current
  < Z.min (expires envelope) (deadline envelope) + _clock_skew self.

Lemma check_times_ok self envelope current : check_times self envelope current = Ok tt <->
  dated self envelope /\ current_for self envelope current.
Proof.
  unfold check_times, current_for. cbv zeta. split.
  - intros (i & [Ai ->]%compared_ok & Hr)%bind_ok. next_check Hr.
    apply bind_ok in Hr as (x & [Ax ->]%compared_ok & Hr). next_check Hr. next_check Hr.
    apply bind_ok in Hr as (s & [As ->]%compared_ok & Hr). next_check Hr.
    apply bind_ok in Hr as (d & [Ad ->]%compared_ok & Hr). apply raise_if_ok in Hr.
    unfold issued, sent, expires, deadline. split; [|lia]. constructor; unfold expires, issued; [done..|lia].
  - intros [[Ai Ax As Ad Hl] Hc]. unfold issued, sent, expires, deadline in *.
    apply bind_ok. eexists. split; [by apply compared_ok|]. pass_check.
    apply bind_ok. eexists. split; [by apply compared_ok|]. pass_check. pass_check.
    apply bind_ok. eexists. split; [by apply compared_ok|]. pass_check.
    apply bind_ok. eexists. split; [by apply compared_ok|]. apply raise_if_ok. passes.
Qed.

(** the proof's signature covers the canonical bytes of the envelope *)
Definition proven (envelope : Signed) : Prop := exists payload,
  canonical_signing_bytes envelope = Ok payload
  /\ verify_nkey_signature (AuthProof.signer (s_auth_proof envelope)) payload
       (AuthProof.signature (s_auth_proof envelope)) = Ok tt.

Lemma check_signature_ok envelope : check_signature envelope = Ok tt <-> proven envelope.
Proof. unfold check_signature, proven. cbv zeta. by rw except_ok bind_ok. Qed.

(** everything but the clock *)
Record authentic (self : t) (envelope : Signed) (e : Expectation) : Prop := {
  au_signer : signer_allowed self (s_auth_proof envelope) (s_auth_context envelope)
    e.(connection_public_key);
  au_route : routed envelope e;
  au_dated : dated self envelope;
  au_proven : proven envelope }.

Lemma binding_check_ok self envelope e now : check self envelope e now = Ok tt <->
  aware now = true /\ authentic self envelope e /\ current_for self envelope (instant now).
Proof.
  unfold check. rw bind_ok_unit raise_if_ok negb_false_iff.
  rw bind_ok_unit check_signer_ok bind_ok_unit check_route_ok bind_ok_unit check_times_ok.
  rw check_signature_ok. split.
  - intros (Ha & Hs & Hr & [Hd Hc] & Hp). split; [done|]. split; [by constructor|done].
  - by intros (Ha & [Hs Hr Hd Hp] & Hc).
Qed.

(** what the verifier returns for an accepted request *)
Definition identity_of (envelope : Signed) : VerifiedBindingIdentity :=
  let context := s_auth_context envelope in
  {| verified_principal := Principal.make (BindingAuthContext.principal_id context)
       (before_colon (BindingAuthContext.principal_id context))
       (Some (BindingAuthContext.credential_id context)) 0;
     verified_signer := AuthProof.signer (s_auth_proof envelope);
     verified_request_id := s_request_id envelope |}.

Section Guarded.
Context `{RequestReplayGuard}.

Lemma verify_subject_ok self guard envelope e now guard_now guard' identity :
  verify_subject self guard envelope e now guard_now = (guard', Ok identity) <->
  aware now = true /\ authentic self envelope e /\ current_for self envelope (instant now)
  /\ claim guard (claim_of envelope) guard_now = (guard', Ok true)
  /\ principal_re (BindingAuthContext.principal_id (s_auth_context envelope)) = true
  /\ identity = identity_of envelope.
Proof.
  unfold verify_subject. pose proof (binding_check_ok self envelope e now) as Hc.
  destruct (check self envelope e now) as [[]|x].
  - destruct (proj1 Hc eq_refl) as (Ha & Hau & Hcu). cbv zeta.
    destruct (claim guard (claim_of envelope) guard_now) as [g r]. split.
    + intros [= <- (b & -> & Hr)%bind_ok]. apply bind_ok_unit in Hr as [Hb%raise_if_ok%negb_false_iff Hr].
      subst b. apply bind_ok in Hr as (p & (Hre & _ & ->)%principal_init_ok & Hr). by apply Ok_inj_iff in Hr as <-.
    + intros (_ & _ & _ & [= -> ->] & Hre & ->). f_equal.
      apply bind_ok. exists true. split; [done|]. apply bind_ok_unit. split; [done|].
      apply bind_ok. eexists. split; [by apply principal_init_ok|done].
  - split; [done|]. intros (Ha & Hau & Hcu & _). exfalso.
    by assert (Err (A:=()) x = Ok tt) by by apply Hc.
Qed.

(** a refused check leaves the guard alone; otherwise the guard is asked once, for this request *)
Lemma verify_subject_guard self guard envelope e now guard_now :
  (verify_subject self guard envelope e now guard_now).1
  = match check self envelope e now with
    | Ok _ => (claim guard (claim_of envelope) guard_now).1
    | Err _ => guard
    end.
Proof.
  unfold verify_subject. destruct (check self envelope e now); [|done]. cbv zeta.
  by destruct (claim guard (claim_of envelope) guard_now).
Qed.
End Guarded.
End Verifier.

(** ** A guard that refuses what it granted *)

(** what a claim claims *)
Definition claim_key (c : Claim) : pystr * pystr * pystr :=
  (claim_principal c, claim_target c, claim_request c).

(** The one promise asked of a replay guard: once it has granted a claim it grants no other claim of
    the same request until the instant the claim gave has passed.  Nothing is said of what it does
    afterwards: a guard may forget the request then, keep it for a while longer or for ever. *)
Class RefusingGuard `{RequestReplayGuard} := {
  (** the guard grants no claim of the request up to the given instant *)
  refuses : Guard -> pystr * pystr * pystr -> Z -> Prop;
  refuses_claim : forall g c until now, refuses g (claim_key c) until -> now <= until ->
    (claim g c now).2 <> Ok true;
  claim_refuses : forall g c now, (claim g c now).2 = Ok true ->
    refuses (claim g c now).1 (claim_key c) (claim_expires_at c);
  refuses_keeps : forall g c now k until, refuses g k until -> now <= until ->
    refuses (claim g c now).1 k until }.

Section Replay.
Context `{RFC8785} `{SignedBindingEnvelope} `{NKeys} `{RefusingGuard}.

(** a call of [verify_subject] *)
Record call := Call {
  c_envelope : Signed; c_expectation : Expectation; c_now : datetime; c_guard_now : Z }.

Fixpoint verify_all (self : t) (guard : Guard) (calls : list call) : list (result VerifiedBindingIdentity) :=
  match calls with
  | [] => []
  | c :: calls =>
    let '(guard, r) := verify_subject self guard (c_envelope c) (c_expectation c) (c_now c) (c_guard_now c) in
    r :: verify_all self guard calls
  end.

(** while the guard refuses a request it is not accepted, and the guard keeps refusing it *)
Lemma verify_keeps self guard c k until : refuses guard k until -> c_guard_now c <= until ->
  refuses (verify_subject self guard (c_envelope c) (c_expectation c) (c_now c) (c_guard_now c)).1 k until
  /\ (claim_key (claim_of (c_envelope c)) = k ->
      is_ok (verify_subject self guard (c_envelope c) (c_expectation c) (c_now c) (c_guard_now c)).2 = false).
Proof.
  intros Hk He. split.
  - rewrite verify_subject_guard. destruct (check _ _ _ _); [by apply refuses_keeps|done].
  - intros <-. pose proof (refuses_claim _ _ _ _ Hk He) as Hno.
    destruct (verify_subject _ _ _ _ _ _) as [g [i|x]] eqn:E; [|done]. exfalso.
    apply verify_subject_ok in E as (_ & _ & _ & Hc & _). by rewrite Hc in Hno.
Qed.

Lemma binding_verify_all_refuses self calls : forall guard k until n c r, refuses guard k until ->
  Forall (fun c => c_guard_now c <= until) calls -> calls !! n = Some c ->
  claim_key (claim_of (c_envelope c)) = k -> verify_all self guard calls !! n = Some r -> is_ok r = false.
Proof.
  induction calls as [|c0 calls IH]; intros guard k until n c r Hk; [done|].
  intros [Hc Hcs]%Forall_cons Hn Hck. cbn [verify_all].
  destruct (verify_keeps self guard c0 k until Hk Hc) as [Hk' Hno].
  destruct (verify_subject _ _ _ _ _ _) as [g' r0]. cbn in Hk', Hno. destruct n as [|n]; cbn.
  - injection Hn as ->. intros [= <-]. by apply Hno.
  - by apply (IH g' k until n c r).
Qed.
End Replay.
