(* ===== verification/SigningFacts.v ===== *)
(** * Signing request envelopes: facts

    The envelope with another proof, the bytes a proof covers, and what is asked
    of a key pair for its signatures to verify. *)
From S2P Require Import Prelude PyStr Json JsonFacts Contract Rfc8785Reference Identity IdentityFacts Stream.
From S2P Require Import Operations Envelope BindingAuth EnvelopeFacts BindingFacts.
Import EnvelopeFacts.Requests.
Local Open Scope py_scope.
Local Open Scope Z_scope.

Section Signing.
Context `{RFC8785} `{A2AProtobuf} `{RequestSchema} `{NKeys}.

(** the key pair's encoded public key decodes to a key that verifies its signatures *)
Record key_pair_ok (key_pair : KeyPair) (signer : pystr) : Prop := {
  kp_public : nkey_public_key key_pair = Ok signer;
  kp_bytes : forall m, length (sign key_pair m) = 64%nat /\ Forall (fun x => (x < 256)%N) (sign key_pair m);
  kp_verifies : exists key, _decode_nkey_public_key signer = Ok key
    /\ forall m, ed25519_verify key m (sign key_pair m) = true }.

(** the envelope with another proof *)
Definition reproved (envelope : BindingRequestEnvelope.t) (proof : AuthProof.t) : BindingRequestEnvelope.t :=
  let '(BindingRequestEnvelope.make operation request_id caller_instance_id stream_open_id
    config_generation caller_agent_id auth_context _ target_agent_id sent_at deadline_at
    reply_subject payload) := envelope in
  BindingRequestEnvelope.make operation request_id caller_instance_id stream_open_id
    config_generation caller_agent_id auth_context proof target_agent_id sent_at deadline_at
    reply_subject payload.

Lemma with_proof_ok envelope proof e :
  with_proof envelope proof = Ok e <-> envelope_ok envelope /\ e = reproved envelope proof.
Proof.
  destruct envelope. unfold with_proof. rewrite init_ok. split; intros [Hok ->]; (split; [|done]);
    destruct Hok; by constructor.
Qed.

Lemma reproved_twice envelope p q : reproved (reproved envelope p) q = reproved envelope q.
Proof. by destruct envelope. Qed.
Lemma reproved_proof envelope p : BindingRequestEnvelope.auth_proof (reproved envelope p) = p.
Proof. by destruct envelope. Qed.
Lemma reproved_ok envelope p : envelope_ok (reproved envelope p) <-> envelope_ok envelope.
Proof. destruct envelope. split; intros []; by constructor. Qed.

(** what is signed depends on the proof's signer and algorithm only *)
Lemma signing_bytes_reproved envelope signer algorithm s s' b :
  let signed := reproved envelope (AuthProof.make signer algorithm s) in
  let signed' := reproved envelope (AuthProof.make signer algorithm s') in
  canonical_signing_bytes signed = Ok b -> is_ok (BindingRequestEnvelope.to_dict signed') = true ->
  canonical_signing_bytes signed' = Ok b.
Proof.
  intros signed signed' Hb Hd. unfold canonical_signing_bytes in *. cbn in Hb |- *.
  apply except_ok in Hb. apply except_ok. unfold BindingRequestEnvelope.signing_payload_dict in *.
  destruct (BindingRequestEnvelope.to_dict signed') as [d'|]; [|done].
  destruct (BindingRequestEnvelope.to_dict signed) as [d|]; [|done].
  rewrite <- Hb. by destruct envelope.
Qed.

Lemma b64url_decode_encode data : length data = 64%nat -> Forall (fun x => (x < 256)%N) data ->
  _b64url_decode (_b64url_encode data) = Ok data.
Proof.
  intros Hl Hb. unfold _b64url_decode, _b64url_encode.
  destruct (b64_encode_spec data Hb) as (v & _ & _ & Ha).
  assert (length (b64_encode data) = 86%nat) as Hlen by (do 65 (destruct data as [|? data]; [try done|]); done).
  apply bind_ok_unit. split.
  { apply raise_if_ok, orb_false_iff. split; [|by apply negb_false_iff, forallb_iff].
    apply bool_decide_eq_false. intros E. by rewrite E in Hlen. }
  rewrite Hlen. cbn [Nat.eqb Nat.modulo]. rewrite (b64_decode_encode data Hb).
  apply bind_ok. exists data. split; [done|]. apply bind_ok_unit. split; [|done].
  by apply raise_if_ok, neqb_false.
Qed.

Lemma key_pair_signature key_pair signer payload : key_pair_ok key_pair signer ->
  verify_nkey_signature signer payload (sign_nkey payload key_pair) = Ok tt.
Proof.
  intros [_ Hbytes (key & Hkey & Hver)]. destruct (Hbytes payload) as [Hl Hb].
  unfold verify_nkey_signature, sign_nkey. rewrite Hkey. cbn [mbind result_bind].
  rewrite (b64url_decode_encode _ Hl Hb). cbn [mbind result_bind]. by rewrite Hl Hver.
Qed.

(** a signed envelope carries a proof of the key pair that the verifier's check accepts *)
Lemma sign_request_proof envelope key_pair signer signed :
  key_pair_ok key_pair signer -> sign_request_envelope envelope key_pair = Ok signed ->
  AuthProof.signer (BindingRequestEnvelope.auth_proof signed) = signer
  /\ AuthProof.algorithm (BindingRequestEnvelope.auth_proof signed) = AUTH_ALGORITHM
  /\ (is_ok (BindingRequestEnvelope.to_dict signed) = true ->
      BindingAuthVerifier.check_signature signed = Ok tt).
Proof.
  intros Hkp Hs. unfold sign_request_envelope in Hs. rewrite (kp_public _ _ Hkp) in Hs.
  cbn [mbind result_bind] in Hs.
  apply bind_ok in Hs as (un & [_ ->]%with_proof_ok & Hs).
  apply bind_ok in Hs as (payload & Hpay & [_ ->]%with_proof_ok).
  rewrite reproved_twice reproved_proof. do 2 (split; [done|]).
  intros Hd. apply check_signature_ok. exists payload. cbn. rewrite reproved_proof.
  split; [by apply (signing_bytes_reproved _ _ _ (u "unsigned"))|by apply key_pair_signature].
Qed.
End Signing.
