(* ===== verification/BindingTheorems.v ===== *)
(** * Theorems on the NATS binding's requests

    What a request envelope keeps when it is written and read back, the dispatch
    of unary operations, what an authenticated request satisfies, how long its
    replay is refused, and that what is signed verifies. *)
From S2P Require Import Prelude PyStr Json JsonFacts Contract Rfc8785Reference Identity IdentityFacts Stream.
From S2P Require Import Operations Envelope BindingAuth EnvelopeFacts BindingFacts SigningFacts.
Import EnvelopeFacts.Requests.
Local Open Scope string_scope.
Local Open Scope list_scope.
Local Open Scope Z_scope.
Local Open Scope py_scope.

(** ** Dispatch of unary operations *)
Section Dispatch.
Context `{A2AProtobuf}.

(** C25: a unary dispatch returns a message exactly when the operation is unary, the request has the
    operation's type and no tenant, and the application's handler for the operation returns a
    message of the response type.  It calls nothing but that handler, at most once, on the request
    and context as they came, and nothing at all when one of the first conditions fails; no two
    operations share a handler. *)
Theorem dispatch_unary_exact application operation request context :
  let spec := OPERATION_SPECS operation in
  let admitted := spec_streaming spec = false /\ isinstance request (request_type spec) = true
    /\ tenant request = [] in
  (forall r, (dispatch_unary application operation request context).2 = Ok r <->
     admitted /\ exists call, application (handler_name spec) = Some (Handler call)
       /\ call request context = Ok r /\ isinstance r (response_type spec) = true)
  /\ (forall c, (dispatch_unary application operation request context).1 = Some c <->
     admitted /\ c = (handler_name spec, request, context)
     /\ exists call, application (handler_name spec) = Some (Handler call))
  /\ (forall operation', handler_name (OPERATION_SPECS operation') = handler_name spec <->
      operation' = operation).
Proof.
  cbv zeta. split; [|split].
  - intros r. unfold dispatch_unary. cbv zeta.
    destruct (spec_streaming _); [naive_solver|].
    destruct (isinstance request _); [cbn [negb]|naive_solver].
    destruct (bool_decide_reflect (tenant request = [])); [cbn [negb]|naive_solver].
    destruct (application _) as [[|call]|]; cbn [snd]; [naive_solver| |naive_solver].
    split.
    + intros (r' & Hc & [Hi%raise_if_ok%negb_false_iff [= ->]]%bind_ok_unit)%bind_ok. naive_solver.
    + intros (_ & call' & [= <-] & Hc & Hi). apply bind_ok. exists r. by rewrite Hi.
  - intros c. unfold dispatch_unary. cbv zeta.
    destruct (spec_streaming _); [naive_solver|].
    destruct (isinstance request _); [cbn [negb]|naive_solver].
    destruct (bool_decide_reflect (tenant request = [])); [cbn [negb]|naive_solver].
    destruct (application _) as [[|call]|]; cbn [fst]; naive_solver.
  - by destruct operation, operation'.
Qed.
End Dispatch.

(** ** Reading an envelope back *)
Section Roundtrip.
Context `{A2AProtobuf} `{IsoParser} `{RequestSchema}.
Import BindingRequestEnvelope.

(** C23: writing an envelope and reading it back.  The dict of [to_dict] keeps the timestamps to the
    second only: [from_dict] returns the same envelope when they are whole seconds of UTC, and never
    returns anything but the envelope with its timestamps cut.  It refuses the envelope exactly
    when the request was sent in the very second of its deadline or of the end of its context,
    although the envelope itself was accepted. *)
Theorem envelope_roundtrip self d :
  post_init self = Ok tt -> to_dict self = Ok d -> Forall iso_reads (timestamps self) ->
  payload_reads (request_type (OPERATION_SPECS (operation self))) (payload self) ->
  (Forall whole (timestamps self) -> from_dict d = Ok self)
  /\ (forall e, from_dict d = Ok e -> e = cut_envelope self)
  /\ (is_ok (from_dict d) = false <->
      second_of (sent_at self) = second_of (deadline_at self)
      \/ second_of (sent_at self) = second_of (BindingAuthContext.expires_at (auth_context self))).
Proof.
  intros Hok%post_init_ok Hd Ht Hp. rewrite (from_dict_members self d Hd Ht Hp).
  pose proof (cut_envelope_ok self Hok) as Hcut. split; [|split].
  - intros Hw. rewrite (cut_whole self Hw). by apply init_ok.
  - by intros e [_ ->]%init_ok.
  - destruct (init (cut_envelope self)) as [e|x] eqn:E.
    + apply init_ok in E as [E _]. apply Hcut in E. cbn. split; [done|]. lia.
    + split; [|done]. intros _.
      destruct (decide (second_of (sent_at self) = second_of (deadline_at self))); [by left|].
      destruct (decide (second_of (sent_at self)
        = second_of (BindingAuthContext.expires_at (auth_context self)))); [by right|].
      exfalso. assert (init (cut_envelope self) = Ok (cut_envelope self)) by (apply init_ok; split;
        [by apply Hcut|done]). congruence.
Qed.
End Roundtrip.

(** the texts [isoformat] writes, read back: twice two digits between the date's and the time's
    separators, then an offset of zero *)
Definition number (s : pystr) : Z := fold_left (fun n c => 10 * n + (Z.of_N c - 48)) s 0.
Definition field (s : pystr) (at' width : nat) : Z := number (take width (drop at' s)).
Definition day_of_civil (y m d : Z) : Z :=
  let y := if m <=? 2 then y - 1 else y in
  let era := y / 400 in
  let yoe := y mod 400 in
  let doy := (153 * (if 2 <? m then m - 3 else m + 9) + 2) / 5 + d - 1 in
  era * 146097 + (yoe * 365 + yoe / 4 - yoe / 100 + doy) - 719468.
#[local] Instance utc_parser : IsoParser := {|
  fromisoformat := fun s =>
    raise_if (drop 19 s != u "+00:00") (ValueError "Invalid isoformat string");;
    Ok (utc_second (day_of_civil (field s 0 4) (field s 5 2) (field s 8 2) * 86400
      + field s 11 2 * 3600 + field s 14 2 * 60 + field s 17 2)) |}.
(** messages of every type that hold one text *)
#[local] Instance text_protobuf : A2AProtobuf := {|
  Message := pystr; isinstance := fun _ _ => true; type_name := fun _ => ""; tenant := fun _ => [];
  message_to_dict := fun m => Ok [(u "text", JStr m)];
  parse_dict := fun _ items => match items with [(_, JStr m)] => Ok m | _ => Err ParseError end |}.
#[local] Instance open_schema : RequestSchema := {| request_violation := fun _ => None |}.

Definition at_us (us : Z) : datetime := {| wall_clock_us := us; utcoffset_us := Some 0 |}.
(** 2025-06-01T10:00:00.2Z *)
Definition t0 : Z := 1748772000200000.
Definition signer_key : pybytes := 85%N :: replicate 55 65%N.
Definition request (deadline_us : Z) : BindingRequestEnvelope.t :=
  BindingRequestEnvelope.make GET_TASK (u "req-1") (u "inst-1") None 1 (u "windows-a")
    (BindingAuthContext.make (u "agent:windows-a") (u "cred-1") (u "nats-nkey") (u "a2amesh-peer")
      (u "windows-a") (at_us (t0 - 5000000)) (at_us (t0 + 60000000)))
    (AuthProof.make signer_key AUTH_ALGORITHM (u "unsigned")) (u "linux") (at_us t0)
    (at_us deadline_us) (u "_INBOX.a2amesh.windows-a.1") (u "task-1").

(** a deadline 0.7 s after the request was sent, in the same second: accepted, then refused *)
Lemma envelope_roundtrip_witness :
  BindingRequestEnvelope.post_init (request (t0 + 700000)) = Ok tt
  /\ exists d, BindingRequestEnvelope.to_dict (request (t0 + 700000)) = Ok d
  /\ is_ok (BindingRequestEnvelope.from_dict d) = false.
Proof.
  split; [by vm_compute|]. eexists. split; [reflexivity|].
  apply (envelope_roundtrip (request (t0 + 700000))); [by vm_compute|reflexivity| | |].
  - repeat constructor.
  - by intros d [= <-].
  - left. by vm_compute.
Defined.

(** ** Authentication *)
Section Authentication.
Context `{RFC8785} `{SignedBindingEnvelope} `{NKeys}.
Import BindingAuthVerifier.

(** C20: the verifier accepts a request exactly when the policy of its signer, the user NKey of the
    connection, covers its principal, method and subject; it is addressed to this agent on this
    subject by the caller the connection belongs to, with a reply subject in that caller's inbox and
    the expected configuration; the clock is in the window of its context and of the request up to
    the skew, the context being no longer than the policy allows; its signature covers its canonical
    bytes; and the guard grants the claim of its identifier.  It then returns the principal the
    context names.  The guard is asked for nothing when one of the checks fails. *)
Theorem binding_auth_exact `{RequestReplayGuard} self guard envelope e now guard_now :
  (forall guard' identity,
     verify_subject self guard envelope e now guard_now = (guard', Ok identity) <->
     aware now = true /\ authentic self envelope e /\ current_for self envelope (instant now)
     /\ claim guard (claim_of envelope) guard_now = (guard', Ok true)
     /\ principal_re (BindingAuthContext.principal_id (s_auth_context envelope)) = true
     /\ identity = identity_of envelope)
  /\ (aware now = true /\ authentic self envelope e /\ current_for self envelope (instant now)
      \/ (verify_subject self guard envelope e now guard_now).1 = guard
         /\ is_ok (verify_subject self guard envelope e now guard_now).2 = false).
Proof.
  split; [intros; apply verify_subject_ok|].
  pose proof (binding_check_ok self envelope e now) as Hc. unfold verify_subject.
  destruct (check self envelope e now) as [[]|x]; [left; by apply Hc|by right].
Qed.

(** C21: what stands between an accepted request and its replay.  The verifier gives the guard the
    earlier of the end of the request's context and its deadline.  With a guard that refuses what it
    granted until the instant it was given, no request of the same principal, target and identifier
    is accepted until then, whatever else is verified meanwhile.  The verifier's own checks go on
    accepting the request for the clock skew after that instant, and no longer: a repeated call is
    accepted exactly when the skew has not passed and the guard grants its claim, so in the skew it
    is the guard alone, which was not told of it, that can refuse the replay. *)
Theorem binding_replay_window `{RefusingGuard} self guard envelope e now guard_now guard' identity :
  verify_subject self guard envelope e now guard_now = (guard', Ok identity) ->
  let until := Z.min (expires envelope) (deadline envelope) in
  claim_expires_at (claim_of envelope) = until
  /\ (forall later k c r, Forall (fun c => c_guard_now c <= until) later -> later !! k = Some c ->
     claim_key (claim_of (c_envelope c)) = claim_key (claim_of envelope) ->
     verify_all self guard' later !! k = Some r -> is_ok r = false)
  /\ (forall guard2 now' guard_now', aware now' = true -> instant now <= instant now' ->
      is_ok (verify_subject self guard2 envelope e now' guard_now').2 = true <->
      instant now' < until + _clock_skew self
      /\ (claim guard2 (claim_of envelope) guard_now').2 = Ok true).
Proof.
  intros (Ha & Hau & Hcu & Hcl & Hre & ->)%verify_subject_ok until.
  assert (refuses guard' (claim_key (claim_of envelope)) until) as Hk.
  { pose proof (claim_refuses guard (claim_of envelope) guard_now) as Hk. rewrite Hcl in Hk. by apply Hk. }
  split; [done|]. split.
  - intros later k c r Hl Hlk Hid Hr. by eapply (binding_verify_all_refuses self later).
  - intros guard2 now' guard_now' Ha' Hle.
    pose proof (verify_subject_ok self guard2 envelope e now' guard_now') as Hv. split.
    + intros Hok. destruct (verify_subject self guard2 envelope e now' guard_now') as [g [i|x]]; [|done].
      destruct (proj1 (Hv g i) eq_refl) as (_ & _ & Hcu' & Hcl' & _).
      unfold current_for in Hcu'. rewrite Hcl'. split; [lia|done].
    + intros [Hsk Hg]. destruct (claim guard2 (claim_of envelope) guard_now') as [g b] eqn:E.
      cbn in Hg. subst b. rewrite (proj2 (Hv g (identity_of envelope))); [done|].
      split; [done|]. split; [done|]. split; [unfold current_for in *; lia|done].
Qed.
End Authentication.

(** ** Signing *)
Section Signing.
Context `{RFC8785} `{A2AProtobuf} `{RequestSchema} `{NKeys}.

(** C22: what is signed verifies.  A signed envelope is the given one with a proof that names the key
    pair's public key and the binding's algorithm, and, when its dict satisfies the schema, the
    verifier's signature check accepts it; signing an envelope again gives the same envelope. *)
Theorem signed_request_verifies envelope key_pair signer signed :
  key_pair_ok key_pair signer -> sign_request_envelope envelope key_pair = Ok signed ->
  AuthProof.signer (BindingRequestEnvelope.auth_proof signed) = signer
  /\ AuthProof.algorithm (BindingRequestEnvelope.auth_proof signed) = AUTH_ALGORITHM
  /\ with_proof envelope (BindingRequestEnvelope.auth_proof signed) = Ok signed
  /\ (is_ok (BindingRequestEnvelope.to_dict signed) = true ->
      BindingAuthVerifier.check_signature signed = Ok tt)
  /\ sign_request_envelope signed key_pair = Ok signed.
Proof.
  intros Hkp Hs. destruct (sign_request_proof _ _ _ _ Hkp Hs) as (Hsigner & Halg & Hver).
  do 2 (split; [done|]).
  unfold sign_request_envelope in *. rewrite (kp_public _ _ Hkp) in Hs |- *. cbn [mbind result_bind] in Hs |- *.
  apply bind_ok in Hs as (un & [Hok ->]%with_proof_ok & Hs).
  apply bind_ok in Hs as (payload & Hpay & [_ ->]%with_proof_ok).
  rewrite reproved_twice reproved_proof in Hver |- *. split; [by apply with_proof_ok|]. split; [done|].
  apply bind_ok. eexists. split; [apply with_proof_ok; split; [by apply reproved_ok|done]|].
  rewrite reproved_twice. apply bind_ok. exists payload. split; [done|]. apply with_proof_ok.
  split; [by apply reproved_ok|by rewrite reproved_twice].
Qed.
End Signing.

(** ** Witnesses *)

(** keys whose signatures always verify *)
#[local] Instance lenient_keys : NKeys := {|
  crc16 := fun _ => 0%N; valid_public_prefix_byte := fun _ => true;
  ed25519_verify := fun _ _ _ => true; KeyPair := pybytes; public_key := fun k => inr k;
  sign := fun _ _ => replicate 64 0%N |}.
(** Guards that remember their claims, and when they expire: [held e now] says whether a claim that
    expires at [e] is still held at [now]. *)
Section Remembering.
Context (held : Z -> Z -> bool) (Hheld : forall e now, now <= e -> held e now = true).

Definition remembering : RequestReplayGuard := {|
  Guard := gmap (pystr * pystr * pystr) Z;
  claim := fun g c now =>
    if match g !! claim_key c with Some e => held e now | None => false end then (g, Ok false)
    else (<[claim_key c := claim_expires_at c]> g, Ok true) |}.

Lemma remembering_refuses : @RefusingGuard remembering.
Proof.
  refine (@Build_RefusingGuard remembering
    (fun g k until => exists e, (g : gmap (pystr * pystr * pystr) Z) !! k = Some e /\ until <= e) _ _ _).
  - intros g c until now (e & E & Hle) Hnow. cbn in g, E |- *. rewrite E. rewrite Hheld; [done|lia].
  - intros g c now. cbn. destruct (match g !! claim_key c with Some e => _ | None => _ end); [done|].
    intros _. eexists. split; [apply lookup_insert_eq|lia].
  - intros g c now k until (e & E & Hle) Hnow. cbn in g, E |- *.
    destruct (decide (claim_key c = k)) as [<-|Hne].
    + rewrite E Hheld; [|lia]. by exists e.
    + destruct (match g !! claim_key c with Some e => _ | None => _ end); cbn; exists e;
        rewrite ?lookup_insert_ne; done.
Defined.
End Remembering.

(** a guard that never forgets, as the tests of the verifier use *)
#[local] Instance map_guard : RequestReplayGuard := remembering (fun _ _ => true).
#[local] Instance map_guard_refuses : RefusingGuard := remembering_refuses (fun _ _ => true) (fun _ _ _ => eq_refl).
(** a guard that keeps a claim for 30 seconds after it expires, as the Redis design says, and one
    that forgets it as soon as it has expired *)
Definition redis_guard : RequestReplayGuard := remembering (fun e now => now <=? e + 30000000).
Definition redis_guard_refuses : @RefusingGuard redis_guard.
Proof. apply remembering_refuses. intros e now Hle. apply Z.leb_le. lia. Defined.
Definition forgetful_guard : RequestReplayGuard := remembering (fun e now => now <=? e).
Definition forgetful_guard_refuses : @RefusingGuard forgetful_guard.
Proof. apply remembering_refuses. intros e now Hle. by apply Z.leb_le. Defined.

Definition signer_pair : KeyPair := signer_key.
Definition signed_request : BindingRequestEnvelope.t :=
  Eval vm_compute in match sign_request_envelope (request (t0 + 30000000)) signer_pair with
                     | Ok e => e | Err _ => request t0 end.
Lemma signed_request_ok :
  sign_request_envelope (request (t0 + 30000000)) signer_pair = Ok signed_request.
Proof. vm_compute. reflexivity. Qed.

Definition verifier : BindingAuthVerifier.t :=
  BindingAuthVerifier.make {[ signer_key := {| principal_ids := {[ u "agent:windows-a" ]};
    methods := {[ u "nats-nkey" ]}; subjects := {[ u "windows-a" ]} |} ]} 30000000 900000000.
Definition expectation : BindingAuthVerifier.Expectation :=
  {| BindingAuthVerifier.received_subject := u "a2a.v1.rpc.linux";
     BindingAuthVerifier.expected_subject := u "a2a.v1.rpc.linux";
     BindingAuthVerifier.connection_public_key := signer_key;
     BindingAuthVerifier.expected_target_agent_id := u "linux";
     BindingAuthVerifier.expected_caller_agent_id := u "windows-a";
     BindingAuthVerifier.expected_caller_instance_id := u "inst-1";
     BindingAuthVerifier.allowed_reply_prefix := u "_INBOX.a2amesh.windows-a.";
     BindingAuthVerifier.expected_config_generation := 1 |}.

Definition first_request : Guard * result VerifiedBindingIdentity :=
  BindingAuthVerifier.verify_subject verifier ∅ signed_request expectation (at_us t0) t0.
Definition claimed : Guard := first_request.1.
Definition first_identity : VerifiedBindingIdentity :=
  identity_of (H0 := request_envelope_signed) signed_request.
Lemma first_request_accepted :
  BindingAuthVerifier.verify_subject verifier ∅ signed_request expectation (at_us t0) t0
  = (claimed, Ok first_identity).
Proof.
  fold first_request. rewrite (surjective_pairing first_request). by unfold claimed.
Qed.

(** the request of deadline [t0] + 30 s is refused for ever by a guard that never forgets, and passes
    the verifier's own checks one second after its deadline *)
Lemma binding_replay_window_witness :
  claim_expires_at (BindingAuthVerifier.claim_of (H0 := request_envelope_signed) signed_request) = t0 + 30000000
  /\ is_ok (BindingAuthVerifier.verify_subject verifier claimed signed_request expectation
       (at_us (t0 + 31000000)) (t0 + 31000000)).2 = false
  /\ is_ok (BindingAuthVerifier.verify_subject verifier ∅ signed_request expectation
       (at_us (t0 + 31000000)) (t0 + 31000000)).2 = true.
Proof.
  destruct (binding_replay_window (H0 := request_envelope_signed) verifier ∅ signed_request expectation
    (at_us t0) t0 claimed first_identity first_request_accepted) as (Hu & _ & Hr).
  assert (aware (at_us (t0 + 31000000)) = true) as Ha by reflexivity.
  assert (instant (at_us t0) <= instant (at_us (t0 + 31000000))) as Hle by (vm_compute; discriminate).
  split; [exact Hu|]. split.
  - specialize (Hr claimed (at_us (t0 + 31000000)) (t0 + 31000000) Ha Hle).
    assert ((claim claimed (BindingAuthVerifier.claim_of (H0 := request_envelope_signed) signed_request)
      (t0 + 31000000)).2 = Ok false) as Hno by (vm_compute; reflexivity).
    destruct (is_ok _); [|reflexivity]. apply proj1 in Hr. destruct (Hr eq_refl) as [_ Hc].
    rewrite Hno in Hc. discriminate Hc.
  - apply Hr; [exact Ha|exact Hle|]. split; vm_compute; reflexivity.
Defined.

(** with a guard that forgets a claim once it has expired, the same call is accepted again then; with
    one that keeps it for the skew as well, it is not *)
Example replay_in_skew :
  let verify g now := BindingAuthVerifier.verify_subject (H2 := forgetful_guard) verifier g signed_request
    expectation (at_us now) now in
  is_ok (verify (verify ∅ t0).1 (t0 + 30000000)).2 = false
  /\ is_ok (verify (verify ∅ t0).1 (t0 + 31000000)).2 = true.
Proof. vm_compute. split; reflexivity. Qed.
Example no_replay_in_skew :
  let verify g now := BindingAuthVerifier.verify_subject (H2 := redis_guard) verifier g signed_request
    expectation (at_us now) now in
  is_ok (verify (verify ∅ t0).1 (t0 + 31000000)).2 = false.
Proof. vm_compute. reflexivity. Qed.

Lemma signer_key_ok : key_pair_ok signer_pair signer_key.
Proof.
  constructor; [reflexivity| |].
  - intros m. split; [reflexivity|by apply Forall_replicate].
  - eexists. split; [vm_compute; reflexivity|done].
Qed.
Lemma signed_request_verifies_witness :
  BindingAuthVerifier.check_signature signed_request = Ok tt.
Proof.
  destruct (signed_request_verifies (request (t0 + 30000000)) signer_pair signer_key signed_request
    signer_key_ok signed_request_ok) as (_ & _ & _ & Hv & _).
  apply Hv. vm_compute. reflexivity.
Defined.
