(* ===== verification/StreamControl.v ===== *)
(** * The stream-session control payloads

    [bindings/nats_v1/stream_control.py]: the requests that open, acknowledge
    and close a stream session, their result, and the digest that binds an open
    request to facts its receiver knows from elsewhere.  The JSON Schema
    validators are the class [ControlSchemas]. *)
From S2P Require Import Prelude PyStr Sha256 Json Contract Identity Stream JsonBytes Operations Envelope.
Local Open Scope string_scope.
Local Open Scope list_scope.
Local Open Scope Z_scope.
Local Open Scope py_scope.

Definition STREAM_CONTROL_SCHEMA_VERSION : pystr := u "1.0".

(** [_CLOSE_REASON.fullmatch] *)
Definition upper (c : N) : bool := ((65 <=? c) && (c <=? 90))%N.
Definition close_reason_re (s : pystr) : bool :=
  match s with
  | c :: r => upper c && (Z.of_nat (length r) <=? 63)
      && forallb (fun c => upper c || is_digit c || (c =? 95)%N) r
  | [] => false
  end.

(** ** Enumerations *)
Inductive StreamControlKind := OPEN | ACK | CLOSE.
Definition kind_value (k : StreamControlKind) : string :=
  match k with OPEN => "open" | ACK => "ack" | CLOSE => "close" end.
Definition kind_subject (k : StreamControlKind) : pystr := u ("a2a.v1.stream." <+> kind_value k).

Inductive StreamControlOperation := OpenOperation | AckOperation | CloseOperation.
Definition control_operation_value (o : StreamControlOperation) : string :=
  match o with
  | OpenOperation => "StreamSessionOpen"
  | AckOperation => "StreamSessionAck"
  | CloseOperation => "StreamSessionClose"
  end.
Definition operation_kind (o : StreamControlOperation) : StreamControlKind :=
  match o with OpenOperation => OPEN | AckOperation => ACK | CloseOperation => CLOSE end.
Definition operation_subject (o : StreamControlOperation) : pystr := kind_subject (operation_kind o).

#[global] Instance control_operation_eq_dec : EqDecision StreamControlOperation.
Proof. solve_decision. Defined.

Inductive StreamSessionState :=
| OPENING | ACTIVE | DRAINING_FINAL | CLOSING | CLOSED | EXPIRING | EXPIRED.
Definition session_state_value (s : StreamSessionState) : string :=
  match s with
  | OPENING => "OPENING" | ACTIVE => "ACTIVE" | DRAINING_FINAL => "DRAINING_FINAL"
  | CLOSING => "CLOSING" | CLOSED => "CLOSED" | EXPIRING => "EXPIRING" | EXPIRED => "EXPIRED"
  end.
Definition all_session_states : list StreamSessionState :=
  [OPENING; ACTIVE; DRAINING_FINAL; CLOSING; CLOSED; EXPIRING; EXPIRED].
(** [StreamSessionState(value)] *)
Definition parse_session_state (value : json) : result StreamSessionState :=
  match value with
  | JStr s => or_raise (List.find (fun x => u (session_state_value x) == s) all_session_states)
      (ValueError "not a valid StreamSessionState")
  | _ => Err (ValueError "not a valid StreamSessionState")
  end.

(** ** Checks *)

(** the first violation of the named schema *)
Class ControlSchemas := { control_violation : string -> json -> option string }.

Definition _validate `{ControlSchemas} (schema_name : string) (data : json) : result unit :=
  match control_violation schema_name data with
  | Some violation => Err (binding ("stream " <+> schema_name <+> " schema violation at " <+> violation))
  | None => Ok tt
  end.

Definition _validate_safe_token (name : string) (value : json) : result pystr :=
  require_token value (name <+> " is not a safe token").
Definition _validate_digest (name : string) (value : json) : result pystr :=
  require_digest value (name <+> " must be lowercase SHA-256 hex").
Definition _validate_nonnegative_integer (name : string) (value : json) : result Z :=
  require_safe_integer value (name <+> " is outside JSON safe integer range").
Definition _validate_positive_integer (name : string) (value : json) : result Z :=
  match value with
  | JInt z =>
    raise_if (negb ((1 <=? z) && (z <=? 9007199254740991)))
      (binding (name <+> " must be a positive JSON safe integer"));; Ok z
  | _ => Err (binding (name <+> " must be a positive JSON safe integer"))
  end.
Definition _validate_timestamp (name : string) (value : datetime) : result unit :=
  raise_if (negb (aware value)) (binding (name <+> " must be timezone-aware")).

(** the checks of an [Operation] *)
Definition require_streaming (operation : Operation) : result unit :=
  raise_if (negb (streaming operation)) (binding "stream open operation must be streaming").

(** [value.astimezone(UTC).isoformat(timespec="milliseconds").replace("+00:00", "Z")] *)
Definition _format_timestamp_ms (value : datetime) : pystr :=
  isoformat_seconds (instant value / 1000000) ++ u "." ++ digits 3 (instant value / 1000 mod 1000)
  ++ u "Z".

Definition _parse_control_timestamp `{IsoParser} (value : json) : result datetime :=
  match value with
  | JStr s =>
    parsed ← except (fromisoformat (replace_z s))
      (fun e => match e with ValueError _ => true | _ => false end)
      (binding "invalid stream control timestamp");
    raise_if (negb (aware parsed)) (binding "stream control timestamp must include an offset");;
    Ok parsed
  | _ => Err (binding "invalid stream control timestamp")
  end.

Definition _canonical_bytes `{RFC8785} (data : dict) : result pybytes :=
  except (rfc8785_dumps (JObj data))
    (fun e => match e with CanonicalizationError | TypeError | UnicodeError => true | _ => false end)
    (binding "stream control object cannot be canonicalized").

Definition _decode_object (data : pybytes) (name : string) : result dict :=
  decode_object data (name <+> " is not valid UTF-8 JSON") (name <+> " must be a JSON object").

(** [data[key]] on a decoded value *)
Definition member (data : json) (key : string) : result json :=
  match data with JObj kvs => item kvs key | _ => Err TypeError end.

(** ** The digest of an open request *)
Module StreamOpenDigestContextV1.
Record t := make {
  caller_scope : pystr; response_core_principal_hash : pystr; consumer_config_digest : pystr }.

Definition init (caller_scope response_core_principal_hash consumer_config_digest : json) : result t :=
  caller_scope ← require_token caller_scope "callerScope is not a safe token";
  response_core_principal_hash ← require_digest response_core_principal_hash
    "responseCorePrincipalHash must be lowercase SHA-256 hex";
  consumer_config_digest ← require_digest consumer_config_digest
    "consumerConfigDigest must be lowercase SHA-256 hex";
  Ok (make caller_scope response_core_principal_hash consumer_config_digest).
End StreamOpenDigestContextV1.

Definition digest_input (stream_open_id : pystr) (operation : Operation)
    (task_id caller_instance_id : pystr) (expires_at : datetime) (config_generation : Z)
    (digest_context : StreamOpenDigestContextV1.t) : dict :=
  [(u "schemaVersion", JStr STREAM_CONTROL_SCHEMA_VERSION);
   (u "streamOpenId", JStr stream_open_id);
   (u "operation", JStr (u (operation_name operation)));
   (u "taskId", JStr task_id);
   (u "callerScope", JStr (StreamOpenDigestContextV1.caller_scope digest_context));
   (u "callerInstanceId", JStr caller_instance_id);
   (u "responseCorePrincipalHash",
    JStr (StreamOpenDigestContextV1.response_core_principal_hash digest_context));
   (u "configGeneration", JInt config_generation);
   (u "expiresAt", JStr (_format_timestamp_ms expires_at));
   (u "consumerConfigDigest", JStr (StreamOpenDigestContextV1.consumer_config_digest digest_context))].

(** [None] is anything but a [StreamOpenDigestContextV1] *)
Definition compute_stream_open_request_digest `{RFC8785} (stream_open_id : json)
    (operation : Operation) (task_id caller_instance_id : json) (expires_at : datetime)
    (config_generation : json) (digest_context : option StreamOpenDigestContextV1.t) : result pystr :=
  digest_context ← or_raise digest_context
    (binding "trusted stream open digest context is required");
  stream_open_id ← _validate_safe_token "streamOpenId" stream_open_id;
  task_id ← _validate_safe_token "taskId" task_id;
  caller_instance_id ← _validate_safe_token "callerInstanceId" caller_instance_id;
  require_streaming operation;;
  _validate_timestamp "expiresAt" expires_at;;
  config_generation ← _validate_positive_integer "configGeneration" config_generation;
  b ← _canonical_bytes (digest_input stream_open_id operation task_id caller_instance_id expires_at
    config_generation digest_context);
  Ok (sha256_hexdigest b).

(** ** Open *)
Module StreamOpenRequestV1.
Record t := make {
  stream_open_id : pystr; operation : Operation; task_id : pystr; caller_instance_id : pystr;
  request_digest : pystr; expires_at : datetime; config_generation : Z }.

Definition to_dict (self : t) : dict :=
  [(u "schemaVersion", JStr STREAM_CONTROL_SCHEMA_VERSION);
   (u "streamOpenId", JStr (stream_open_id self));
   (u "operation", JStr (u (operation_name (operation self))));
   (u "taskId", JStr (task_id self));
   (u "callerInstanceId", JStr (caller_instance_id self));
   (u "requestDigest", JStr (request_digest self));
   (u "expiresAt", JStr (_format_timestamp_ms (expires_at self)));
   (u "configGeneration", JInt (config_generation self))].

Section Open.
Context `{RFC8785} `{ControlSchemas} `{IsoParser}.

(** the constructor with its [__post_init__] *)
Definition init (stream_open_id : json) (operation : Operation)
    (task_id caller_instance_id request_digest : json) (expires_at : datetime)
    (config_generation : json) : result t :=
  stream_open_id ← _validate_safe_token "streamOpenId" stream_open_id;
  task_id ← _validate_safe_token "taskId" task_id;
  caller_instance_id ← _validate_safe_token "callerInstanceId" caller_instance_id;
  require_streaming operation;;
  request_digest ← _validate_digest "requestDigest" request_digest;
  _validate_timestamp "expiresAt" expires_at;;
  config_generation ← _validate_positive_integer "configGeneration" config_generation;
  let self := make stream_open_id operation task_id caller_instance_id request_digest expires_at
    config_generation in
  _validate "open" (JObj (to_dict self));;
  Ok self.

Definition create (stream_open_id : json) (operation : Operation) (task_id caller_instance_id : json)
    (expires_at : datetime) (config_generation : json)
    (digest_context : option StreamOpenDigestContextV1.t) : result t :=
  _validate_timestamp "expiresAt" expires_at;;
  digest ← compute_stream_open_request_digest stream_open_id operation task_id caller_instance_id
    expires_at config_generation digest_context;
  init stream_open_id operation task_id caller_instance_id (JStr digest) expires_at config_generation.

Definition verify_request_digest (self : t) (digest_context : option StreamOpenDigestContextV1.t)
    : result unit :=
  expected ← compute_stream_open_request_digest (JStr (stream_open_id self)) (operation self)
    (JStr (task_id self)) (JStr (caller_instance_id self)) (expires_at self)
    (JInt (config_generation self)) digest_context;
  raise_if (request_digest self != expected) (binding "stream open requestDigest mismatch").

Definition canonical_bytes (self : t) : result pybytes := _canonical_bytes (to_dict self).

Definition from_dict (data : json) : result t :=
  _validate "open" data;;
  expires ← member data "expiresAt";
  expires_at ← _parse_control_timestamp expires;
  raise_if (match expires with JStr s => _format_timestamp_ms expires_at != s | _ => true end)
    (binding "expiresAt must be canonical UTC milliseconds");;
  operation ← member data "operation";
  operation ← except (parse_operation operation)
    (fun e => match e with ValueError _ => true | _ => false end)
    (binding "unknown stream open operation");
  stream_open_id ← member data "streamOpenId";
  task_id ← member data "taskId";
  caller_instance_id ← member data "callerInstanceId";
  request_digest ← member data "requestDigest";
  config_generation ← member data "configGeneration";
  init stream_open_id operation task_id caller_instance_id request_digest expires_at config_generation.

Definition from_json_bytes (data : pybytes) : result t :=
  decoded ← _decode_object data "stream open request"; from_dict (JObj decoded).
End Open.
End StreamOpenRequestV1.

(** ** Acknowledge *)
Module StreamAckRequestV1.
Record t := make {
  stream_session_id : pystr; stream_open_id : pystr; sequence : Z; event_seq : Z;
  payload_digest : pystr }.

Definition to_dict (self : t) : dict :=
  [(u "schemaVersion", JStr STREAM_CONTROL_SCHEMA_VERSION);
   (u "streamSessionId", JStr (stream_session_id self));
   (u "streamOpenId", JStr (stream_open_id self));
   (u "sequence", JInt (sequence self));
   (u "eventSeq", JInt (event_seq self));
   (u "payloadDigest", JStr (payload_digest self))].

Section Ack.
Context `{RFC8785} `{ControlSchemas}.

Definition init (stream_session_id stream_open_id sequence event_seq payload_digest : json) : result t :=
  stream_session_id ← _validate_safe_token "streamSessionId" stream_session_id;
  stream_open_id ← _validate_safe_token "streamOpenId" stream_open_id;
  sequence ← _validate_positive_integer "sequence" sequence;
  event_seq ← _validate_nonnegative_integer "eventSeq" event_seq;
  payload_digest ← _validate_digest "payloadDigest" payload_digest;
  let self := make stream_session_id stream_open_id sequence event_seq payload_digest in
  _validate "ack" (JObj (to_dict self));;
  Ok self.

Definition canonical_bytes (self : t) : result pybytes := _canonical_bytes (to_dict self).

Definition from_dict (data : json) : result t :=
  _validate "ack" data;;
  stream_session_id ← member data "streamSessionId";
  stream_open_id ← member data "streamOpenId";
  sequence ← member data "sequence";
  event_seq ← member data "eventSeq";
  payload_digest ← member data "payloadDigest";
  init stream_session_id stream_open_id sequence event_seq payload_digest.

Definition from_json_bytes (data : pybytes) : result t :=
  decoded ← _decode_object data "stream ack request"; from_dict (JObj decoded).
End Ack.
End StreamAckRequestV1.

(** ** Close *)
Module StreamCloseRequestV1.
Record t := make { stream_session_id : pystr; stream_open_id : pystr; reason : pystr }.

Definition to_dict (self : t) : dict :=
  [(u "schemaVersion", JStr STREAM_CONTROL_SCHEMA_VERSION);
   (u "streamSessionId", JStr (stream_session_id self));
   (u "streamOpenId", JStr (stream_open_id self));
   (u "reason", JStr (reason self))].

Section Close.
Context `{RFC8785} `{ControlSchemas}.

Definition init (stream_session_id stream_open_id reason : json) : result t :=
  stream_session_id ← _validate_safe_token "streamSessionId" stream_session_id;
  stream_open_id ← _validate_safe_token "streamOpenId" stream_open_id;
  reason ←
    (match reason with
     | JStr s =>
       raise_if (negb (close_reason_re s)) (binding "stream close reason must be a bounded code");; Ok s
     | _ => Err (binding "stream close reason must be a bounded code")
     end);
  let self := make stream_session_id stream_open_id reason in
  _validate "close" (JObj (to_dict self));;
  Ok self.

Definition canonical_bytes (self : t) : result pybytes := _canonical_bytes (to_dict self).

Definition from_dict (data : json) : result t :=
  _validate "close" data;;
  stream_session_id ← member data "streamSessionId";
  stream_open_id ← member data "streamOpenId";
  reason ← member data "reason";
  init stream_session_id stream_open_id reason.

Definition from_json_bytes (data : pybytes) : result t :=
  decoded ← _decode_object data "stream close request"; from_dict (JObj decoded).
End Close.
End StreamCloseRequestV1.

(** ** Result *)
Module StreamControlResultV1.
Record t := make { accepted : bool; current_state : StreamSessionState }.

Definition to_dict (self : t) : dict :=
  [(u "accepted", JBool (accepted self));
   (u "currentState", JStr (u (session_state_value (current_state self))))].

Section Result.
Context `{RFC8785} `{ControlSchemas}.

Definition init (accepted : json) (current_state : StreamSessionState) : result t :=
  accepted ← require_bool accepted "accepted must be boolean";
  let self := make accepted current_state in
  _validate "result" (JObj (to_dict self));;
  Ok self.

Definition canonical_bytes (self : t) : result pybytes := _canonical_bytes (to_dict self).

Definition from_dict (data : json) : result t :=
  _validate "result" data;;
  state ← member data "currentState";
  state ← except (parse_session_state state)
    (fun e => match e with ValueError _ => true | _ => false end)
    (binding "unknown stream session currentState");
  accepted ← member data "accepted";
  init accepted state.

Definition from_json_bytes (data : pybytes) : result t :=
  decoded ← _decode_object data "stream control result"; from_dict (JObj decoded).
End Result.
End StreamControlResultV1.
