(* ===== verification/ControlEnvelope.v ===== *)
(** * The signed envelope of stream-session control commands

    [bindings/nats_v1/stream_control_envelope.py]: the envelope of the three
    control requests, its signature and its verifier, which checks the command
    and the digest of an open request before the common checks of
    [BindingAuth.v].  The timestamps are written by the [_format_timestamp] of
    [Envelope.v], of which this file of the source has a copy. *)
From S2P Require Import Prelude PyStr Json Contract Identity Stream JsonBytes Operations Envelope BindingAuth StreamControl.
Local Open Scope string_scope.
Local Open Scope list_scope.
Local Open Scope Z_scope.
Local Open Scope py_scope.

(** [StreamControlPayload] *)
Inductive StreamControlPayload :=
| OpenPayload (request : StreamOpenRequestV1.t)
| AckPayload (request : StreamAckRequestV1.t)
| ClosePayload (request : StreamCloseRequestV1.t).

(** [_PAYLOAD_TYPES], as the operation whose payloads have the type of the given one *)
Definition payload_operation (payload : StreamControlPayload) : StreamControlOperation :=
  match payload with
  | OpenPayload _ => OpenOperation
  | AckPayload _ => AckOperation
  | ClosePayload _ => CloseOperation
  end.
Definition payload_type_name (operation : StreamControlOperation) : string :=
  match operation with
  | OpenOperation => "StreamOpenRequestV1"
  | AckOperation => "StreamAckRequestV1"
  | CloseOperation => "StreamCloseRequestV1"
  end.

(** [payload.stream_open_id] and [payload.to_dict()] *)
Definition payload_open_id (payload : StreamControlPayload) : pystr :=
  match payload with
  | OpenPayload r => StreamOpenRequestV1.stream_open_id r
  | AckPayload r => StreamAckRequestV1.stream_open_id r
  | ClosePayload r => StreamCloseRequestV1.stream_open_id r
  end.
Definition payload_dict (payload : StreamControlPayload) : dict :=
  match payload with
  | OpenPayload r => StreamOpenRequestV1.to_dict r
  | AckPayload r => StreamAckRequestV1.to_dict r
  | ClosePayload r => StreamCloseRequestV1.to_dict r
  end.

(** [StreamControlOperation(value)] *)
Definition all_control_operations : list StreamControlOperation :=
  [OpenOperation; AckOperation; CloseOperation].
Definition parse_control_operation (value : json) : result StreamControlOperation :=
  match value with
  | JStr s => or_raise (List.find (fun o => u (control_operation_value o) == s) all_control_operations)
      (ValueError "not a valid StreamControlOperation")
  | _ => Err (ValueError "not a valid StreamControlOperation")
  end.

(** the first violation of the envelope's schema *)
Class ControlEnvelopeSchema := { envelope_violation : dict -> option string }.

Definition _validate_control_schema `{ControlEnvelopeSchema} (data : dict) : result unit :=
  match envelope_violation data with
  | Some violation => Err (binding ("stream control envelope schema violation at " <+> violation))
  | None => Ok tt
  end.

Definition require_agent_id (value : json) (msg : string) : result pystr :=
  match value with
  | JStr s => raise_if (negb (agent_id_re s)) (binding msg);; Ok s
  | _ => Err (binding msg)
  end.

Definition _parse_envelope_timestamp `{IsoParser} (value : json) : result datetime :=
  match value with
  | JStr s =>
    parsed ← except (fromisoformat (replace_z s))
      (fun e => match e with ValueError _ => true | _ => false end)
      (binding "invalid stream control envelope timestamp");
    raise_if (negb (aware parsed))
      (binding "stream control envelope timestamp must include an offset");;
    Ok parsed
  | _ => Err (binding "invalid stream control envelope timestamp")
  end.

Module StreamControlEnvelopeV1.
Record t := make {
  operation : StreamControlOperation;
  request_id : pystr;
  caller_instance_id : pystr;
  stream_open_id : pystr;
  config_generation : Z;
  caller_agent_id : pystr;
  auth_context : BindingAuthContext.t;
  auth_proof : AuthProof.t;
  target_agent_id : pystr;
  sent_at : datetime;
  deadline_at : datetime;
  reply_subject : pystr;
  payload : StreamControlPayload }.

Definition expected_subject (self : t) : pystr := operation_subject (operation self).

Definition members (self : t) (proof : dict) : dict :=
  [(u "bindingUri", JStr BINDING_URI);
   (u "bindingSchemaVersion", JStr BINDING_SCHEMA_VERSION);
   (u "a2aProtocolVersion", JStr A2A_PROTOCOL_VERSION);
   (u "operation", JStr (u (control_operation_value (operation self))));
   (u "requestId", JStr (request_id self));
   (u "callerInstanceId", JStr (caller_instance_id self));
   (u "streamOpenId", JStr (stream_open_id self));
   (u "configGeneration", JInt (config_generation self));
   (u "callerAgentId", JStr (caller_agent_id self));
   (u "authContext", JObj (BindingAuthContext.to_dict (auth_context self)));
   (u "authProof", JObj proof);
   (u "targetAgentId", JStr (target_agent_id self));
   (u "sentAt", JStr (_format_timestamp (sent_at self)));
   (u "deadlineAt", JStr (_format_timestamp (deadline_at self)));
   (u "replySubject", JStr (reply_subject self));
   (u "payload", JObj (payload_dict (payload self)))].

Definition to_dict (self : t) : dict := members self (proof_dict (auth_proof self)).
(** [del data["authProof"]["signature"]] on the dict of [to_dict] *)
Definition signing_payload_dict (self : t) : dict := members self (unsigned_members (auth_proof self)).

Section Envelope.
Context `{RFC8785} `{ControlSchemas} `{IsoParser} `{ControlEnvelopeSchema}.

(** the constructor with its [__post_init__]; the arguments that are not
    [json] have the types its [isinstance] checks ask for *)
Definition init (operation : StreamControlOperation)
    (request_id caller_instance_id stream_open_id config_generation caller_agent_id : json)
    (auth_context : BindingAuthContext.t) (auth_proof : AuthProof.t) (target_agent_id : json)
    (sent_at deadline_at : datetime) (reply_subject : pystr) (payload : StreamControlPayload)
    : result t :=
  request_id ← _validate_safe_token "requestId" request_id;
  caller_instance_id ← _validate_safe_token "callerInstanceId" caller_instance_id;
  stream_open_id ← _validate_safe_token "streamOpenId" stream_open_id;
  caller_agent_id ← require_agent_id caller_agent_id "callerAgentId is invalid";
  target_agent_id ← require_agent_id target_agent_id "targetAgentId is invalid";
  config_generation ←
    (match config_generation with
     | JInt z =>
       raise_if (negb ((1 <=? z) && (z <=? 9007199254740991)))
         (binding "configGeneration must be a positive safe integer");; Ok z
     | _ => Err (binding "configGeneration must be a positive safe integer")
     end);
  raise_if (payload_operation payload != operation)
    (binding ("payload type for " <+> control_operation_value operation <+> " must be "
      <+> payload_type_name operation));;
  raise_if (payload_open_id payload != stream_open_id)
    (binding "outer and payload streamOpenId mismatch");;
  (match payload with
   | OpenPayload open_payload =>
     raise_if (StreamOpenRequestV1.caller_instance_id open_payload != caller_instance_id)
       (binding "outer and payload callerInstanceId mismatch");;
     raise_if (negb (StreamOpenRequestV1.config_generation open_payload =? config_generation))
       (binding "outer and payload configGeneration mismatch")
   | _ => Ok tt
   end);;
  raise_if (negb (aware sent_at)) (binding "sentAt must be timezone-aware");;
  raise_if (negb (aware deadline_at)) (binding "deadlineAt must be timezone-aware");;
  raise_if (instant deadline_at <=? instant sent_at)
    (binding "deadlineAt must be later than sentAt");;
  let issued_at := BindingAuthContext.issued_at auth_context in
  let expires_at := BindingAuthContext.expires_at auth_context in
  raise_if (negb (aware issued_at) || negb (aware expires_at))
    (binding "AuthContext timestamps must be timezone-aware");;
  raise_if (instant expires_at <=? instant issued_at)
    (binding "AuthContext expiresAt must be later than issuedAt");;
  raise_if (negb ((instant issued_at <=? instant sent_at) && (instant sent_at <? instant expires_at)))
    (binding "AuthContext is not valid at sentAt");;
  let self := make operation request_id caller_instance_id stream_open_id config_generation
    caller_agent_id auth_context auth_proof target_agent_id sent_at deadline_at reply_subject
    payload in
  _validate_control_schema (to_dict self);;
  Ok self.

(** [_PAYLOAD_TYPES[operation].from_dict(data)] *)
Definition payload_from_dict (operation : StreamControlOperation) (data : json)
    : result StreamControlPayload :=
  match operation with
  | OpenOperation => r ← StreamOpenRequestV1.from_dict data; Ok (OpenPayload r)
  | AckOperation => r ← StreamAckRequestV1.from_dict data; Ok (AckPayload r)
  | CloseOperation => r ← StreamCloseRequestV1.from_dict data; Ok (ClosePayload r)
  end.

Definition from_dict (data : dict) : result t :=
  _validate_control_schema data;;
  operation ← (value ← item data "operation";
    except (parse_control_operation value)
      (fun e => match e with ValueError _ => true | _ => false end)
      (binding "unknown stream control operation"));
  payload ← (value ← item data "payload"; payload_from_dict operation value);
  auth_context ← dict_item_at data "authContext";
  auth_proof ← dict_item_at data "authProof";
  request_id ← item data "requestId";
  caller_instance_id ← item data "callerInstanceId";
  stream_open_id ← item data "streamOpenId";
  config_generation ← item data "configGeneration";
  caller_agent_id ← item data "callerAgentId";
  principal_id ← text_at auth_context "principalId";
  credential_id ← text_at auth_context "credentialId";
  method ← text_at auth_context "method";
  issuer ← text_at auth_context "issuer";
  subject ← text_at auth_context "subject";
  issued_at ← (s ← item auth_context "issuedAt"; _parse_envelope_timestamp s);
  expires_at ← (s ← item auth_context "expiresAt"; _parse_envelope_timestamp s);
  signer ← text_at auth_proof "signer";
  algorithm ← text_at auth_proof "algorithm";
  signature ← text_at auth_proof "signature";
  target_agent_id ← item data "targetAgentId";
  sent_at ← (s ← item data "sentAt"; _parse_envelope_timestamp s);
  deadline_at ← (s ← item data "deadlineAt"; _parse_envelope_timestamp s);
  reply_subject ← text_at data "replySubject";
  init operation request_id caller_instance_id stream_open_id config_generation caller_agent_id
    (BindingAuthContext.make principal_id credential_id method issuer subject issued_at expires_at)
    (AuthProof.make signer algorithm signature)
    target_agent_id sent_at deadline_at reply_subject payload.

Definition to_json_bytes (self : t) : result pybytes := to_bytes (JObj (to_dict self)).

Definition from_json_bytes (data : pybytes) : result t :=
  decoded ← decode_object data "stream control envelope is not valid UTF-8 JSON"
    "stream control envelope must be a JSON object";
  from_dict decoded.

(** [replace(envelope, auth_proof=proof)], which runs [__post_init__] again *)
Definition with_proof (self : t) (proof : AuthProof.t) : result t :=
  init (operation self) (JStr (request_id self)) (JStr (caller_instance_id self))
    (JStr (stream_open_id self)) (JInt (config_generation self)) (JStr (caller_agent_id self))
    (auth_context self) proof (JStr (target_agent_id self)) (sent_at self) (deadline_at self)
    (reply_subject self) (payload self).
End Envelope.
End StreamControlEnvelopeV1.

#[export] Instance control_envelope_signed : SignedBindingEnvelope := {|
  Signed := StreamControlEnvelopeV1.t;
  s_request_id := StreamControlEnvelopeV1.request_id;
  s_caller_instance_id := StreamControlEnvelopeV1.caller_instance_id;
  s_config_generation := StreamControlEnvelopeV1.config_generation;
  s_caller_agent_id := StreamControlEnvelopeV1.caller_agent_id;
  s_auth_context := StreamControlEnvelopeV1.auth_context;
  s_auth_proof := StreamControlEnvelopeV1.auth_proof;
  s_target_agent_id := StreamControlEnvelopeV1.target_agent_id;
  s_sent_at := StreamControlEnvelopeV1.sent_at;
  s_deadline_at := StreamControlEnvelopeV1.deadline_at;
  s_reply_subject := StreamControlEnvelopeV1.reply_subject;
  s_signing_payload_dict := fun self => Ok (StreamControlEnvelopeV1.signing_payload_dict self) |}.

Definition sign_stream_control_envelope `{RFC8785} `{NKeys} `{ControlSchemas} `{ControlEnvelopeSchema}
    (envelope : StreamControlEnvelopeV1.t) (key_pair : KeyPair) : result StreamControlEnvelopeV1.t :=
  signer ← nkey_public_key key_pair;
  unsigned ← StreamControlEnvelopeV1.with_proof envelope
    (AuthProof.make signer AUTH_ALGORITHM (u "unsigned"));
  payload ← canonical_signing_bytes unsigned;
  StreamControlEnvelopeV1.with_proof unsigned
    (AuthProof.make signer AUTH_ALGORITHM (sign_nkey payload key_pair)).

(** ** The verifier *)
Module StreamControlAuthVerifier.
Record t := make { _common : BindingAuthVerifier.t }.

Definition init (signer_policies : gmap pystr SignerPolicy) (has_replay_guard : bool)
    (clock_skew_seconds max_auth_lifetime_seconds : Z) : result t :=
  common ← BindingAuthVerifier.init signer_policies has_replay_guard clock_skew_seconds
    max_auth_lifetime_seconds;
  Ok (make common).

Section Verify.
Context `{RFC8785} `{NKeys} `{RequestReplayGuard}.

(** the checks before the common ones *)
Definition check_command (envelope : StreamControlEnvelopeV1.t)
    (expected_operation : StreamControlOperation)
    (open_digest_context : option StreamOpenDigestContextV1.t) : result unit :=
  raise_if (StreamControlEnvelopeV1.operation envelope != expected_operation)
    (binding "stream control operation does not match handler");;
  match StreamControlEnvelopeV1.operation envelope with
  | OpenOperation =>
    raise_if (negb (bool_decide (is_Some open_digest_context)))
      (binding "trusted digest context is required for stream open");;
    match StreamControlEnvelopeV1.payload envelope with
    | OpenPayload request => StreamOpenRequestV1.verify_request_digest request open_digest_context
    | _ => Err (RuntimeError "AttributeError")
    end
  | _ =>
    raise_if (bool_decide (is_Some open_digest_context))
      (binding "stream open digest context is invalid for ack/close")
  end.

Definition verify (self : t) (guard : Guard) (envelope : StreamControlEnvelopeV1.t)
    (expected_operation : StreamControlOperation)
    (received_subject connection_public_key expected_target_agent_id expected_caller_agent_id
     expected_caller_instance_id allowed_reply_prefix : pystr) (expected_config_generation : Z)
    (open_digest_context : option StreamOpenDigestContextV1.t) (now : datetime) (guard_now : Z)
    : Guard * result VerifiedBindingIdentity :=
  match check_command envelope expected_operation open_digest_context with
  | Err e => (guard, Err e)
  | Ok _ =>
    BindingAuthVerifier.verify_subject (_common self) guard envelope
      {| BindingAuthVerifier.received_subject := received_subject;
         BindingAuthVerifier.expected_subject := operation_subject expected_operation;
         BindingAuthVerifier.connection_public_key := connection_public_key;
         BindingAuthVerifier.expected_target_agent_id := expected_target_agent_id;
         BindingAuthVerifier.expected_caller_agent_id := expected_caller_agent_id;
         BindingAuthVerifier.expected_caller_instance_id := expected_caller_instance_id;
         BindingAuthVerifier.allowed_reply_prefix := allowed_reply_prefix;
         BindingAuthVerifier.expected_config_generation := expected_config_generation |} now guard_now
  end.
End Verify.
End StreamControlAuthVerifier.
