(* ===== verification/ControlFacts.v ===== *)
(** * Stream-session control payloads: facts

    What the constructors accept; that the bytes an open request's digest covers
    determine the request and the trusted context, to the millisecond; and how
    payloads are read back from their dicts. *)
From S2P Require Import Prelude PyStr Sha256 Json JsonFacts Contract ContractFacts WireFacts Identity Stream StreamFacts.
From S2P Require Import Operations Envelope EnvelopeFacts CalendarFacts BindingAuth StreamControl ControlEnvelope.
Local Open Scope string_scope.
Local Open Scope list_scope.
Local Open Scope Z_scope.
Local Open Scope py_scope.

Definition positive_integer (z : Z) : Prop := 1 <= z <= 9007199254740991.

Lemma positive_integer_ok name v z :
  _validate_positive_integer name v = Ok z <-> v = JInt z /\ positive_integer z.
Proof.
  unfold _validate_positive_integer, positive_integer. destruct v; try (split; [done|by intros [? _]]).
  rw bind_ok_unit raise_if_ok Ok_inj_iff. split.
  - intros [? ->]. split; [done|lia].
  - intros [[= ->] ?]. split; [lia|done].
Qed.

Lemma timestamp_ok name v : _validate_timestamp name v = Ok tt <-> aware v = true.
Proof. unfold _validate_timestamp. by rw raise_if_ok negb_false_iff. Qed.

Lemma require_streaming_ok o : require_streaming o = Ok tt <-> streaming o = true.
Proof. unfold require_streaming. by rw raise_if_ok negb_false_iff. Qed.

(** ** Texts and timestamps *)
Lemma safe_token_scalar s : safe_token s -> scalar_str s = true.
Proof. intros [_ Ht]. apply scalar_str_plain. eapply Forall_impl; [exact Ht|]. apply is_b64_plain. Qed.

Lemma sha_scalar s : sha256_hex s -> scalar_str s = true.
Proof. apply scalar_str_sha. Qed.

Lemma scalar_app s t : scalar_str (s ++ t) = scalar_str s && scalar_str t.
Proof. apply forallb_app. Qed.

Lemma scalar_app_intro s t : scalar_str s = true -> scalar_str t = true -> scalar_str (s ++ t) = true.
Proof. intros Hs Ht. by rewrite scalar_app Hs Ht. Qed.

Lemma scalar_digits width : forall n, scalar_str (digits width n) = true.
Proof.
  induction width as [|width IH]; intros n; [done|]. cbn [digits]. apply scalar_app_intro; [apply IH|].
  pose proof (Z.mod_pos_bound n 10). cbn. unfold is_scalar. lia.
Qed.

Ltac scalar_text := repeat lazymatch goal with
  | |- scalar_str (digits _ _) = true => apply scalar_digits
  | |- scalar_str (_ ++ _) = true => apply scalar_app_intro
  | |- _ => done
  end.
Lemma scalar_isoformat s : scalar_str (isoformat_seconds s) = true.
Proof.
  unfold isoformat_seconds. destruct (civil_of_day _) as [[y m] d]. cbv zeta.
  scalar_text.
Qed.

Lemma scalar_ms v : scalar_str (_format_timestamp_ms v) = true.
Proof.
  unfold _format_timestamp_ms. apply scalar_app_intro; [apply scalar_isoformat|scalar_text].
Qed.

Lemma operation_name_inj o o' : u (operation_name o) = u (operation_name o') -> o = o'.
Proof. by destruct o, o'. Qed.

(** the millisecond an instant is in, which is that of a [datetime] of the years 1 to 9999 *)
Definition ms_of (v : datetime) : Z := instant v / 1000.
Definition in_years (v : datetime) : Prop := datetime_second (second_of v).

Lemma isoformat_length s : length (isoformat_seconds s) = 19%nat.
Proof.
  unfold isoformat_seconds. destruct (civil_of_day _) as [[y m] d]. cbv zeta.
  do 6 match goal with |- context [digits ?w ?n] =>
    let L := fresh "L" in pose proof (digits_length w n) as L; generalize dependent (digits w n); intros end.
  rewrite !length_app L L0 L1 L2 L3 L4. done.
Qed.

Lemma format_ms_inj v w : in_years v -> in_years w ->
  _format_timestamp_ms v = _format_timestamp_ms w -> ms_of v = ms_of w.
Proof.
  intros Hv Hw E. unfold _format_timestamp_ms in E.
  apply app_inj_1 in E as [Es E]; [|by rewrite !isoformat_length].
  apply isoformat_seconds_inj in Es; [|done..]. apply app_inv_head in E.
  apply app_inj_1 in E as [Em _]; [|by rewrite !digits_length].
  apply digits_inj in Em; [|cbn; Z.to_euclidean_division_equations; lia..].
  unfold ms_of. Z.to_euclidean_division_equations. lia.
Qed.

Lemma format_ms_ext v w : ms_of v = ms_of w -> _format_timestamp_ms v = _format_timestamp_ms w.
Proof.
  intros E. unfold _format_timestamp_ms.
  replace (instant v / 1000000) with (instant w / 1000000).
  - by replace (instant v / 1000) with (instant w / 1000).
  - unfold ms_of in E. change 1000000 with (1000 * 1000). rewrite <- !Z.div_div by lia. by rewrite E.
Qed.

(** ** Canonical bytes *)
Lemma text_eq s s' : Some (JStr s) = Some (JStr s') -> s = s'.
Proof. by intros [= ->]. Qed.
Lemma integer_eq z z' : Some (JInt z) = Some (JInt z') -> z = z'.
Proof. by intros [= ->]. Qed.

Section Bytes.
Context `{RFC8785} `{!RFC8785Spec}.

(** dicts with the same canonical bytes have the same members *)
Lemma canonical_bytes_inj d d' b : ijson (JObj d) = true -> ijson (JObj d') = true ->
  _canonical_bytes d = Ok b -> _canonical_bytes d' = Ok b ->
  forall k, sort_json <$> obj_get k d = sort_json <$> obj_get k d'.
Proof.
  intros Hd Hd' Hb Hb' k. apply except_ok in Hb, Hb'.
  destruct (dumps_text _ _ Hd Hb) as (t & Ht & Hl). destruct (dumps_text _ _ Hd' Hb') as (t' & Ht' & Hl').
  rewrite Ht in Ht'. injection Ht' as <-.
  set (n := (depth_of (JObj d) `max` depth_of (JObj d'))%nat).
  specialize (Hl n (fun kvs => Ok kvs) (fun _ => Err JSONDecodeError) (Nat.le_max_l _ _) (fun _ _ => eq_refl)).
  specialize (Hl' n (fun kvs => Ok kvs) (fun _ => Err JSONDecodeError) (Nat.le_max_r _ _) (fun _ _ => eq_refl)).
  rewrite Hl !sort_json_obj in Hl'. injection Hl' as E.
  rewrite ijson_obj in Hd. apply andb_true_iff in Hd as [Hd%bool_decide_eq_true _].
  rewrite ijson_obj in Hd'. apply andb_true_iff in Hd' as [Hd'%bool_decide_eq_true _].
  rewrite -!obj_get_canonical; [|done..]. unfold canonical_members. by rewrite E.
Qed.
End Bytes.

(** ** Open requests *)
Section Open.
Context `{RFC8785} `{ControlSchemas} `{IsoParser}.
Import StreamOpenRequestV1.

(** what the digest function asks of an open request *)
Record open_ok (self : t) : Prop := {
  oo_open : safe_token (stream_open_id self);
  oo_task : safe_token (task_id self);
  oo_instance : safe_token (caller_instance_id self);
  oo_streaming : streaming (operation self) = true;
  oo_aware : aware (expires_at self) = true;
  oo_config : positive_integer (config_generation self) }.

(** what the constructor of a digest context asks *)
Record digest_context_ok (c : StreamOpenDigestContextV1.t) : Prop := {
  dc_scope : safe_token (StreamOpenDigestContextV1.caller_scope c);
  dc_hash : sha256_hex (StreamOpenDigestContextV1.response_core_principal_hash c);
  dc_config : sha256_hex (StreamOpenDigestContextV1.consumer_config_digest c) }.

(** the bytes the digest of a request is made from *)
Definition digest_bytes (self : t) (c : StreamOpenDigestContextV1.t) : result pybytes :=
  _canonical_bytes (digest_input (stream_open_id self) (operation self) (task_id self)
    (caller_instance_id self) (expires_at self) (config_generation self) c).

(** requests that differ in their digest and below the millisecond of their expiry only *)
Record same_open (r r' : t) : Prop := {
  so_open : stream_open_id r = stream_open_id r';
  so_operation : operation r = operation r';
  so_task : task_id r = task_id r';
  so_instance : caller_instance_id r = caller_instance_id r';
  so_expires : ms_of (expires_at r) = ms_of (expires_at r');
  so_config : config_generation r = config_generation r' }.

Lemma compute_digest_ok o op k i e g c digest :
  compute_stream_open_request_digest o op k i e g (Some c) = Ok digest <->
  exists r b, o = JStr (stream_open_id r) /\ op = operation r /\ k = JStr (task_id r)
    /\ i = JStr (caller_instance_id r) /\ e = expires_at r /\ g = JInt (config_generation r)
    /\ open_ok r /\ digest_bytes r c = Ok b /\ digest = sha256_hexdigest b.
Proof.
  unfold compute_stream_open_request_digest, _validate_safe_token. cbn [or_raise mbind result_bind]. split.
  - intros (o' & [-> ?]%require_token_ok & Hr)%bind_ok.
    apply bind_ok in Hr as (k' & [-> ?]%require_token_ok & Hr).
    apply bind_ok in Hr as (i' & [-> ?]%require_token_ok & Hr).
    apply bind_ok_unit in Hr as [?%require_streaming_ok Hr].
    apply bind_ok_unit in Hr as [?%timestamp_ok Hr].
    apply bind_ok in Hr as (g' & [-> ?]%positive_integer_ok & Hr).
    apply bind_ok in Hr as (b & Hb & [= <-]).
    exists (make o' op k' i' [] e g'), b. do 6 (split; [done|]). split; [by constructor|done].
  - intros (r & b & -> & -> & -> & -> & -> & -> & [? ? ? ? ? ?] & Hb & ->).
    do 3 (apply bind_ok; eexists; split; [by apply require_token_ok|]).
    apply bind_ok_unit. split; [by apply require_streaming_ok|].
    apply bind_ok_unit. split; [by apply timestamp_ok|].
    apply bind_ok. eexists. split; [by apply positive_integer_ok|].
    apply bind_ok. by exists b.
Qed.

Lemma verify_digest_ok r c : verify_request_digest r (Some c) = Ok tt <->
  open_ok r /\ exists b, digest_bytes r c = Ok b /\ request_digest r = sha256_hexdigest b.
Proof.
  unfold verify_request_digest. rewrite bind_ok. split.
  - intros (digest & (r' & b & [= Eo] & Eop & [= Ek] & [= Ei] & Ee & [= Eg] & Hok & Hb & ->)%compute_digest_ok
      & Hd%raise_if_ok%neqb_false).
    unfold digest_bytes in *. rewrite Eo Eop Ek Ei Ee Eg. split; [|by exists b].
    destruct Hok. constructor; congruence.
  - intros [Hok (b & Hb & Hd)]. exists (sha256_hexdigest b). split.
    + apply compute_digest_ok. by exists r, b.
    + by apply raise_if_ok, neqb_false.
Qed.

Lemma digest_input_ijson r c : open_ok r -> digest_context_ok c ->
  ijson (JObj (digest_input (stream_open_id r) (operation r) (task_id r) (caller_instance_id r)
    (expires_at r) (config_generation r) c)) = true.
Proof.
  intros [? ? ? ? ? [? ?]] [? ? ?]. apply ijson_members; [vm_compute; reflexivity|].
  repeat (apply Forall_cons; split; [split; [reflexivity|cbn [snd ijson]]|]); [..|constructor];
    first [by apply safe_token_scalar | by apply sha_scalar | apply scalar_ms
          | by destruct (operation r) | done | unfold max_safe_integer; lia].
Qed.

Lemma digest_bytes_total `{!RFC8785Spec} r c : open_ok r -> digest_context_ok c ->
  exists b, digest_bytes r c = Ok b.
Proof.
  intros Hr Hc. destruct (dumps_total _ (digest_input_ijson r c Hr Hc)) as [b Hb].
  - pose proof dumps_room. cbn. lia.
  - exists b. by apply except_ok.
Qed.

(** the bytes determine the request and the context *)
Lemma digest_bytes_inj `{!RFC8785Spec} r c r' c' b b' :
  open_ok r -> open_ok r' -> digest_context_ok c -> digest_context_ok c' ->
  in_years (expires_at r) -> in_years (expires_at r') ->
  digest_bytes r c = Ok b -> digest_bytes r' c' = Ok b' ->
  b = b' <-> same_open r r' /\ c = c'.
Proof.
  intros Hr Hr' Hc Hc' Hy Hy' Hb Hb'. split.
  - intros <-. pose proof (canonical_bytes_inj _ _ _ (digest_input_ijson _ _ Hr Hc)
      (digest_input_ijson _ _ Hr' Hc') Hb Hb') as E.
    pose proof (text_eq _ _ (E (u "streamOpenId"))) as E1.
    pose proof (text_eq _ _ (E (u "operation"))) as E2.
    pose proof (text_eq _ _ (E (u "taskId"))) as E3.
    pose proof (text_eq _ _ (E (u "callerScope"))) as E4.
    pose proof (text_eq _ _ (E (u "callerInstanceId"))) as E5.
    pose proof (text_eq _ _ (E (u "responseCorePrincipalHash"))) as E6.
    pose proof (integer_eq _ _ (E (u "configGeneration"))) as E7.
    pose proof (text_eq _ _ (E (u "expiresAt"))) as E8.
    pose proof (text_eq _ _ (E (u "consumerConfigDigest"))) as E9. clear E.
    split; [constructor; [done|by apply operation_name_inj|done|done|by apply format_ms_inj|done]|].
    destruct c, c'. cbn in *. congruence.
  - intros [[E1 E2 E3 E4 E5%format_ms_ext E6] ->]. unfold digest_bytes in *. 
    unfold digest_input in *. rewrite E1 E2 E3 E4 E5 E6 in Hb. rewrite Hb in Hb'. by injection Hb'.
Qed.
End Open.

(** ** Reading payloads back *)
Section Payloads.
Context `{RFC8785} `{ControlSchemas} `{IsoParser}.

(** the schema has nothing against a payload's dict *)
Definition schema_ok (name : string) (d : dict) : Prop := control_violation name (JObj d) = None.

Lemma control_validate_ok name data : _validate name data = Ok tt <-> control_violation name data = None.
Proof. unfold _validate. by destruct (control_violation name data). Qed.

Lemma open_init_ok o op k i d e g r :
  StreamOpenRequestV1.init o op k i d e g = Ok r <->
  o = JStr (StreamOpenRequestV1.stream_open_id r) /\ op = StreamOpenRequestV1.operation r
  /\ k = JStr (StreamOpenRequestV1.task_id r) /\ i = JStr (StreamOpenRequestV1.caller_instance_id r)
  /\ d = JStr (StreamOpenRequestV1.request_digest r) /\ e = StreamOpenRequestV1.expires_at r
  /\ g = JInt (StreamOpenRequestV1.config_generation r) /\ open_ok r
  /\ sha256_hex (StreamOpenRequestV1.request_digest r)
  /\ schema_ok "open" (StreamOpenRequestV1.to_dict r).
Proof.
  unfold StreamOpenRequestV1.init, _validate_safe_token, _validate_digest. split.
  - intros (o' & [-> ?]%require_token_ok & Hr)%bind_ok.
    apply bind_ok in Hr as (k' & [-> ?]%require_token_ok & Hr).
    apply bind_ok in Hr as (i' & [-> ?]%require_token_ok & Hr).
    apply bind_ok_unit in Hr as [?%require_streaming_ok Hr].
    apply bind_ok in Hr as (d' & [-> ?]%require_digest_ok & Hr).
    apply bind_ok_unit in Hr as [?%timestamp_ok Hr].
    apply bind_ok in Hr as (g' & [-> ?]%positive_integer_ok & Hr).
    apply bind_ok_unit in Hr as [?%control_validate_ok <-%Ok_inj_iff].
    do 7 (split; [done|]). split; [by constructor|done].
  - intros (-> & -> & -> & -> & -> & -> & -> & [? ? ? ? ? ?] & ? & ?).
    do 3 (apply bind_ok; eexists; split; [by apply require_token_ok|]).
    apply bind_ok_unit. split; [by apply require_streaming_ok|].
    apply bind_ok. eexists. split; [by apply require_digest_ok|].
    apply bind_ok_unit. split; [by apply timestamp_ok|].
    apply bind_ok. eexists. split; [by apply positive_integer_ok|].
    destruct r. apply bind_ok_unit. split; [by apply control_validate_ok|done].
Qed.

Record ack_ok (r : StreamAckRequestV1.t) : Prop := {
  ao_session : safe_token (StreamAckRequestV1.stream_session_id r);
  ao_open : safe_token (StreamAckRequestV1.stream_open_id r);
  ao_sequence : positive_integer (StreamAckRequestV1.sequence r);
  ao_event_seq : safe_integer (StreamAckRequestV1.event_seq r);
  ao_digest : sha256_hex (StreamAckRequestV1.payload_digest r);
  ao_schema : schema_ok "ack" (StreamAckRequestV1.to_dict r) }.

Lemma ack_init_ok s o n e d r : StreamAckRequestV1.init s o n e d = Ok r <->
  s = JStr (StreamAckRequestV1.stream_session_id r) /\ o = JStr (StreamAckRequestV1.stream_open_id r)
  /\ n = JInt (StreamAckRequestV1.sequence r) /\ e = JInt (StreamAckRequestV1.event_seq r)
  /\ d = JStr (StreamAckRequestV1.payload_digest r) /\ ack_ok r.
Proof.
  unfold StreamAckRequestV1.init, _validate_safe_token, _validate_digest, _validate_nonnegative_integer. split.
  - intros (s' & [-> ?]%require_token_ok & Hr)%bind_ok.
    apply bind_ok in Hr as (o' & [-> ?]%require_token_ok & Hr).
    apply bind_ok in Hr as (n' & [-> ?]%positive_integer_ok & Hr).
    apply bind_ok in Hr as (e' & [-> ?]%require_safe_integer_ok & Hr).
    apply bind_ok in Hr as (d' & [-> ?]%require_digest_ok & Hr).
    apply bind_ok_unit in Hr as [?%control_validate_ok <-%Ok_inj_iff].
    do 5 (split; [done|]). by constructor.
  - intros (-> & -> & -> & -> & -> & [? ? ? ? ? ?]).
    do 2 (apply bind_ok; eexists; split; [by apply require_token_ok|]).
    apply bind_ok. eexists. split; [by apply positive_integer_ok|].
    apply bind_ok. eexists. split; [by apply require_safe_integer_ok|].
    apply bind_ok. eexists. split; [by apply require_digest_ok|].
    destruct r. apply bind_ok_unit. split; [by apply control_validate_ok|done].
Qed.

Record close_ok (r : StreamCloseRequestV1.t) : Prop := {
  co_session : safe_token (StreamCloseRequestV1.stream_session_id r);
  co_open : safe_token (StreamCloseRequestV1.stream_open_id r);
  co_reason : close_reason_re (StreamCloseRequestV1.reason r) = true;
  co_schema : schema_ok "close" (StreamCloseRequestV1.to_dict r) }.

Lemma close_init_ok s o w r : StreamCloseRequestV1.init s o w = Ok r <->
  s = JStr (StreamCloseRequestV1.stream_session_id r)
  /\ o = JStr (StreamCloseRequestV1.stream_open_id r) /\ w = JStr (StreamCloseRequestV1.reason r)
  /\ close_ok r.
Proof.
  unfold StreamCloseRequestV1.init, _validate_safe_token. split.
  - intros (s' & [-> ?]%require_token_ok & Hr)%bind_ok.
    apply bind_ok in Hr as (o' & [-> ?]%require_token_ok & Hr).
    apply bind_ok in Hr as (w' & Hw & Hr). destruct w as [| | | |w| |]; try done.
    apply bind_ok_unit in Hw as [?%raise_if_ok%negb_false_iff <-%Ok_inj_iff].
    apply bind_ok_unit in Hr as [?%control_validate_ok <-%Ok_inj_iff].
    do 3 (split; [done|]). by constructor.
  - intros (-> & -> & -> & [? ? ? ?]).
    do 2 (apply bind_ok; eexists; split; [by apply require_token_ok|]).
    apply bind_ok. eexists. split.
    { apply bind_ok_unit. split; [by apply raise_if_ok, negb_false_iff|done]. }
    destruct r. apply bind_ok_unit. split; [by apply control_validate_ok|done].
Qed.
End Payloads.

(** ** Payloads of the three kinds *)
Section Kinds.
Context `{RFC8785} `{ControlSchemas} `{IsoParser}.

(** [isoformat] in milliseconds, read back *)
Definition utc_ms (ms : Z) : datetime := {| wall_clock_us := ms * 1000; utcoffset_us := Some 0 |}.
Definition ms_reads (v : datetime) : Prop :=
  fromisoformat (replace_z (_format_timestamp_ms v)) = Ok (utc_ms (ms_of v)).

Lemma ms_of_utc_ms ms : ms_of (utc_ms ms) = ms.
Proof. unfold ms_of, instant. cbn. rewrite Z.sub_0_r. apply Z.div_mul. lia. Qed.

Lemma format_utc_ms v : _format_timestamp_ms (utc_ms (ms_of v)) = _format_timestamp_ms v.
Proof. apply format_ms_ext, ms_of_utc_ms. Qed.

(** the request with its expiry in UTC, cut to the millisecond *)
Definition cut_open (r : StreamOpenRequestV1.t) : StreamOpenRequestV1.t :=
  StreamOpenRequestV1.make (StreamOpenRequestV1.stream_open_id r) (StreamOpenRequestV1.operation r)
    (StreamOpenRequestV1.task_id r) (StreamOpenRequestV1.caller_instance_id r)
    (StreamOpenRequestV1.request_digest r) (utc_ms (ms_of (StreamOpenRequestV1.expires_at r)))
    (StreamOpenRequestV1.config_generation r).

Lemma cut_open_dict r : StreamOpenRequestV1.to_dict (cut_open r) = StreamOpenRequestV1.to_dict r.
Proof. unfold StreamOpenRequestV1.to_dict, cut_open. cbn -[_format_timestamp_ms u]. by rewrite format_utc_ms. Qed.

(** an open request the constructor returns *)
Record open_valid (r : StreamOpenRequestV1.t) : Prop := {
  ov_open : open_ok r;
  ov_digest : sha256_hex (StreamOpenRequestV1.request_digest r);
  ov_schema : schema_ok "open" (StreamOpenRequestV1.to_dict r) }.

Lemma open_from_dict r : open_valid r -> ms_reads (StreamOpenRequestV1.expires_at r) ->
  StreamOpenRequestV1.from_dict (JObj (StreamOpenRequestV1.to_dict r)) = Ok (cut_open r).
Proof.
  intros [Hok Hd Hs] Hms. unfold StreamOpenRequestV1.from_dict.
  apply bind_ok_unit. split; [by apply control_validate_ok|].
  apply bind_ok. eexists. split; [reflexivity|].
  apply bind_ok. exists (utc_ms (ms_of (StreamOpenRequestV1.expires_at r))). split.
  { unfold _parse_control_timestamp. by rewrite Hms. }
  apply bind_ok_unit. split; [apply raise_if_ok, neqb_false; apply format_utc_ms|].
  apply bind_ok. eexists. split; [reflexivity|].
  apply bind_ok. exists (StreamOpenRequestV1.operation r). split.
  { apply except_ok. apply parse_operation_name. }
  do 5 (apply bind_ok; eexists; split; [reflexivity|]).
  apply open_init_ok. do 7 (split; [done|]). destruct Hok.
  split; [by constructor|]. split; [done|]. unfold schema_ok. by rewrite cut_open_dict.
Qed.

Lemma ack_from_dict r : ack_ok r ->
  StreamAckRequestV1.from_dict (JObj (StreamAckRequestV1.to_dict r)) = Ok r.
Proof.
  intros Hok. unfold StreamAckRequestV1.from_dict.
  apply bind_ok_unit. split; [apply control_validate_ok; by destruct Hok|].
  do 5 (apply bind_ok; eexists; split; [reflexivity|]). by apply ack_init_ok.
Qed.

Lemma close_from_dict r : close_ok r ->
  StreamCloseRequestV1.from_dict (JObj (StreamCloseRequestV1.to_dict r)) = Ok r.
Proof.
  intros Hok. unfold StreamCloseRequestV1.from_dict.
  apply bind_ok_unit. split; [apply control_validate_ok; by destruct Hok|].
  do 3 (apply bind_ok; eexists; split; [reflexivity|]). by apply close_init_ok.
Qed.

(** the members of [d] other than the schema version are those of [data] *)
Definition agrees (d data : dict) : Prop :=
  Forall (fun kv => kv.1 <> u "schemaVersion" -> dict_get kv.1 data = Some kv.2) d.

Lemma member_ok data key v : member data key = Ok v <->
  exists kvs, data = JObj kvs /\ dict_get (u key) kvs = Some v.
Proof.
  unfold member, item. destruct data; try (split; [done|by intros (? & ? & _)]).
  rewrite or_raise_ok. naive_solver.
Qed.

Lemma parse_operation_exact v o : parse_operation v = Ok o <-> v = JStr (u (operation_name o)).
Proof.
  split; [|intros ->; apply parse_operation_name].
  unfold parse_operation. destruct v as [| | | |s| |]; try done. rewrite or_raise_ok.
  intros [_ E%bool_decide_eq_true]%find_some. by rewrite E.
Qed.

Lemma parse_control_timestamp_str v t : _parse_control_timestamp v = Ok t -> exists s, v = JStr s.
Proof. destruct v; try done. intros _. by eexists. Qed.

(** members read one by one agree with the dict they were read from *)
Ltac agree := repeat (apply Forall_cons; split; [cbn [fst snd]; intros ?; first [done|eassumption]|]); constructor.

Lemma open_from_dict_ok data r : StreamOpenRequestV1.from_dict data = Ok r ->
  open_valid r /\ exists kvs, data = JObj kvs /\ agrees (StreamOpenRequestV1.to_dict r) kvs.
Proof.
  unfold StreamOpenRequestV1.from_dict. intros [_ Hr]%bind_ok_unit.
  apply bind_ok in Hr as (x & (kvs & -> & Hx)%member_ok & Hr).
  apply bind_ok in Hr as (t & Ht & Hr). apply parse_control_timestamp_str in Ht as [s ->].
  apply bind_ok_unit in Hr as [Hs%raise_if_ok%neqb_false Hr].
  apply bind_ok in Hr as (y & (? & [= <-] & Hy)%member_ok & Hr).
  apply bind_ok in Hr as (o & ->%except_ok%parse_operation_exact & Hr).
  apply bind_ok in Hr as (? & (? & [= <-] & Ho)%member_ok & Hr).
  apply bind_ok in Hr as (? & (? & [= <-] & Hk)%member_ok & Hr).
  apply bind_ok in Hr as (? & (? & [= <-] & Hi)%member_ok & Hr).
  apply bind_ok in Hr as (? & (? & [= <-] & Hd)%member_ok & Hr).
  apply bind_ok in Hr as (? & (? & [= <-] & Hg)%member_ok & Hr).
  apply open_init_ok in Hr as (-> & -> & -> & -> & -> & -> & -> & ? & ? & ?). subst s.
  split; [by constructor|]. exists kvs. split; [done|]. unfold agrees, StreamOpenRequestV1.to_dict. agree.
Qed.

Lemma ack_from_dict_ok data r : StreamAckRequestV1.from_dict data = Ok r ->
  ack_ok r /\ exists kvs, data = JObj kvs /\ agrees (StreamAckRequestV1.to_dict r) kvs.
Proof.
  unfold StreamAckRequestV1.from_dict. intros [_ Hr]%bind_ok_unit.
  apply bind_ok in Hr as (? & (kvs & -> & Hs)%member_ok & Hr).
  apply bind_ok in Hr as (? & (? & [= <-] & Ho)%member_ok & Hr).
  apply bind_ok in Hr as (? & (? & [= <-] & Hn)%member_ok & Hr).
  apply bind_ok in Hr as (? & (? & [= <-] & He)%member_ok & Hr).
  apply bind_ok in Hr as (? & (? & [= <-] & Hd)%member_ok & Hr).
  apply ack_init_ok in Hr as (-> & -> & -> & -> & -> & ?).
  split; [done|]. exists kvs. split; [done|]. unfold agrees, StreamAckRequestV1.to_dict. agree.
Qed.

Lemma close_from_dict_ok data r : StreamCloseRequestV1.from_dict data = Ok r ->
  close_ok r /\ exists kvs, data = JObj kvs /\ agrees (StreamCloseRequestV1.to_dict r) kvs.
Proof.
  unfold StreamCloseRequestV1.from_dict. intros [_ Hr]%bind_ok_unit.
  apply bind_ok in Hr as (? & (kvs & -> & Hs)%member_ok & Hr).
  apply bind_ok in Hr as (? & (? & [= <-] & Ho)%member_ok & Hr).
  apply bind_ok in Hr as (? & (? & [= <-] & Hw)%member_ok & Hr).
  apply close_init_ok in Hr as (-> & -> & -> & ?).
  split; [done|]. exists kvs. split; [done|]. unfold agrees, StreamCloseRequestV1.to_dict. agree.
Qed.

Definition payload_valid (p : StreamControlPayload) : Prop :=
  match p with OpenPayload r => open_valid r | AckPayload r => ack_ok r | ClosePayload r => close_ok r end.
Definition payload_reads_back (p : StreamControlPayload) : Prop :=
  match p with OpenPayload r => ms_reads (StreamOpenRequestV1.expires_at r) | _ => True end.
Definition cut_payload (p : StreamControlPayload) : StreamControlPayload :=
  match p with OpenPayload r => OpenPayload (cut_open r) | p => p end.
End Kinds.

(** ** The command of an envelope *)
Lemma check_command_ok `{RFC8785} envelope o c :
  StreamControlAuthVerifier.check_command envelope o c = Ok tt <->
  StreamControlEnvelopeV1.operation envelope = o /\ (o = OpenOperation <-> is_Some c)
  /\ (forall d, c = Some d -> exists r, StreamControlEnvelopeV1.payload envelope = OpenPayload r
      /\ StreamOpenRequestV1.verify_request_digest r (Some d) = Ok tt).
Proof.
  unfold StreamControlAuthVerifier.check_command. rewrite bind_ok_unit raise_if_ok neqb_false.
  split.
  - intros [<- Hr]. split; [done|]. destruct (StreamControlEnvelopeV1.operation envelope).
    + apply bind_ok_unit in Hr as [Hc%raise_if_ok%negb_false_iff%bool_decide_eq_true Hr].
      split; [done|]. intros d ->. destruct (StreamControlEnvelopeV1.payload envelope); [|done..]. by eexists.
    + apply raise_if_ok, bool_decide_eq_false in Hr. split; [done|]. intros d ->. by destruct Hr.
    + apply raise_if_ok, bool_decide_eq_false in Hr. split; [done|]. intros d ->. by destruct Hr.
  - intros (<- & Hc & Hd). split; [done|]. destruct (StreamControlEnvelopeV1.operation envelope).
    + destruct (proj1 Hc eq_refl) as [d ->]. destruct (Hd d eq_refl) as (r & -> & Hr).
      apply bind_ok_unit. split; [by apply raise_if_ok, negb_false_iff, bool_decide_eq_true|done].
    + apply raise_if_ok, bool_decide_eq_false. intros Hs. by apply Hc in Hs.
    + apply raise_if_ok, bool_decide_eq_false. intros Hs. by apply Hc in Hs.
Qed.
