(* ===== verification/ControlTheorems.v ===== *)
(** * Theorems on stream-session control

    The digest of an open request, the round trip of the three payloads, and the
    verifier that keeps the three commands apart. *)
From S2P Require Import Prelude PyStr Sha256 Json JsonFacts Rfc8785Reference Contract ContractFacts WireFacts Identity IdentityFacts Stream StreamFacts.
From S2P Require Import Operations Envelope EnvelopeFacts CalendarFacts BindingAuth BindingFacts.
From S2P Require Import StreamControl ControlEnvelope ControlFacts BindingTheorems.
Local Open Scope string_scope.
Local Open Scope list_scope.
Local Open Scope Z_scope.
Local Open Scope py_scope.

(** ** The digest of an open request *)
Section Digest.
Context `{RFC8785} `{ControlSchemas} `{IsoParser}.
Import StreamOpenRequestV1.

(** C26: what the digest of an open request binds.  The check of a request against a trusted context
    passes exactly when the request's digest is the SHA-256 of their canonical bytes, and never
    without a context; a request that [create] makes passes it.  The bytes of two requests are equal
    exactly when their identifiers, operation, task, caller instance, configuration and contexts are
    equal and they expire in the same millisecond: a digest accepted twice for anything else is a
    collision of SHA-256 between the two byte strings. *)
Theorem stream_open_digest_binds `{!RFC8785Spec} r c r' c' :
  open_ok r -> open_ok r' -> digest_context_ok c -> digest_context_ok c' ->
  in_years (expires_at r) -> in_years (expires_at r') ->
  exists b b', digest_bytes r c = Ok b /\ digest_bytes r' c' = Ok b'
    /\ (verify_request_digest r (Some c) = Ok tt <-> request_digest r = sha256_hexdigest b)
    /\ is_ok (verify_request_digest r None) = false
    /\ (b = b' <-> same_open r r' /\ c = c')
    /\ (forall made, create (JStr (stream_open_id r)) (operation r) (JStr (task_id r))
          (JStr (caller_instance_id r)) (expires_at r) (JInt (config_generation r)) (Some c) = Ok made ->
        same_open r made /\ verify_request_digest made (Some c) = Ok tt).
Proof.
  intros Hr Hr' Hc Hc' Hy Hy'.
  destruct (digest_bytes_total r c Hr Hc) as [b Hb]. destruct (digest_bytes_total r' c' Hr' Hc') as [b' Hb'].
  exists b, b'. do 2 (split; [done|]). split; [|split; [done|split]].
  - rewrite verify_digest_ok. split; [|by eauto]. intros (_ & b2 & Hb2 & ->). congruence.
  - by eapply digest_bytes_inj.
  - unfold create. intros made [_ Hm]%bind_ok_unit.
    apply bind_ok in Hm as (digest & Hd & Hm).
    apply open_init_ok in Hm as ([= Eo] & Eop & [= Ek] & [= Ei] & [= Ed] & Ee & [= Eg] & Hok & _).
    split; [constructor; congruence|]. unfold verify_request_digest. rewrite -Eo -Eop -Ek -Ei -Ee -Eg Hd.
    apply bind_ok. exists digest. split; [done|]. by apply raise_if_ok, neqb_false.
Qed.
End Digest.

(** ** Payloads *)
Section Payloads.
Context `{RFC8785} `{ControlSchemas} `{IsoParser}.
Import StreamControlEnvelopeV1.

(** Reading payloads.  The dict of a payload is read back, by the class its operation names, as
    the payload with an open request's expiry cut to the millisecond, which has the same dict.  And
    whatever is accepted for an operation is a payload of its type that satisfies every check of its
    constructor and whose members, the schema version apart, are the ones that were read: no other
    spelling of a timestamp or an integer is accepted. *)
Lemma control_payload_roundtrip p : payload_valid p -> payload_reads_back p ->
  payload_from_dict (payload_operation p) (JObj (payload_dict p)) = Ok (cut_payload p)
  /\ payload_dict (cut_payload p) = payload_dict p
  /\ (forall o data q, payload_from_dict o data = Ok q ->
      payload_operation q = o /\ payload_valid q
      /\ exists kvs, data = JObj kvs /\ agrees (payload_dict q) kvs).
Proof.
  intros Hp Hread. split; [|split].
  - destruct p as [r|r|r]; cbn; apply bind_ok; eexists; (split; [|done]).
    + by apply open_from_dict.
    + by apply ack_from_dict.
    + by apply close_from_dict.
  - destruct p as [r|r|r]; [apply cut_open_dict|done..].
  - intros [] data q (r & Hr & <-%Ok_inj_iff)%bind_ok; (split; [done|]).
    + by apply open_from_dict_ok.
    + by apply ack_from_dict_ok.
    + by apply close_from_dict_ok.
Qed.
End Payloads.

(** ** The verifier *)
Section Verifier.
Context `{RFC8785} `{NKeys} `{RequestReplayGuard}.
Import StreamControlAuthVerifier.

(** C27: a control command is accepted by its own handler only.  An accepted envelope has the
    operation of the handler, arrived on that operation's subject, passed every check on an
    authenticated request and was claimed once; an open request among them carries the digest of its
    own fields and the trusted context.  The handlers of the other operations refuse the envelope
    whatever they are given, without asking the guard. *)
Theorem control_commands_separate self guard envelope o received key target caller instance' prefix
    config c now guard_now guard' identity :
  verify self guard envelope o received key target caller instance' prefix config c now guard_now
    = (guard', Ok identity) ->
  StreamControlEnvelopeV1.operation envelope = o
  /\ received = StreamControlEnvelopeV1.expected_subject envelope
  /\ (exists e, BindingAuthVerifier.expected_subject e = received
      /\ authentic (_common self) envelope e)
  /\ current_for (_common self) envelope (instant now)
  /\ claim guard (BindingAuthVerifier.claim_of envelope) guard_now = (guard', Ok true)
  /\ identity = identity_of envelope
  /\ (o = OpenOperation <-> is_Some c)
  /\ (forall d, c = Some d -> exists r b,
        StreamControlEnvelopeV1.payload envelope = OpenPayload r
        /\ digest_bytes r d = Ok b /\ StreamOpenRequestV1.request_digest r = sha256_hexdigest b)
  /\ (forall o' g received' key' target' caller' instance'' prefix' config' c' now' guard_now',
      o' <> o -> exists x,
      verify self g envelope o' received' key' target' caller' instance'' prefix' config' c' now' guard_now'
      = (g, Err x)).
Proof.
  unfold verify. intros Hv.
  destruct (check_command envelope o c) as [[]|x] eqn:Hc; [|done].
  apply check_command_ok in Hc as (<- & Hopen & Hdig).
  apply verify_subject_ok in Hv as (_ & Hau & Hcu & Hcl & _ & ->).
  pose proof (ro_subject _ _ (au_route _ _ _ Hau)) as Es. cbn in Es.
  split; [done|]. split; [done|]. split; [eexists; split; [|exact Hau]; done|].
  do 4 (split; [done|]). split.
  { intros d Hd. destruct (Hdig d Hd) as (r & Hr & (_ & b & Hb & Eb)%verify_digest_ok). by exists r, b. }
  intros o' g received' key' target' caller' i' prefix' config' c' now' gn' Hne.
  destruct (check_command envelope o' c') as [[]|x] eqn:Hc'; [|by eexists].
  apply check_command_ok in Hc' as (E & _). congruence.
Qed.
End Verifier.

(** ** Witnesses *)
#[local] Instance open_schemas : ControlSchemas := {| control_violation := fun _ _ => None |}.
(** a parser that knows one text *)
Definition expiry : datetime := {| wall_clock_us := 1748772000250000; utcoffset_us := Some 0 |}.
#[local] Instance expiry_parser : IsoParser := {|
  fromisoformat := fun s =>
    if s == u "2025-06-01T10:00:00.250+00:00" then Ok expiry
    else Err (ValueError "Invalid isoformat string") |}.
Definition hex64 : pystr := replicate 64 97%N.
Definition digest_context : StreamOpenDigestContextV1.t :=
  StreamOpenDigestContextV1.make (u "tenant-1") hex64 hex64.
Definition open_request : StreamOpenRequestV1.t :=
  StreamOpenRequestV1.make (u "open-1") SUBSCRIBE_TO_TASK (u "task-1") (u "inst-1") hex64 expiry 7.

Lemma open_request_ok : open_ok open_request.
Proof. constructor; try done; (split; [vm_compute; split; discriminate|by apply forallb_iff]). Qed.
Lemma digest_context_is_ok : digest_context_ok digest_context.
Proof. constructor; (split; [vm_compute; try split; done|by apply forallb_iff]). Qed.

Lemma stream_open_digest_binds_witness : exists b,
  StreamOpenRequestV1.verify_request_digest open_request (Some digest_context) = Ok tt
  <-> StreamOpenRequestV1.request_digest open_request = sha256_hexdigest b.
Proof.
  destruct (stream_open_digest_binds open_request digest_context open_request digest_context
    open_request_ok open_request_ok digest_context_is_ok digest_context_is_ok)
    as (b & b' & _ & _ & E & _).
  - vm_compute. split; [discriminate|reflexivity].
  - vm_compute. split; [discriminate|reflexivity].
  - by exists b.
Defined.

Lemma control_payload_roundtrip_witness :
  StreamControlEnvelopeV1.payload_from_dict OpenOperation (JObj (StreamOpenRequestV1.to_dict open_request))
  = Ok (OpenPayload open_request).
Proof.
  destruct (control_payload_roundtrip (OpenPayload open_request)) as (E & _ & _).
  - constructor; [apply open_request_ok| |done]. split; [done|by apply forallb_iff].
  - vm_compute. reflexivity.
  - exact E.
Defined.

#[local] Existing Instances lenient_keys map_guard utc_parser.
#[local] Instance open_envelope_schema : ControlEnvelopeSchema := {| envelope_violation := fun _ => None |}.
Definition control_request : result StreamControlEnvelopeV1.t :=
  payload ← StreamOpenRequestV1.create (JStr (u "open-1")) SUBSCRIBE_TO_TASK (JStr (u "task-1"))
    (JStr (u "inst-1")) (at_us (t0 + 60000000)) (JInt 1) (Some digest_context);
  unsigned ← StreamControlEnvelopeV1.init OpenOperation (JStr (u "req-1")) (JStr (u "inst-1"))
    (JStr (u "open-1")) (JInt 1) (JStr (u "windows-a"))
    (BindingAuthContext.make (u "agent:windows-a") (u "cred-1") (u "nats-nkey") (u "a2amesh-peer")
      (u "windows-a") (at_us (t0 - 5000000)) (at_us (t0 + 60000000)))
    (AuthProof.make signer_key AUTH_ALGORITHM (u "unsigned")) (JStr (u "linux")) (at_us t0)
    (at_us (t0 + 30000000)) (u "_INBOX.a2amesh.windows-a.1") (OpenPayload payload);
  sign_stream_control_envelope unsigned signer_pair.
Definition control_envelope : StreamControlEnvelopeV1.t :=
  Eval vm_compute in match control_request with
  | Ok e => e
  | Err _ => StreamControlEnvelopeV1.make AckOperation [] [] [] 0 [] (BindingAuthContext.make [] [] [] []
      [] expiry expiry) (AuthProof.make [] [] []) [] expiry expiry [] (OpenPayload open_request)
  end.
Definition control_run (o : StreamControlOperation) (c : option StreamOpenDigestContextV1.t)
    : Guard * result VerifiedBindingIdentity :=
  StreamControlAuthVerifier.verify (StreamControlAuthVerifier.make verifier) ∅ control_envelope
    o (u "a2a.v1.stream.open") signer_key (u "linux") (u "windows-a") (u "inst-1")
    (u "_INBOX.a2amesh.windows-a.") 1 c (at_us t0) t0.
Definition control_guard : Guard := (control_run OpenOperation (Some digest_context)).1.
Definition control_identity : VerifiedBindingIdentity :=
  Eval vm_compute in match (control_run OpenOperation (Some digest_context)).2 with
  | Ok i => i | Err _ => first_identity end.
Lemma control_accepted :
  control_run OpenOperation (Some digest_context) = (control_guard, Ok control_identity).
Proof.
  rewrite (surjective_pairing (control_run OpenOperation (Some digest_context))). unfold control_guard.
  apply (f_equal (pair _)). vm_compute. reflexivity.
Qed.
(** the accepted opening is refused by the handler of acknowledgements *)
Lemma control_commands_separate_witness : exists x, control_run AckOperation None = (∅, Err x).
Proof.
  destruct (control_commands_separate _ _ _ _ _ _ _ _ _ _ _ _ _ _ _ _ control_accepted)
    as (_ & _ & _ & _ & _ & _ & _ & _ & Hno).
  apply Hno. discriminate.
Defined.
