(* ===== verification/Response.v ===== *)
(** * The replies of the NATS binding

    [bindings/nats_v1/response.py], the one-shot response envelope, and the wire
    form of the open response of [bindings/nats_v1/stream.py], whose checks are
    in [Stream.v].  The two JSON Schema validators are operations of a class. *)
From S2P Require Import Prelude PyStr Json Contract TaskState Stream JsonBytes Operations Envelope StreamControl.
Local Open Scope string_scope.
Local Open Scope list_scope.
Local Open Scope Z_scope.
Local Open Scope py_scope.

(** ** Errors *)

(** the pattern of [error.type] *)
Definition letter (c : N) : bool := (((65 <=? c) && (c <=? 90)) || ((97 <=? c) && (c <=? 122)))%N.
Definition error_type_re (s : pystr) : bool :=
  match s with
  | c :: r => letter c && (Z.of_nat (length r) <=? 127)
      && forallb (fun c => letter c || is_digit c || (c =? 95)%N) r
  | [] => false
  end.

Module BindingError.
Record t := make { type : pystr; message : pystr; retryable : bool }.

Definition post_init (self : t) : result unit :=
  raise_if (negb (error_type_re (type self))) (binding "error.type is invalid");;
  raise_if ((message self == []) || (4096 <? Z.of_nat (length (message self))))
    (binding "error.message length is invalid").

Definition init (type message : pystr) (retryable : bool) : result t :=
  let self := make type message retryable in
  post_init self;; Ok self.

Definition to_dict (self : t) : dict :=
  [(u "type", JStr (type self)); (u "message", JStr (message self));
   (u "retryable", JBool (retryable self))].
End BindingError.

(** ** Responses *)

(** the first violation of the response schema and of the schema of open responses *)
Class ResponseSchemas := {
  response_violation : dict -> option string;
  opened_violation : dict -> option string }.

Definition _validate_response_schema `{ResponseSchemas} (data : dict) : result unit :=
  match response_violation data with
  | Some violation => Err (binding ("response schema violation at " <+> violation))
  | None => Ok tt
  end.

(** [data[key]] where the schema asks for a boolean *)
Definition bool_at (data : dict) (key : string) : result bool :=
  v ← item data key; match v with JBool b => Ok b | _ => Err TypeError end.

Module BindingResponseEnvelope.
Section Response.
Context `{A2AProtobuf} `{ResponseSchemas}.

Record t := make {
  operation : Operation;
  request_id : pystr;
  config_generation : Z;
  payload : option Message;
  error : option BindingError.t }.

Definition post_init (self : t) : result unit :=
  raise_if (negb (safe_token_re (request_id self))) (binding "requestId is not a safe token");;
  raise_if (negb ((1 <=? config_generation self) && (config_generation self <=? 9007199254740991)))
    (binding "configGeneration is outside JSON safe integer range");;
  raise_if (Bool.eqb (bool_decide (payload self = None)) (bool_decide (error self = None)))
    (binding "response must contain exactly one of payload or error");;
  match payload self with
  | None => Ok tt
  | Some payload =>
    raise_if (streaming (operation self))
      (binding "streaming success must use StreamSessionOpenedV1, not a one-shot payload");;
    let expected_type := (OPERATION_SPECS (operation self)).(response_type) in
    raise_if (negb (isinstance payload expected_type))
      (binding ("response payload for " <+> operation_name (operation self) <+> " must be "
        <+> message_type_name expected_type))
  end.

(** the constructor *)
Definition init (self : t) : result t := post_init self;; Ok self.

Definition to_dict (self : t) : result dict :=
  let data := [(u "bindingUri", JStr BINDING_URI);
    (u "bindingSchemaVersion", JStr BINDING_SCHEMA_VERSION);
    (u "a2aProtocolVersion", JStr A2A_PROTOCOL_VERSION);
    (u "requestId", JStr (request_id self));
    (u "configGeneration", JInt (config_generation self));
    (u "sequence", JInt 1);
    (u "final", JBool true)] in
  data ←
    (match payload self with
     | Some payload =>
       payload ← message_to_dict payload; Ok (data ++ [(u "payload", JObj payload)])
     | None =>
       Ok (data ++ [(u "error", match error self with
                                | Some error => JObj (BindingError.to_dict error)
                                | None => JNull
                                end)])
     end);
  _validate_response_schema data;;
  Ok data.

Definition from_dict (data : dict) (operation : Operation) : result t :=
  _validate_response_schema data;;
  match dict_get (u "error") data with
  | Some _ =>
    raw_error ← dict_item_at data "error";
    request_id ← text_at data "requestId";
    config_generation ← int_at data "configGeneration";
    type ← text_at raw_error "type";
    message ← text_at raw_error "message";
    retryable ← bool_at raw_error "retryable";
    error ← BindingError.init type message retryable;
    init (make operation request_id config_generation None (Some error))
  | None =>
    raise_if (streaming operation)
      (binding "streaming success must be parsed as StreamSessionOpenedV1");;
    payload ← except
      (payload ← item data "payload";
       items ← dict_of_value payload;
       parse_dict (OPERATION_SPECS operation).(response_type) items)
      (fun e => match e with
                | KeyError | ValueError _ | ParseError | BindingValidationError _ | UnicodeError
                | JSONDecodeError => true
                | _ => false end)
      (binding "invalid official A2A response payload: ");
    request_id ← text_at data "requestId";
    config_generation ← int_at data "configGeneration";
    init (make operation request_id config_generation (Some payload) None)
  end.

Definition to_json_bytes (self : t) : result pybytes :=
  data ← to_dict self; to_bytes (JObj data).

Definition from_json_bytes (data : pybytes) (operation : Operation) : result t :=
  decoded ← decode_object data "response is not valid UTF-8 JSON"
    "response envelope must be a JSON object";
  from_dict decoded operation.
End Response.
End BindingResponseEnvelope.

(** ** Open responses *)
Definition _validate_opened_schema `{ResponseSchemas} (data : dict) : result unit :=
  match opened_violation data with
  | Some violation => Err (binding ("stream open schema violation at " <+> violation))
  | None => Ok tt
  end.

(** [_parse_timestamp] of [stream.py], where a value that is not a text has no [replace] *)
Definition _parse_opened_timestamp `{IsoParser} (value : json) : result datetime :=
  match value with
  | JStr s =>
    parsed ← except (fromisoformat (replace_z s))
      (fun e => match e with ValueError _ => true | _ => false end)
      (binding "invalid stream expiresAt timestamp");
    raise_if (negb (aware parsed)) (binding "stream expiresAt must include an offset");;
    Ok parsed
  | _ => Err (RuntimeError "AttributeError")
  end.

Module OpenedWire.
Section Opened.
Context `{StreamProtobuf} `{TaskStates} `{RFC8785} `{IsoParser} `{ResponseSchemas}.
Import StreamSessionOpenedV1.

Definition to_dict (self : t) : result dict :=
  initial_frame ← StreamSessionFrameV1.to_dict (initial_frame self);
  let data :=
    [(u "schemaVersion", JStr STREAM_SCHEMA_VERSION);
     (u "streamSessionId", JStr (stream_session_id self));
     (u "streamOpenId", JStr (stream_open_id self));
     (u "taskId", JStr (task_id self));
     (u "operation", JStr (u (operation_name (operation self))));
     (u "callerDeliverySubject", JStr (caller_delivery_subject self));
     (u "snapshotEventSeq", JInt (snapshot_event_seq self));
     (u "expiresAt", JStr (_format_timestamp_ms (expires_at self)));
     (u "initialFrame", JObj initial_frame)] in
  _validate_opened_schema data;;
  Ok data.

Definition canonical_bytes (self : t) : result pybytes :=
  data ← to_dict self; _rfc8785_bytes data.

(** the schema asks for a mapping as the frame *)
Definition from_dict (data : dict) : result t :=
  _validate_opened_schema data;;
  expires ← item data "expiresAt";
  expires_at ← _parse_opened_timestamp expires;
  raise_if (match expires with JStr s => _format_timestamp_ms expires_at != s | _ => true end)
    (binding "expiresAt must be canonical UTC milliseconds");;
  operation ← (value ← item data "operation";
    except (parse_operation value)
      (fun e => match e with ValueError _ => true | _ => false end)
      (binding "unknown stream operation"));
  stream_session_id ← item data "streamSessionId";
  stream_open_id ← item data "streamOpenId";
  task_id ← item data "taskId";
  caller_delivery_subject ← item data "callerDeliverySubject";
  snapshot_event_seq ← item data "snapshotEventSeq";
  initial_frame ← (value ← item data "initialFrame";
    match value with
    | JObj frame => StreamSessionFrameV1.from_dict frame
    | _ => Err TypeError
    end);
  init stream_session_id stream_open_id task_id operation caller_delivery_subject snapshot_event_seq
    expires_at initial_frame.

Definition from_json_bytes (data : pybytes) : result t :=
  decoded ← decode_object data "stream open response is not valid UTF-8 JSON"
    "stream open response must be a JSON object";
  from_dict decoded.
End Opened.
End OpenedWire.
