(* ===== verification/ReplyTheorems.v ===== *)
(** * Theorems on the binding's replies

    One-shot responses and open responses are read back from what is sent, and
    nothing malformed is ever read. *)
From S2P Require Import Prelude PyStr Json JsonFacts Rfc8785Reference Contract ContractFacts TaskState Stream StreamFacts.
From S2P Require Import Operations Envelope EnvelopeFacts CalendarFacts StreamControl ControlFacts Response BindingTheorems ProtocolTheorems.
Import EnvelopeFacts.Requests.
Local Open Scope string_scope.
Local Open Scope list_scope.
Local Open Scope Z_scope.
Local Open Scope py_scope.

(** ** Responses *)
Section Responses.
Context `{A2AProtobuf} `{ResponseSchemas}.
Import BindingResponseEnvelope.

Definition error_ok (e : BindingError.t) : Prop :=
  error_type_re (BindingError.type e) = true
  /\ 1 <= Z.of_nat (length (BindingError.message e)) <= 4096.

Lemma error_init_ok t m b e : BindingError.init t m b = Ok e <->
  e = BindingError.make t m b /\ error_ok e.
Proof.
  unfold BindingError.init, BindingError.post_init, error_ok. cbv zeta.
  rewrite !bind_ok_unit !raise_if_ok negb_false_iff orb_false_iff bool_decide_eq_false Ok_inj_iff. cbn.
  split.
  - intros [(Ht & Hm & Hl) <-]. split; [done|]. split; [done|]. cbn.
    destruct m; [done|]. cbn in *. lia.
  - intros (-> & Ht & Hl). cbn in *. split; [|done]. split; [done|]. split; [intros ->; cbn in Hl; lia|lia].
Qed.

(** a response is one of the two: an error, or a message of the operation's response type for an
    operation that is not streaming *)
Inductive outcome_ok (self : t) : Prop :=
| ErrorOutcome e : payload self = None -> error self = Some e -> outcome_ok self
| PayloadOutcome m : payload self = Some m -> error self = None ->
    streaming (operation self) = false ->
    isinstance m (response_type (OPERATION_SPECS (operation self))) = true -> outcome_ok self.

Record response_ok (self : t) : Prop := {
  ro_request : safe_token_re (request_id self) = true;
  ro_config : positive_integer (config_generation self);
  ro_outcome : outcome_ok self }.

Lemma response_post_init_ok self : post_init self = Ok tt <-> response_ok self.
Proof.
  unfold post_init. cbv zeta. rewrite !bind_ok_unit !raise_if_ok negb_false_iff. split.
  - intros (Hr & Hc & Hx & Hp). constructor; [done|unfold positive_integer; lia|].
    destruct (payload self) as [m|] eqn:Ep, (error self) as [e|] eqn:Ee; try done.
    + apply bind_ok_unit in Hp as [Hs%raise_if_ok Hi%raise_if_ok%negb_false_iff]. by eapply PayloadOutcome.
    + by eapply ErrorOutcome.
  - intros [Hr Hc Ho]. unfold positive_integer in Hc. split; [done|]. split; [lia|].
    destruct Ho as [e Ep Ee|m Ep Ee Hs Hi]; rewrite Ep Ee; split; try done.
    apply bind_ok_unit. by rewrite Hs Hi.
Qed.

Lemma response_init_ok self r : init self = Ok r <-> response_ok self /\ r = self.
Proof. unfold init. rewrite bind_ok_unit response_post_init_ok Ok_inj_iff. naive_solver. Qed.

Lemma response_to_dict_valid self d : to_dict self = Ok d -> response_violation d = None.
Proof.
  unfold to_dict, _validate_response_schema. cbv zeta. intros (d' & _ & Hr)%bind_ok.
  apply bind_ok_unit in Hr as [Hv [= <-]]. by destruct (response_violation d').
Qed.

Lemma response_from_dict self d : response_ok self ->
  (forall e, error self = Some e -> BindingError.post_init e = Ok tt) ->
  (forall m, payload self = Some m ->
     payload_reads (response_type (OPERATION_SPECS (operation self))) m) ->
  to_dict self = Ok d -> from_dict d (operation self) = Ok self.
Proof.
  intros Hok Herr Hread Hd. pose proof (response_to_dict_valid _ _ Hd) as Hv.
  assert (init self = Ok self) as Hinit by by apply response_init_ok.
  unfold from_dict, _validate_response_schema. rewrite Hv. clear Hv.
  unfold to_dict in Hd. cbv zeta in Hd. apply bind_ok in Hd as (data & Hdata & [_ <-%Ok_inj_iff]%bind_ok_unit).
  destruct Hok as [_ _ Ho]. destruct self as [o id g p er].
  cbn [operation request_id config_generation payload error] in *.
  destruct Ho as [e Ep Ee|m Ep Ee Hs _];
    cbn [operation request_id config_generation payload error] in Ep, Ee; subst p er.
  - rw Ok_inj_iff in Hdata. subst data. specialize (Herr e eq_refl). destruct e as [ty msg retry].
    cbn [mbind result_bind]. change (dict_get (u "error") _) with (Some (JObj
      [(u "type", JStr ty); (u "message", JStr msg); (u "retryable", JBool retry)])). cbv iota beta.
    do 6 (erewrite bind_eq; [|reflexivity]). unfold BindingError.init. cbv zeta. by rewrite Herr.
  - apply bind_ok in Hdata as (md & Hmd & <-%Ok_inj_iff). specialize (Hread m eq_refl md Hmd).
    cbn [mbind result_bind]. change (dict_get (u "error") _) with (@None json). cbv iota beta.
    cbn [operation] in Hs, Hread. rewrite Hs. cbn [raise_if mbind result_bind].
    erewrite bind_eq; [|apply except_ok; erewrite bind_eq; [|reflexivity]; exact Hread].
    do 2 (erewrite bind_eq; [|reflexivity]). exact Hinit.
Qed.

Lemma response_from_dict_ok data o r : from_dict data o = Ok r ->
  operation r = o /\ response_ok r /\ forall e, error r = Some e -> error_ok e.
Proof.
  unfold from_dict. intros [_ Hr]%bind_ok_unit. destruct (dict_get (u "error") data) as [v|].
  - apply bind_ok in Hr as (raw & _ & Hr). apply bind_ok in Hr as (id & _ & Hr).
    apply bind_ok in Hr as (g & _ & Hr). apply bind_ok in Hr as (ty & _ & Hr).
    apply bind_ok in Hr as (m & _ & Hr). apply bind_ok in Hr as (b & _ & Hr).
    apply bind_ok in Hr as (e & [-> He]%error_init_ok & Hr).
    apply response_init_ok in Hr as [Hok ->]. split; [done|]. split; [done|]. by intros e' [= <-].
  - apply bind_ok_unit in Hr as [_ Hr]. apply bind_ok in Hr as (m & _ & Hr).
    apply bind_ok in Hr as (id & _ & Hr). apply bind_ok in Hr as (g & _ & Hr).
    apply response_init_ok in Hr as [Hok ->]. by split.
Qed.

(** A response is read back.  The dict of a response, read for the response's operation, gives
    the response back; and whatever is read for an operation is a response to it that carries either
    a well-formed error or a message of the operation's response type, never both, and never a
    message for a streaming operation, whose success has another form. *)
Lemma response_roundtrip self d :
  post_init self = Ok tt -> (forall e, error self = Some e -> BindingError.post_init e = Ok tt) ->
  (forall m, payload self = Some m ->
     payload_reads (response_type (OPERATION_SPECS (operation self))) m) ->
  to_dict self = Ok d ->
  from_dict d (operation self) = Ok self
  /\ (forall data o r, from_dict data o = Ok r ->
      operation r = o /\ response_ok r /\ forall e, error r = Some e -> error_ok e).
Proof.
  intros Hok%response_post_init_ok Herr Hread Hd. split; [by apply response_from_dict|].
  intros data o r Hr. by apply response_from_dict_ok in Hr.
Qed.
End Responses.

(** ** Open responses *)
Section Opened.
Context `{StreamProtobufSpec} `{TaskStates} `{RFC8785} `{IsoParser} `{ResponseSchemas}.
Import StreamSessionOpenedV1.

(** the open response with its expiry in UTC, cut to the millisecond *)
Definition cut_opened (self : t) : t :=
  make (stream_session_id self) (stream_open_id self) (task_id self) (operation self)
    (caller_delivery_subject self) (snapshot_event_seq self) (utc_ms (ms_of (expires_at self)))
    (initial_frame self).

Lemma cut_opened_ok self : opened_ok self -> opened_ok (cut_opened self).
Proof. intros []. constructor; try done. Qed.

Lemma cut_opened_dict self : OpenedWire.to_dict (cut_opened self) = OpenedWire.to_dict self.
Proof. unfold OpenedWire.to_dict, cut_opened. cbn -[_format_timestamp_ms u]. by rewrite format_utc_ms. Qed.

(** C28: an open response is read back, its frame with the digest check included, with its expiry cut
    to the millisecond; and nothing but a well-formed open response around a well-formed frame is
    ever read. *)
Theorem opened_wire_roundtrip self d :
  opened_ok self -> frame_ok (initial_frame self) -> ms_reads (expires_at self) ->
  OpenedWire.to_dict self = Ok d ->
  OpenedWire.from_dict d = Ok (cut_opened self) /\ OpenedWire.to_dict (cut_opened self) = Ok d
  /\ (forall data self', OpenedWire.from_dict data = Ok self' ->
      opened_ok self' /\ frame_ok (initial_frame self')).
Proof.
  intros Hok Hf Hms Hd. split; [|split].
  - destruct (frame_codec _ Hf) as (fd & Hfd & Hfr). unfold OpenedWire.to_dict in Hd. rewrite Hfd in Hd.
    apply bind_ok_unit in Hd as [Hv Hd]. rw Ok_inj_iff in Hd. subst d.
    unfold OpenedWire.from_dict. apply bind_ok_unit. split; [exact Hv|].
    erewrite bind_eq; [|reflexivity].
    erewrite (bind_eq (_parse_opened_timestamp _)); [|unfold _parse_opened_timestamp; by rewrite Hms].
    apply bind_ok_unit. split; [apply raise_if_ok, neqb_false; apply format_utc_ms|].
    erewrite bind_eq; [|erewrite bind_eq; [|reflexivity]; apply except_ok, parse_operation_name].
    do 5 (erewrite bind_eq; [|reflexivity]).
    erewrite bind_eq; [|erewrite bind_eq; [|reflexivity]; exact Hfr].
    apply opened_init_ok. by split; [apply cut_opened_ok|].
  - by rewrite cut_opened_dict.
  - unfold OpenedWire.from_dict. intros data self' [_ Hr]%bind_ok_unit.
    apply bind_ok in Hr as (x & _ & Hr). apply bind_ok in Hr as (x' & _ & Hr).
    apply bind_ok_unit in Hr as [_ Hr]. apply bind_ok in Hr as (o & _ & Hr).
    do 5 apply bind_ok in Hr as (? & _ & Hr).
    apply bind_ok in Hr as (f & (v & _ & Hf')%bind_ok & Hr).
    apply opened_init_ok in Hr as (Hok' & _ & _ & _ & _ & _ & _ & _ & ->). split; [done|].
    destruct v; try done. by apply from_dict_ok in Hf'.
Qed.
End Opened.

(** ** Witnesses *)
#[local] Existing Instances BindingTheorems.text_protobuf ProtocolTheorems.official_states
  ProtocolTheorems.payload_messages ProtocolTheorems.payload_messages_spec.
#[local] Instance open_response_schemas : ResponseSchemas := {|
  response_violation := fun _ => None; opened_violation := fun _ => None |}.

Definition response : BindingResponseEnvelope.t :=
  BindingResponseEnvelope.make GET_TASK (u "req-1") 3 (Some (u "task-1")) None.
Lemma response_roundtrip_witness : exists d,
  BindingResponseEnvelope.to_dict response = Ok d
  /\ BindingResponseEnvelope.from_dict d GET_TASK = Ok response.
Proof.
  eexists. split; [reflexivity|]. refine (proj1 (response_roundtrip response _ _ _ _ _)).
  - vm_compute. reflexivity.
  - discriminate.
  - intros m [= <-] d [= <-]. reflexivity.
  - reflexivity.
Defined.

Definition opened_expiry : datetime := {| wall_clock_us := 1700000000000000; utcoffset_us := Some 0 |}.
#[local] Instance opened_parser : IsoParser := {|
  fromisoformat := fun s =>
    if s == u "2023-11-14T22:13:20.000+00:00" then Ok opened_expiry
    else Err (ValueError "Invalid isoformat string") |}.
Lemma opened_session_ok : opened_ok opened_session.
Proof.
  apply (opened_init_ok (JStr (u "session-1")) (JStr (u "open-1")) (JStr (u "task-1")) SUBSCRIBE_TO_TASK
    (JStr (u "_DELIVER.a2amesh.stream.org-1.agent-1.open-1")) (JInt 4) opened_expiry snapshot_frame).
  vm_compute. reflexivity.
Qed.
Lemma opened_wire_roundtrip_witness : exists d,
  OpenedWire.to_dict opened_session = Ok d /\ OpenedWire.from_dict d = Ok opened_session.
Proof.
  assert (is_ok (OpenedWire.to_dict opened_session) = true) as Hd by (vm_compute; reflexivity).
  destruct (OpenedWire.to_dict opened_session) as [d|e] eqn:E; [|discriminate Hd]. exists d.
  split; [reflexivity|]. refine (proj1 (opened_wire_roundtrip opened_session d _ _ _ E)).
  - apply opened_session_ok.
  - apply snapshot_frame_ok.
  - vm_compute. reflexivity.
Defined.
