(* ===== verification/Transport.v ===== *)
(** * The transport of unary calls over NATS

    [bindings/nats_v1/transport.py]: the client that signs a request, publishes it
    and checks the reply, and the server that authenticates a message, dispatches
    it and replies.  The connection, the resolver of caller identities and the
    text [str(exc)] of an exception are operations of classes.  An [await] is a
    call; that handlers of several messages interleave at their awaits, and the
    bookkeeping of their tasks, is left out.  A timeout is in microseconds. *)
From S2P Require Import Prelude PyStr Json Contract Identity Stream JsonBytes Operations Envelope BindingAuth Response.
Local Open Scope string_scope.
Local Open Scope list_scope.
Local Open Scope Z_scope.
Local Open Scope py_scope.

(** ** Caller identities *)
Module NatsCallerIdentity.
Record t := make {
  connection_public_key : pystr;
  caller_agent_id : pystr;
  caller_instance_id : pystr;
  allowed_reply_prefix : pystr }.

Definition post_init (self : t) : result unit :=
  raise_if (negb (startswith (connection_public_key self) (u "U")))
    (ValueError "NATS caller connection key must be a user NKey");;
  raise_if (negb (agent_id_re (caller_agent_id self))) (ValueError "caller agent ID is invalid");;
  raise_if (negb (safe_token_re (caller_instance_id self)))
    (ValueError "caller instance ID is invalid");;
  raise_if (negb (reply_prefix_re (allowed_reply_prefix self)))
    (ValueError "caller reply prefix is invalid").

Definition init (self : t) : result t := post_init self;; Ok self.
End NatsCallerIdentity.

(** what arrives on a subscription *)
Record NatsMessage := { data : pybytes; subject : pystr; reply : option pystr }.

(** an aware [datetime] in UTC *)
Definition utc (us : Z) : datetime := {| wall_clock_us := us; utcoffset_us := Some 0 |}.

(** ** The client *)

(** The connection of a client: the next inbox, a subscription to it, one
    exchange (a publication, a flush, and a message awaited on the inbox), and
    the end of the subscription. *)
Class NatsRequestConnection := {
  new_inbox : result pystr;
  subscribe : pystr -> result unit;
  exchange : forall (subject : pystr) (payload : pybytes) (reply : pystr) (timeout_us : Z),
    result NatsMessage;
  unsubscribe : result unit }.

Module V1NatsClient.
Section Client.
Context `{RFC8785} `{A2AProtobuf} `{RequestSchema} `{ResponseSchemas} `{NKeys}.

Record t := make {
  key_pair : KeyPair;
  principal_id : pystr;
  credential_id : pystr;
  caller_agent_id : pystr;
  caller_instance_id : pystr;
  issuer : pystr;
  subject : pystr;
  config_generation : Z;
  auth_method : pystr;
  auth_ttl_seconds : Z }.

Definition init (self : t) : result t :=
  raise_if (negb (agent_id_re (caller_agent_id self))) (ValueError "caller agent ID is invalid");;
  raise_if (negb (safe_token_re (caller_instance_id self)))
    (ValueError "caller instance ID is invalid");;
  raise_if (negb ((1 <=? config_generation self) && (config_generation self <=? 9007199254740991)))
    (ValueError "config generation is invalid");;
  raise_if (negb ((1 <=? auth_ttl_seconds self) && (auth_ttl_seconds self <=? 900)))
    (ValueError "AuthContext TTL must be between 1 and 900 seconds");;
  key ← nkey_public_key (key_pair self);
  raise_if (negb (startswith key (u "U")))
    (ValueError "binding client key pair must be a user NKey");;
  Ok self.

(** the envelope of a request that is sent at [sent_at], a time in microseconds *)
Definition envelope_of (self : t) (operation : Operation) (payload : Message)
    (target_agent_id request_id reply_subject signer : pystr) (sent_at timeout_us : Z)
    : BindingRequestEnvelope.t :=
  let deadline_at := sent_at + timeout_us in
  let auth_expires_at := Z.min (sent_at + auth_ttl_seconds self * 1000000) deadline_at in
  BindingRequestEnvelope.make operation request_id (caller_instance_id self) None
    (config_generation self) (caller_agent_id self)
    (BindingAuthContext.make (principal_id self) (credential_id self) (auth_method self)
      (issuer self) (subject self) (utc sent_at) (utc auth_expires_at))
    (AuthProof.make signer AUTH_ALGORITHM (u "unsigned"))
    target_agent_id (utc sent_at) (utc deadline_at) reply_subject payload.

(** everything before the connection is used for the request: the inbox it is to
    be answered on and the signed envelope *)
Definition prepare (self : t) `{NatsRequestConnection} (operation : Operation) (payload : Message)
    (target_agent_id request_id : pystr) (sent_at timeout_us : Z)
    : result (pystr * BindingRequestEnvelope.t) :=
  raise_if (OPERATION_SPECS operation).(spec_streaming)
    (BindingTransportError "streaming operations require StreamSession transport, not unary request");;
  raise_if (timeout_us <? 1000000) (ValueError "timeout must be at least one second");;
  raise_if (negb (agent_id_re target_agent_id)) (ValueError "target agent ID is invalid");;
  reply_subject ← new_inbox;
  raise_if (negb (startswith reply_subject (u "_INBOX.a2amesh." ++ caller_agent_id self ++ u ".")))
    (BindingTransportError "NATS connection inbox is outside the authenticated caller prefix");;
  signer ← nkey_public_key (key_pair self);
  envelope ← BindingRequestEnvelope.init (envelope_of self operation payload target_agent_id
    request_id reply_subject signer sent_at timeout_us);
  signed ← sign_request_envelope envelope (key_pair self);
  Ok (reply_subject, signed).

(** the checks on what arrived in the inbox *)
Definition receive (self : t) (operation : Operation) (reply_subject request_id : pystr)
    (message : NatsMessage) : result (option Message) :=
  raise_if (message.(Transport.subject) != reply_subject)
    (BindingTransportError "response arrived on an unexpected NATS subject");;
  response ← BindingResponseEnvelope.from_json_bytes message.(data) operation;
  raise_if (BindingResponseEnvelope.request_id response != request_id)
    (BindingTransportError "response requestId does not match request");;
  raise_if (BindingResponseEnvelope.config_generation response != config_generation self)
    (BindingTransportError "response configGeneration does not match request");;
  match BindingResponseEnvelope.error response with
  | Some error => Err (BindingRemoteError (BindingError.type error) (BindingError.message error)
      (BindingError.retryable error))
  | None => Ok (BindingResponseEnvelope.payload response)
  end.

(** [request_id or uuid4().hex] *)
Definition request_id_or (request_id : option pystr) (fresh : pystr) : pystr :=
  match request_id with Some (c :: r) => c :: r | _ => fresh end.

(** [sent_at] is what [self._clock()] reads; the [finally] clause ends the
    subscription before anything is returned or raised. *)
Definition request (self : t) `{NatsRequestConnection} (operation : Operation) (payload : Message)
    (target_agent_id : pystr) (timeout_us : Z) (request_id : option pystr) (fresh : pystr)
    (sent_at : Z) : result (option Message) :=
  '(reply_subject, signed) ← prepare self operation payload target_agent_id
    (request_id_or request_id fresh) sent_at timeout_us;
  subscribe reply_subject;;
  let message :=
    except (payload ← BindingRequestEnvelope.to_json_bytes signed;
            exchange (RPC_SUBJECT_PREFIX ++ target_agent_id) payload reply_subject timeout_us)
      (fun e => match e with TimeoutError => true | _ => false end)
      (BindingTransportError "A2A v1 request timed out") in
  unsubscribe;;
  message ← message;
  receive self operation reply_subject (BindingRequestEnvelope.request_id signed) message.

Definition send_message (self : t) `{NatsRequestConnection} (payload : Message)
    (target_agent_id : pystr) (timeout_us : Z) (fresh : pystr) (sent_at : Z)
    : result (option Message) :=
  request self SEND_MESSAGE payload target_agent_id timeout_us None fresh sent_at.

Definition get_task (self : t) `{NatsRequestConnection} (payload : Message)
    (target_agent_id : pystr) (timeout_us : Z) (fresh : pystr) (sent_at : Z)
    : result (option Message) :=
  request self GET_TASK payload target_agent_id timeout_us None fresh sent_at.
End Client.
End V1NatsClient.

(** ** The server *)

(** What the server is given: the application's attributes, the resolver, where
    [None] is a value that is no [NatsCallerIdentity], the reply of a message,
    and the text of an exception. *)
Class Deployment `{A2AProtobuf} `{RequestSchema} := {
  application : string -> option attribute;
  resolve : NatsMessage -> BindingRequestEnvelope.t -> result (option NatsCallerIdentity.t);
  respond : NatsMessage -> pybytes -> result unit;
  text : exn -> pystr }.

Module V1NatsServer.
Record t := make {
  agent_id : pystr;
  active_config_generation : Z;
  auth : BindingAuthVerifier.t }.

Definition init (agent_id : pystr) (has_application has_resolver : bool)
    (signer_policies : gmap pystr SignerPolicy) (has_replay_guard : bool)
    (active_config_generation : Z) : result t :=
  raise_if (negb (agent_id_re agent_id)) (ValueError "agent ID is invalid");;
  raise_if (negb ((1 <=? active_config_generation)
      && (active_config_generation <=? 9007199254740991)))
    (ValueError "active config generation must be a positive safe integer");;
  raise_if (negb has_application) (ValueError "canonical application is required");;
  raise_if (negb has_resolver) (ValueError "NATS caller identity resolver is required");;
  auth ← BindingAuthVerifier.init signer_policies has_replay_guard 30 900;
  Ok (make agent_id active_config_generation auth).

Definition subject (self : t) : pystr := RPC_SUBJECT_PREFIX ++ agent_id self.

(** [type(exc).__name__] of the exceptions that are an [A2AError] *)
Definition a2a_error_name (e : exn) : option string :=
  match e with
  | InvalidParamsError _ => Some "InvalidParamsError"
  | InvalidRequestError _ => Some "InvalidRequestError"
  | InvalidAgentResponseError _ => Some "InvalidAgentResponseError"
  | A2AError name _ => Some name
  | _ => None
  end.

Section Handle.
Context `{RFC8785} `{A2AProtobuf} `{IsoParser} `{RequestSchema} `{ResponseSchemas} `{NKeys}.
Context `{RequestReplayGuard}.
Context `{!Deployment}.

(** the call of a handler: its name and its arguments *)
Definition handler_call : Type := string * Message * CanonicalRequestContext.t.

(** the type, the message and the retryability of the reply to an exception *)
Definition error_reply (e : exn) : pystr * pystr * bool :=
  match e with
  | BindingValidationError _ => (u "InvalidBindingRequest", text e, false)
  | BindingTransportError _ | BindingRemoteError _ _ _ => (u "BindingTransportError", text e, false)
  | _ =>
    match a2a_error_name e with
    | Some name => (u name, text e, false)
    | None => (u "InternalError", u "canonical application dispatch failed", true)
    end
  end.

(** the bytes of an error reply *)
Definition error_bytes (self : t) (envelope : BindingRequestEnvelope.t)
    (error : pystr * pystr * bool) : result pybytes :=
  let '(type, message, retryable) := error in
  error ← BindingError.init type message retryable;
  response ← BindingResponseEnvelope.init
    (BindingResponseEnvelope.make (BindingRequestEnvelope.operation envelope)
      (BindingRequestEnvelope.request_id envelope) (active_config_generation self) None (Some error));
  BindingResponseEnvelope.to_json_bytes response.

(** what is handed to [message.respond], whose own failure is dropped *)
Definition _respond_error (self : t) (message : NatsMessage)
    (envelope : option BindingRequestEnvelope.t) (error : pystr * pystr * bool) : list pybytes :=
  match envelope with
  | None => []
  | Some envelope =>
    if message.(reply) != Some (BindingRequestEnvelope.reply_subject envelope) then []
    else match error_bytes self envelope error with Ok payload => [payload] | Err _ => [] end
  end.

(** who sent the message *)
Definition caller_of (message : NatsMessage) (envelope : BindingRequestEnvelope.t)
    : result NatsCallerIdentity.t :=
  raise_if (message.(reply) != Some (BindingRequestEnvelope.reply_subject envelope))
    (BindingTransportError "NATS reply subject does not match signed replySubject");;
  caller ← resolve message envelope;
  or_raise caller
    (BindingTransportError "NATS caller identity resolver returned an invalid identity").

Definition verify (self : t) (guard : Guard) (message : NatsMessage)
    (envelope : BindingRequestEnvelope.t) (caller : NatsCallerIdentity.t) (now : datetime)
    (guard_now : Z) : Guard * result VerifiedBindingIdentity :=
  BindingAuthVerifier.verify (auth self) guard envelope message.(Transport.subject)
    (NatsCallerIdentity.connection_public_key caller) (agent_id self)
    (NatsCallerIdentity.caller_agent_id caller) (NatsCallerIdentity.caller_instance_id caller)
    (NatsCallerIdentity.allowed_reply_prefix caller) (active_config_generation self) now guard_now.

(** the context of the dispatch *)
Definition context_of (self : t) (envelope : BindingRequestEnvelope.t)
    (verified : VerifiedBindingIdentity) : result CanonicalRequestContext.t :=
  raise_if (OPERATION_SPECS (BindingRequestEnvelope.operation envelope)).(spec_streaming)
    (BindingTransportError "streaming operation must use the StreamSession transport");;
  CanonicalRequestContext.init (JStr verified.(verified_request_id))
    (Some verified.(verified_principal)) (JStr (agent_id self))
    (JInt (BindingRequestEnvelope.config_generation envelope)).

(** from the parsed envelope to the response: the guard afterwards, the handler
    that was called, if any, and the response or what was raised *)
Definition answer (self : t) (guard : Guard) (message : NatsMessage)
    (envelope : BindingRequestEnvelope.t) (now : datetime) (guard_now : Z)
    : Guard * option handler_call * result BindingResponseEnvelope.t :=
  match caller_of message envelope with
  | Err e => (guard, None, Err e)
  | Ok caller =>
    let '(guard, verified) := verify self guard message envelope caller now guard_now in
    match verified ≫= context_of self envelope with
    | Err e => (guard, None, Err e)
    | Ok context =>
      let '(called, result) := dispatch_unary application (BindingRequestEnvelope.operation envelope)
        (BindingRequestEnvelope.payload envelope) context in
      (guard, called,
       result ← result;
       BindingResponseEnvelope.init
         (BindingResponseEnvelope.make (BindingRequestEnvelope.operation envelope)
           (BindingRequestEnvelope.request_id envelope) (active_config_generation self)
           (Some result) None))
    end
  end.

(** The guard afterwards, the handler that was called, and what was handed to
    [message.respond], in order.  [now] is what [self._clock()] reads. *)
Definition _handle (self : t) (guard : Guard) (message : NatsMessage) (now : datetime)
    (guard_now : Z) : Guard * option handler_call * list pybytes :=
  match BindingRequestEnvelope.from_json_bytes message.(data) with
  | Err e => (guard, None, _respond_error self message None (error_reply e))
  | Ok envelope =>
    let '(guard, called, response) := answer self guard message envelope now guard_now in
    match response ≫= BindingResponseEnvelope.to_json_bytes with
    | Err e => (guard, called, _respond_error self message (Some envelope) (error_reply e))
    | Ok payload =>
      (guard, called, payload ::
         match respond message payload with
         | Ok _ => []
         | Err e => _respond_error self message (Some envelope) (error_reply e)
         end)
    end
  end.

(** messages one after the other, each with the readings of the two clocks *)
Record arrival := Arrival { a_message : NatsMessage; a_now : datetime; a_guard_now : Z }.
Fixpoint handle_all (self : t) (guard : Guard) (arrivals : list arrival)
    : list (option handler_call * list pybytes) :=
  match arrivals with
  | [] => []
  | a :: arrivals =>
    let '(guard, called, sent) := _handle self guard (a_message a) (a_now a) (a_guard_now a) in
    (called, sent) :: handle_all self guard arrivals
  end.
End Handle.
End V1NatsServer.
