(* ===== verification/TransportFacts.v ===== *)
(** * The transport of unary calls: facts

    What the server does with a message, branch by branch, and which messages call
    a handler.  The envelopes a client prepares survive being written with
    timestamps cut to the second, and a server that knows the client finds them
    authentic. *)
From S2P Require Import Prelude PyStr Json JsonFacts Contract Identity IdentityFacts Stream StreamFacts JsonBytes Operations Envelope.
From S2P Require Import BindingAuth EnvelopeFacts BindingFacts SigningFacts Response Transport.
Import EnvelopeFacts.Requests.
Local Open Scope list_scope.
Local Open Scope Z_scope.
Local Open Scope py_scope.

Lemma spec_streaming_streaming o : spec_streaming (OPERATION_SPECS o) = streaming o.
Proof. by destruct o. Qed.

(** ** What is read is well-formed *)
Section Reading.
Context `{A2AProtobuf} `{IsoParser} `{RequestSchema}.

Lemma from_dict_envelope_ok d e : BindingRequestEnvelope.from_dict d = Ok e -> envelope_ok e.
Proof.
  unfold BindingRequestEnvelope.from_dict. intros [_ Hr]%bind_ok_unit.
  apply bind_ok in Hr as ([o p] & _ & Hr). do 21 apply bind_ok in Hr as (? & _ & Hr).
  by apply init_ok in Hr as [? ->].
Qed.

Lemma from_json_bytes_envelope_ok data e : BindingRequestEnvelope.from_json_bytes data = Ok e ->
  envelope_ok e.
Proof. unfold BindingRequestEnvelope.from_json_bytes. intros (d & _ & ?%from_dict_envelope_ok)%bind_ok. done. Qed.
End Reading.

(** ** The server *)
Section Server.
Context `{RFC8785} `{A2AProtobuf} `{IsoParser} `{RequestSchema} `{ResponseSchemas} `{NKeys}.
Context `{RequestReplayGuard} `{!Deployment}.
Import V1NatsServer.

Record server_ok (self : t) : Prop := {
  so_agent : agent_id_re (agent_id self) = true;
  so_config : 1 <= active_config_generation self <= 9007199254740991 }.

Lemma server_init_ok agent app res policies guard generation self :
  init agent app res policies guard generation = Ok self -> server_ok self.
Proof.
  unfold init. intros [Ha%raise_if_ok%negb_false_iff Hr]%bind_ok_unit.
  apply bind_ok_unit in Hr as [Hg%raise_if_ok%negb_false_iff Hr].
  apply bind_ok_unit in Hr as [_ Hr]. apply bind_ok_unit in Hr as [_ Hr].
  apply bind_ok in Hr as (auth & _ & Hr). apply Ok_inj_iff in Hr as <-. constructor; cbn; [done|lia].
Qed.

Lemma caller_of_ok message envelope caller : caller_of message envelope = Ok caller <->
  message.(reply) = Some (BindingRequestEnvelope.reply_subject envelope)
  /\ resolve message envelope = Ok (Some caller).
Proof.
  unfold caller_of. rewrite bind_ok_unit raise_if_ok neqb_false bind_ok. split.
  - intros (? & c & Hc & ->%or_raise_ok). done.
  - intros [? Hc]. split; [done|]. by exists (Some caller).
Qed.

(** what the server expects of a request of [caller] *)
Definition expectation (self : t) (message : NatsMessage) (caller : NatsCallerIdentity.t)
    : BindingAuthVerifier.Expectation :=
  {| BindingAuthVerifier.received_subject := message.(Transport.subject);
     BindingAuthVerifier.expected_subject := V1NatsServer.subject self;
     BindingAuthVerifier.connection_public_key := NatsCallerIdentity.connection_public_key caller;
     BindingAuthVerifier.expected_target_agent_id := agent_id self;
     BindingAuthVerifier.expected_caller_agent_id := NatsCallerIdentity.caller_agent_id caller;
     BindingAuthVerifier.expected_caller_instance_id := NatsCallerIdentity.caller_instance_id caller;
     BindingAuthVerifier.allowed_reply_prefix := NatsCallerIdentity.allowed_reply_prefix caller;
     BindingAuthVerifier.expected_config_generation := active_config_generation self |}.

Lemma verify_expectation self guard message envelope caller now guard_now :
  verify self guard message envelope caller now guard_now
  = BindingAuthVerifier.verify_subject (auth self) guard envelope (expectation self message caller)
      now guard_now.
Proof. done. Qed.

(** the context of an accepted request *)
Definition request_context (self : t) (envelope : BindingRequestEnvelope.t) : CanonicalRequestContext.t :=
  CanonicalRequestContext.make (BindingRequestEnvelope.request_id envelope)
    (verified_principal (identity_of (H0 := request_envelope_signed) envelope)) (agent_id self)
    (active_config_generation self).

Lemma context_of_ok self envelope context : server_ok self -> envelope_ok envelope ->
  BindingRequestEnvelope.config_generation envelope = active_config_generation self ->
  context_of self envelope (identity_of (H0 := request_envelope_signed) envelope) = Ok context <->
  streaming (BindingRequestEnvelope.operation envelope) = false /\ context = request_context self envelope.
Proof.
  intros [Ha Hg] He Hc. unfold context_of. rewrite spec_streaming_streaming bind_ok_unit raise_if_ok.
  unfold CanonicalRequestContext.init. cbn -[safe_token_re agent_id_re].
  rewrite (eo_request _ He) Ha Hc. cbn.
  assert (raise_if (negb ((1 <=? active_config_generation self)
    && (active_config_generation self <=? _MAX_SAFE_INTEGER)))
    (ValueError "config_generation must be a positive JSON-safe integer") = Ok tt) as ->.
  { apply raise_if_ok, negb_false_iff. unfold _MAX_SAFE_INTEGER. lia. }
  cbn. unfold request_context. rewrite Ok_inj_iff. naive_solver.
Qed.

(** the request reaches a handler: it is decoded, its reply goes where it says, its caller is
    resolved, it is authenticated and claimed, and the application has the handler of its operation *)
Record served (self : t) (guard : Guard) (message : NatsMessage) (now : datetime) (guard_now : Z)
    (envelope : BindingRequestEnvelope.t) : Prop := {
  sv_decoded : BindingRequestEnvelope.from_json_bytes message.(data) = Ok envelope;
  sv_reply : message.(reply) = Some (BindingRequestEnvelope.reply_subject envelope);
  sv_caller : exists caller, resolve message envelope = Ok (Some caller)
    /\ authentic (auth self) envelope (expectation self message caller);
  sv_clock : aware now = true;
  sv_current : current_for (auth self) envelope (instant now);
  sv_claimed : (claim guard (BindingAuthVerifier.claim_of envelope) guard_now).2 = Ok true;
  sv_principal : principal_re (BindingAuthContext.principal_id
    (BindingRequestEnvelope.auth_context envelope)) = true;
  sv_unary : streaming (BindingRequestEnvelope.operation envelope) = false;
  sv_handler : exists call, application
    (handler_name (OPERATION_SPECS (BindingRequestEnvelope.operation envelope))) = Some (Handler call) }.

(** the call of the handler *)
Definition call_of (self : t) (envelope : BindingRequestEnvelope.t) : handler_call :=
  (handler_name (OPERATION_SPECS (BindingRequestEnvelope.operation envelope)),
   BindingRequestEnvelope.payload envelope, request_context self envelope).

Lemma dispatch_called envelope context c : envelope_ok envelope ->
  streaming (BindingRequestEnvelope.operation envelope) = false ->
  let spec := OPERATION_SPECS (BindingRequestEnvelope.operation envelope) in
  (dispatch_unary application (BindingRequestEnvelope.operation envelope)
     (BindingRequestEnvelope.payload envelope) context).1 = Some c <->
  (exists call, application (handler_name spec) = Some (Handler call))
  /\ c = (handler_name spec, BindingRequestEnvelope.payload envelope, context).
Proof.
  intros He Hs spec. unfold dispatch_unary. fold spec. cbv zeta.
  unfold spec. rewrite spec_streaming_streaming Hs (eo_payload _ He) (eo_tenant _ He). cbn.
  destruct (application _) as [[|call]|]; cbn [fst]; naive_solver.
Qed.

(** an accepted caller and an accepted request *)
Lemma server_verify_ok self guard message envelope caller now guard_now guard' verified :
  verify self guard message envelope caller now guard_now = (guard', Ok verified) <->
  aware now = true /\ authentic (auth self) envelope (expectation self message caller)
  /\ current_for (auth self) envelope (instant now)
  /\ claim guard (BindingAuthVerifier.claim_of envelope) guard_now = (guard', Ok true)
  /\ principal_re (BindingAuthContext.principal_id (BindingRequestEnvelope.auth_context envelope)) = true
  /\ verified = identity_of (H0 := request_envelope_signed) envelope.
Proof.
  exact (verify_subject_ok (H0 := request_envelope_signed) (auth self) guard envelope
    (expectation self message caller) now guard_now guard' verified).
Qed.

(** a served request is dispatched, and what the handler returns becomes the response *)
Lemma answer_served self guard message now guard_now envelope : server_ok self ->
  served self guard message now guard_now envelope ->
  let dispatched := dispatch_unary application (BindingRequestEnvelope.operation envelope)
    (BindingRequestEnvelope.payload envelope) (request_context self envelope) in
  exists guard', answer self guard message envelope now guard_now
  = (guard', dispatched.1,
     result ← dispatched.2;
     BindingResponseEnvelope.init
       (BindingResponseEnvelope.make (BindingRequestEnvelope.operation envelope)
         (BindingRequestEnvelope.request_id envelope) (active_config_generation self) (Some result) None)).
Proof.
  intros Hs [Hd Hr (caller & Hc & Hau) Ha Hcu Hcl Hp Hu Hh] dispatched.
  pose proof (from_json_bytes_envelope_ok _ _ Hd) as He. unfold answer.
  rewrite (proj2 (caller_of_ok message envelope caller) (conj Hr Hc)).
  pose proof (surjective_pairing (claim guard
    (BindingAuthVerifier.claim_of (H0 := request_envelope_signed) envelope) guard_now)) as Eg.
  rewrite Hcl in Eg.
  rewrite (proj2 (server_verify_ok self guard message envelope caller now guard_now _ _)
    (conj Ha (conj Hau (conj Hcu (conj Eg (conj Hp eq_refl)))))). cbn [mbind result_bind].
  rewrite (proj2 (context_of_ok self envelope _ Hs He (ro_config _ _ (au_route _ _ _ Hau)))
    (conj Hu eq_refl)).
  fold dispatched. destruct dispatched. by eexists.
Qed.

Lemma dispatch_returns envelope context call result : envelope_ok envelope ->
  streaming (BindingRequestEnvelope.operation envelope) = false ->
  let spec := OPERATION_SPECS (BindingRequestEnvelope.operation envelope) in
  application (handler_name spec) = Some (Handler call) ->
  call (BindingRequestEnvelope.payload envelope) context = Ok result ->
  isinstance result (response_type spec) = true ->
  (dispatch_unary application (BindingRequestEnvelope.operation envelope)
     (BindingRequestEnvelope.payload envelope) context).2 = Ok result.
Proof.
  intros He Hs spec Happ Hcall Hi. unfold dispatch_unary. fold spec. cbv zeta.
  unfold spec in *. rewrite spec_streaming_streaming Hs (eo_payload _ He) (eo_tenant _ He) Happ. cbn.
  by rewrite Hcall /= Hi.
Qed.

Lemma answer_called self guard message envelope now guard_now c : server_ok self ->
  BindingRequestEnvelope.from_json_bytes message.(data) = Ok envelope ->
  (answer self guard message envelope now guard_now).1.2 = Some c <->
  served self guard message now guard_now envelope /\ c = call_of self envelope.
Proof.
  intros Hs Hd. pose proof (from_json_bytes_envelope_ok _ _ Hd) as He. split.
  - unfold answer. destruct (caller_of message envelope) as [caller|x] eqn:Ec; [|done].
    apply caller_of_ok in Ec as [Hr Hc].
    destruct (verify _ _ _ _ _ _ _) as [g [verified|x]] eqn:Ev; [|done]. cbn [mbind result_bind].
    apply server_verify_ok in Ev as (Ha & Hau & Hcu & Hcl & Hp & ->).
    destruct (context_of _ _ _) as [context|x] eqn:Ex; [|done].
    apply context_of_ok in Ex as [Hu ->]; [|done..|apply (ro_config _ _ (au_route _ _ _ Hau))].
    destruct (dispatch_unary _ _ _ _) as [called r] eqn:Ed. cbn. intros ->.
    assert ((dispatch_unary application (BindingRequestEnvelope.operation envelope)
      (BindingRequestEnvelope.payload envelope) (request_context self envelope)).1 = Some c) as Hd'
      by by rewrite Ed.
    apply dispatch_called in Hd' as [Hh ->]; [|done..]. split; [|done].
    constructor; try done; [by exists caller|by rewrite Hcl].
  - intros [Hsv ->]. destruct (answer_served _ _ _ _ _ _ Hs Hsv) as [g ->]. cbn.
    apply dispatch_called; [done|apply (sv_unary _ _ _ _ _ _ Hsv)|].
    split; [apply (sv_handler _ _ _ _ _ _ Hsv)|done].
Qed.

Lemma handle_called self guard message now guard_now c : server_ok self ->
  (_handle self guard message now guard_now).1.2 = Some c <->
  exists envelope, served self guard message now guard_now envelope /\ c = call_of self envelope.
Proof.
  intros Hs. unfold _handle.
  destruct (BindingRequestEnvelope.from_json_bytes message.(data)) as [envelope|x] eqn:Ed.
  - pose proof (fun c => answer_called self guard message envelope now guard_now c Hs Ed) as Hc.
    destruct (answer _ _ _ _ _ _) as [[g called] response]. cbn in Hc.
    destruct (response ≫= _); cbn; rewrite Hc; split; [by eauto| |by eauto|];
      intros (env & He & ->); pose proof (sv_decoded _ _ _ _ _ _ He) as Hd;
      rewrite Ed in Hd; injection Hd as <-; done.
  - split; [done|]. intros (env & He & _). pose proof (sv_decoded _ _ _ _ _ _ He). congruence.
Qed.

(** what the guard is asked: nothing before the caller is known *)
Lemma handle_guard self guard message now guard_now :
  (_handle self guard message now guard_now).1.1 =
  match BindingRequestEnvelope.from_json_bytes message.(data) with
  | Err _ => guard
  | Ok envelope =>
    match caller_of message envelope with
    | Err _ => guard
    | Ok caller => (BindingAuthVerifier.verify_subject (auth self) guard envelope
        (expectation self message caller) now guard_now).1
    end
  end.
Proof.
  unfold _handle. destruct (BindingRequestEnvelope.from_json_bytes message.(data)) as [envelope|x]; [|done].
  assert ((answer self guard message envelope now guard_now).1.1 = match caller_of message envelope with
    | Err _ => guard
    | Ok caller => (verify self guard message envelope caller now guard_now).1
    end) as Hg.
  { unfold answer. destruct (caller_of message envelope) as [caller|x]; [|done].
    destruct (verify _ _ _ _ _ _ _) as [g verified]. destruct (verified ≫= _); [|done].
    by destruct (dispatch_unary _ _ _ _). }
  destruct (answer self guard message envelope now guard_now) as [[g called] response].
  cbn in Hg. subst g. by destruct (response ≫= _).
Qed.

(** ** Replies *)

(** the responses the server makes to a request *)
Record reply_of (self : t) (envelope : BindingRequestEnvelope.t) (r : BindingResponseEnvelope.t) : Prop := {
  rp_operation : BindingResponseEnvelope.operation r = BindingRequestEnvelope.operation envelope;
  rp_request : BindingResponseEnvelope.request_id r = BindingRequestEnvelope.request_id envelope;
  rp_config : BindingResponseEnvelope.config_generation r = active_config_generation self }.

Lemma respond_error_one self message envelope error payload :
  _respond_error self message (Some envelope) error = [payload] <->
  message.(reply) = Some (BindingRequestEnvelope.reply_subject envelope)
  /\ error_bytes self envelope error = Ok payload.
Proof.
  unfold _respond_error. case_bool_decide; cbn; [|naive_solver].
  destruct (error_bytes self envelope error); naive_solver.
Qed.

Lemma respond_error_cases self message envelope error :
  (exists payload, _respond_error self message envelope error = [payload])
  \/ _respond_error self message envelope error = [].
Proof.
  unfold _respond_error. destruct envelope as [envelope|]; [|by right]. case_bool_decide; [|by right].
  cbn. destruct (error_bytes self envelope error); [left; by eexists|by right].
Qed.

Lemma error_bytes_reply self envelope error payload : error_bytes self envelope error = Ok payload ->
  exists r e, reply_of self envelope r /\ BindingResponseEnvelope.error r = Some e
  /\ (BindingError.type e, BindingError.message e, BindingError.retryable e) = error
  /\ BindingResponseEnvelope.to_json_bytes r = Ok payload.
Proof.
  destruct error as [[ty m] b]. unfold error_bytes. intros (e & He & Hr)%bind_ok.
  apply bind_ok in Hr as (r & Hi & Hp). unfold BindingResponseEnvelope.init in Hi.
  apply bind_ok_unit in Hi as [_ [= <-]]. unfold BindingError.init in He.
  apply bind_ok_unit in He as [_ [= <-]]. eexists _, _. split; [|split; [|split; [|exact Hp]]]; done.
Qed.

Lemma respond_error_reply self message envelope error payload :
  payload ∈ _respond_error self message (Some envelope) error ->
  message.(reply) = Some (BindingRequestEnvelope.reply_subject envelope)
  /\ exists r, reply_of self envelope r /\ BindingResponseEnvelope.to_json_bytes r = Ok payload.
Proof.
  destruct (respond_error_cases self message (Some envelope) error) as [[p E]|E]; rewrite E;
    [|by intros ?%elem_of_nil].
  intros ->%list_elem_of_singleton. apply respond_error_one in E as [Hr Hb]. split; [done|].
  apply error_bytes_reply in Hb as (r & e & ? & _ & _ & ?). by exists r.
Qed.

(** no reply can be built for an exception whose text is empty or too long *)
Lemma error_bytes_length self envelope e : text e = [] \/ 4096 < Z.of_nat (length (text e)) ->
  (error_reply e).2 = false -> is_ok (error_bytes self envelope (error_reply e)) = false.
Proof.
  intros Hlen Hr.
  assert (error_reply e = ((error_reply e).1.1, text e, false)) as -> by by destruct e.
  unfold error_bytes, BindingError.init. cbv zeta.
  destruct (BindingError.post_init _) as [[]|x] eqn:E; [|done]. exfalso.
  unfold BindingError.post_init in E. apply bind_ok_unit in E as [_ [Hne Hle]%raise_if_ok%orb_false_iff].
  apply bool_decide_eq_false in Hne. cbn in Hne, Hle. destruct Hlen; [done|lia].
Qed.

Lemma answer_reply self guard message envelope now guard_now r :
  (answer self guard message envelope now guard_now).2 = Ok r ->
  reply_of self envelope r /\ BindingResponseEnvelope.error r = None
  /\ message.(reply) = Some (BindingRequestEnvelope.reply_subject envelope)
  /\ exists name context result call,
    (answer self guard message envelope now guard_now).1.2
      = Some (name, BindingRequestEnvelope.payload envelope, context)
    /\ application name = Some (Handler call)
    /\ call (BindingRequestEnvelope.payload envelope) context = Ok result
    /\ BindingResponseEnvelope.payload r = Some result.
Proof.
  unfold answer. destruct (caller_of message envelope) as [caller|x] eqn:Ec; [|done].
  apply caller_of_ok in Ec as [Hr _].
  destruct (verify _ _ _ _ _ _ _) as [g verified]. destruct (verified ≫= _) as [context|x]; [|done].
  unfold dispatch_unary. cbv zeta. destruct (spec_streaming _); [done|].
  destruct (isinstance _ _); cbn [negb]; [|done]. destruct (negb _); [done|].
  destruct (application _) as [[|call]|] eqn:Ea; [done| |done]. cbn.
  intros (result & (result' & Hc & [_ ->%Ok_inj_iff]%bind_ok_unit)%bind_ok & Hi)%bind_ok.
  unfold BindingResponseEnvelope.init in Hi. apply bind_ok_unit in Hi as [_ [= <-]].
  split; [done|]. split; [done|]. split; [done|]. by eexists _, _, _, call.
Qed.
End Server.

(** ** Replayed messages *)
Section Replay.
Context `{RFC8785} `{A2AProtobuf} `{IsoParser} `{RequestSchema} `{ResponseSchemas} `{NKeys}.
Context `{RefusingGuard} `{!Deployment}.
Import V1NatsServer.

(** what a call of a handler was claimed as *)
Definition call_key (self : t) (c : handler_call) : pystr * pystr * pystr :=
  (CanonicalRequestContext.principal_id c.2, agent_id self, CanonicalRequestContext.request_id c.2).

Lemma call_of_key self envelope : BindingRequestEnvelope.target_agent_id envelope = agent_id self ->
  call_key self (call_of self envelope)
  = claim_key (BindingAuthVerifier.claim_of (H0 := request_envelope_signed) envelope).
Proof. unfold call_key, claim_key. cbn. by intros ->. Qed.

(** after a call of a handler the guard refuses its claim *)
Lemma handle_claims self guard message now guard_now envelope : server_ok self ->
  served self guard message now guard_now envelope ->
  refuses (_handle self guard message now guard_now).1.1 (call_key self (call_of self envelope))
    (Z.min (expires (H0 := request_envelope_signed) envelope)
      (deadline (H0 := request_envelope_signed) envelope)).
Proof.
  intros Hs [Hd Hr (caller & Hc & Hau) Ha Hcu Hcl Hp Hu Hh].
  rewrite (call_of_key self envelope (ro_target _ _ (au_route _ _ _ Hau))).
  rewrite handle_guard Hd (proj2 (caller_of_ok message envelope caller) (conj Hr Hc)).
  rewrite verify_subject_guard.
  rewrite (proj2 (binding_check_ok (auth self) _ _ now) (conj Ha (conj Hau Hcu))).
  by apply claim_refuses in Hcl.
Qed.

(** while the guard refuses a claim, no message that makes it reaches a handler, and it keeps
    refusing it *)
Lemma handle_keeps self guard message now guard_now k e : server_ok self ->
  refuses guard k e -> guard_now <= e ->
  refuses (_handle self guard message now guard_now).1.1 k e
  /\ (forall c, (_handle self guard message now guard_now).1.2 = Some c -> call_key self c <> k).
Proof.
  intros Hs Hk He. split.
  - rewrite handle_guard. destruct (BindingRequestEnvelope.from_json_bytes _) as [envelope|]; [|done].
    destruct (caller_of message envelope) as [caller|]; [|done].
    by apply (verify_keeps (auth self) guard (Call (H0 := request_envelope_signed) envelope
      (expectation self message caller) now guard_now)).
  - intros c (envelope & Hsv & ->)%handle_called; [|done].
    pose proof (sv_claimed _ _ _ _ _ _ Hsv) as Hcl. destruct (sv_caller _ _ _ _ _ _ Hsv) as (caller & _ & Hau).
    rewrite (call_of_key self envelope (ro_target _ _ (au_route _ _ _ Hau))). intros <-.
    by destruct (refuses_claim _ _ _ _ Hk He).
Qed.

Lemma handle_all_keeps self arrivals : forall guard k e j called sent, server_ok self ->
  refuses guard k e -> handle_all self guard arrivals !! j = Some (Some called, sent) ->
  call_key self called = k ->
  exists i a, (i <= j)%nat /\ arrivals !! i = Some a /\ e < a_guard_now a.
Proof.
  induction arrivals as [|a arrivals IH]; intros guard k e j called sent Hs Hk Hj Hc; [done|].
  destruct (decide (a_guard_now a <= e)) as [Hle|Hlt]; [|exists O, a; split; [lia|]; split; [done|lia]].
  destruct (handle_keeps self guard (a_message a) (a_now a) (a_guard_now a) k e Hs Hk Hle) as [Hk' Hno].
  cbn [handle_all] in Hj.
  destruct (_handle self guard (a_message a) (a_now a) (a_guard_now a)) as [[g c] s]. cbn in Hk', Hno.
  destruct j as [|j]; cbn in Hj.
  - injection Hj as -> ->. by destruct (Hno called).
  - destruct (IH g k e j called sent Hs Hk' Hj Hc) as (i & a' & Hi & Ha & Hl).
    exists (S i), a'. split; [lia|done].
Qed.
End Replay.

(** ** Cutting timestamps does not change what is written or signed *)
Section Cut.
Context `{A2AProtobuf} `{IsoParser} `{RequestSchema}.

Lemma second_of_cut v : second_of (cut v) = second_of v.
Proof. unfold cut, second_of at 1. rewrite instant_utc_second. by apply Z.div_mul. Qed.

Lemma format_cut v : _format_timestamp (cut v) = _format_timestamp v.
Proof. unfold _format_timestamp. fold (second_of (cut v)) (second_of v). by rewrite second_of_cut. Qed.

Lemma members_cut self proof payload :
  BindingRequestEnvelope.members (cut_envelope self) proof payload
  = BindingRequestEnvelope.members self proof payload.
Proof.
  unfold BindingRequestEnvelope.members, cut_envelope, cut_context, BindingAuthContext.to_dict.
  cbn -[_format_timestamp cut u]. by rewrite !format_cut.
Qed.

Lemma signing_payload_cut self :
  BindingRequestEnvelope.signing_payload_dict (cut_envelope self)
  = BindingRequestEnvelope.signing_payload_dict self.
Proof.
  unfold BindingRequestEnvelope.signing_payload_dict, BindingRequestEnvelope.to_dict.
  cbn [BindingRequestEnvelope.payload BindingRequestEnvelope.auth_proof cut_envelope].
  destruct (message_to_dict _); [|done]. cbn. by rewrite !members_cut.
Qed.

Lemma check_signature_cut `{RFC8785} `{NKeys} (self : BindingRequestEnvelope.t) :
  BindingAuthVerifier.check_signature (H0 := request_envelope_signed) (cut_envelope self)
  = BindingAuthVerifier.check_signature (H0 := request_envelope_signed) self.
Proof.
  unfold BindingAuthVerifier.check_signature, canonical_signing_bytes.
  cbn [s_signing_payload_dict s_auth_proof request_envelope_signed]. by rewrite signing_payload_cut.
Qed.
End Cut.

(** ** The prefix of a caller's inbox *)
Definition inbox_prefix (agent_id : pystr) : pystr := u "_INBOX.a2amesh." ++ agent_id ++ u ".".

Lemma agent_id_dotless s : agent_id_re s = true -> s <> [] /\ dotless s /\ forallb is_b64 s = true.
Proof.
  assert (forall c, agent_id_first c || (c =? 45)%N = true -> c <> 46%N /\ is_b64 c = true) as Hc.
  { intros c Hc. unfold agent_id_first, is_b64, b64_value in *. split; [lia|].
    repeat case_match; try done; lia. }
  destruct s as [|c r]; [done|]. cbn [agent_id_re]. intros [[Hf _]%andb_true_iff Hr]%andb_true_iff.
  split; [done|]. apply forallb_iff in Hr.
  assert (Forall (fun c => c <> 46%N /\ is_b64 c = true) (c :: r)) as Hall.
  { constructor; [apply Hc; by rewrite Hf|]. eapply Forall_impl; [exact Hr|]. exact Hc. }
  split; [|apply forallb_iff]; eapply Forall_impl; try exact Hall; cbn; tauto.
Qed.

Lemma inbox_prefix_re agent_id : agent_id_re agent_id = true ->
  reply_prefix_re (inbox_prefix agent_id) = true.
Proof.
  intros (Hne & Hd & Hb)%agent_id_dotless. unfold reply_prefix_re, inbox_prefix.
  change (u "_INBOX.a2amesh." ++ agent_id ++ u ".")
    with (u "_INBOX" ++ 46%N :: u "a2amesh" ++ 46%N :: agent_id ++ [46%N]).
  rw !split_dots_app; try done; try by repeat constructor.
  cbn [split_dots]. by rewrite (bool_decide_eq_false_2 (agent_id = [])) // Hb.
Qed.

(** ** The prepared envelope *)
Section Client.
Context `{RFC8785} `{A2AProtobuf} `{IsoParser} `{RequestSchema} `{ResponseSchemas} `{NKeys}.
Import V1NatsClient.

Record client_ok (self : t) : Prop := {
  cl_agent : agent_id_re (caller_agent_id self) = true;
  cl_instance : safe_token_re (caller_instance_id self) = true;
  cl_config : 1 <= config_generation self <= 9007199254740991;
  cl_ttl : 1 <= auth_ttl_seconds self <= 900;
  cl_key : exists signer, nkey_public_key (key_pair self) = Ok signer
    /\ startswith signer (u "U") = true }.

Lemma client_init_ok self c : init self = Ok c <-> client_ok self /\ c = self.
Proof.
  unfold init. rewrite !bind_ok_unit !raise_if_ok !negb_false_iff bind_ok. split.
  - intros (Ha & Hi & Hg & Ht & key & Hk & [Hs%raise_if_ok%negb_false_iff [= <-]]%bind_ok_unit).
    split; [|done]. constructor; try done; [lia|lia|by exists key].
  - intros [[Ha Hi Hg Ht (key & Hk & Hs)] ->]. do 2 (split; [done|]). do 2 (split; [lia|]).
    exists key. split; [done|]. by rewrite Hs.
Qed.

(** until when the context of a request that is sent at [sent_at] is valid *)
Definition context_end (self : t) (sent_at timeout_us : Z) : Z :=
  Z.min (sent_at + auth_ttl_seconds self * 1000000) (sent_at + timeout_us).

Record prepared `{NatsRequestConnection} (self : t) (operation : Operation) (payload : Message)
    (target_agent_id request_id : pystr) (sent_at timeout_us : Z) (reply_subject : pystr)
    (signed : BindingRequestEnvelope.t) : Prop := {
  pr_unary : streaming operation = false;
  pr_timeout : 1000000 <= timeout_us;
  pr_target : agent_id_re target_agent_id = true;
  pr_inbox : new_inbox = Ok reply_subject;
  pr_reply : startswith reply_subject (inbox_prefix (caller_agent_id self)) = true;
  pr_signed : exists signer proof,
    let envelope := envelope_of self operation payload target_agent_id request_id reply_subject signer
      sent_at timeout_us in
    nkey_public_key (key_pair self) = Ok signer /\ envelope_ok envelope
    /\ sign_request_envelope envelope (key_pair self) = Ok signed
    /\ signed = reproved envelope proof }.

Lemma sign_reproves envelope key_pair signed : sign_request_envelope envelope key_pair = Ok signed ->
  exists proof, signed = reproved envelope proof.
Proof.
  unfold sign_request_envelope. intros (signer & _ & Hs)%bind_ok.
  apply bind_ok in Hs as (un & [_ ->]%with_proof_ok & Hs).
  apply bind_ok in Hs as (payload & _ & [_ ->]%with_proof_ok). rewrite reproved_twice. by eexists.
Qed.

Lemma prepare_ok `{NatsRequestConnection} self operation payload target_agent_id request_id sent_at
    timeout_us reply_subject signed :
  prepare self operation payload target_agent_id request_id sent_at timeout_us
    = Ok (reply_subject, signed) ->
  prepared self operation payload target_agent_id request_id sent_at timeout_us reply_subject signed.
Proof.
  unfold prepare. rewrite spec_streaming_streaming.
  intros [Hs%raise_if_ok Hr]%bind_ok_unit. apply bind_ok_unit in Hr as [Ht%raise_if_ok Hr].
  apply bind_ok_unit in Hr as [Ha%raise_if_ok%negb_false_iff Hr].
  apply bind_ok in Hr as (inbox & Hi & Hr). apply bind_ok_unit in Hr as [Hp%raise_if_ok%negb_false_iff Hr].
  apply bind_ok in Hr as (signer & Hk & Hr). apply bind_ok in Hr as (envelope & [He ->]%init_ok & Hr).
  apply bind_ok in Hr as (signed' & Hg & [= <- <-]).
  destruct (sign_reproves _ _ _ Hg) as [proof ->].
  constructor; try done; [lia|]. by exists signer, proof.
Qed.

(** the seconds of a prepared envelope never coincide *)
Lemma prepared_cut_ok `{NatsRequestConnection} self operation payload target_agent_id request_id
    sent_at timeout_us reply_subject signed : client_ok self ->
  prepared self operation payload target_agent_id request_id sent_at timeout_us reply_subject signed ->
  envelope_ok signed /\ envelope_ok (cut_envelope signed).
Proof.
  intros [_ _ _ Httl _] [_ Ht _ _ _ (signer & proof & _ & He & _ & ->)].
  apply (reproved_ok _ proof) in He. split; [done|]. apply cut_envelope_ok; [done|]. cbn.
  unfold second_of, instant, utc. cbn. rewrite !Z.sub_0_r.
  assert (forall d, 1000000 <= d -> sent_at / 1000000 <> (sent_at + d) / 1000000) as Hne.
  { intros d Hd.
    pose proof (Z.div_le_mono (sent_at + 1 * 1000000) (sent_at + d) 1000000) as Hle.
    rewrite Z.div_add in Hle; lia. }
  split; [by apply Hne|].
  destruct (Z.min_spec (sent_at + auth_ttl_seconds self * 1000000) (sent_at + timeout_us))
    as [[_ ->]|[_ ->]]; apply Hne; lia.
Qed.

(** what a server must have been told of the client and its key *)
Record knows `{RequestReplayGuard} (server : V1NatsServer.t) (self : t) (target_agent_id : pystr) : Prop := {
  kn_agent : V1NatsServer.agent_id server = target_agent_id;
  kn_config : V1NatsServer.active_config_generation server = config_generation self;
  kn_verifier : BindingAuthVerifier._clock_skew (V1NatsServer.auth server) = 30000000
    /\ BindingAuthVerifier._max_auth_lifetime (V1NatsServer.auth server) = 900000000;
  kn_policy : exists signer policy, nkey_public_key (key_pair self) = Ok signer
    /\ BindingAuthVerifier._signer_policies (V1NatsServer.auth server) !! signer = Some policy
    /\ principal_id self ∈ principal_ids policy /\ auth_method self ∈ methods policy
    /\ subject self ∈ subjects policy }.

(** the facts of the client's connection *)
Definition identity (self : t) (signer : pystr) : NatsCallerIdentity.t :=
  NatsCallerIdentity.make signer (caller_agent_id self) (caller_instance_id self)
    (inbox_prefix (caller_agent_id self)).

Lemma prepared_dated `{NatsRequestConnection} self operation payload target_agent_id request_id
    sent_at timeout_us reply_subject signed auth : client_ok self ->
  prepared self operation payload target_agent_id request_id sent_at timeout_us reply_subject signed ->
  BindingAuthVerifier._clock_skew auth = 30000000 ->
  BindingAuthVerifier._max_auth_lifetime auth = 900000000 ->
  dated auth (cut_envelope signed)
  /\ forall now, sent_at - 30000000 <= now < context_end self sent_at timeout_us + 29000000 ->
      current_for auth (cut_envelope signed) now.
Proof.
  intros [_ _ _ Httl _] [_ Ht _ _ _ (signer & proof & _ & _ & _ & ->)] Hskew Hlife.
  pose proof (Z.div_mod sent_at 1000000). pose proof (Z.mod_pos_bound sent_at 1000000).
  unfold context_end. set (until := Z.min _ _).
  assert (sent_at + 1000000 <= until <= sent_at + 900000000) as Huntil by (unfold until; lia).
  pose proof (Z.div_mod until 1000000). pose proof (Z.mod_pos_bound until 1000000).
  set (end_at := sent_at + timeout_us).
  assert (until <= end_at) as Hend by (unfold until, end_at; lia).
  pose proof (Z.div_mod end_at 1000000). pose proof (Z.mod_pos_bound end_at 1000000).
  split.
  - constructor; try done. unfold expires, issued. cbn. unfold cut. rewrite !instant_utc_second Hlife.
    unfold second_of, instant, utc. cbn. rewrite !Z.sub_0_r. fold end_at until. lia.
  - intros now Hnow. unfold current_for, expires, issued, sent, deadline. cbn. unfold cut.
    rewrite !instant_utc_second Hskew. unfold second_of, instant, utc. cbn. rewrite !Z.sub_0_r.
    fold end_at until. lia.
Qed.

Lemma prepared_authentic `{NatsRequestConnection} `{RequestReplayGuard} `{!Deployment} server self operation
    payload target_agent_id request_id sent_at timeout_us reply_subject signed signer message :
  client_ok self ->
  prepared self operation payload target_agent_id request_id sent_at timeout_us reply_subject signed ->
  knows server self target_agent_id -> key_pair_ok (key_pair self) signer ->
  is_ok (BindingRequestEnvelope.to_dict signed) = true ->
  message.(Transport.subject) = RPC_SUBJECT_PREFIX ++ target_agent_id ->
  authentic (V1NatsServer.auth server) (cut_envelope signed)
    (expectation server message (identity self signer)).
Proof.
  intros Hc Hp [Hka Hkc [Hskew Hlife] (signer1 & policy & Hk1 & Hpol & Hin1 & Hin2 & Hin3)] Hkp Hd Hsub.
  destruct (prepared_dated _ _ _ _ _ _ _ _ _ _ Hc Hp Hskew Hlife) as [Hdated _].
  destruct Hc as [Hagent _ _ _ (signer2 & Hk2 & Hu)].
  destruct Hp as [_ _ _ _ Hreply (signer3 & proof & Hk3 & He & Hsign & Hs)].
  pose proof (kp_public _ _ Hkp) as Hk.
  assert (signer1 = signer) as -> by congruence. assert (signer2 = signer) as -> by congruence.
  assert (signer3 = signer) as -> by congruence.
  destruct (sign_request_proof _ _ _ _ Hkp Hsign) as (Hsigner & Halg & Hver).
  constructor; [| |done|].
  - constructor; cbn; rewrite ?Hsigner; try done.
    + exists policy. subst signed. done.
    + by apply startswith_true.
  - subst signed. constructor; cbn; try done.
    + by rewrite Hsub /V1NatsServer.subject Hka.
    + by apply inbox_prefix_re.
    + by apply startswith_true.
  - apply check_signature_ok. rewrite check_signature_cut. by apply Hver.
Qed.
End Client.
