(* ===== verification/WireEnvelopes.v ===== *)
(** * Envelopes and responses on the wire

    [json.loads] of the bytes of [json.dumps] is the value with the members of its
    objects sorted, for the values of I-JSON: [json_dumps] writes what the
    reference serialiser writes for the sorted value.  From it follows what the
    transport's two sides read of the bytes the other one sent. *)
From S2P Require Import Prelude PyStr Json JsonFacts Rfc8785Reference Contract Identity Stream JsonBytes Operations.
From S2P Require Import Envelope EnvelopeFacts StreamControl Response.
Import EnvelopeFacts.Requests.
Local Open Scope list_scope.

Section Bytes.
Local Open Scope N_scope.

(** ** Sorted members *)

(** the value with the members of its objects in the order [json.dumps] writes them *)
Fixpoint wire (v : json) : json :=
  match v with
  | JArr l => JArr (map wire l)
  | JObj kvs => JObj (sort_keys (map (fun '(k, x) => (k, wire x)) kvs))
  | _ => v
  end.
Definition wire_dict (d : dict) : dict := sort_keys (map (fun '(k, x) => (k, wire x)) d).

Lemma insert_sorted_map {A B} (f : A -> B) k x (l : list (pystr * A)) :
  insert_sorted (k, f x) (map (fun '(k, x) => (k, f x)) l)
  = map (fun '(k, x) => (k, f x)) (insert_sorted (k, x) l).
Proof.
  induction l as [|[k' x'] l IH]; [done|]. cbn. destruct (bytes_leb k k'); [done|]. cbn. by rewrite IH.
Qed.

Lemma sort_keys_map {A B} (f : A -> B) (l : list (pystr * A)) :
  sort_keys (map (fun '(k, x) => (k, f x)) l) = map (fun '(k, x) => (k, f x)) (sort_keys l).
Proof.
  unfold sort_keys. induction l as [|[k x] l IH]; [done|]. cbn. by rewrite IH insert_sorted_map.
Qed.

Lemma insert_sorted_perm {A} (kv : pystr * A) l : insert_sorted kv l ≡ₚ kv :: l.
Proof.
  induction l as [|kv' l IH]; [done|]. cbn. destruct (bytes_leb _ _); [done|]. rewrite IH. constructor.
Qed.

Lemma sort_keys_perm {A} (l : list (pystr * A)) : sort_keys l ≡ₚ l.
Proof. unfold sort_keys. induction l as [|a l IH]; [done|]. cbn. by rewrite insert_sorted_perm IH. Qed.

Lemma escape_char_same c : JsonBytes.escape_char c = Rfc8785Reference.escape_char c.
Proof.
  unfold JsonBytes.escape_char, Rfc8785Reference.escape_char. repeat case_match; try done; lia.
Qed.

Lemma dump_string_quote s : dump_string s = quote s.
Proof.
  unfold dump_string, quote. cbn. do 2 f_equal. induction s as [|c s IH]; [done|]. cbn.
  by rewrite escape_char_same IH.
Qed.

Lemma json_dumps_wire v : json_dumps v = serialize (wire v).
Proof.
  induction v as [|b|z|lit|s|l IH|kvs IH] using json_nested_ind; try done.
  - apply dump_string_quote.
  - cbn. do 2 f_equal. f_equal. rewrite map_map. by apply map_ext_Forall.
  - cbn [json_dumps wire serialize]. rewrite !sort_keys_map !map_map.
    apply (f_equal (fun j => 123 :: join_sep 44 j ++ [125])).
    assert (Forall (fun kv => json_dumps kv.2 = serialize (wire kv.2)) (sort_keys kvs)) as IH'
      by by rewrite sort_keys_perm.
    apply map_ext_Forall. eapply Forall_impl; [exact IH'|]. intros [k x] Hx. cbn [snd] in Hx.
    by rewrite dump_string_quote Hx.
Qed.

Lemma ijson_wire v : ijson (wire v) = ijson v.
Proof.
  induction v as [|b|z|lit|s|l IH|kvs IH] using json_nested_ind; try done.
  - cbn. induction IH as [|v l Hv _ IH]; [done|]. cbn. by rewrite Hv IH.
  - cbn [wire]. rewrite !ijson_obj. f_equal.
    + erewrite NoDup_perm_bool; [|apply Permutation_map, sort_keys_perm].
      rewrite map_map. assert (map (fun kv : pystr * json => (let '(k, x) := kv in (k, wire x)).1) kvs
        = map fst kvs) as -> by (apply map_ext; by intros []). done.
    + rewrite (forallb_perm _ _ _ (sort_keys_perm _)).
      induction IH as [|[k x] kvs Hx _ IH]; [done|]. cbn. unfold ijson_member at 1 3. cbn in *.
      by rewrite Hx IH.
Qed.

(** ** Decoding *)
Lemma utf8_pass b : forall s, decode_utf8 b = Ok s -> decode_utf8_pass b = Ok s.
Proof.
  induction b as [b IH] using (induction_ltof1 _ (@length N)). unfold ltof in IH. intros s.
  assert (forall r g, (length r < length b)%nat -> (t ← decode_utf8 r; Ok (g t)) = Ok s ->
    (t ← decode_utf8_pass r; Ok (g t)) = Ok s) as Hrec.
  { intros r g Hr (t & Ht & Hg)%bind_ok. by rewrite (IH r Hr t Ht). }
  destruct b as [|b0 r0]; [done|]. cbn [decode_utf8 decode_utf8_pass].
  destruct (b0 <? 0x80); [apply Hrec; cbn; lia|]. destruct (b0 <? 0xC2); [done|].
  destruct r0 as [|b1 r1]; [done|]. destruct (negb (is_cont b1)); [done|].
  destruct (b0 <? 0xE0); [apply Hrec; cbn; lia|].
  destruct r1 as [|b2 r2]; [done|]. destruct (negb (is_cont b2)); [done|]. cbv zeta.
  destruct (b0 <? 0xF0).
  - destruct (0x800 <=? _); [|done]. cbn [andb]. destruct (is_scalar _); [|done]. apply Hrec. cbn. lia.
  - destruct r2 as [|b3 r3]; [done|]. destruct (is_cont b3 && _ && _); [|done]. cbn [andb].
    destruct (is_scalar _) eqn:Hc; [|done].
    assert (forall c, is_scalar c = true -> code_point c = true) as Hp
      by (unfold is_scalar, code_point; intros; lia).
    rewrite (Hp _ Hc). apply Hrec. cbn. lia.
Qed.

(** a text that starts with a brace and an ASCII character other than NUL is taken for UTF-8 *)
Lemma decode_json_utf8 c s b : 0 < c < 128 ->
  encode_utf8 (123 :: c :: s) = Ok b -> decode_json b = Ok (123 :: c :: s).
Proof.
  intros Hc Hb. pose proof (utf8_pass _ _ (decode_encode_utf8 _ _ Hb)) as Hp. rewrite <- Hp. clear Hp.
  change (123 :: c :: s) with ([123; c] ++ s) in Hb. rewrite encode_utf8_app in Hb.
  rewrite (encode_utf8_ascii [123; c]) in Hb; [|repeat constructor; lia].
  cbn [mbind result_bind] in Hb. apply bind_ok in Hb as (b' & _ & Hb). apply Ok_inj_iff in Hb as <-. cbn [app].
  destruct b' as [|b2 [|b3 b']]; cbn [decode_json nonzero nth_error N.eqb Pos.eqb negb].
  - by rewrite (proj2 (N.eqb_neq c 0)); [|lia].
  - done.
  - by rewrite (proj2 (N.eqb_neq c 0)); [|lia].
Qed.

Lemma wire_dict_head d : exists c s, serialize (JObj d) = 123 :: c :: s /\ (c = 34 \/ c = 125).
Proof.
  cbn [serialize]. destruct d as [|[k x] d]; [by eexists _, _; split; [reflexivity|right]|].
  destruct d; cbn [map join_sep]; unfold quote; eexists 34, _; (split; [reflexivity|by left]).
Qed.

Lemma unique_object_nodup pairs : NoDup (map fst pairs) -> _unique_object pairs = Ok pairs.
Proof.
  unfold _unique_object. intros Hnd.
  enough (forall l acc, NoDup (map fst (acc ++ l)) -> unique_object_go acc l = Ok (acc ++ l)) as H
    by by apply (H pairs []).
  clear. induction l as [|[k x] l IH]; intros acc Hnd; cbn [unique_object_go]; [by rewrite app_nil_r|].
  assert (existsb (fun kv : pystr * json => bool_decide (kv.1 = k)) acc = false) as ->.
  { apply existsb_false_iff, Forall_forall. intros kv Hkv. apply bool_decide_eq_false. intros <-.
    rewrite map_app in Hnd. apply NoDup_app in Hnd as (_ & Hno & _).
    apply (Hno kv.1); [by apply list_elem_of_fmap_2|]. cbn. left. }
  rewrite IH; [by rewrite -app_assoc|]. by rewrite -app_assoc.
Qed.

(** an object is read back with its members sorted *)
Lemma decode_to_bytes d b e1 e2 : ijson (JObj d) = true -> to_bytes (JObj d) = Ok b ->
  decode_object b e1 e2 = Ok (wire_dict d).
Proof.
  intros Hd. unfold to_bytes. rewrite json_dumps_wire.
  change (wire (JObj d)) with (JObj (wire_dict d)). intros Hb.
  unfold decode_object, json_loads_bytes. destruct (wire_dict_head (wire_dict d)) as (c & s & E & Hc).
  assert (decode_json b = Ok (serialize (JObj (wire_dict d)))) as ->.
  { rewrite E in Hb |- *. by apply decode_json_utf8; [lia|]. }
  cbn [mbind result_bind]. rewrite loads_serialize; [done|apply unique_object_nodup| |apply depth_serialize].
  change (JObj (wire_dict d)) with (wire (JObj d)). by rewrite ijson_wire.
Qed.

(** the values of I-JSON can be written *)
Lemma to_bytes_ok d : ijson (JObj d) = true -> exists b, to_bytes (JObj d) = Ok b.
Proof.
  intros Hd. unfold to_bytes. rewrite json_dumps_wire. apply encode_utf8_ok, forallb_iff.
  change (scalar_str (serialize (wire (JObj d))) = true). apply scalar_serialize. by rewrite ijson_wire.
Qed.
End Bytes.

Local Open Scope Z_scope.
Local Open Scope py_scope.

(** ** Members of a sorted object *)
Lemma dict_get_perm {A} (k : pystr) (l l' : list (pystr * A)) : l ≡ₚ l' -> NoDup (map fst l) ->
  dict_get k l = dict_get k l'.
Proof.
  induction 1 as [|[k1 v1] l l' Hp IH|[k1 v1] [k2 v2] l|l l1 l2 Hp1 IH1 Hp2 IH2]; intros Hnd; [done| | |].
  - cbn in Hnd |- *. apply NoDup_cons in Hnd as [_ Hnd]. by rewrite IH.
  - cbn. cbn in Hnd. apply NoDup_cons in Hnd as [Hne _]. repeat case_bool_decide; try done. subst.
    exfalso. apply Hne. left.
  - rewrite IH1; [|done]. apply IH2. by rewrite -(Permutation_map fst Hp1).
Qed.

Lemma dict_get_wire d k : NoDup (map fst d) -> dict_get k (wire_dict d) = wire <$> dict_get k d.
Proof.
  intros Hnd. unfold wire_dict. rewrite sort_keys_map.
  assert (forall l : dict, dict_get k (map (fun '(k, x) => (k, wire x)) l) = wire <$> dict_get k l) as Hm.
  { induction l as [|[k' x] l IH]; [done|]. cbn. by case_bool_decide. }
  rewrite Hm. f_equal. symmetry. apply dict_get_perm; [by rewrite sort_keys_perm|done].
Qed.

Section Members.
Context (d : dict) (Hd : NoDup (map fst d)).

Lemma item_wire key : item (wire_dict d) key = wire <$> item d key.
Proof. unfold item. rewrite (dict_get_wire _ _ Hd). by destruct (dict_get _ _). Qed.

Lemma text_at_wire key : text_at (wire_dict d) key = text_at d key.
Proof. unfold text_at. rewrite item_wire. by destruct (item d key) as [[]|]. Qed.

Lemma optional_text_at_wire key : optional_text_at (wire_dict d) key = optional_text_at d key.
Proof. unfold optional_text_at. rewrite item_wire. by destruct (item d key) as [[]|]. Qed.

Lemma int_at_wire key : int_at (wire_dict d) key = int_at d key.
Proof. unfold int_at. rewrite item_wire. by destruct (item d key) as [[]|]. Qed.

Lemma bool_at_wire key : bool_at (wire_dict d) key = bool_at d key.
Proof. unfold bool_at. rewrite item_wire. by destruct (item d key) as [[]|]. Qed.

Lemma dict_item_at_wire key : dict_item_at (wire_dict d) key = wire_dict <$> dict_item_at d key.
Proof. unfold dict_item_at. rewrite item_wire. by destruct (item d key) as [[]|]. Qed.
End Members.

(** distinct literal keys *)
Ltac keys_differ := apply (bool_decide_unpack _); vm_compute; exact I.

(** ** Requests *)
Section Requests.
Context `{A2AProtobuf} `{IsoParser} `{RequestSchema}.
Import BindingRequestEnvelope.

(** [ParseDict] reads back what [MessageToDict] writes, sorted *)
Definition payload_wire_reads (t : message_type) (message : Message) : Prop :=
  forall d, message_to_dict message = Ok d ->
    parse_dict t (map (fun '(k, v) => (JStr k, v)) (wire_dict d)) = Ok message.

(** an envelope whose bytes are in I-JSON, that the schema accepts in the order of the wire, and
    whose texts the parsers read back *)
Record wire_ready (self : t) (d : dict) : Prop := {
  wr_dict : to_dict self = Ok d;
  wr_ijson : ijson (JObj d) = true;
  wr_schema : request_violation (wire_dict d) = None;
  wr_times : Forall iso_reads (timestamps self);
  wr_payload : payload_wire_reads (OPERATION_SPECS (operation self)).(request_type) (payload self) }.

Lemma from_dict_wire self d : wire_ready self d -> from_dict (wire_dict d) = init (cut_envelope self).
Proof.
  intros [(p & Hp & -> & _)%to_dict_ok _ Hv Ht Hread]. specialize (Hread p Hp).
  apply Forall_cons in Ht as [Hi Ht]. apply Forall_cons in Ht as [He Ht].
  apply Forall_cons in Ht as [Hs Ht]. apply Forall_cons in Ht as [Hd _].
  apply parse_format in Hi, He, Hs, Hd.
  set (d := members self (proof_dict (auth_proof self)) p) in *.
  assert (NoDup (map fst d)) as Hnd by keys_differ.
  assert (NoDup (map fst (BindingAuthContext.to_dict (auth_context self)))) as Hnc by keys_differ.
  assert (NoDup (map fst (proof_dict (auth_proof self)))) as Hnp by keys_differ.
  unfold from_dict, _validate_schema. rewrite Hv (item_wire _ Hnd) (item_wire _ Hnd). cbn [mbind result_bind].
  change (item d "operation") with (Ok (JStr (u (operation_name (operation self))))).
  change (item d "payload") with (Ok (JObj p)). cbn [fmap result_fmap wire mbind result_bind].
  rewrite parse_operation_name. cbn [mbind result_bind dict_of_value]. fold (wire_dict p). rewrite Hread.
  cbn [mbind result_bind except].
  rewrite !(dict_item_at_wire _ Hnd).
  change (dict_item_at d "authContext") with (Ok (BindingAuthContext.to_dict (auth_context self))).
  change (dict_item_at d "authProof") with (Ok (proof_dict (auth_proof self))).
  cbn [fmap result_fmap mbind result_bind].
  rewrite !(text_at_wire _ Hnd) (optional_text_at_wire _ Hnd) (int_at_wire _ Hnd).
  rewrite !(text_at_wire _ Hnc) !(text_at_wire _ Hnp).
  assert (optional_text_at d "streamOpenId" = Ok (stream_open_id self)) as stream_at.
  { unfold d, members. by destruct (stream_open_id self). }
  repeat (erewrite bind_eq; [|first [reflexivity | exact stream_at | erewrite bind_eq; [|reflexivity]; eassumption]]).
  unfold cut_envelope, cut_context. by destruct (auth_proof self).
Qed.

(** what is sent is read as the envelope with its timestamps cut *)
Lemma envelope_wire self d b : wire_ready self d -> to_json_bytes self = Ok b ->
  from_json_bytes b = init (cut_envelope self).
Proof.
  intros Hw. unfold to_json_bytes. rewrite (wr_dict _ _ Hw). intros Hb.
  unfold from_json_bytes. rewrite (decode_to_bytes d b _ _ (wr_ijson _ _ Hw) Hb). by apply from_dict_wire.
Qed.
End Requests.

(** ** Responses *)
Section Responses.
Context `{A2AProtobuf} `{ResponseSchemas}.
Import BindingResponseEnvelope.

(** a response whose bytes are in I-JSON, that the schema accepts in the order of the wire, and
    whose payload the parser reads back *)
Record response_wire_ready (self : t) (d : dict) : Prop := {
  rw_valid : post_init self = Ok tt;
  rw_error : forall e, error self = Some e -> BindingError.post_init e = Ok tt;
  rw_dict : to_dict self = Ok d;
  rw_ijson : ijson (JObj d) = true;
  rw_schema : response_violation (wire_dict d) = None;
  rw_payload : forall m, payload self = Some m ->
    payload_wire_reads (OPERATION_SPECS (operation self)).(response_type) m }.

(** the keys of a response's dict, with the key of its outcome *)
Lemma response_keys self d : to_dict self = Ok d -> NoDup (map fst d) /\ exists outcome,
  d = [(u "bindingUri", JStr BINDING_URI); (u "bindingSchemaVersion", JStr BINDING_SCHEMA_VERSION);
       (u "a2aProtocolVersion", JStr A2A_PROTOCOL_VERSION); (u "requestId", JStr (request_id self));
       (u "configGeneration", JInt (config_generation self)); (u "sequence", JInt 1);
       (u "final", JBool true)] ++ [outcome]
  /\ match payload self with
     | Some m => exists p, message_to_dict m = Ok p /\ outcome = (u "payload", JObj p)
     | None => outcome = (u "error", match error self with
                                     | Some error => JObj (BindingError.to_dict error)
                                     | None => JNull
                                     end)
     end.
Proof.
  unfold to_dict. cbv zeta. intros (data & Hdata & [_ <-%Ok_inj_iff]%bind_ok_unit)%bind_ok.
  destruct (payload self) as [m|].
  - apply bind_ok in Hdata as (p & Hp & <-%Ok_inj_iff). split; [keys_differ|].
    eexists. split; [reflexivity|]. by exists p.
  - apply Ok_inj_iff in Hdata as <-. split; [keys_differ|]. by eexists.
Qed.

Lemma response_from_dict_wire self d : response_wire_ready self d ->
  from_dict (wire_dict d) (operation self) = Ok self.
Proof.
  intros [Hok Herr Hd _ Hv Hread]. destruct (response_keys self d Hd) as (Hnd & outcome & Ed & Ho).
  assert (init self = Ok self) as Hinit by (unfold init; by rewrite Hok).
  unfold from_dict, _validate_response_schema. rewrite Hv (dict_get_wire _ _ Hnd).
  rewrite (int_at_wire _ Hnd) (text_at_wire _ Hnd) (dict_item_at_wire _ Hnd) (item_wire _ Hnd).
  unfold post_init in Hok. cbv zeta in Hok. apply bind_ok_unit in Hok as [_ Hok].
  apply bind_ok_unit in Hok as [_ Hok]. apply bind_ok_unit in Hok as [Hx%raise_if_ok Hok].
  destruct self as [o id g p er]. cbn [operation request_id config_generation payload error] in *.
  destruct p as [m|], er as [e|]; try done.
  - destruct Ho as (p & Hp & ->). subst d. specialize (Hread m eq_refl p Hp).
    apply bind_ok_unit in Hok as [Hs%raise_if_ok _]. cbn [mbind result_bind].
    change (dict_get (u "error") _) with (@None json). cbn [fmap option_fmap option_map].
    rewrite Hs. cbn [raise_if mbind result_bind].
    erewrite bind_eq; [|apply except_ok; erewrite bind_eq; [|reflexivity]; exact Hread].
    do 2 (erewrite bind_eq; [|reflexivity]). exact Hinit.
  - subst outcome d. specialize (Herr e eq_refl). destruct e as [ty msg retry].
    assert (NoDup (map fst (BindingError.to_dict (BindingError.make ty msg retry)))) as Hne by keys_differ.
    cbn [mbind result_bind].
    change (dict_get (u "error") _) with (Some (JObj (BindingError.to_dict (BindingError.make ty msg retry)))).
    cbn [fmap option_fmap option_map].
    erewrite bind_eq; [|reflexivity]. do 2 (erewrite bind_eq; [|reflexivity]).
    rewrite !(text_at_wire _ Hne) (bool_at_wire _ Hne). do 3 (erewrite bind_eq; [|reflexivity]).
    unfold BindingError.init. cbv zeta. by rewrite Herr.
Qed.

(** a response with a payload carries the message of its operation's response type *)
Lemma response_payload_type o id g m : post_init (make o id g (Some m) None) = Ok tt ->
  isinstance m (OPERATION_SPECS o).(response_type) = true.
Proof.
  unfold post_init. cbv zeta. cbn -[safe_token_re]. intros [_ Hr]%bind_ok_unit.
  apply bind_ok_unit in Hr as [_ Hr]. by apply bind_ok_unit in Hr as [_ Hr%raise_if_ok%negb_false_iff].
Qed.

Lemma response_wire self d b : response_wire_ready self d -> to_json_bytes self = Ok b ->
  from_json_bytes b (operation self) = Ok self.
Proof.
  intros Hw. unfold to_json_bytes. rewrite (rw_dict _ _ Hw). intros Hb.
  unfold from_json_bytes. rewrite (decode_to_bytes d b _ _ (rw_ijson _ _ Hw) Hb).
  by apply response_from_dict_wire.
Qed.
End Responses.
