(* ===== verification/TransportTheorems.v ===== *)
(** * Theorems on unary calls over NATS

    Which messages reach a handler, and how often; what the server replies; and a
    call from a client to a server and back. *)
From S2P Require Import Prelude PyStr Json JsonFacts Rfc8785Reference Contract Identity IdentityFacts Stream JsonBytes.
From S2P Require Import Operations Envelope BindingAuth EnvelopeFacts BindingFacts SigningFacts BindingTheorems Response.
From S2P Require Import Transport TransportFacts WireEnvelopes.
Import EnvelopeFacts.Requests.
Local Open Scope string_scope.
Local Open Scope list_scope.
Local Open Scope Z_scope.
Local Open Scope py_scope.

(** ** The server *)
Section Server.
Context `{RFC8785} `{A2AProtobuf} `{IsoParser} `{RequestSchema} `{ResponseSchemas} `{NKeys}.
Context `{RefusingGuard} `{!Deployment}.
Import V1NatsServer.

(** C12: a message calls a handler exactly when it decodes to an envelope for a unary operation whose
    reply subject it carries, the resolver knows its caller, the request is authentic for that
    caller and current, the guard grants its claim, and the application has the handler of its
    operation; that handler is then called on the request's payload, with the authenticated
    principal, the request's identifier, this agent and the active configuration as context.  And
    with a guard that refuses what it granted until the instant it was given, whatever messages
    arrive, a second call for the same principal and request identifier comes only after the guard's
    clock has passed the earlier of the context's end and the deadline of the first. *)
Theorem served_once agent_id app resolver policies has_guard generation self :
  init agent_id app resolver policies has_guard generation = Ok self ->
  (forall guard message now guard_now c,
     (_handle self guard message now guard_now).1.2 = Some c <->
     exists envelope, served self guard message now guard_now envelope /\ c = call_of self envelope)
  /\ (forall guard arrivals i j a envelope c c' sent sent', (i < j)%nat ->
     arrivals !! i = Some a ->
     BindingRequestEnvelope.from_json_bytes (data (a_message a)) = Ok envelope ->
     handle_all self guard arrivals !! i = Some (Some c, sent) ->
     handle_all self guard arrivals !! j = Some (Some c', sent') ->
     call_key self c' = call_key self c ->
     exists k b, (i < k <= j)%nat /\ arrivals !! k = Some b
       /\ Z.min (expires (H0 := request_envelope_signed) envelope)
            (deadline (H0 := request_envelope_signed) envelope) < a_guard_now b).
Proof.
  intros Hs%server_init_ok. split; [intros; by apply handle_called|].
  intros guard arrivals i. revert guard arrivals.
  induction i as [|i IH]; intros guard arrivals j a envelope c c' sent sent' Hij Ha Hd Hi Hj Hk;
    destruct arrivals as [|a0 arrivals]; try done; destruct j as [|j]; try lia; cbn [handle_all] in Hi, Hj.
  - cbn in Ha. injection Ha as ->.
    pose proof (fun c => handle_called self guard (a_message a) (a_now a) (a_guard_now a) c Hs) as Hc.
    pose proof (fun e => handle_claims self guard (a_message a) (a_now a) (a_guard_now a) e Hs) as Hcl.
    destruct (_handle self guard (a_message a) (a_now a) (a_guard_now a)) as [[g called] s].
    cbn in Hi, Hj, Hc, Hcl. injection Hi as -> ->.
    destruct (proj1 (Hc c) eq_refl) as (env & Hsv & ->). specialize (Hcl env Hsv).
    pose proof (sv_decoded _ _ _ _ _ _ Hsv) as Hd'. rewrite Hd in Hd'. injection Hd' as <-.
    destruct (handle_all_keeps self arrivals g _ _ j c' sent' Hs Hcl Hj Hk) as (k & b & Hkj & Hb & Hlt).
    exists (S k), b. split; [lia|]. by split.
  - destruct (_handle self guard (a_message a0) (a_now a0) (a_guard_now a0)) as [[g called] s].
    cbn in Ha, Hi, Hj.
    destruct (IH g arrivals j a envelope c c' sent sent') as (k & b & Hkj & Hb & Hlt); try done; [lia|].
    exists (S k), b. split; [lia|]. by split.
Qed.

(** C24: what the server replies.  Everything it hands to a message's [respond] is the bytes of a
    response to the request the message carries, under the request's identifier and the active
    configuration, and only when the message's reply subject is the signed one.  A first reply
    without an error carries what the handler returned for the request's payload; a second reply is made only when
    the first one could not be sent, and there is never a third.  A decoded message with the
    signed reply subject is left without a reply exactly when the reply to what went wrong cannot
    be built, which is the case for an exception whose text is empty or longer than 4096. *)
Theorem server_replies self guard message now guard_now :
  let '(_, called, sent) := _handle self guard message now guard_now in
  (forall payload, payload ∈ sent -> exists envelope r,
     BindingRequestEnvelope.from_json_bytes message.(data) = Ok envelope
     /\ message.(reply) = Some (BindingRequestEnvelope.reply_subject envelope)
     /\ reply_of self envelope r /\ BindingResponseEnvelope.to_json_bytes r = Ok payload)
  /\ (length sent <= 2)%nat
  /\ (forall first second, sent = [first; second] -> exists e, respond message first = Err e)
  /\ (forall envelope, BindingRequestEnvelope.from_json_bytes message.(data) = Ok envelope ->
      message.(reply) = Some (BindingRequestEnvelope.reply_subject envelope) ->
      let answered := (answer self guard message envelope now guard_now).2
        ≫= BindingResponseEnvelope.to_json_bytes in
      (sent = [] <-> exists e, answered = Err e /\ is_ok (error_bytes self envelope (error_reply e)) = false)
      /\ (forall payload, answered = Ok payload -> head sent = Some payload
          /\ exists r name context result call,
            BindingResponseEnvelope.to_json_bytes r = Ok payload
            /\ BindingResponseEnvelope.error r = None
            /\ BindingResponseEnvelope.payload r = Some result
            /\ called = Some (name, BindingRequestEnvelope.payload envelope, context)
            /\ application name = Some (Handler call)
            /\ call (BindingRequestEnvelope.payload envelope) context = Ok result))
  /\ (forall envelope e, text e = [] \/ 4096 < Z.of_nat (length (text e)) ->
      (error_reply e).2 = false -> is_ok (error_bytes self envelope (error_reply e)) = false).
Proof.
  pose proof (fun envelope e payload Hp => respond_error_reply self message envelope e payload Hp) as Herr.
  pose proof (respond_error_cases self message) as Hcases. unfold _handle.
  destruct (BindingRequestEnvelope.from_json_bytes message.(data)) as [envelope|x] eqn:Ed.
  2: { cbn. repeat split; [by intros ? ?%elem_of_nil|lia|done..|]. apply error_bytes_length. }
  pose proof (answer_reply self guard message envelope now guard_now) as Hans.
  destruct (answer self guard message envelope now guard_now) as [[g called] response] eqn:Ea.
  cbn [fst snd] in Hans |- *. destruct (response ≫= _) as [payload|e] eqn:Er.
  - apply bind_ok in Er as (r & -> & Hb).
    destruct (Hans r eq_refl) as (Hrep & Hne & Hreply & name & context & result & call & -> & Happ & Hcall & Hp).
    assert (exists rest, (match respond message payload with
      | Ok _ => []
      | Err e => _respond_error self message (Some envelope) (error_reply e)
      end) = rest /\ (length rest <= 1)%nat /\ (rest <> [] -> exists e, respond message payload = Err e)
      /\ forall p, p ∈ rest -> exists e, p ∈ _respond_error self message (Some envelope) (error_reply e))
      as (rest & -> & Hlen & Hfail & Hin).
    { eexists. split; [reflexivity|]. destruct (respond message payload) as [[]|e];
        [split; [cbn; lia|]; split; [done|by intros ? ?%elem_of_nil]|].
      split; [|split; [by exists e|by exists e]].
      destruct (Hcases (Some envelope) (error_reply e)) as [[p ->]| ->]; cbn; lia. }
    split; [|split; [cbn; lia|]]; [|split; [|split]].
    + intros p [->|Hp']%elem_of_cons; [by exists envelope, r|]. destruct (Hin p Hp') as [e He].
      destruct (Herr _ _ _ He) as (_ & r' & ? & ?). by exists envelope, r'.
    + intros first second [= <- ->]. by apply Hfail.
    + intros envelope' [= <-] _. split; [split; [done|]|].
      * intros (e & He & _). rewrite Ea in He. cbn in He. by rewrite Hb in He.
      * rewrite Ea. cbn. rewrite Hb. intros p [= <-]. split; [done|]. by exists r, name, context, result, call.
    + apply error_bytes_length.
  - split; [|split; [|split; [|split]]].
    + intros p Hp. destruct (Herr _ _ _ Hp) as (? & r & ? & ?). by exists envelope, r.
    + destruct (Hcases (Some envelope) (error_reply e)) as [[p ->]| ->]; cbn; lia.
    + intros first second. by destruct (Hcases (Some envelope) (error_reply e)) as [[p ->]| ->].
    + intros envelope' [= <-] Hreply. rewrite Ea. cbn [snd]. rewrite Er. split; [|done].
      unfold _respond_error. rewrite Hreply bool_decide_eq_true_2; [|done]. cbn [negb]. split.
      * intros Hnil. exists e. split; [done|]. by destruct (error_bytes _ _ _).
      * intros (e' & [= <-] & Hno). by destruct (error_bytes _ _ _).
    + apply error_bytes_length.
Qed.
End Server.

(** ** A call and its reply *)
Section Call.
Context `{RFC8785} `{A2AProtobuf} `{IsoParser} `{RequestSchema} `{ResponseSchemas} `{NKeys}.
Context `{RequestReplayGuard} `{!Deployment} `{!NatsRequestConnection}.

(** A client and a server that are set up for each other and for one call: the client's envelope can
    be written and read, the server knows the client, its guard has no claim of the request, its
    clock agrees with the client's to within half a minute, and its application answers. *)
Record call_setup (client : V1NatsClient.t) (server : V1NatsServer.t) (guard : Guard) (now : datetime)
    (guard_now : Z) (operation : Operation) (payload : Message) (target_agent_id request_id : pystr)
    (sent_at timeout_us : Z) (reply_subject : pystr) (signed : BindingRequestEnvelope.t)
    (result : Message) : Prop := {
  cs_client : V1NatsClient.init client = Ok client;
  cs_server : server_ok server;
  cs_prepare : V1NatsClient.prepare client operation payload target_agent_id request_id sent_at timeout_us
    = Ok (reply_subject, signed);
  cs_knows : knows server client target_agent_id;
  cs_keys : exists signer, key_pair_ok (V1NatsClient.key_pair client) signer
    /\ forall message, resolve message (cut_envelope signed) = Ok (Some (identity client signer));
  cs_request : exists d, wire_ready signed d;
  cs_clock : aware now = true /\ sent_at - 30000000 <= instant now
    < context_end client sent_at timeout_us + 29000000;
  cs_claim : (claim guard (BindingAuthVerifier.claim_of (H0 := request_envelope_signed)
    (cut_envelope signed)) guard_now).2 = Ok true;
  cs_principal : principal_re (V1NatsClient.principal_id client) = true;
  cs_handler : exists call, application (handler_name (OPERATION_SPECS operation)) = Some (Handler call)
    /\ call payload (request_context server (cut_envelope signed)) = Ok result;
  cs_response : exists d, response_wire_ready (BindingResponseEnvelope.make operation request_id
    (V1NatsServer.active_config_generation server) (Some result) None) d;
  cs_respond : forall message bytes, respond message bytes = Ok tt;
  (** the connection carries the request to the server and its first reply back *)
  cs_connection : subscribe reply_subject = Ok tt /\ unsubscribe = Ok tt
    /\ forall subject bytes reply timeout_us,
      exchange subject bytes reply timeout_us =
      match (V1NatsServer._handle server guard {| data := bytes; Transport.subject := subject;
               Transport.reply := Some reply |} now guard_now).2 with
      | answer :: _ => Ok {| data := answer; Transport.subject := reply; Transport.reply := None |}
      | [] => Err TimeoutError
      end }.

Section Setup.
Context (client : V1NatsClient.t) (server : V1NatsServer.t) (guard : Guard) (now : datetime) (guard_now : Z).
Context (operation : Operation) (payload : Message) (target_agent_id request_id : pystr).
Context (sent_at timeout_us : Z) (reply_subject : pystr) (signed : BindingRequestEnvelope.t) (result : Message).
Context (Hsetup : call_setup client server guard now guard_now operation payload target_agent_id request_id
  sent_at timeout_us reply_subject signed result).

Lemma setup_prepared : client_ok client /\ prepared client operation payload target_agent_id request_id
  sent_at timeout_us reply_subject signed.
Proof.
  split; [by destruct (proj1 (client_init_ok client client) (cs_client _ _ _ _ _ _ _ _ _ _ _ _ _ _ Hsetup))|].
  apply prepare_ok, Hsetup.
Qed.

(** the fields of the envelope a setup prepares *)
Lemma setup_fields : BindingRequestEnvelope.operation signed = operation
  /\ BindingRequestEnvelope.payload signed = payload /\ BindingRequestEnvelope.request_id signed = request_id
  /\ BindingRequestEnvelope.reply_subject signed = reply_subject
  /\ BindingRequestEnvelope.auth_context signed = BindingAuthContext.make
       (V1NatsClient.principal_id client) (V1NatsClient.credential_id client) (V1NatsClient.auth_method client)
       (V1NatsClient.issuer client) (V1NatsClient.subject client) (utc sent_at)
       (utc (context_end client sent_at timeout_us)).
Proof.
  destruct (pr_signed _ _ _ _ _ _ _ _ _ (proj2 setup_prepared)) as (signer & proof & _ & _ & _ & ->). done.
Qed.

(** the message that carries the request is served *)
Lemma setup_served : exists bytes, BindingRequestEnvelope.to_json_bytes signed = Ok bytes
  /\ served server guard {| data := bytes; Transport.subject := RPC_SUBJECT_PREFIX ++ target_agent_id;
       Transport.reply := Some reply_subject |} now guard_now (cut_envelope signed).
Proof.
  destruct setup_prepared as [Hc Hp]. destruct setup_fields as (Eo & Ep & Ei & Er & Ea).
  destruct Hsetup as [_ Hs _ Hkn (signer & Hkp & Hres) [d Hw] [Ha Hnow] Hcl Hpr (call & Happ & _) _ _ _].
  destruct (prepared_cut_ok _ _ _ _ _ _ _ _ _ Hc Hp) as [_ Hcut].
  destruct (to_bytes_ok d (wr_ijson _ _ Hw)) as [b Hb]. exists b.
  assert (BindingRequestEnvelope.to_json_bytes signed = Ok b) as Hbytes
    by (unfold BindingRequestEnvelope.to_json_bytes; by rewrite (wr_dict _ _ Hw)).
  split; [done|]. constructor; try done.
  - cbn [data]. rewrite (envelope_wire signed d b Hw Hbytes). by apply init_ok.
  - cbn. by rewrite Er.
  - exists (identity client signer). split; [apply Hres|].
    eapply prepared_authentic; try done. by rewrite (wr_dict _ _ Hw).
  - apply (prepared_dated _ _ _ _ _ _ _ _ _ _ Hc Hp); [apply Hkn|apply Hkn|done].
  - cbn. by rewrite Ea.
  - cbn. rewrite Eo. apply (pr_unary _ _ _ _ _ _ _ _ _ Hp).
  - cbn. rewrite Eo. by exists call.
Qed.

(** the reply to it is the response with what the handler returned *)
Lemma setup_reply message : served server guard message now guard_now (cut_envelope signed) ->
  exists bytes, (V1NatsServer._handle server guard message now guard_now).2 = [bytes]
  /\ BindingResponseEnvelope.from_json_bytes bytes operation
     = Ok (BindingResponseEnvelope.make operation request_id
         (V1NatsServer.active_config_generation server) (Some result) None).
Proof.
  intros Hsv. destruct setup_fields as (Eo & Ep & Ei & _ & _).
  destruct Hsetup as [_ Hs _ _ _ _ _ _ _ (call & Happ & Hcall) [rd Hrw] Hresp _].
  set (response := BindingResponseEnvelope.make _ _ _ _ _) in *.
  destruct (to_bytes_ok rd (rw_ijson _ _ Hrw)) as [rb Hrb]. exists rb.
  assert (BindingResponseEnvelope.to_json_bytes response = Ok rb) as Hrbytes
    by (unfold BindingResponseEnvelope.to_json_bytes; by rewrite (rw_dict _ _ Hrw)).
  split; [|by apply (response_wire response rd rb)].
  unfold V1NatsServer._handle. rewrite (sv_decoded _ _ _ _ _ _ Hsv).
  destruct (answer_served _ _ _ _ _ _ Hs Hsv) as [g ->].
  pose proof (Eo : BindingRequestEnvelope.operation (cut_envelope signed) = operation) as Eo'.
  pose proof (Ei : BindingRequestEnvelope.request_id (cut_envelope signed) = request_id) as Ei'.
  pose proof (Ep : BindingRequestEnvelope.payload (cut_envelope signed) = payload) as Ep'.
  rewrite (dispatch_returns _ _ call result (from_json_bytes_envelope_ok _ _ (sv_decoded _ _ _ _ _ _ Hsv))
    (sv_unary _ _ _ _ _ _ Hsv)); [|by rewrite Eo'|by rewrite Ep'|rewrite Eo'].
  2: { apply (response_payload_type _ _ _ _ (rw_valid _ _ Hrw)). }
  cbn [mbind result_bind]. rewrite Eo' Ei'.
  fold response. unfold BindingResponseEnvelope.init. rewrite (rw_valid _ _ Hrw).
  cbn [mbind result_bind]. by rewrite Hrbytes Hresp.
Qed.
End Setup.

(** C11: a call reaches its handler and returns.  When a client and a server are set up for each
    other, the request the client sends, which is written with timestamps cut to the second, is
    decoded, authenticated and dispatched by the server: the handler of the operation is called on the
    client's payload with the client's principal and request identifier.  What the handler returns
    is what the client's [request] returns; the timeout of at least a second that the client asks
    for is why the cut envelope is never refused. *)
Theorem unary_call_returns client server guard now guard_now operation payload target_agent_id request_id
    sent_at timeout_us reply_subject signed result fresh :
  call_setup client server guard now guard_now operation payload target_agent_id request_id sent_at
    timeout_us reply_subject signed result ->
  request_id <> [] ->
  V1NatsClient.request client operation payload target_agent_id timeout_us (Some request_id) fresh sent_at
    = Ok (Some result)
  /\ exists bytes, BindingRequestEnvelope.to_json_bytes signed = Ok bytes
     /\ (V1NatsServer._handle server guard {| data := bytes;
           Transport.subject := RPC_SUBJECT_PREFIX ++ target_agent_id;
           Transport.reply := Some reply_subject |} now guard_now).1.2
       = Some (handler_name (OPERATION_SPECS operation), payload,
           CanonicalRequestContext.make request_id
             (Principal.make (V1NatsClient.principal_id client)
               (before_colon (V1NatsClient.principal_id client))
               (Some (V1NatsClient.credential_id client)) 0)
             target_agent_id (V1NatsClient.config_generation client)).
Proof.
  intros Hset Hid. destruct (setup_fields _ _ _ _ _ _ _ _ _ _ _ _ _ _ Hset) as (Eo & Ep & Ei & Er & Ea).
  destruct (setup_served _ _ _ _ _ _ _ _ _ _ _ _ _ _ Hset) as (b & Hbytes & Hsv).
  destruct (setup_reply _ _ _ _ _ _ _ _ _ _ _ _ _ _ Hset _ Hsv) as (rb & Hsent & Hread).
  destruct Hset as [_ Hs Hprep Hkn _ _ _ _ _ _ _ _ (Hsub & Hunsub & Hex)].
  pose proof (kn_config _ _ _ Hkn) as Hgen. split.
  - unfold V1NatsClient.request.
    assert (V1NatsClient.request_id_or (Some request_id) fresh = request_id) as -> by by destruct request_id.
    rewrite Hprep. cbn [mbind result_bind]. rewrite Hsub Hbytes. cbn [mbind result_bind].
    rewrite Hex Hsent Hunsub. cbn [mbind result_bind except]. unfold V1NatsClient.receive.
    apply bind_ok_unit. split; [by apply raise_if_ok, neqb_false|]. cbn [data]. rewrite Hread.
    cbn [mbind result_bind]. do 2 (apply bind_ok_unit; split; [by apply raise_if_ok, neqb_false|]). done.
  - exists b. split; [done|]. rewrite (proj2 (handle_called server guard _ now guard_now _ Hs)
      (ex_intro _ _ (conj Hsv eq_refl))).
    unfold call_of, request_context. cbn. rewrite Eo Ep Ei Ea Hgen. by rewrite (kn_agent _ _ _ Hkn).
Qed.
End Call.

(** ** Witnesses *)
#[local] Existing Instances BindingTheorems.utc_parser BindingTheorems.text_protobuf
  BindingTheorems.open_schema BindingTheorems.lenient_keys BindingTheorems.map_guard
  BindingTheorems.map_guard_refuses.
#[local] Instance open_responses : ResponseSchemas := {|
  response_violation := fun _ => None; opened_violation := fun _ => None |}.

Definition task_name : Message := u "task-1".
Definition greeted : Message := u "hello task-1".
Definition client : V1NatsClient.t := V1NatsClient.make signer_pair (u "agent:windows-a") (u "cred-1")
  (u "windows-a") (u "inst-1") (u "a2amesh-peer") (u "windows-a") 1 (u "nats-nkey") 300.
Definition policies : gmap pystr SignerPolicy :=
  {[ signer_key := {| principal_ids := {[ u "agent:windows-a" ]};
       methods := {[ u "nats-nkey" ]}; subjects := {[ u "windows-a" ]} |} ]}.
Definition server : V1NatsServer.t := V1NatsServer.make (u "linux") 1
  (BindingAuthVerifier.make policies 30000000 900000000).
Lemma server_init : V1NatsServer.init (u "linux") true true policies true 1 = Ok server.
Proof. reflexivity. Qed.

(** an application that greets, and a resolver that knows the client *)
#[local] Instance greeting : Deployment := {|
  application := fun name => if name == "get_task" then Some (Handler (fun m _ => Ok (u "hello " ++ m)))
    else None;
  resolve := fun _ _ => Ok (Some (identity client signer_key));
  respond := fun _ _ => Ok tt;
  text := fun e => match e with BindingTransportError m | BindingValidationError m => u m | _ => [] end |}.
Definition inbox : pystr := u "_INBOX.a2amesh.windows-a.1".
#[local] Instance loopback : NatsRequestConnection := {|
  new_inbox := Ok inbox;
  subscribe := fun _ => Ok tt;
  exchange := fun subject bytes reply timeout_us =>
    match (V1NatsServer._handle server ∅ {| data := bytes; Transport.subject := subject;
             Transport.reply := Some reply |} (at_us t0) t0).2 with
    | answer :: _ => Ok {| data := answer; Transport.subject := reply; Transport.reply := None |}
    | [] => Err TimeoutError
    end;
  unsubscribe := Ok tt |}.

Definition sent_request : BindingRequestEnvelope.t :=
  Eval vm_compute in match V1NatsClient.prepare client GET_TASK task_name (u "linux") (u "req-1") t0
                       30000000 with
                     | Ok (_, e) => e | Err _ => request t0 end.
Definition sent_dict : dict :=
  Eval vm_compute in match BindingRequestEnvelope.to_dict sent_request with Ok d => d | Err _ => [] end.

Lemma sent_request_ready : wire_ready sent_request sent_dict.
Proof.
  constructor; [vm_compute; reflexivity|vm_compute; reflexivity|reflexivity| |].
  - repeat constructor.
  - by intros d [= <-].
Qed.

Lemma greeting_response_ready : exists d, response_wire_ready (BindingResponseEnvelope.make GET_TASK
  (u "req-1") 1 (Some greeted) None) d.
Proof.
  eexists. constructor; [vm_compute; reflexivity|done|reflexivity|vm_compute; reflexivity|reflexivity|].
  intros m [= <-] d [= <-]. reflexivity.
Qed.

Lemma greeting_setup : call_setup client server ∅ (at_us t0) t0 GET_TASK task_name (u "linux")
  (u "req-1") t0 30000000 inbox sent_request greeted.
Proof.
  constructor.
  - reflexivity.
  - apply (server_init_ok _ _ _ _ _ _ _ server_init).
  - vm_compute. reflexivity.
  - constructor; [done|done|done|]. eexists signer_key, _. split; [done|].
    split; [apply lookup_singleton_eq|]. cbn. set_solver.
  - exists signer_key. split; [apply signer_key_ok|done].
  - exists sent_dict. apply sent_request_ready.
  - split; [done|]. vm_compute. split; [discriminate|reflexivity].
  - reflexivity.
  - vm_compute. reflexivity.
  - eexists. split; reflexivity.
  - apply greeting_response_ready.
  - done.
  - done.
Qed.

Lemma unary_call_returns_witness :
  V1NatsClient.request client GET_TASK task_name (u "linux") 30000000 (Some (u "req-1")) [] t0
  = Ok (Some greeted).
Proof.
  apply (unary_call_returns client server ∅ (at_us t0) t0 GET_TASK task_name (u "linux") (u "req-1")
    t0 30000000 inbox sent_request greeted [] greeting_setup). discriminate.
Defined.

(** the message of that call, the first of its request *)
Lemma served_once_witness : exists message,
  (V1NatsServer._handle server ∅ message (at_us t0) t0).1.2
  = Some (call_of server (cut_envelope sent_request)).
Proof.
  destruct (setup_served _ _ _ _ _ _ _ _ _ _ _ _ _ _ greeting_setup) as (b & _ & Hsv).
  eexists. apply (served_once (u "linux") true true policies true 1 server server_init).
  exists (cut_envelope sent_request). split; [exact Hsv|reflexivity].
Defined.

(** with a resolver that does not know the caller and exceptions without text, the same message is
    left without a reply *)
Definition silent : Deployment := {|
  application := fun _ => None; resolve := fun _ _ => Ok None; respond := fun _ _ => Ok tt;
  text := fun _ => [] |}.
Lemma server_replies_witness : exists message,
  BindingRequestEnvelope.from_json_bytes message.(data) = Ok (cut_envelope sent_request)
  /\ (V1NatsServer._handle (H6 := silent) server ∅ message (at_us t0) t0).2 = [].
Proof.
  destruct (setup_served _ _ _ _ _ _ _ _ _ _ _ _ _ _ greeting_setup) as (b & _ & Hsv).
  eexists. split; [exact (sv_decoded _ _ _ _ _ _ Hsv)|].
  pose proof (server_replies (H7 := silent) server ∅ {| data := b;
    Transport.subject := RPC_SUBJECT_PREFIX ++ u "linux"; Transport.reply := Some inbox |} (at_us t0) t0) as Hr.
  destruct (V1NatsServer._handle _ _ _ _ _) as [[g called] sent]. destruct Hr as (_ & _ & _ & Hd & Hlen).
  destruct (Hd _ (sv_decoded _ _ _ _ _ _ Hsv) eq_refl) as [Hnil _]. apply Hnil.
  eexists. split; [reflexivity|]. apply Hlen; [by left|reflexivity].
Defined.
