(* ===== verification/Agent.v ===== *)
(** * The tasks of an agent

    [runtime/agent.py]: how a runtime claims the identifier of a task, runs it
    once, lets identical requests join it, and cancels it.

    Coroutines interleave at their [await]s only.  The lock around the task
    tables is never held at an [await], so taking it does not suspend a coroutine.
    A [world] is what the objects are while every coroutine is suspended, and an
    event is one resumption: what the awaited call returned or raised comes with
    it.  Running the command line of a runtime ([executor.py]), the connection and
    the conversation memory are such awaited calls.  Times of waiting, logging and
    the memory tools are left out, and metadata values are texts, as the schema of
    the private protocol asks for. *)
From S2P Require Import Prelude PyStr Json Sha256 Contract Stream JsonBytes Models.
Local Open Scope string_scope.
Local Open Scope list_scope.
Local Open Scope Z_scope.
Local Open Scope py_scope.

(** the codes of [a2anats/errors.py] *)
Definition INVALID_PARAMS : Z := -32602.
Definition UNAVAILABLE : Z := -32000.
Definition FORBIDDEN : Z := -32003.

Record Metadata := {
  m_runtime : option pystr; m_workdir : option pystr; m_task_id : option pystr;
  m_session_id : option pystr }.

(** [value or default] *)
Definition or_default (value : option pystr) (default : pystr) : pystr :=
  match value with Some (c :: r) => c :: r | _ => default end.

(** ** Dumps of the models *)
Definition part_dump (p : Part) : json :=
  match p with
  | TextPart text => JObj [(u "kind", JStr (u "text")); (u "text", JStr text)]
  | FilePart file => JObj [(u "kind", JStr (u "file")); (u "file", JObj file)]
  | DataPart data => JObj [(u "kind", JStr (u "data")); (u "data", JObj data)]
  end.
Definition message_dump (m : Message.t) : json :=
  JObj [(u "role", JStr (match m.(Message.role) with user => u "user" | agent => u "agent" end));
        (u "parts", JArr (map part_dump m.(Message.parts)))].

(** ** Working directories *)

(** what [pathlib] makes of the file system *)
Class Paths := {
  expanduser : pystr -> pystr;
  resolve_path : pystr -> pystr;
  is_absolute : pystr -> bool;
  join_path : pystr -> pystr -> pystr;
  parents : pystr -> list pystr }.

Definition _resolve_workdir `{Paths} (configured requested : option pystr) : result (option pystr) :=
  match configured with
  | None =>
    raise_if (bool_decide (is_Some requested))
      (JsonRpcError FORBIDDEN "remote workdir override requires agent.workdir to be configured");;
    Ok None
  | Some configured =>
    let root := resolve_path (expanduser configured) in
    let candidate := match requested with Some (c :: r) => expanduser (c :: r) | _ => root end in
    let candidate := if is_absolute candidate then candidate else join_path root candidate in
    let resolved := resolve_path candidate in
    raise_if ((resolved != root) && negb (bool_decide (root ∈ parents resolved)))
      (JsonRpcError FORBIDDEN "workdir is outside configured workspace");;
    Ok (Some resolved)
  end.

(** ** The runtime *)
Record Config := {
  default_runtime : pystr; workdir : option pystr; adapters : list pystr; has_memory : bool }.

Record TaskResult := { ok : bool; output : pystr }.

Module AgentRuntime.

(** A future of [_task_futures] is pending or has a result; a cancellation event
    is named by the coroutine that made it, and [_events] are those that are set. *)
Record t := make {
  _tasks : gmap pystr Task.t;
  _cancels : gmap pystr nat;
  _inflight : gmap pystr nat;
  _task_futures : gmap pystr (option Task.t);
  _task_fingerprints : gmap pystr pystr;
  _events : gset nat }.

Definition init : t := make ∅ ∅ ∅ ∅ ∅ ∅.

Definition optional (value : option pystr) : json :=
  match value with Some s => JStr s | None => JNull end.
Definition fingerprint_payload (message : Message.t) (metadata : Metadata) : list (pystr * json) :=
  [(u "message", message_dump message);
   (u "metadata", JObj [(u "runtime", optional metadata.(m_runtime));
      (u "workdir", optional metadata.(m_workdir));
      (u "sessionId", optional metadata.(m_session_id))])].
Definition _task_fingerprint (message : Message.t) (metadata : Metadata) : result pystr :=
  canonical ← to_bytes (JObj (fingerprint_payload message metadata));
  Ok (sha256_hexdigest canonical).

(** the future a claim returns: the shared one of the task, or a fresh one that
    has its result already *)
Inductive future := Shared | Resolved (task : Task.t).

Definition _claim_task (self : t) (task_id fingerprint : pystr) (current : Task.t)
    : t * result (bool * future) :=
  match _task_fingerprints self !! task_id with
  | Some known =>
    if known != fingerprint then
      (self, Err (JsonRpcError INVALID_PARAMS "task id already used with different payload: "))
    else
      (self,
       match _task_futures self !! task_id with
       | Some _ => Ok (false, Shared)
       | None => task ← or_raise (_tasks self !! task_id) KeyError; Ok (false, Resolved task)
       end)
  | None =>
    (make (<[task_id := current]> (_tasks self)) (_cancels self) (_inflight self)
       (<[task_id := None]> (_task_futures self))
       (<[task_id := fingerprint]> (_task_fingerprints self)) (_events self),
     Ok (true, Shared))
  end.

Definition _finish_task (self : t) (task_id : pystr) (final : Task.t) : t :=
  make (<[task_id := final]> (_tasks self)) (_cancels self) (_inflight self)
    (match _task_futures self !! task_id with
     | Some None => <[task_id := Some final]> (_task_futures self)
     | _ => _task_futures self
     end) (_task_fingerprints self) (_events self).

(** [cancel_evt = asyncio.Event()] and the registrations of a coroutine *)
Definition register (self : t) (task_id : pystr) (n : nat) : t :=
  make (_tasks self) (<[task_id := n]> (_cancels self)) (<[task_id := n]> (_inflight self))
    (_task_futures self) (_task_fingerprints self) (_events self).
(** the [finally] clause *)
Definition unregister (self : t) (task_id : pystr) : t :=
  make (_tasks self) (delete task_id (_cancels self)) (delete task_id (_inflight self))
    (_task_futures self) (_task_fingerprints self) (_events self).

Definition get_task (self : t) (task_id : pystr) : result Task.t :=
  or_raise (_tasks self !! task_id) (JsonRpcError UNAVAILABLE "task not found: ").

(** [cancel] before it waits *)
Definition request_cancel (self : t) (task_id : pystr) : result t :=
  match _cancels self !! task_id, _tasks self !! task_id, _task_futures self !! task_id with
  | Some event, Some task, Some _ =>
    raise_if (state task.(Task.status) != working)
      (JsonRpcError UNAVAILABLE "task not cancelable: ");;
    Ok (make (_tasks self) (_cancels self) (_inflight self) (_task_futures self)
      (_task_fingerprints self) ({[event]} ∪ _events self))
  | _, _, _ => Err (JsonRpcError UNAVAILABLE "task not cancelable: ")
  end.
End AgentRuntime.

(** ** Coroutines *)
Section Coroutines.
Context `{Paths} (cfg : Config).

(** a call of [handle_task] or [handle_task_stream] after its checks *)
Record Handling := {
  h_stream : bool;
  h_message : Message.t;
  h_runtime : pystr;
  h_workdir : option pystr;
  h_session : option pystr;
  h_task_id : pystr;
  h_fingerprint : pystr }.

(** [text], and the arguments of [executor.run]: the runtime, the prompt, the
    directory and the session *)
Definition prompt_of (message : Message.t) : pystr :=
  flat_map (fun p => match p with TextPart text => text | _ => [] end) message.(Message.parts).
Definition run_arguments (h : Handling) : pystr * pystr * option pystr * option pystr :=
  (h.(h_runtime), prompt_of h.(h_message), h.(h_workdir), h.(h_session)).

(** where a coroutine is suspended *)
Inductive phase :=
(** [handle_task_stream] emits the task identifier; [owner] as the claim said *)
| Announcing (owner : bool) (future : AgentRuntime.future)
(** [asyncio.shield(future)] *)
| Joining (future : AgentRuntime.future)
(** [session_append] of the request *)
| Noting
(** [executor.run] on [run_arguments] *)
| Executing
(** [_to_dlq] *)
| Burying
(** [session_append] of the reply, or the emission of the final status *)
| Closing (final : Task.t)
| Returned (r : result Task.t)
(** [CancelledError] was raised *)
| Cancelled.

Inductive coroutine :=
| Handle (h : Handling) (p : phase)
(** [cancel] waits for the future *)
| Cancelling (task_id : pystr) (p : phase).

Record world := World {
  runtime : AgentRuntime.t;
  coroutines : gmap nat coroutine;
  (** the calls of [executor.run] so far: the coroutine and the task *)
  runs : list (nat * pystr) }.

Definition start : world := World AgentRuntime.init ∅ [].

Definition a_task (task_id : pystr) (s : task_state) (message : Message.t) (artifacts : list Artifact.t)
    : Task.t :=
  Task.make task_id {| state := s |} [message] artifacts.
Definition text_task (task_id : pystr) (s : task_state) (message : Message.t) (output : pystr) : Task.t :=
  a_task task_id s message [Artifact.make (u "a1") [TextPart output]].

(** the state a result is given *)
Definition state_of (cancelled : bool) (r : TaskResult) : task_state :=
  if cancelled || (r.(output) == u "canceled") then canceled
  else if r.(ok) then completed else failed.

Definition noted (h : Handling) : bool :=
  cfg.(has_memory) && bool_decide (or_default h.(h_session) [] <> []).

(** The checks of a request, up to its claim; [fresh] is [uuid4().hex]. *)
Definition admit_request (stream : bool) (message : Message.t) (metadata : Metadata) (fresh : pystr)
    : result Handling :=
  let runtime := or_default metadata.(m_runtime) cfg.(default_runtime) in
  raise_if (negb (bool_decide (runtime ∈ cfg.(adapters))))
    (JsonRpcError UNAVAILABLE "runtime not available: ");;
  workdir ← _resolve_workdir cfg.(workdir) metadata.(m_workdir);
  fingerprint ← AgentRuntime._task_fingerprint message metadata;
  Ok {| h_stream := stream; h_message := message; h_runtime := runtime; h_workdir := workdir;
        h_session := metadata.(m_session_id);
        h_task_id := or_default metadata.(m_task_id) fresh;
        h_fingerprint := fingerprint |}.

(** the owner registers itself and makes its first call *)
Definition begin (w : AgentRuntime.t) (n : nat) (h : Handling) : AgentRuntime.t * phase :=
  (AgentRuntime.register w h.(h_task_id) n,
   if negb h.(h_stream) && noted h then Noting else Executing).

(** the claim of an admitted request, and what follows until the first suspension *)
Definition claim_request (self : AgentRuntime.t) (n : nat) (h : Handling) : AgentRuntime.t * phase :=
  let current := a_task h.(h_task_id) working h.(h_message) [] in
  let '(self, claimed) := AgentRuntime._claim_task self h.(h_task_id) h.(h_fingerprint) current in
  match claimed with
  | Err e => (self, Returned (Err e))
  | Ok (owner, future) =>
    if h.(h_stream) then (self, Announcing owner future)
    else if owner then begin self n h else (self, Joining future)
  end.

(** the final task is stored, the future gets its result, and the reply is persisted or emitted *)
Definition finish (self : AgentRuntime.t) (h : Handling) (final : Task.t) : AgentRuntime.t * phase :=
  let self := AgentRuntime.unregister (AgentRuntime._finish_task self h.(h_task_id) final) h.(h_task_id) in
  (self, if h.(h_stream) || noted h then Closing final else Returned (Ok final)).

(** [CancelledError] while the task is run: the task is stored as canceled; a stream
    emits the final status before it raises again *)
Definition abandon (self : AgentRuntime.t) (h : Handling) : AgentRuntime.t :=
  AgentRuntime.unregister (AgentRuntime._finish_task self h.(h_task_id)
    (text_task h.(h_task_id) canceled h.(h_message) (u "canceled"))) h.(h_task_id).

(** what the awaited call did *)
Inductive outcome :=
| Done (r : result unit)
| Ran (r : result TaskResult)
| Interrupted.

(** the result of a future, [None] while it is pending *)
Definition future_result (self : AgentRuntime.t) (task_id : pystr) (future : AgentRuntime.future)
    : option Task.t :=
  match future with
  | AgentRuntime.Shared => default None (AgentRuntime._task_futures self !! task_id)
  | AgentRuntime.Resolved task => Some task
  end.

(** The next slice of a coroutine of [handle_task] or [handle_task_stream]: the
    runtime and the phase afterwards; [None] when the coroutine is not suspended
    at a call with such an outcome.  A stream whose final emission is that of a
    canceled task is [Cancelled] whatever becomes of the emission. *)
Definition resume (self : AgentRuntime.t) (n : nat) (h : Handling) (p : phase) (o : outcome)
    : option (AgentRuntime.t * phase) :=
  match p, o with
  | Announcing true _, Done (Ok _) => Some (begin self n h)
  | Announcing false future, Done (Ok _) => Some (self, Joining future)
  | Announcing _ _, Done (Err e) => Some (self, Returned (Err e))
  | Announcing _ _, Interrupted => Some (self, Cancelled)
  | Joining future, Done (Ok _) =>
    match future_result self h.(h_task_id) future with
    | Some final => Some (self, if h.(h_stream) then Closing final else Returned (Ok final))
    | None => None
    end
  | Joining _, Interrupted => Some (self, Cancelled)
  | Noting, Done (Ok _) => Some (self, Executing)
  | Noting, Done (Err _) => Some (self, Burying)
  | Noting, Interrupted | Executing, Interrupted => Some (abandon self h, Cancelled)
  | Executing, Ran (Ok r) =>
    let cancelled := bool_decide (n ∈ AgentRuntime._events self) in
    Some (finish self h (text_task h.(h_task_id) (state_of cancelled r) h.(h_message) r.(output)))
  | Executing, Ran (Err _) => Some (self, Burying)
  | Burying, Done (Ok _) =>
    Some (finish self h
      (text_task h.(h_task_id) failed h.(h_message) (u "task execution failed")))
  | Burying, Interrupted => Some (AgentRuntime.unregister self h.(h_task_id), Cancelled)
  | Closing final, Done r =>
    Some (self, Returned (match r with
                          | Ok _ => Ok final
                          | Err e => if h.(h_stream) then Err e else Ok final
                          end))
  | Closing _, Interrupted => Some (self, Cancelled)
  | _, _ => None
  end.

(** ** Events *)
Inductive event :=
| Receive (stream : bool) (message : Message.t) (metadata : Metadata) (fresh : pystr)
| ReceiveCancel (task_id : pystr)
| Resume (o : outcome)
(** the timeout of [cancel] *)
| Expire.

Definition is_executing (p : phase) : bool := match p with Executing => true | _ => false end.

(** a coroutine that comes to [executor.run] calls it *)
Definition log_run (n : nat) (h : Handling) (before after : bool) (log : list (nat * pystr))
    : list (nat * pystr) :=
  if after && negb before then log ++ [(n, h.(h_task_id))] else log.

Definition step (w : world) (n : nat) (e : event) : option world :=
  match e, w.(coroutines) !! n with
  | Receive stream message metadata fresh, None =>
    match admit_request stream message metadata fresh with
    | Err _ => Some w
    | Ok h =>
      let '(self, p) := claim_request w.(runtime) n h in
      Some (World self (<[n := Handle h p]> w.(coroutines))
        (log_run n h false (is_executing p) w.(runs)))
    end
  | ReceiveCancel task_id, None =>
    match AgentRuntime.request_cancel w.(runtime) task_id with
    | Err _ => Some w
    | Ok self => Some (World self
        (<[n := Cancelling task_id (Joining AgentRuntime.Shared)]> w.(coroutines)) w.(runs))
    end
  | Resume o, Some (Handle h p) =>
    '(self, p') ← resume w.(runtime) n h p o;
    Some (World self (<[n := Handle h p']> w.(coroutines))
      (log_run n h (is_executing p) (is_executing p') w.(runs)))
  | Resume o, Some (Cancelling task_id (Joining future)) =>
    match o with
    | Done (Ok _) =>
      final ← future_result w.(runtime) task_id future;
      Some (World w.(runtime) (<[n := Cancelling task_id (Returned (Ok final))]> w.(coroutines))
        w.(runs))
    | _ => None
    end
  | Expire, Some (Cancelling task_id (Joining _)) =>
    Some (World w.(runtime) (<[n := Cancelling task_id (Returned
      (Err (JsonRpcError UNAVAILABLE "task cancellation not confirmed: ")))]> w.(coroutines)) w.(runs))
  | _, _ => None
  end.
End Coroutines.
