(* ===== verification/AgentFacts.v ===== *)
(** * The tasks of an agent: facts

    The invariant of a world: the tables agree, every pending task has at most one
    owner, [executor.run] is called at most once for a task, and whatever was
    returned is what the task's future holds. *)
From S2P Require Import Prelude PyStr Json Models Agent.
Import AgentRuntime.
Local Open Scope list_scope.

Section Agent.
Context `{Paths} (cfg : Config).

Definition finished (task : Task.t) : Prop :=
  state task.(Task.status) = completed \/ state task.(Task.status) = failed
  \/ state task.(Task.status) = canceled.

(** the tables of a runtime agree *)
Record agent_ok (self : AgentRuntime.t) : Prop := {
  ao_known : forall id, is_Some (_task_fingerprints self !! id) <-> is_Some (_task_futures self !! id);
  ao_pending : forall id, _task_futures self !! id = Some None ->
    exists task, _tasks self !! id = Some task /\ state task.(Task.status) = working;
  ao_done : forall id task, _task_futures self !! id = Some (Some task) ->
    _tasks self !! id = Some task /\ finished task }.

(** the phases of the coroutine that has claimed its task and not finished it *)
Definition owning (p : phase) : bool :=
  match p with Announcing true _ | Noting | Executing | Burying => true | _ => false end.

(** the tasks that were run *)
Definition run_ids (log : list (nat * pystr)) : list pystr := map snd log.

Definition handle_ok (self : AgentRuntime.t) (log : list (nat * pystr)) (h : Handling) (p : phase) : Prop :=
  let known := _task_fingerprints self !! h_task_id h = Some (h_fingerprint h) in
  let pending := _task_futures self !! h_task_id h = Some None in
  let done final := _task_futures self !! h_task_id h = Some (Some final) in
  match p with
  | Announcing true Shared | Noting => known /\ pending /\ h_task_id h ∉ run_ids log
  | Executing | Burying => known /\ pending
  | Announcing false Shared | Joining Shared => known
  | Announcing _ _ | Joining _ => False
  | Closing final | Returned (Ok final) => known /\ done final
  | Returned (Err _) | Cancelled => True
  end.

Definition coroutine_ok (self : AgentRuntime.t) (log : list (nat * pystr)) (c : coroutine) : Prop :=
  match c with
  | Handle h p => handle_ok self log h p
  | Cancelling id (Joining Shared) => is_Some (_task_futures self !! id)
  | Cancelling id (Returned (Ok final)) => _task_futures self !! id = Some (Some final)
  | Cancelling _ (Returned (Err _)) => True
  | Cancelling _ _ => False
  end.

(** coroutine [n] owns the task *)
Definition owns (w : world) (n : nat) (id : pystr) : Prop := exists h p,
  coroutines w !! n = Some (Handle h p) /\ owning p = true /\ h_task_id h = id.

Record world_ok (w : world) : Prop := {
  wo_agent : agent_ok (runtime w);
  wo_coroutines : forall n c, coroutines w !! n = Some c -> coroutine_ok (runtime w) (runs w) c;
  wo_unique : forall n m id, owns w n id -> owns w m id -> n = m;
  wo_runs : NoDup (run_ids (runs w));
  wo_known : forall id, id ∈ run_ids (runs w) -> is_Some (_task_fingerprints (runtime w) !! id) }.

Lemma start_ok : world_ok start.
Proof.
  constructor; try done; cbn.
  - constructor; cbn; intros id; rewrite !lookup_empty; [|done|done].
    split; by intros [? ?].
  - intros n m id (h & p & Hn & _). cbn in Hn. by rewrite lookup_empty in Hn.
  - constructor.
  - by intros id ?%elem_of_nil.
Qed.

(** ** What a step leaves as it was *)

(** Nothing that is known or done is forgotten. *)
Record extends (self self' : AgentRuntime.t) : Prop := {
  ex_known : forall id fp, _task_fingerprints self !! id = Some fp ->
    _task_fingerprints self' !! id = Some fp;
  ex_futures : forall id, is_Some (_task_futures self !! id) -> is_Some (_task_futures self' !! id);
  ex_done : forall id task, _task_futures self !! id = Some (Some task) ->
    _task_futures self' !! id = Some (Some task) }.

#[global] Instance extends_po : PreOrder extends.
Proof.
  split; [by constructor|].
  intros x y z [A1 B1 C1] [A2 B2 C2]. constructor; eauto.
Qed.

Lemma handle_ok_frame self self' log log' h p : extends self self' ->
  (owning p = true -> _task_futures self !! h_task_id h = Some None ->
     _task_futures self' !! h_task_id h = Some None
     /\ (h_task_id h ∈ run_ids log' -> h_task_id h ∈ run_ids log)) ->
  handle_ok self log h p -> handle_ok self' log' h p.
Proof.
  intros [Hk Hf Hd] Ho. unfold handle_ok.
  destruct p as [[] []|[]| | | |final|[final|e]|]; cbn in Ho |- *; try done; try naive_solver.
Qed.

Lemma coroutine_ok_frame self self' log log' c : extends self self' ->
  (forall h p, c = Handle h p -> owning p = true -> _task_futures self !! h_task_id h = Some None ->
     _task_futures self' !! h_task_id h = Some None
     /\ (h_task_id h ∈ run_ids log' -> h_task_id h ∈ run_ids log)) ->
  coroutine_ok self log c -> coroutine_ok self' log' c.
Proof.
  intros He Ho. destruct c as [h p|id p]; cbn.
  - apply handle_ok_frame; [done|]. intros. by eapply Ho.
  - destruct He as [_ Hf Hd]. destruct p as [|[]| | | | |[]|]; try done; eauto.
Qed.

(** ** Slices *)

(** claims: a refused or joined claim changes nothing, an owner starts a pending task *)
Lemma claim_task_cases self id fp current : agent_ok self ->
  (exists e, _claim_task self id fp current = (self, Err e))
  \/ (_claim_task self id fp current = (self, Ok (false, Shared))
      /\ _task_fingerprints self !! id = Some fp)
  \/ (_task_fingerprints self !! id = None /\ _task_futures self !! id = None
      /\ _claim_task self id fp current
         = (make (<[id := current]> (_tasks self)) (_cancels self) (_inflight self)
              (<[id := None]> (_task_futures self)) (<[id := fp]> (_task_fingerprints self))
              (_events self), Ok (true, Shared))).
Proof.
  intros [Hkn _ _]. unfold _claim_task. pose proof (Hkn id) as Hid.
  destruct (_task_fingerprints self !! id) as [known|] eqn:E.
  - case_bool_decide as Heq; cbn; [|left; by eexists]. subst known. right. left.
    destruct (proj1 Hid (ltac:(by eexists))) as [f ->]. done.
  - right. right. split; [done|]. split; [|done].
    destruct (_task_futures self !! id) eqn:E'; [|done].
    destruct (proj2 Hid (ltac:(by eexists))) as [? ?]. done.
Qed.

Lemma claims_extend self id fp current : _task_fingerprints self !! id = None ->
  _task_futures self !! id = None ->
  extends self (make (<[id := current]> (_tasks self)) (_cancels self) (_inflight self)
    (<[id := None]> (_task_futures self)) (<[id := fp]> (_task_fingerprints self)) (_events self)).
Proof.
  intros Hk Hf. constructor; cbn.
  - intros id' fp' E. rewrite lookup_insert_ne; [done|]. by intros <-; rewrite Hk in E.
  - intros id' [x E]. rewrite lookup_insert_ne; [by eexists|]. by intros <-; rewrite Hf in E.
  - intros id' task E. rewrite lookup_insert_ne; [done|]. by intros <-; rewrite Hf in E.
Qed.

Lemma claim_agent_ok self id fp current : agent_ok self -> state current.(Task.status) = working ->
  agent_ok (make (<[id := current]> (_tasks self)) (_cancels self) (_inflight self)
    (<[id := None]> (_task_futures self)) (<[id := fp]> (_task_fingerprints self)) (_events self)).
Proof.
  intros [Hk Hp Hd] Hw. constructor; cbn; intros id'; destruct (decide (id = id')) as [<-|Hne];
    rewrite ?lookup_insert_eq ?lookup_insert_ne //.
  - intros _. by exists current.
  - apply Hp.
  - apply Hd.
Qed.

(** the tables an unregistration leaves alone *)
Lemma unregister_agent_ok self id : agent_ok self -> agent_ok (unregister self id).
Proof. by intros []. Qed.
Lemma register_agent_ok self id n : agent_ok self -> agent_ok (register self id n).
Proof. by intros []. Qed.

Lemma finish_agent_ok self id final : agent_ok self -> _task_futures self !! id = Some None ->
  finished final -> agent_ok (_finish_task self id final).
Proof.
  intros [Hk Hp Hd] Hpend Hfin. unfold _finish_task. rewrite Hpend. constructor; cbn; intros id'.
  - rewrite Hk. destruct (decide (id = id')) as [<-|Hne];
      [rewrite lookup_insert_eq Hpend; split; by eexists|by rewrite lookup_insert_ne].
  - destruct (decide (id = id')) as [<-|Hne]; [by rewrite lookup_insert_eq|].
    rewrite !lookup_insert_ne //. apply Hp.
  - intros task. destruct (decide (id = id')) as [<-|Hne].
    + rewrite !lookup_insert_eq. by intros [= <-].
    + rewrite !lookup_insert_ne //. apply Hd.
Qed.

Lemma finish_futures self id final : _task_futures self !! id = Some None ->
  _task_futures (_finish_task self id final) = <[id := Some final]> (_task_futures self).
Proof. intros E. unfold _finish_task. by rewrite E. Qed.

Lemma finish_extends self id final : _task_futures self !! id = Some None ->
  extends self (_finish_task self id final).
Proof.
  intros Hp. constructor; rewrite ?finish_futures //; intros id'.
  - destruct (decide (id = id')) as [<-|]; [rewrite lookup_insert_eq; by eexists|by rewrite lookup_insert_ne].
  - intros task E. rewrite lookup_insert_ne; [done|]. intros <-. by rewrite Hp in E.
Qed.

(** What a slice of coroutine [n], a handling of [h], does to the rest: it changes the tables for its
    own task only, and the future only while it owns it. *)
Record slice_ok (n : nat) (h : Handling) (self self' : AgentRuntime.t) (log log' : list (nat * pystr))
    (owned : bool) (p' : phase) : Prop := {
  sl_agent : agent_ok self';
  sl_extends : extends self self';
  sl_known : _task_fingerprints self' = _task_fingerprints self
    \/ _task_fingerprints self !! h_task_id h = None /\ owning p' = true;
  sl_others : forall id, id <> h_task_id h -> _task_futures self' !! id = _task_futures self !! id;
  sl_kept : owned = false -> _task_futures self !! h_task_id h = Some None ->
    _task_futures self' !! h_task_id h = Some None /\ owning p' = false;
  sl_log : log' = log \/ log' = log ++ [(n, h_task_id h)] /\ h_task_id h ∉ run_ids log
    /\ owning p' = true;
  sl_handle : handle_ok self' log' h p' }.

Lemma text_task_finished id s m o : s <> working -> s <> submitted -> s <> input_required ->
  finished (text_task id s m o).
Proof. unfold finished. cbn. destruct s; tauto. Qed.

Lemma state_of_finished cancelled r id m o : finished (text_task id (state_of cancelled r) m o).
Proof. apply text_task_finished; unfold state_of; repeat case_match; done. Qed.

(** the end of a task by its owner *)
Lemma finish_slice self n h final log owned p' : agent_ok self -> finished final ->
  _task_fingerprints self !! h_task_id h = Some (h_fingerprint h) ->
  _task_futures self !! h_task_id h = Some None ->
  p' = Closing final \/ p' = Returned (Ok final) \/ p' = Cancelled ->
  owned = true ->
  slice_ok n h self (unregister (_finish_task self (h_task_id h) final) (h_task_id h)) log log owned p'.
Proof.
  intros Hok Hfin Hk Hp Hp' ->. pose proof (finish_futures _ _ final Hp) as Hf.
  constructor; [by apply unregister_agent_ok, finish_agent_ok| |by left| |done|by left|].
  - destruct (finish_extends _ _ final Hp) as [A B C]. by constructor.
  - intros id Hne. change (_task_futures (unregister ?x _)) with (_task_futures x).
    rewrite Hf. by rewrite lookup_insert_ne.
  - assert (_task_futures (unregister (_finish_task self (h_task_id h) final) (h_task_id h))
      !! h_task_id h = Some (Some final)) as E.
    { change (_task_futures (unregister ?x _)) with (_task_futures x). by rewrite Hf lookup_insert_eq. }
    destruct Hp' as [->|[->| ->]]; cbn; done.
Qed.

(** a slice that leaves the fingerprints and the futures alone *)
Lemma still_slice self self' n h log log' owned p' : agent_ok self -> agent_ok self' ->
  _task_fingerprints self' = _task_fingerprints self -> _task_futures self' = _task_futures self ->
  log' = log \/ log' = log ++ [(n, h_task_id h)] /\ h_task_id h ∉ run_ids log /\ owning p' = true ->
  (owning p' = true -> owned = true) ->
  handle_ok self' log' h p' ->
  slice_ok n h self self' log log' owned p'.
Proof.
  intros Hok Hok' Hk Hf Hl Ho Hh. constructor; try done.
  - constructor; [by rewrite Hk|by rewrite Hf|by rewrite Hf].
  - by left.
  - by rewrite Hf.
  - rewrite Hf. intros -> Hp. split; [done|]. destruct (owning p'); [|done]. by destruct (Ho eq_refl).
Qed.

Lemma run_ids_app log n id : run_ids (log ++ [(n, id)]) = run_ids log ++ [id].
Proof. unfold run_ids. by rewrite map_app. Qed.

Ltac stays := apply still_slice; [done|done|done|done|by left|done|done].

Lemma resume_slice self n h p o self' p' log : agent_ok self -> handle_ok self log h p ->
  resume cfg self n h p o = Some (self', p') ->
  slice_ok n h self self' log (log_run n h (is_executing p) (is_executing p') log) (owning p) p'.
Proof.
  intros Hok Hh. unfold resume.
  destruct p as [[] future|future| | | |final|r|], o as [[[]|e]|[r'|e]|]; try done; cbn in Hh.
  - (* an owner that announced its task begins *)
    destruct future; [|done]. destruct Hh as (Hk & Hp & Hno). unfold begin. intros [= <- <-].
    pose proof (register_agent_ok self (h_task_id h) n Hok).
    destruct (negb _ && _); apply still_slice; try done; [by left|by right].
  - intros [= <- <-]. by stays.
  - intros [= <- <-]. by stays.
  - intros [= <- <-]. destruct future; [by stays|done].
  - intros [= <- <-]. by stays.
  - intros [= <- <-]. by stays.
  - (* the future is done *)
    destruct future as [|task]; [|done]. cbn [future_result].
    destruct (_task_futures self !! h_task_id h) as [[final|]|] eqn:E; try done. cbn [default].
    destruct (h_stream h); intros [= <- <-]; by stays.
  - intros [= <- <-]. by stays.
  - intros [= <- <-]. destruct Hh as (Hk & Hp & Hno). apply still_slice; try done. by right.
  - intros [= <- <-]. destruct Hh as (Hk & Hp & Hno). by stays.
  - intros [= <- <-]. destruct Hh as (Hk & Hp & _). apply finish_slice; try done; [|by right; right].
    by apply text_task_finished.
  - unfold finish. intros [= <- <-]. destruct Hh as [Hk Hp].
    destruct (_ || _); apply finish_slice; try done; try apply state_of_finished; tauto.
  - intros [= <- <-]. by stays.
  - intros [= <- <-]. destruct Hh as [Hk Hp]. apply finish_slice; try done; [|by right; right].
    by apply text_task_finished.
  - unfold finish. intros [= <- <-]. destruct Hh as [Hk Hp].
    destruct (_ || _); apply finish_slice; try done; try (by apply text_task_finished); tauto.
  - intros [= <- <-]. pose proof (unregister_agent_ok self (h_task_id h) Hok).
    apply still_slice; try done. by left.
  - intros [= <- <-]. by stays.
  - destruct (h_stream h); intros [= <- <-]; by stays.
  - intros [= <- <-]. by stays.
Qed.

(** the start of a task by the coroutine that claims it *)
Lemma fresh_slice self self' n h log p' : agent_ok self' ->
  _task_fingerprints self !! h_task_id h = None -> _task_futures self !! h_task_id h = None ->
  (forall id, id ∈ run_ids log -> is_Some (_task_fingerprints self !! id)) ->
  _task_fingerprints self' = <[h_task_id h := h_fingerprint h]> (_task_fingerprints self) ->
  _task_futures self' = <[h_task_id h := None]> (_task_futures self) ->
  p' = Announcing true Shared \/ p' = Noting \/ p' = Executing ->
  slice_ok n h self self' log (log_run n h false (is_executing p') log) false p'.
Proof.
  intros Hok Hk Hf Hlog Ek Ef Hp'.
  assert (h_task_id h ∉ run_ids log) as Hno by (intros [x Hx]%Hlog; by rewrite Hk in Hx).
  assert (owning p' = true) as Ho by by destruct Hp' as [->|[->| ->]].
  assert (_task_fingerprints self' !! h_task_id h = Some (h_fingerprint h)) as Hk' by by rewrite Ek lookup_insert_eq.
  assert (_task_futures self' !! h_task_id h = Some None) as Hf' by by rewrite Ef lookup_insert_eq.
  constructor; try done.
  - destruct (claims_extend self (h_task_id h) (h_fingerprint h) (a_task (h_task_id h) working (h_message h) [])
      Hk Hf) as [A B C]. constructor; by rewrite ?Ek ?Ef.
  - by right.
  - intros id Hne. by rewrite Ef lookup_insert_ne.
  - intros _. by rewrite Hf.
  - destruct Hp' as [->|[->| ->]]; [by left|by left|by right].
  - by destruct Hp' as [->|[->| ->]].
Qed.

Lemma claim_slice self n h self' p' log : agent_ok self ->
  (forall id, id ∈ run_ids log -> is_Some (_task_fingerprints self !! id)) ->
  claim_request cfg self n h = (self', p') ->
  slice_ok n h self self' log (log_run n h false (is_executing p') log) false p'.
Proof.
  intros Hok Hlog. unfold claim_request. set (current := a_task _ _ _ _).
  destruct (claim_task_cases self (h_task_id h) (h_fingerprint h) current Hok)
    as [[e ->]|[[-> Hk]|(Hk & Hf & ->)]].
  - intros [= <- <-]. by stays.
  - destruct (h_stream h); intros [= <- <-]; by stays.
  - pose proof (claim_agent_ok self (h_task_id h) (h_fingerprint h) current Hok eq_refl) as Hok'.
    unfold begin. destruct (h_stream h); [|destruct (negb _ && _)]; intros [= <- <-].
    + apply fresh_slice; try done. by left.
    + apply fresh_slice; try done; [by apply register_agent_ok|by right; left].
    + apply fresh_slice; try done; [by apply register_agent_ok|by right; right].
Qed.

(** ** Steps *)
Lemma world_slice w n h p self' p' : world_ok w ->
  coroutines w !! n = Some (Handle h p) \/ coroutines w !! n = None /\ owning p = false ->
  slice_ok n h (runtime w) self' (runs w)
    (log_run n h (is_executing p) (is_executing p') (runs w)) (owning p) p' ->
  world_ok (World self' (<[n := Handle h p']> (coroutines w))
    (log_run n h (is_executing p) (is_executing p') (runs w))).
Proof.
  intros [Hag Hco Huniq Hnd Hkn] Hn [Sag Sex Skn Sot Ske Slog Sh]. set (log' := log_run _ _ _ _ _) in *.
  assert (forall m h2 p2, m <> n -> coroutines w !! m = Some (Handle h2 p2) -> owning p2 = true ->
    h_task_id h2 = h_task_id h -> owning p = false /\ _task_futures (runtime w) !! h_task_id h = Some None)
    as Hother.
  { intros m h2 p2 Hne Hm Ho E. pose proof (Hco m _ Hm) as Hc. cbn in Hc.
    assert (_task_futures (runtime w) !! h_task_id h2 = Some None) as Hpend
      by (unfold handle_ok in Hc; destruct p2 as [[] []|[]| | | | | |]; naive_solver).
    rewrite E in Hpend. split; [|done]. destruct (owning p) eqn:Ep; [|done]. exfalso. apply Hne.
    destruct Hn as [Hn|[_ ?]]; [|done]. apply (Huniq m n (h_task_id h)); [by exists h2, p2|by exists h, p]. }
  constructor; cbn [runtime coroutines runs]; [done| | | |].
  - intros m c. destruct (decide (n = m)) as [<-|Hne].
    { rewrite lookup_insert_eq. by intros [= <-]. }
    rewrite lookup_insert_ne; [|done]. intros Hm.
    apply (coroutine_ok_frame (runtime w) self' (runs w)); [done| |by apply (Hco m)].
    intros h2 p2 -> Ho Hpend. destruct (decide (h_task_id h2 = h_task_id h)) as [E|E].
    + destruct (Hother m h2 p2) as [Hp Hf]; [done..|]. rewrite E.
      destruct (Ske Hp Hf) as [Hf' Ho']. split; [done|]. destruct Slog as [->|(_ & _ & Ht)]; [done|].
      by rewrite Ho' in Ht.
    + rewrite Sot; [|done]. split; [done|]. destruct Slog as [->|(-> & _ & _)]; [done|].
      rewrite run_ids_app. intros [?|?%list_elem_of_singleton]%elem_of_app; done.
  - assert (forall m id, m <> n -> owns (World self' (<[n := Handle h p']> (coroutines w)) log') m id ->
      owns w m id) as Hback.
    { intros m id Hne (h2 & p2 & Hm & Ho & E). cbn in Hm. rewrite lookup_insert_ne in Hm; [|done].
      by exists h2, p2. }
    assert (forall m id, m <> n -> owns (World self' (<[n := Handle h p']> (coroutines w)) log') n id ->
      owns (World self' (<[n := Handle h p']> (coroutines w)) log') m id -> False) as Hno.
    { intros m id Hne (h1 & p1 & H1 & Ho1 & E1) (h2 & p2 & H2 & Ho2 & E2). cbn in H1, H2.
      rewrite lookup_insert_eq in H1. injection H1 as <- <-.
      rewrite lookup_insert_ne in H2; [|done].
      destruct (Hother m h2 p2) as [Hp Hf]; [done..|congruence|].
      destruct (Ske Hp Hf) as [_ Ho']. by rewrite Ho1 in Ho'. }
    intros a b id Ha Hb. destruct (decide (a = n)) as [->|Hna], (decide (b = n)) as [->|Hnb]; try done.
    + exfalso. by apply (Hno b id).
    + exfalso. by apply (Hno a id).
    + apply (Huniq a b id); by apply Hback.
  - destruct Slog as [->|(-> & Hno & _)]; [done|]. rewrite run_ids_app. apply NoDup_app.
    split; [done|]. split; [|apply NoDup_singleton]. intros x Hx ->%list_elem_of_singleton. done.
  - intros id Hid. assert (forall id, is_Some (_task_fingerprints (runtime w) !! id) ->
      is_Some (_task_fingerprints self' !! id)) as Hex.
    { intros id' [x Hx]. exists x. by apply (ex_known _ _ Sex). }
    destruct Slog as [E|(E & _ & Ho)]; rewrite E in Hid; [by apply Hex, Hkn|].
    rewrite run_ids_app in Hid. apply elem_of_app in Hid as [Hid| ->%list_elem_of_singleton];
      [by apply Hex, Hkn|]. exists (h_fingerprint h). unfold handle_ok in Sh.
    destruct p' as [[] []|[]| | | | | |]; naive_solver.
Qed.

(** a slice of [cancel], which changes no table *)
Lemma world_cancel w n self' id p : world_ok w ->
  (forall h q, coroutines w !! n <> Some (Handle h q)) ->
  _tasks self' = _tasks (runtime w) -> _task_futures self' = _task_futures (runtime w) ->
  _task_fingerprints self' = _task_fingerprints (runtime w) ->
  coroutine_ok (runtime w) (runs w) (Cancelling id p) ->
  world_ok (World self' (<[n := Cancelling id p]> (coroutines w)) (runs w)).
Proof.
  intros [[A B C] Hco Huniq Hnd Hkn] Hn Et Ef Ek Hc.
  assert (extends (runtime w) self') as Hex by (constructor; by rewrite ?Ek ?Ef).
  assert (forall c, coroutine_ok (runtime w) (runs w) c -> coroutine_ok self' (runs w) c) as Hframe.
  { intros c. apply coroutine_ok_frame; [done|]. intros h q _ _. by rewrite Ef. }
  assert (forall m id', owns (World self' (<[n := Cancelling id p]> (coroutines w)) (runs w)) m id' ->
    owns w m id') as Hback.
  { intros m id' (h & q & Hm & Ho & E). exists h, q. split; [|done]. cbn in Hm.
    destruct (decide (n = m)) as [<-|Hne]; [by rewrite lookup_insert_eq in Hm|by rewrite lookup_insert_ne in Hm]. }
  constructor; cbn [runtime coroutines runs].
  - constructor; rewrite ?Et ?Ef ?Ek; done.
  - intros m c. destruct (decide (n = m)) as [<-|Hne]; [rewrite lookup_insert_eq; intros [= <-]; by apply Hframe|].
    rewrite lookup_insert_ne; [|done]. intros Hm. by apply Hframe, (Hco m).
  - intros a b id' Ha%Hback Hb%Hback. by apply (Huniq a b id').
  - done.
  - by rewrite Ek.
Qed.

Lemma request_cancel_ok self id self' : request_cancel self id = Ok self' ->
  _tasks self' = _tasks self /\ _task_futures self' = _task_futures self
  /\ _task_fingerprints self' = _task_fingerprints self /\ is_Some (_task_futures self !! id).
Proof.
  unfold request_cancel. destruct (_cancels self !! id), (_tasks self !! id), (_task_futures self !! id);
    try done. intros [_ <-%Ok_inj_iff]%bind_ok_unit. do 3 (split; [done|]). by eexists.
Qed.

Lemma future_result_shared self id final : future_result self id Shared = Some final ->
  _task_futures self !! id = Some (Some final).
Proof. cbn. by destruct (_task_futures self !! id) as [[]|]; cbn; intros [= <-]. Qed.

(** A step is a slice of a handling, or changes no table and no handling. *)
Inductive step_shape (w : world) (n : nat) (e : event) (w' : world) : Prop :=
| Sliced h p self' p' :
    w' = World self' (<[n := Handle h p']> (coroutines w))
      (log_run n h (is_executing p) (is_executing p') (runs w)) ->
    slice_ok n h (runtime w) self' (runs w) (log_run n h (is_executing p) (is_executing p') (runs w))
      (owning p) p' ->
    (coroutines w !! n = Some (Handle h p)
       /\ exists o, e = Resume o /\ resume cfg (runtime w) n h p o = Some (self', p'))
    \/ coroutines w !! n = None /\ p = Cancelled -> step_shape w n e w'
| Still : world_ok w' ->
    _tasks (runtime w') = _tasks (runtime w) -> _task_futures (runtime w') = _task_futures (runtime w) ->
    _task_fingerprints (runtime w') = _task_fingerprints (runtime w) ->
    (forall h p, coroutines w !! n <> Some (Handle h p)) ->
    (forall m h p, coroutines w' !! m = Some (Handle h p) <-> coroutines w !! m = Some (Handle h p)) ->
    step_shape w n e w'.

Lemma still_cancel w n e self' id p : world_ok w ->
  (forall h q, coroutines w !! n <> Some (Handle h q)) ->
  _tasks self' = _tasks (runtime w) -> _task_futures self' = _task_futures (runtime w) ->
  _task_fingerprints self' = _task_fingerprints (runtime w) ->
  coroutine_ok (runtime w) (runs w) (Cancelling id p) ->
  step_shape w n e (World self' (<[n := Cancelling id p]> (coroutines w)) (runs w)).
Proof.
  intros Hw Hn Et Ef Ek Hc. apply Still; [by apply world_cancel|done..|].
  intros m h q. cbn. destruct (decide (n = m)) as [<-|Hne]; [|by rewrite lookup_insert_ne].
  rewrite lookup_insert_eq. split; [done|]. by intros ?%Hn.
Qed.

Lemma step_cases w n e w' : world_ok w -> step cfg w n e = Some w' -> step_shape w n e w'.
Proof.
  intros Hw. pose proof (wo_agent _ Hw) as Hag. unfold step.
  destruct e as [stream message metadata fresh|id|o|]; destruct (coroutines w !! n) as [[h p|id' p]|] eqn:En;
    try done.
  - destruct (admit_request _ _ _ _ _) as [h|x]; [|intros [= <-]; apply Still; try done; intros h q; by rewrite En].
    destruct (claim_request cfg (runtime w) n h) as [self p] eqn:Ec. intros [= <-].
    pose proof (claim_slice _ _ _ _ _ (runs w) Hag (wo_known _ Hw) Ec) as Hs.
    apply (Sliced w n _ _ h Cancelled self p); [done|exact Hs|by right].
  - destruct (request_cancel (runtime w) id) as [self|x] eqn:Ec;
      [|intros [= <-]; apply Still; try done; intros h q; by rewrite En]. intros [= <-].
    apply request_cancel_ok in Ec as (Et & Ef & Ek & Hf).
    apply still_cancel; try done. intros h q. by rewrite En.
  - destruct (resume cfg (runtime w) n h p o) as [[self p']|] eqn:Er; cbn; [|done]. intros [= <-].
    pose proof (wo_coroutines _ Hw n _ En) as Hc. cbn in Hc.
    pose proof (resume_slice _ _ _ _ _ _ _ (runs w) Hag Hc Er) as Hs.
    apply (Sliced w n _ _ h p self p'); [done|exact Hs|left; split; [done|by exists o]].
  - destruct p as [|future| | | | | |]; try done. destruct o as [[[]|]| |]; try done.
    pose proof (wo_coroutines _ Hw n _ En) as Hc. cbn in Hc. destruct future; [|done].
    destruct (future_result (runtime w) id' Shared) as [final|] eqn:Ef; cbn; [|done]. intros [= <-].
    apply future_result_shared in Ef. apply still_cancel; try done. intros h q. by rewrite En.
  - destruct p as [|future| | | | | |]; try done. intros [= <-].
    apply still_cancel; try done. intros h q. by rewrite En.
Qed.

Lemma step_ok w n e w' : world_ok w -> step cfg w n e = Some w' ->
  world_ok w' /\ extends (runtime w) (runtime w').
Proof.
  intros Hw [h p self' p' -> Hs Hn|Hw' Et Ef Ek _ Hc]%step_cases; [| |done].
  - split; [|apply Hs]. apply (world_slice w n h p self' p' Hw); [|exact Hs].
    destruct Hn as [[Hn _]|[Hn ->]]; [by left|by right].
  - split; [done|]. constructor; by rewrite ?Ef ?Ek.
Qed.

(** ** Histories *)
Definition steps (w w' : world) : Prop := exists n e, step cfg w n e = Some w'.

Lemma steps_ok w w' : rtc steps w w' -> world_ok w -> world_ok w' /\ extends (runtime w) (runtime w').
Proof.
  induction 1 as [|x y z (n & e & Hs) _ IH]; [intros; split; [done|reflexivity]|]. intros Hx.
  destruct (step_ok _ _ _ _ Hx Hs) as [Hy Hxy]. destruct (IH Hy) as [Hz Hyz]. split; [done|]. by etrans.
Qed.

Lemma reachable_ok w : rtc steps start w -> world_ok w.
Proof. intros Hw. by apply (steps_ok start w Hw), start_ok. Qed.

(** ** Lost tasks *)

(** nobody will finish the task *)
Definition lost (w : world) (id : pystr) : Prop :=
  _task_futures (runtime w) !! id = Some None /\ forall n, ~ owns w n id.

(** what loses a task: an error or an interruption of its announcement, or an
    interruption while its failure is reported *)
Definition loses (p : phase) (o : outcome) : bool :=
  match p, o with
  | Announcing true _, Done (Err _) | Announcing true _, Interrupted | Burying, Interrupted => true
  | _, _ => false
  end.

Lemma resume_owner self n h p o self' p' :
  resume cfg self n h p o = Some (self', p') -> owning p = true ->
  _task_futures self !! h_task_id h = Some None ->
  if loses p o then _task_futures self' !! h_task_id h = Some None /\ owning p' = false
  else owning p' = true \/ exists final, _task_futures self' !! h_task_id h = Some (Some final).
Proof.
  unfold resume.
  assert (forall final, _task_futures self !! h_task_id h = Some None ->
    exists final', _task_futures (unregister (_finish_task self (h_task_id h) final) (h_task_id h))
      !! h_task_id h = Some (Some final')) as Hfin.
  { intros final Hp. exists final. change (_task_futures (unregister ?x _)) with (_task_futures x).
    by rewrite (finish_futures _ _ _ Hp) lookup_insert_eq. }
  destruct p as [[] future|future| | | |final|r|], o as [[[]|e]|[r'|e]|]; try done;
    cbn [loses]; unfold begin, finish, abandon; intros [= <- <-] _ Hp; try done; try (by left); try (right; by apply Hfin).
  left. by destruct (_ && _).
Qed.

Lemma handle_ok_owning self log h p : handle_ok self log h p -> owning p = true ->
  _task_futures self !! h_task_id h = Some None.
Proof. unfold handle_ok. destruct p as [[] []|[]| | | | | |]; naive_solver. Qed.

Lemma owns_insert w self log n h p m id :
  owns (World self (<[n := Handle h p]> (coroutines w)) log) m id <->
  if decide (m = n) then owning p = true /\ h_task_id h = id else owns w m id.
Proof.
  unfold owns. cbn. destruct (decide (m = n)) as [->|Hne].
  - setoid_rewrite lookup_insert_eq. naive_solver.
  - by setoid_rewrite (lookup_insert_ne _ n m (Handle h p) (not_eq_sym Hne)).
Qed.

(** nobody but [n] owns what [n] owns, and [n] owns what its phase says *)
Lemma owns_phase w n h p id : coroutines w !! n = Some (Handle h p) ->
  owns w n id <-> owning p = true /\ h_task_id h = id.
Proof. intros Hn. unfold owns. rewrite Hn. naive_solver. Qed.

Lemma slice_owned w n h p id :
  coroutines w !! n = Some (Handle h p) \/ coroutines w !! n = None /\ p = Cancelled ->
  owns w n id <-> owning p = true /\ h_task_id h = id.
Proof. intros [Hh|[Hh ->]]; [by apply owns_phase|]. unfold owns. rewrite Hh. naive_solver. Qed.

Section LostSlice.
Context (w : world) (n : nat) (h : Handling) (p : phase) (self' : AgentRuntime.t) (p' : phase).
Context (log' : list (nat * pystr)) (Hw : world_ok w).
Context (Hs : slice_ok n h (runtime w) self' (runs w) log' (owning p) p').
Let w' : world := World self' (<[n := Handle h p']> (coroutines w)) log'.

(** what is lost after the slice was pending before it *)
Lemma lost_before id : lost w' id ->
  _task_futures (runtime w) !! id = Some None /\ (forall m, m <> n -> ~ owns w m id)
  /\ (h_task_id h = id -> owning p' = false).
Proof.
  intros [Hpend Hno]. cbn in Hpend.
  assert (forall m, m <> n -> ~ owns w m id) as Hothers.
  { intros m Hne Hm. apply (Hno m), owns_insert. by destruct (decide (m = n)). }
  assert (h_task_id h = id -> owning p' = false) as Hp'.
  { intros E. destruct (owning p') eqn:Ep; [|done]. exfalso. apply (Hno n), owns_insert.
    by destruct (decide (n = n)). }
  split; [|done]. destruct (decide (h_task_id h = id)) as [E|E];
    [|by rewrite <- (sl_others _ _ _ _ _ _ _ _ Hs id (not_eq_sym E))].
  destruct (_task_futures (runtime w) !! id) as [[t|]|] eqn:Ef; [|done|].
  - pose proof (ex_done _ _ (sl_extends _ _ _ _ _ _ _ _ Hs) id t Ef). congruence.
  - exfalso. destruct (sl_known _ _ _ _ _ _ _ _ Hs) as [Ek|[_ Ho]]; [|by rewrite (Hp' E) in Ho].
    destruct (proj2 (ao_known _ (sl_agent _ _ _ _ _ _ _ _ Hs) id)) as [x Hx]; [by eexists|].
    rewrite Ek in Hx. destruct (proj1 (ao_known _ (wo_agent _ Hw) id)) as [y Hy]; [by eexists|]. congruence.
Qed.

(** what is pending and not owned by [n] stays so *)
Lemma lost_after id : _task_futures (runtime w) !! id = Some None -> (forall m, m <> n -> ~ owns w m id) ->
  (h_task_id h = id -> owning p = false \/ _task_futures self' !! id = Some None /\ owning p' = false) ->
  lost w' id.
Proof.
  intros Hpend Hothers Hp.
  assert (_task_futures self' !! id = Some None /\ (h_task_id h = id -> owning p' = false)) as [Hf Hp'].
  { destruct (decide (h_task_id h = id)) as [E|E].
    - destruct (Hp E) as [Ep|[? ?]]; [|done]. rewrite <- E in Hpend.
      destruct (sl_kept _ _ _ _ _ _ _ _ Hs Ep Hpend) as [? ?]. by rewrite <- E.
    - by rewrite (sl_others _ _ _ _ _ _ _ _ Hs id (not_eq_sym E)). }
  split; [done|]. intros m. rewrite owns_insert. destruct (decide (m = n)); [|by apply Hothers].
  intros [Ho E]. by rewrite (Hp' E) in Ho.
Qed.
End LostSlice.

Lemma lost_step w n e w' id : world_ok w -> step cfg w n e = Some w' ->
  lost w' id <-> lost w id \/ exists h p o, coroutines w !! n = Some (Handle h p) /\ h_task_id h = id
    /\ e = Resume o /\ loses p o = true.
Proof.
  intros Hw Hstep. destruct (step_cases _ _ _ _ Hw Hstep) as [h p self' p' -> Hs Hn|_ Et Ef Ek Hne Hc].
  - assert (coroutines w !! n = Some (Handle h p) \/ coroutines w !! n = None /\ p = Cancelled) as Hn'
      by (destruct Hn as [[? _]|?]; [by left|by right]).
    pose proof (fun id => slice_owned w n h p id Hn') as Hown. split.
    + intros Hl. destruct (lost_before _ _ _ _ _ _ _ Hw Hs id Hl) as (Hpend & Hothers & Hp').
      destruct (owning p) eqn:Ep; [destruct (decide (h_task_id h = id)) as [E|E]|].
      * right. destruct Hn as [[Hn (o & -> & Hr)]|[_ ->]]; [|done]. exists h, p, o. do 3 (split; [done|]).
        pose proof (handle_ok_owning _ _ _ _ (wo_coroutines _ Hw n _ Hn) Ep) as Hp.
        pose proof (resume_owner _ _ _ _ _ _ _ Hr Ep Hp) as Ho. destruct (loses p o); [done|].
        destruct Ho as [Ho|[final Hf]]; [by rewrite (Hp' E) in Ho|].
        destruct Hl as [Hl _]. cbn in Hl. rewrite E in Hf. congruence.
      * left. split; [done|]. intros m. destruct (decide (m = n)) as [->|Hne]; [|by apply Hothers].
        by intros [_ ?]%Hown.
      * left. split; [done|]. intros m. destruct (decide (m = n)) as [->|Hne]; [|by apply Hothers].
        by intros [? _]%Hown.
    + intros [[Hpend Hno]|(h1 & p1 & o & Hn1 & Eid & -> & Hl)].
      * apply (lost_after w n h p self' p' _ Hs id Hpend); [by intros|]. intros E. left.
        destruct (owning p) eqn:Ep; [|done]. destruct (Hno n). by apply Hown.
      * destruct Hn as [[Hn (o' & [= <-] & Hr)]|[Hn _]]; rewrite Hn in Hn1; [|done]. injection Hn1 as <- <-.
        assert (owning p = true) as Ep by by destruct p as [[]| | | | | | |], o as [[]| |].
        pose proof (handle_ok_owning _ _ _ _ (wo_coroutines _ Hw n _ Hn) Ep) as Hp.
        pose proof (resume_owner _ _ _ _ _ _ _ Hr Ep Hp) as Ho. rewrite Hl in Ho. rewrite Eid in Hp, Ho.
        apply (lost_after w n h p self' p' _ Hs id Hp); [|by right].
        intros m Hne Hm. apply Hne, (wo_unique _ Hw m n id Hm), Hown. done.
  - unfold lost. rewrite Ef. assert (forall m, owns w' m id <-> owns w m id) as Ho.
    { intros m. unfold owns. by setoid_rewrite Hc. }
    setoid_rewrite Ho. split; [by left|]. intros [?|(h & p & o & Hn & _)]; [done|by destruct (Hne h p)].
Qed.

(** ** What an owner can do *)
Lemma resume_step w n h p o self p' : coroutines w !! n = Some (Handle h p) ->
  resume cfg (runtime w) n h p o = Some (self, p') ->
  step cfg w n (Resume o) = Some (World self (<[n := Handle h p']> (coroutines w))
    (log_run n h (is_executing p) (is_executing p') (runs w))).
Proof. intros Hn Hr. unfold step. by rewrite Hn Hr. Qed.

(** the task of [h] can be brought to its end *)
Definition ends (w : world) (h : Handling) : Prop := exists w' final, rtc steps w w'
  /\ _task_futures (runtime w') !! h_task_id h = Some (Some final).

Lemma ends_next w n h p o self p' : coroutines w !! n = Some (Handle h p) ->
  resume cfg (runtime w) n h p o = Some (self, p') ->
  (forall w', world_ok w' -> coroutines w' !! n = Some (Handle h p') -> ends w' h) ->
  world_ok w -> ends w h.
Proof.
  intros Hn Hr Hnext Hw. pose proof (resume_step _ _ _ _ _ _ _ Hn Hr) as Hs.
  destruct (step_ok _ _ _ _ Hw Hs) as [Hw' _].
  destruct (Hnext _ Hw' ltac:(apply lookup_insert_eq)) as (w' & final & Hrtc & Hf).
  exists w', final. split; [|done]. eapply rtc_l; [by exists n, (Resume o)|done].
Qed.

Lemma ends_finish w n h p o final : coroutines w !! n = Some (Handle h p) -> owning p = true ->
  resume cfg (runtime w) n h p o = Some (finish cfg (runtime w) h final) -> world_ok w -> ends w h.
Proof.
  intros Hn Hp Hr Hw. pose proof (handle_ok_owning _ _ _ _ (wo_coroutines _ Hw n _ Hn) Hp) as Hf.
  unfold finish in Hr. pose proof (resume_step _ _ _ _ _ _ _ Hn Hr) as Hs.
  eexists _, final. split; [eapply rtc_once; by exists n, (Resume o)|]. cbn [runtime].
  change (_task_futures (unregister ?x _)) with (_task_futures x).
  by rewrite (finish_futures _ _ _ Hf) lookup_insert_eq.
Qed.

Lemma owner_ends w n h p : world_ok w -> coroutines w !! n = Some (Handle h p) -> owning p = true ->
  ends w h.
Proof.
  intros Hw Hn Hp.
  assert (forall w', world_ok w' -> coroutines w' !! n = Some (Handle h Executing) -> ends w' h) as Hrun.
  { intros w' Hw' Hn'. by apply (ends_finish w' n h Executing (Ran (Ok {| ok := true; output := [] |}))
      _ Hn' eq_refl eq_refl). }
  assert (forall w', world_ok w' -> coroutines w' !! n = Some (Handle h Noting) -> ends w' h) as Hnote.
  { intros w' Hw' Hn'. by apply (ends_next w' n h Noting (Done (Ok tt)) _ _ Hn' eq_refl Hrun). }
  destruct p as [[] future|future| | | |final|r|]; try done.
  - destruct (begin cfg (runtime w) n h) as [self p'] eqn:Eb.
    apply (ends_next w n h _ (Done (Ok tt)) self p' Hn); [cbn; by rewrite Eb| |done].
    unfold begin in Eb. destruct (_ && _); injection Eb as <- <-; done.
  - by apply Hnote.
  - by apply Hrun.
  - by apply (ends_finish w n h Burying (Done (Ok tt)) _ Hn eq_refl eq_refl).
Qed.

(** whether a task has an owner is decided by its coroutines *)
Lemma owner_exists w id : (exists n, owns w n id) \/ forall n, ~ owns w n id.
Proof.
  set (owner := fun kv : nat * coroutine =>
    match kv.2 with Handle h p => owning p = true /\ h_task_id h = id | Cancelling _ _ => False end).
  assert (forall kv, Decision (owner kv)) as Hdec by (intros [n [h p|]]; unfold owner; cbn; apply _).
  destruct (decide (filter owner (coroutines w) = ∅)) as [E|E].
  - right. intros n (h & p & Hn & Hp & Hid). assert (filter owner (coroutines w) !! n = Some (Handle h p)) as Hf.
    { by apply map_lookup_filter_Some. }
    by rewrite E lookup_empty in Hf.
  - left. apply map_choose in E as (n & c & [Hn Ho]%map_lookup_filter_Some). exists n.
    destruct c as [h p|]; [|done]. destruct Ho as [Hp Hid]. by exists h, p.
Qed.

Lemma lost_forever w w' id : rtc steps w w' -> world_ok w -> lost w id -> lost w' id.
Proof.
  induction 1 as [|x y z (n & e & Hs) _ IH]; [done|]. intros Hx Hl.
  apply IH; [by apply (step_ok _ _ _ _ Hx Hs)|]. apply (lost_step _ _ _ _ id Hx Hs). by left.
Qed.
End Agent.
