(* ===== verification/AgentTheorems.v ===== *)
(** * Theorems on the tasks of an agent

    A task is run once whatever requests for it arrive and however their
    coroutines interleave; and which events leave a task without an end. *)
From S2P Require Import Prelude PyStr Json Models Agent AgentFacts.
Import AgentRuntime.
Local Open Scope string_scope.
Local Open Scope list_scope.

Section Tasks.
Context `{Paths} (cfg : Config).

(** C18: a task is run once and has one result.  In every history of requests, stream requests,
    cancellations and interruptions, [executor.run] is called at most once for a task identifier.
    Requests for one identifier that return have been made with the same fingerprint, and return
    the same task, as does a confirmed cancellation; that task is completed, failed or canceled,
    and is what [get_task] returns in every later world. *)
Theorem task_runs_once w : rtc (steps cfg) start w ->
  NoDup (map snd (runs w))
  /\ (forall n h final, coroutines w !! n = Some (Handle h (Returned (Ok final))) ->
      finished final
      /\ (forall m h' final', coroutines w !! m = Some (Handle h' (Returned (Ok final'))) ->
          h_task_id h' = h_task_id h -> h_fingerprint h' = h_fingerprint h /\ final' = final)
      /\ (forall m final', coroutines w !! m = Some (Cancelling (h_task_id h) (Returned (Ok final'))) ->
          final' = final)
      /\ (forall w', rtc (steps cfg) w w' -> get_task (runtime w') (h_task_id h) = Ok final)).
Proof.
  intros Hr. pose proof (reachable_ok cfg w Hr) as Hw. split; [apply (wo_runs _ Hw)|].
  intros n h final Hn. pose proof (wo_coroutines _ Hw n _ Hn) as [Hk Hd]. cbn in Hk, Hd.
  split; [by apply (ao_done _ (wo_agent _ Hw) _ _ Hd)|]. split; [|split].
  - intros m h' final' Hm E. pose proof (wo_coroutines _ Hw m _ Hm) as [Hk' Hd']. cbn in Hk', Hd'.
    rewrite E in Hk', Hd'. split; congruence.
  - intros m final' Hm. pose proof (wo_coroutines _ Hw m _ Hm) as Hc. cbn in Hc. congruence.
  - intros w' Hw'. destruct (steps_ok cfg w w' Hw' Hw) as [Hok Hex].
    pose proof (ex_done _ _ Hex _ _ Hd) as Hd'. destruct (ao_done _ (wo_agent _ Hok) _ _ Hd') as [Ht _].
    unfold get_task. by rewrite Ht.
Qed.

(** C19: when a claimed task has no end.  As long as the coroutine that claimed it is there, that
    coroutine can bring it to its end.  A step loses a task, so that it is pending and nobody will
    finish it, exactly when the announcement of a stream's owner fails or is interrupted, or the owner is
    interrupted while it reports a failure; a lost task stays lost and working, whatever arrives,
    and no request for it ever returns. *)
Theorem task_lost_exactly w id : rtc (steps cfg) start w ->
  (_task_futures (runtime w) !! id = Some None -> ~ lost w id ->
     exists w' final, rtc (steps cfg) w w' /\ _task_futures (runtime w') !! id = Some (Some final))
  /\ (forall n e w', step cfg w n e = Some w' ->
      lost w' id <-> lost w id \/ exists h p o, coroutines w !! n = Some (Handle h p)
        /\ h_task_id h = id /\ e = Resume o /\ loses p o = true)
  /\ (lost w id -> forall w', rtc (steps cfg) w w' -> lost w' id
      /\ (exists task, get_task (runtime w') id = Ok task /\ state task.(Task.status) = working)
      /\ forall n h final, coroutines w' !! n = Some (Handle h (Returned (Ok final))) -> h_task_id h <> id).
Proof.
  intros Hr. pose proof (reachable_ok cfg w Hr) as Hw. split; [|split].
  - intros Hp Hno. destruct (owner_exists w id) as [(n & h & p & Hn & Ho & <-)|Hnone].
    + by apply (owner_ends cfg w n h p).
    + by destruct Hno.
  - intros n e w' Hs. by apply (lost_step cfg w n e w' id).
  - intros Hl w' Hw'. pose proof (lost_forever cfg w w' id Hw' Hw Hl) as Hl'.
    destruct (steps_ok cfg w w' Hw' Hw) as [Hok _]. split; [done|]. destruct Hl' as [Hp _]. split.
    + destruct (ao_pending _ (wo_agent _ Hok) id Hp) as (task & Ht & Hs). exists task.
      unfold get_task. by rewrite Ht.
    + intros n h final Hn <-. destruct (wo_coroutines _ Hok n _ Hn) as [_ Hd]. cbn in Hd. congruence.
Qed.
End Tasks.

(** ** Witnesses *)
#[local] Instance plain_paths : Paths := {|
  expanduser := fun p => p; resolve_path := fun p => p;
  is_absolute := fun p => match p with c :: _ => (c =? 47)%N | [] => false end;
  join_path := fun root p => root ++ u "/" ++ p; parents := fun _ => [] |}.
Definition cfg : Config := {|
  default_runtime := u "codex"; workdir := None; adapters := [u "codex"]; has_memory := false |}.

Fixpoint execute (w : world) (events : list (nat * event)) : option world :=
  match events with
  | [] => Some w
  | (n, e) :: events => match step cfg w n e with Some w => execute w events | None => None end
  end.

Lemma execute_steps events : forall w w', execute w events = Some w' -> rtc (steps cfg) w w'.
Proof.
  induction events as [|[n e] events IH]; intros w w'; cbn; [by intros [= ->]|].
  destruct (step cfg w n e) as [w1|] eqn:E; [|done]. intros Hr.
  eapply rtc_l; [by exists n, e|]. by apply IH.
Qed.

Definition metadata : Metadata := {|
  m_runtime := None; m_workdir := None; m_task_id := Some (u "t1"); m_session_id := None |}.
Definition ask : event := Receive false (Message.make user [TextPart (u "hi")]) metadata (u "f0").

(** two identical requests, the second of which joins the first *)
Definition joined : list (nat * event) :=
  [(0, ask); (1, ask); (0, Resume (Ran (Ok {| ok := true; output := u "hello" |})));
   (1, Resume (Done (Ok tt)))].
Definition both_returned (w : world) : bool :=
  match coroutines w !! 0, coroutines w !! 1 with
  | Some (Handle _ (Returned (Ok _))), Some (Handle h (Returned (Ok _))) =>
    bool_decide (h_task_id h = u "t1")
  | _, _ => false
  end.
Lemma joined_world : exists w, rtc (steps cfg) start w /\ both_returned w = true.
Proof.
  assert (match execute start joined with Some w => both_returned w | None => false end = true) as E
    by (vm_compute; reflexivity).
  destruct (execute start joined) as [w|] eqn:Ew; [|done]. exists w. split; [|done].
  by apply (execute_steps joined).
Qed.
Lemma task_runs_once_witness : exists w h final, rtc (steps cfg) start w
  /\ coroutines w !! 1 = Some (Handle h (Returned (Ok final)))
  /\ get_task (runtime w) (h_task_id h) = Ok final.
Proof.
  destruct joined_world as (w & Hw & E). destruct (task_runs_once cfg w Hw) as [_ Hres].
  unfold both_returned in E. destruct (coroutines w !! 0) as [[h0 [| | | | | |[]|]|]|]; try discriminate E.
  destruct (coroutines w !! 1) as [[h [| | | | | |[final|]|]|]|] eqn:E1; try discriminate E.
  exists w, h, final. split; [exact Hw|]. split; [exact E1|].
  destruct (Hres 1 h final E1) as (_ & _ & _ & Hget). apply Hget. apply rtc_refl.
Defined.

(** a stream whose announcement cannot be sent *)
Definition ask_stream : event := Receive true (Message.make user [TextPart (u "hi")]) metadata (u "f0").
Definition announcing (w : world) : bool :=
  match coroutines w !! 0 with
  | Some (Handle h (Announcing true _)) => bool_decide (h_task_id h = u "t1")
  | _ => false
  end.
Lemma task_lost_exactly_witness : exists w, rtc (steps cfg) start w /\ lost w (u "t1").
Proof.
  assert (match execute start [(0, ask_stream)] with Some w => announcing w | None => false end = true) as E
    by (vm_compute; reflexivity).
  destruct (execute start [(0, ask_stream)]) as [w|] eqn:Ew; [|discriminate E].
  pose proof (execute_steps _ _ _ Ew) as Hw. unfold announcing in E.
  destruct (coroutines w !! 0) as [[h [[] future0| | | | | | |]|]|] eqn:E0; try discriminate E.
  apply bool_decide_eq_true in E.
  pose proof (resume_step cfg w 0 h _ (Done (Err (RuntimeError "nats: connection closed"))) _ _ E0 eq_refl) as Hs.
  eexists. split; [eapply rtc_r; [exact Hw|by eexists 0, _]|].
  apply (proj1 (proj2 (task_lost_exactly cfg w (u "t1") Hw)) _ _ _ Hs). right.
  exists h, (Announcing true future0), (Done (Err (RuntimeError "nats: connection closed"))).
  split; [exact E0|]. split; [exact E|]. split; reflexivity.
Defined.
